(** * salty-reviewer: the review and defense pipelines

    A shallow embedding of the Go packages [config], [github] (the wrapper
    around the hosting API), [ai] (the chat-completion client), [reviewer]
    and [defender], followed by the properties of the confirmation pipeline.

    Conventions.
    - A Go [int] is a [Z]; arithmetic that the program performs on it wraps
      at 64 bits ([Go.wrap64]).
    - A Go [string] is a [string] of bytes; [len], indexing and slicing count
      bytes.
    - A Go [error] is modelled by its message; a pair [(T, error)] is a
      [Go.result T].
    - Calls that leave the process (hosting API, HTTP transport, standard
      output) are events appended to a trace; what the outside answers is
      given by a [World], a function of the trace so far. Quantifying over
      every [World] covers every behaviour of the outside.
    - Library code ([encoding/json], [regexp], the prompt templates, which
      are fixed text) is collected in the record [Lib]; every statement holds
      for every [Lib].
    - A method [M] of a type [T] is [T_M], with the package in front where
      two packages have a [Client]; a method with a pointer receiver that
      assigns to it returns the new value of the receiver. Line numbers in
      comments are those of the source file that holds the function. *)

From Stdlib Require Import ZArith String Ascii List Lia DecimalString Floats.
From stdpp Require Import base list strings gmap.

Open Scope string_scope.
Open Scope Z_scope.

(* ===================================================================== *)
(** * Go values                                                           *)
(* ===================================================================== *)

Module Go.

Definition int := Z.

(** Two's complement wrap-around of a 64-bit [int]. *)
Definition wrap64 (z : Z) : Z := (z + 2 ^ 63) mod 2 ^ 64 - 2 ^ 63.

Definition add (a b : int) : int := wrap64 (a + b).
Definition sub (a b : int) : int := wrap64 (a - b).
Definition mul (a b : int) : int := wrap64 (a * b).

Definition error := string.

Inductive result (A : Type) : Type :=
| Ok (a : A)
| Fail (e : error).
Arguments Ok {A} a.
Arguments Fail {A} e.

(** [len(s)] for a string and for a slice. *)
Definition len (s : string) : int := Z.of_nat (String.length s).
Definition len_slice {A} (l : list A) : int := Z.of_nat (List.length l).

(** The newline and double-quote escapes of Go string literals. *)
Definition nl : string := String (ascii_of_nat 10) EmptyString.
Definition dq : string := String (ascii_of_nat 34) EmptyString.

(** [%d] of [fmt]. *)
Definition itoa (x : int) : string := NilEmpty.string_of_int (Z.to_int x).

(** [s[lo:hi]]. Go panics unless [0 <= lo <= hi <= len(s)]; every use in
    this development is shown or known to be in range, where the
    expression denotes the bytes [lo .. hi-1]. *)
Definition slice (s : string) (lo hi : int) : string :=
  substring (Z.to_nat lo) (Z.to_nat (hi - lo)) s.

Definition slice_list {A} (l : list A) (lo hi : int) : list A :=
  take (Z.to_nat (hi - lo)) (drop (Z.to_nat lo) l).

End Go.

Import Go.

(** The package [strings], for the calls the program makes. *)
Module strings.

(** [strings.Index(s, substr)]: the first index of [substr], or [-1]. *)
Fixpoint Index (s substr : string) : int :=
  if String.prefix substr s then 0
  else match s with
       | EmptyString => -1
       | String _ s' =>
           let r := Index s' substr in
           if r <? 0 then -1 else r + 1
       end.

(** [strings.LastIndex(s, substr)]: the last index of [substr], or [-1]. *)
Fixpoint LastIndex (s substr : string) : int :=
  match s with
  | EmptyString => if String.prefix substr s then 0 else -1
  | String _ s' =>
      let r := LastIndex s' substr in
      if r <? 0 then (if String.prefix substr s then 0 else -1)
      else r + 1
  end.

Definition HasSuffix (s suffix : string) : bool :=
  (String.length suffix <=? String.length s)%nat &&
  String.eqb (substring (String.length s - String.length suffix)
                        (String.length suffix) s) suffix.

Definition TrimSuffix (s suffix : string) : string :=
  if HasSuffix s suffix then slice s 0 (len s - len suffix) else s.

Fixpoint contains_byte (c : ascii) (s : string) : bool :=
  match s with
  | EmptyString => false
  | String d s' => Ascii.eqb c d || contains_byte c s'
  end.

(** [strings.TrimRight(s, cutset)] for a cutset of one-byte characters. *)
Fixpoint TrimRight (s cutset : string) : string :=
  match s with
  | EmptyString => EmptyString
  | String c s' =>
      match TrimRight s' cutset with
      | EmptyString => if contains_byte c cutset then EmptyString
                       else String c EmptyString
      | t => String c t
      end
  end.

(** [strings.Split(s, sep)] for a non-empty [sep]. [skip] counts the
    bytes of a separator occurrence still to be passed over. *)
Fixpoint Split_from (sep : string) (skip : nat) (cur s : string)
  : list string :=
  match s with
  | EmptyString => [cur]
  | String c s' =>
      match skip with
      | S k => Split_from sep k cur s'
      | O => if String.prefix sep s
             then cur :: Split_from sep (String.length sep - 1) EmptyString s'
             else Split_from sep 0 (cur +:+ String c EmptyString) s'
      end
  end.

Definition Split (s sep : string) : list string :=
  Split_from sep 0 EmptyString s.

Fixpoint Join (elems : list string) (sep : string) : string :=
  match elems with
  | [] => EmptyString
  | [e] => e
  | e :: rest => e +:+ sep +:+ Join rest sep
  end.

(** [strings.ReplaceAll(s, old, new)] for a non-empty [old]. *)
Fixpoint ReplaceAll_from (old new : string) (skip : nat) (s : string)
  : string :=
  match s with
  | EmptyString => EmptyString
  | String c s' =>
      match skip with
      | S k => ReplaceAll_from old new k s'
      | O => if String.prefix old s
             then new +:+ ReplaceAll_from old new (String.length old - 1) s'
             else String c (ReplaceAll_from old new 0 s')
      end
  end.

Definition ReplaceAll (s old new : string) : string :=
  ReplaceAll_from old new 0 s.

End strings.

(* ===================================================================== *)
(** * Package config                                                      *)
(* ===================================================================== *)

Module config.

Definition WritingStyle := string.

Definition StyleCorporate : WritingStyle := "corporate".
Definition StylePassiveAggressive : WritingStyle := "passive_aggressive".
Definition StyleTechBro : WritingStyle := "tech_bro".
Definition StyleAcademic : WritingStyle := "academic".

Record Config : Type := mkConfig {
  Config_GitHubToken : string;
  Config_AIApiURL : string;
  Config_AIApiKey : string;
  Config_AIModel : string;
  Config_WritingStyle : WritingStyle;
  Config_NitpickyLevel : int;
  Config_LikedReviewers : list string;
  Config_DislikedReviewers : list string
}.

Definition DefaultConfig : Config :=
  {| Config_GitHubToken := "";
     Config_AIApiURL := "https://api.openai.com/v1";
     Config_AIApiKey := "";
     Config_AIModel := "gpt-4";
     Config_WritingStyle := StylePassiveAggressive;
     Config_NitpickyLevel := 5;
     Config_LikedReviewers := [];
     Config_DislikedReviewers := [] |}.

(** [Validate] returns [nil] ([None]) or the first complaint. *)
Definition Validate (c : Config) : option error :=
  if String.eqb (Config_GitHubToken c) "" then
    Some "github_token is required"
  else if String.eqb (Config_AIApiKey c) "" then
    Some "ai_api_key is required"
  else if (Config_NitpickyLevel c <? 1) || (Config_NitpickyLevel c >? 10) then
    Some "nitpicky_level must be between 1 and 10"
  else None.

(** The loop [for _, u := range l { if u == username { return true } }
    return false] of both membership tests. *)
Fixpoint range_contains (l : list string) (username : string) : bool :=
  match l with
  | [] => false
  | u :: rest => if String.eqb u username then true
                 else range_contains rest username
  end.

Definition IsLikedReviewer (c : Config) (username : string) : bool :=
  range_contains (Config_LikedReviewers c) username.

Definition IsDislikedReviewer (c : Config) (username : string) : bool :=
  range_contains (Config_DislikedReviewers c) username.

(** The loop of [removeFromLiked] and [removeFromDisliked]: at the first
    index [i] with [l[i] == username] the list becomes
    [append(l[:i], l[i+1:]...)] and the function returns. *)
Fixpoint range_remove (l : list string) (username : string) : list string :=
  match l with
  | [] => []
  | u :: rest => if String.eqb u username then rest
                 else u :: range_remove rest username
  end.

Definition set_Liked (c : Config) (l : list string) : Config :=
  {| Config_GitHubToken := Config_GitHubToken c;
     Config_AIApiURL := Config_AIApiURL c;
     Config_AIApiKey := Config_AIApiKey c;
     Config_AIModel := Config_AIModel c;
     Config_WritingStyle := Config_WritingStyle c;
     Config_NitpickyLevel := Config_NitpickyLevel c;
     Config_LikedReviewers := l;
     Config_DislikedReviewers := Config_DislikedReviewers c |}.

Definition set_Disliked (c : Config) (l : list string) : Config :=
  {| Config_GitHubToken := Config_GitHubToken c;
     Config_AIApiURL := Config_AIApiURL c;
     Config_AIApiKey := Config_AIApiKey c;
     Config_AIModel := Config_AIModel c;
     Config_WritingStyle := Config_WritingStyle c;
     Config_NitpickyLevel := Config_NitpickyLevel c;
     Config_LikedReviewers := Config_LikedReviewers c;
     Config_DislikedReviewers := l |}.

Definition removeFromLiked (c : Config) (username : string) : Config :=
  set_Liked c (range_remove (Config_LikedReviewers c) username).

Definition removeFromDisliked (c : Config) (username : string) : Config :=
  set_Disliked c (range_remove (Config_DislikedReviewers c) username).

(** The methods mutate the receiver; here they return its new value. *)
Definition AddLikedReviewer (c : Config) (username : string) : Config :=
  let c :=
    if negb (IsLikedReviewer c username)
    then set_Liked c (Config_LikedReviewers c ++ [username])
    else c in
  removeFromDisliked c username.

Definition AddDislikedReviewer (c : Config) (username : string) : Config :=
  let c :=
    if negb (IsDislikedReviewer c username)
    then set_Disliked c (Config_DislikedReviewers c ++ [username])
    else c in
  removeFromLiked c username.

Definition GetReviewerBias (c : Config) (username : string) : int :=
  if IsLikedReviewer c username then -2
  else if IsDislikedReviewer c username then 3
  else 0.

(** The commands of [salty config add], applied in sequence. *)
Inductive AddOp : Type :=
| OpAddLiked (username : string)
| OpAddDisliked (username : string).

Definition apply_op (c : Config) (op : AddOp) : Config :=
  match op with
  | OpAddLiked u => AddLikedReviewer c u
  | OpAddDisliked u => AddDislikedReviewer c u
  end.

Definition apply_ops (c : Config) (ops : list AddOp) : Config :=
  fold_left apply_op ops c.

End config.

(* ===================================================================== *)
(** * Data of the packages github, ai, reviewer and defender              *)
(* ===================================================================== *)

Module github.

Record PRReference : Type := mkPRReference {
  PRReference_Owner : string;
  PRReference_Repo : string;
  PRReference_Number : int
}.

Record FileChange : Type := mkFileChange {
  FileChange_Filename : string;
  FileChange_Status : string;
  FileChange_Additions : int;
  FileChange_Deletions : int;
  FileChange_Patch : string;
  FileChange_PreviousName : string
}.

Record ReviewComment : Type := mkReviewComment {
  ReviewComment_Path : string;
  ReviewComment_Line : int;
  ReviewComment_Body : string;
  ReviewComment_Side : string
}.

Record PRComment : Type := mkPRComment {
  PRComment_ID : int;
  PRComment_User : string;
  PRComment_Body : string;
  PRComment_Path : string;
  PRComment_Line : int;
  PRComment_CreatedAt : string;
  PRComment_InReplyTo : int
}.

(** The pull request of the hosting library, by the three accessors the
    program uses: [GetUser().GetLogin()], [GetTitle()] and
    [GetHead().GetSHA()]. *)
Record PullRequest : Type := mkPullRequest {
  PullRequest_Login : string;
  PullRequest_Title : string;
  PullRequest_HeadSHA : string
}.

(** The wrapper holds the authenticated library client. *)
Record Client : Type := mkClient { Client_token : string }.

Definition NewClient (token : string) : Client := mkClient token.

Definition getDirectory (path : string) : string :=
  let lastSlash := strings.LastIndex path "/" in
  if lastSlash =? -1 then "." else slice path 0 lastSlash.

Definition getFilename (path : string) : string :=
  let lastSlash := strings.LastIndex path "/" in
  if lastSlash =? -1 then path else slice path (lastSlash + 1) (len path).

Definition getExtension (path : string) : string :=
  let filename := getFilename path in
  let lastDot := strings.LastIndex filename "." in
  if lastDot =? -1 then "" else slice filename lastDot (len filename).

End github.

Module http.

(** A request as the chat client builds it. [Header.Set] replaces the
    value of a key that is present and adds the key otherwise. *)
Record Request : Type := mkRequest {
  Request_Method : string;
  Request_URL : string;
  Request_Header : list (string * string);
  Request_Body : string
}.

Fixpoint Header_Set (h : list (string * string)) (key value : string)
  : list (string * string) :=
  match h with
  | [] => [(key, value)]
  | (k, v) :: rest => if String.eqb k key then (k, value) :: rest
                      else (k, v) :: Header_Set rest key value
  end.

Definition Request_set_header (r : Request) (key value : string) : Request :=
  {| Request_Method := Request_Method r;
     Request_URL := Request_URL r;
     Request_Header := Header_Set (Request_Header r) key value;
     Request_Body := Request_Body r |}.

(** [http.Client], by its one configured field (seconds). *)
Record Client : Type := mkClient { Client_Timeout : int }.

End http.

Module ai.

Record Client : Type := mkClient {
  Client_baseURL : string;
  Client_apiKey : string;
  Client_model : string;
  Client_httpClient : http.Client
}.

Record Message : Type := mkMessage {
  Message_Role : string;
  Message_Content : string
}.

Record ChatRequest : Type := mkChatRequest {
  ChatRequest_Model : string;
  ChatRequest_Messages : list Message;
  ChatRequest_Temperature : float;
  ChatRequest_MaxTokens : int
}.

Record Choice : Type := mkChoice {
  Choice_Index : int;
  Choice_Message : Message;
  Choice_FinishReason : string
}.

Record Usage : Type := mkUsage {
  Usage_PromptTokens : int;
  Usage_CompletionTokens : int;
  Usage_TotalTokens : int
}.

Record APIError : Type := mkAPIError {
  APIError_Message : string;
  APIError_Type : string;
  APIError_Code : string
}.

Record ChatResponse : Type := mkChatResponse {
  ChatResponse_ID : string;
  ChatResponse_Object : string;
  ChatResponse_Created : int;
  ChatResponse_Model : string;
  ChatResponse_Choices : list Choice;
  ChatResponse_Usage : Usage;
  ChatResponse_Error : option APIError
}.

Definition NewClient (baseURL apiKey model : string) : Client :=
  let baseURL := strings.TrimRight baseURL "/" in
  {| Client_baseURL := baseURL;
     Client_apiKey := apiKey;
     Client_model := model;
     Client_httpClient := http.mkClient 120 |}.

Definition SystemMessage (content : string) : Message :=
  {| Message_Role := "system"; Message_Content := content |}.

Definition UserMessage (content : string) : Message :=
  {| Message_Role := "user"; Message_Content := content |}.

Definition AssistantMessage (content : string) : Message :=
  {| Message_Role := "assistant"; Message_Content := content |}.

End ai.

Module reviewer.

Record Issue : Type := mkIssue {
  Issue_File : string;
  Issue_Line : int;
  Issue_Code : string;
  Issue_Issue : string;
  Issue_Confidence : int;
  Issue_MightBeIntentional : string
}.

Record FirstPassResult : Type := mkFirstPassResult {
  FirstPassResult_Issues : list Issue
}.

Record DeepAnalysisResult : Type := mkDeepAnalysisResult {
  DeepAnalysisResult_StillAnIssue : bool;
  DeepAnalysisResult_Confidence : int;
  DeepAnalysisResult_Reasoning : string;
  DeepAnalysisResult_PossibleAuthorIntent : string;
  DeepAnalysisResult_FinalVerdict : string
}.

Record AnalyzedIssue : Type := mkAnalyzedIssue {
  AnalyzedIssue_Original : Issue;
  AnalyzedIssue_Analysis : DeepAnalysisResult
}.

Record Nitpick : Type := mkNitpick {
  Nitpick_File : string;
  Nitpick_Line : int;
  Nitpick_Comment : string
}.

Record NitpickResult : Type := mkNitpickResult {
  NitpickResult_Nitpicks : list Nitpick
}.

Record ReviewStats : Type := mkReviewStats {
  ReviewStats_FilesReviewed : int;
  ReviewStats_IssuesFound : int;
  ReviewStats_IssuesAfterDeep : int;
  ReviewStats_NitpicksAdded : int;
  ReviewStats_CommentsPosted : int
}.

Record ReviewResult : Type := mkReviewResult {
  ReviewResult_Summary : string;
  ReviewResult_Comments : list github.ReviewComment;
  ReviewResult_Stats : ReviewStats
}.

Record Analyzer : Type := mkAnalyzer {
  Analyzer_aiClient : ai.Client;
  Analyzer_githubClient : github.Client
}.

Record Reviewer : Type := mkReviewer {
  Reviewer_config : config.Config;
  Reviewer_githubClient : github.Client;
  Reviewer_aiClient : ai.Client;
  Reviewer_analyzer : Analyzer
}.

Definition NewAnalyzer (aiClient : ai.Client) (githubClient : github.Client)
  : Analyzer :=
  {| Analyzer_aiClient := aiClient; Analyzer_githubClient := githubClient |}.

Definition NewReviewer (cfg : config.Config) : Reviewer :=
  let ghClient := github.NewClient (config.Config_GitHubToken cfg) in
  let aiClient := ai.NewClient (config.Config_AIApiURL cfg)
                    (config.Config_AIApiKey cfg) (config.Config_AIModel cfg) in
  let analyzer := NewAnalyzer aiClient ghClient in
  {| Reviewer_config := cfg;
     Reviewer_githubClient := ghClient;
     Reviewer_aiClient := aiClient;
     Reviewer_analyzer := analyzer |}.

(** [extractJSON]: from the first opening brace to the last closing one. *)
Definition extractJSON (response : string) : string :=
  let start := strings.Index response "{" in
  let end_ := strings.LastIndex response "}" in
  if negb (start =? -1) && negb (end_ =? -1) && (end_ >? start)
  then slice response start (end_ + 1)
  else response.

(** The field updates of [Review] on its result. *)
Definition set_IssuesFound (s : ReviewStats) (n : int) : ReviewStats :=
  {| ReviewStats_FilesReviewed := ReviewStats_FilesReviewed s;
     ReviewStats_IssuesFound := n;
     ReviewStats_IssuesAfterDeep := ReviewStats_IssuesAfterDeep s;
     ReviewStats_NitpicksAdded := ReviewStats_NitpicksAdded s;
     ReviewStats_CommentsPosted := ReviewStats_CommentsPosted s |}.

Definition set_IssuesAfterDeep (s : ReviewStats) (n : int) : ReviewStats :=
  {| ReviewStats_FilesReviewed := ReviewStats_FilesReviewed s;
     ReviewStats_IssuesFound := ReviewStats_IssuesFound s;
     ReviewStats_IssuesAfterDeep := n;
     ReviewStats_NitpicksAdded := ReviewStats_NitpicksAdded s;
     ReviewStats_CommentsPosted := ReviewStats_CommentsPosted s |}.

Definition set_NitpicksAdded (s : ReviewStats) (n : int) : ReviewStats :=
  {| ReviewStats_FilesReviewed := ReviewStats_FilesReviewed s;
     ReviewStats_IssuesFound := ReviewStats_IssuesFound s;
     ReviewStats_IssuesAfterDeep := ReviewStats_IssuesAfterDeep s;
     ReviewStats_NitpicksAdded := n;
     ReviewStats_CommentsPosted := ReviewStats_CommentsPosted s |}.

Definition set_CommentsPosted (s : ReviewStats) (n : int) : ReviewStats :=
  {| ReviewStats_FilesReviewed := ReviewStats_FilesReviewed s;
     ReviewStats_IssuesFound := ReviewStats_IssuesFound s;
     ReviewStats_IssuesAfterDeep := ReviewStats_IssuesAfterDeep s;
     ReviewStats_NitpicksAdded := ReviewStats_NitpicksAdded s;
     ReviewStats_CommentsPosted := n |}.

Definition set_Summary (r : ReviewResult) (s : string) : ReviewResult :=
  {| ReviewResult_Summary := s;
     ReviewResult_Comments := ReviewResult_Comments r;
     ReviewResult_Stats := ReviewResult_Stats r |}.

Definition set_Comments (r : ReviewResult) (c : list github.ReviewComment)
  : ReviewResult :=
  {| ReviewResult_Summary := ReviewResult_Summary r;
     ReviewResult_Comments := c;
     ReviewResult_Stats := ReviewResult_Stats r |}.

Definition set_Stats (r : ReviewResult) (s : ReviewStats) : ReviewResult :=
  {| ReviewResult_Summary := ReviewResult_Summary r;
     ReviewResult_Comments := ReviewResult_Comments r;
     ReviewResult_Stats := s |}.

End reviewer.

Module defender.

Record CommentResponse : Type := mkCommentResponse {
  CommentResponse_OriginalComment : github.PRComment;
  CommentResponse_Response : string;
  CommentResponse_Action : string
}.

Record DefenseStats : Type := mkDefenseStats {
  DefenseStats_CommentsAnalyzed : int;
  DefenseStats_Defended : int;
  DefenseStats_Conceded : int;
  DefenseStats_Skipped : int
}.

Record DefenseResult : Type := mkDefenseResult {
  DefenseResult_Responses : list CommentResponse;
  DefenseResult_Stats : DefenseStats
}.

Record CommentAnalysis : Type := mkCommentAnalysis {
  CommentAnalysis_IsValidIssue : bool;
  CommentAnalysis_ConfidenceValid : int;
  CommentAnalysis_DefensePoints : list string;
  CommentAnalysis_WhatTheyMissed : string;
  CommentAnalysis_RecommendedAction : string
}.

Record Defender : Type := mkDefender {
  Defender_config : config.Config;
  Defender_githubClient : github.Client;
  Defender_aiClient : ai.Client
}.

Definition NewDefender (cfg : config.Config) : Defender :=
  {| Defender_config := cfg;
     Defender_githubClient := github.NewClient (config.Config_GitHubToken cfg);
     Defender_aiClient := ai.NewClient (config.Config_AIApiURL cfg)
                            (config.Config_AIApiKey cfg)
                            (config.Config_AIModel cfg) |}.

(** The zero value [&DefenseResult{}]. *)
Definition zero_DefenseResult : DefenseResult :=
  {| DefenseResult_Responses := [];
     DefenseResult_Stats := mkDefenseStats 0 0 0 0 |}.

Definition incr_Defended (r : DefenseResult) : DefenseResult :=
  let s := DefenseResult_Stats r in
  {| DefenseResult_Responses := DefenseResult_Responses r;
     DefenseResult_Stats :=
       mkDefenseStats (DefenseStats_CommentsAnalyzed s)
         (add (DefenseStats_Defended s) 1) (DefenseStats_Conceded s)
         (DefenseStats_Skipped s) |}.

Definition incr_Conceded (r : DefenseResult) : DefenseResult :=
  let s := DefenseResult_Stats r in
  {| DefenseResult_Responses := DefenseResult_Responses r;
     DefenseResult_Stats :=
       mkDefenseStats (DefenseStats_CommentsAnalyzed s)
         (DefenseStats_Defended s) (add (DefenseStats_Conceded s) 1)
         (DefenseStats_Skipped s) |}.

Definition incr_Skipped (r : DefenseResult) : DefenseResult :=
  let s := DefenseResult_Stats r in
  {| DefenseResult_Responses := DefenseResult_Responses r;
     DefenseResult_Stats :=
       mkDefenseStats (DefenseStats_CommentsAnalyzed s)
         (DefenseStats_Defended s) (DefenseStats_Conceded s)
         (add (DefenseStats_Skipped s) 1) |}.

Definition append_Response (r : DefenseResult) (c : CommentResponse)
  : DefenseResult :=
  {| DefenseResult_Responses := DefenseResult_Responses r ++ [c];
     DefenseResult_Stats := DefenseResult_Stats r |}.

Definition getMyUsername (d : Defender) : string := "me".

Definition extractJSON (response : string) : string :=
  let start := strings.Index response "{" in
  let end_ := strings.LastIndex response "}" in
  if negb (start =? -1) && negb (end_ =? -1) && (end_ >? start)
  then slice response start (end_ + 1)
  else response.

Definition truncate (s : string) (maxLen : int) : string :=
  let s := strings.ReplaceAll s nl " " in
  if len s <=? maxLen then s
  else slice s 0 (sub maxLen 3) +:+ "...".

Definition indent (s prefix : string) : string :=
  let lines := strings.Split s nl in
  let lines := map (fun line => prefix +:+ line) lines in
  strings.Join lines nl.

Definition extractContext (content : string) (line : int) : string :=
  let lines := strings.Split content nl in
  let start := sub line 5 in
  let end_ := add line 5 in
  let start := if start <? 0 then 0 else start in
  let end_ := if end_ >? len_slice lines then len_slice lines else end_ in
  if (line >? 0) && (line <=? len_slice lines)
  then strings.Join (slice_list lines start end_) nl
  else "".

End defender.

(* ===================================================================== *)
(** * The outside: events, the world's answers, library code              *)
(* ===================================================================== *)

Module Sys.

(** An argument of [fmt.Printf]: [%d] takes an [int]; [%s] a string and
    [%v] an error, by its message. *)
Inductive Arg : Type :=
| AInt (n : int)
| AStr (s : string).

Inductive Event : Type :=
| EvPrintf (format : string) (args : list Arg)
| EvPrintln (line : string)
| EvGetPR (ref : github.PRReference)
| EvGetPRFiles (ref : github.PRReference)
| EvGetFileContent (owner repo path ref : string)
| EvGetPRComments (ref : github.PRReference)
| EvPostReview (ref : github.PRReference) (body event : string)
               (comments : list github.ReviewComment)
| EvReplyToComment (ref : github.PRReference) (commentID : int)
                   (body : string)
| EvHTTPDo (client : http.Client) (req : http.Request).

Definition Trace := list Event.

(** What the outside answers to a call, given everything that happened
    before it. The six methods of the hosting-API wrapper are taken at
    their signatures; [http_Do] is [httpClient.Do] followed by
    [io.ReadAll] of the response body (outer failure: the request could
    not be sent; inner failure: the body could not be read). *)
Record World : Type := mkWorld {
  GetPR : Trace -> github.PRReference -> result github.PullRequest;
  GetPRFiles : Trace -> github.PRReference -> result (list github.FileChange);
  GetFileContent : Trace -> string -> string -> string -> string -> result string;
  GetPRComments : Trace -> github.PRReference -> result (list github.PRComment);
  PostReview : Trace -> github.PRReference -> string -> string ->
               list github.ReviewComment -> option error;
  ReplyToComment : Trace -> github.PRReference -> int -> string -> option error;
  http_Do : Trace -> http.Client -> http.Request -> result (result string)
}.

(** Library code and fixed text the program is parametric in. *)
Record Lib : Type := mkLib {
  (* regexp and strconv: the two reference formats of ParsePRReference *)
  match_PRReference : string -> option github.PRReference;
  (* net/url, as used by http.NewRequest *)
  url_error : string -> option error;
  (* encoding/json *)
  json_Marshal_ChatRequest : ai.ChatRequest -> result string;
  json_Unmarshal_ChatResponse : string -> result ai.ChatResponse;
  json_Unmarshal_FirstPassResult : string -> result reviewer.FirstPassResult;
  json_Unmarshal_DeepAnalysisResult :
    string -> result reviewer.DeepAnalysisResult;
  json_Unmarshal_NitpickResult : string -> result reviewer.NitpickResult;
  json_Unmarshal_CommentAnalysis : string -> result defender.CommentAnalysis;
  json_Marshal_CommentAnalysis : defender.CommentAnalysis -> result string;
  (* reviewer/prompts.go *)
  GetSystemPrompt : config.WritingStyle -> int -> string;
  GetFirstPassPrompt : string;
  GetDeepAnalysisPrompt : string -> string -> string -> string;
  GetCommentFormattingPrompt : string -> string -> config.WritingStyle -> string;
  GetExtraNitpickPrompt : string -> string -> string;
  (* defender/prompts.go *)
  GetDefenseSystemPrompt : config.WritingStyle -> string;
  GetCommentAnalysisPrompt : string -> string -> string;
  GetDefenseResponsePrompt : string -> string -> config.WritingStyle -> string;
  GetConcessionPrompt : string -> config.WritingStyle -> string
}.

(** A computation reads the trace, extends it and returns a value. *)
Definition IO (A : Type) : Type := Trace -> A * Trace.

Definition ret {A} (a : A) : IO A := fun tr => (a, tr).

Definition bind {A B} (m : IO A) (k : A -> IO B) : IO B :=
  fun tr => let (a, tr') := m tr in k a tr'.

(** A call to the outside: the answer is the world's, at the trace so
    far; the call itself is recorded. *)
Definition call {A} (answer : Trace -> A) (e : Event) : IO A :=
  fun tr => (answer tr, (tr ++ [e])%list).

Definition Printf (format : string) (args : list Arg) : IO unit :=
  call (fun _ => tt) (EvPrintf format args).

Definition Println (line : string) : IO unit :=
  call (fun _ => tt) (EvPrintln line).

(** The loop [for i, x := range l { ... }] over an accumulator. *)
Fixpoint for_range {A S} (body : int -> A -> S -> IO S) (i : int)
  (l : list A) (acc : S) : IO S :=
  match l with
  | [] => ret acc
  | x :: rest => bind (body i x acc) (for_range body (i + 1) rest)
  end.

Definition run {A} (m : IO A) (tr : Trace) : A := fst (m tr).
Definition trace_of {A} (m : IO A) (tr : Trace) : Trace := snd (m tr).

End Sys.

Import Sys.

Declare Scope io_scope.
Delimit Scope io_scope with io.
Notation "x <- m ;; k" := (bind m (fun x => k))
  (at level 100, m at next level, k at level 200, right associativity,
   only parsing) : io_scope.
Notation "m ;; k" := (bind m (fun _ => k))
  (at level 100, k at level 200, right associativity, only parsing) : io_scope.

(* ===================================================================== *)
(** * The program                                                         *)
(* ===================================================================== *)

Section Program.

Context (lib : Lib) (world : World).

Local Open Scope io_scope.

(** ** Package github: the wrapper around the hosting API *)

Definition ParsePRReference (ref : string) : result github.PRReference :=
  match match_PRReference lib ref with
  | Some r => Ok r
  | None => Fail ("invalid PR reference format: " +:+ ref +:+
                  " (use owner/repo#123 or GitHub URL)")
  end.

Definition github_Client_GetPR (c : github.Client) (ref : github.PRReference)
  : IO (result github.PullRequest) :=
  call (fun tr => GetPR world tr ref) (EvGetPR ref).

Definition github_Client_GetPRFiles (c : github.Client)
  (ref : github.PRReference) : IO (result (list github.FileChange)) :=
  call (fun tr => GetPRFiles world tr ref) (EvGetPRFiles ref).

Definition github_Client_GetFileContent (c : github.Client)
  (owner repo path ref : string) : IO (result string) :=
  call (fun tr => GetFileContent world tr owner repo path ref)
       (EvGetFileContent owner repo path ref).

Definition github_Client_GetPRComments (c : github.Client)
  (ref : github.PRReference) : IO (result (list github.PRComment)) :=
  call (fun tr => GetPRComments world tr ref) (EvGetPRComments ref).

Definition github_Client_PostReview (c : github.Client)
  (ref : github.PRReference) (body event : string)
  (comments : list github.ReviewComment) : IO (option error) :=
  call (fun tr => PostReview world tr ref body event comments)
       (EvPostReview ref body event comments).

Definition github_Client_ReplyToComment (c : github.Client)
  (ref : github.PRReference) (commentID : int) (body : string)
  : IO (option error) :=
  call (fun tr => ReplyToComment world tr ref commentID body)
       (EvReplyToComment ref commentID body).

(** [GetRelatedFiles] probes five candidate test files and keeps those
    that can be fetched; its error is always [nil]. *)
Definition github_Client_GetRelatedFiles (c : github.Client)
  (owner repo path ref : string) : IO (list string) :=
  let dir := github.getDirectory path in
  let filename := github.getFilename path in
  let ext := github.getExtension path in
  let baseName := strings.TrimSuffix filename ext in
  let testPatterns :=
    [ dir +:+ "/" +:+ baseName +:+ "_test" +:+ ext;
      dir +:+ "/" +:+ baseName +:+ ".test" +:+ ext;
      dir +:+ "/" +:+ baseName +:+ ".spec" +:+ ext;
      "test/" +:+ path;
      "tests/" +:+ path ] in
  for_range
    (fun _ pattern related =>
       r <- github_Client_GetFileContent c owner repo pattern ref ;;
       match r with
       | Ok _ => ret (related ++ [pattern])%list
       | Fail _ => ret related
       end)
    0 testPatterns [].

(** ** Package ai: the chat-completion client *)

Definition http_NewRequest (method url body : string) : result http.Request :=
  match url_error lib url with
  | Some e => Fail e
  | None => Ok (http.mkRequest method url [] body)
  end.

(** The receiver is a pointer; the first component of the value returned
    is the client after the call. *)
Definition ai_Client_ChatWithOptions (c : ai.Client)
  (messages : list ai.Message) (temperature : float) (maxTokens : int)
  : IO (ai.Client * result string) :=
  let req := {| ai.ChatRequest_Model := ai.Client_model c;
                ai.ChatRequest_Messages := messages;
                ai.ChatRequest_Temperature := temperature;
                ai.ChatRequest_MaxTokens := maxTokens |} in
  match json_Marshal_ChatRequest lib req with
  | Fail err => ret (c, Fail ("failed to marshal request: " +:+ err))
  | Ok body =>
    match http_NewRequest "POST"
            (ai.Client_baseURL c +:+ "/chat/completions") body with
    | Fail err => ret (c, Fail ("failed to create request: " +:+ err))
    | Ok httpReq =>
      let httpReq :=
        http.Request_set_header httpReq "Content-Type" "application/json" in
      let httpReq :=
        http.Request_set_header httpReq "Authorization"
          ("Bearer " +:+ ai.Client_apiKey c) in
      resp <- call (fun tr => http_Do world tr (ai.Client_httpClient c) httpReq)
                   (EvHTTPDo (ai.Client_httpClient c) httpReq) ;;
      match resp with
      | Fail err => ret (c, Fail ("failed to send request: " +:+ err))
      | Ok (Fail err) => ret (c, Fail ("failed to read response: " +:+ err))
      | Ok (Ok respBody) =>
        match json_Unmarshal_ChatResponse lib respBody with
        | Fail err =>
            ret (c, Fail ("failed to parse response: " +:+ err +:+
                          " (body: " +:+ respBody +:+ ")"))
        | Ok chatResp =>
          match ai.ChatResponse_Error chatResp with
          | Some e =>
              ret (c, Fail ("API error: " +:+ ai.APIError_Message e +:+
                            " (type: " +:+ ai.APIError_Type e +:+ ")"))
          | None =>
            match ai.ChatResponse_Choices chatResp with
            | [] => ret (c, Fail "no choices in response")
            | choice :: _ =>
                ret (c, Ok (ai.Message_Content (ai.Choice_Message choice)))
            end
          end
        end
      end
    end
  end.

(** Temperature 0.7 (the nearest binary64 value) and 4096 tokens. *)
Definition ai_Client_Chat (c : ai.Client) (messages : list ai.Message)
  : IO (ai.Client * result string) :=
  ai_Client_ChatWithOptions c messages 0x1.6666666666666p-1%float 4096.

(** ** Package reviewer *)

Definition Analyzer_FirstPass (a : reviewer.Analyzer)
  (files : list github.FileChange) : IO (result reviewer.FirstPassResult) :=
  let diffBuilder :=
    fold_left
      (fun b f =>
         b +:+ (nl +:+ "--- " +:+ github.FileChange_Filename f +:+ " ---" +:+ nl)
           +:+ github.FileChange_Patch f +:+ nl)
      files "" in
  let messages := [ ai.SystemMessage (GetFirstPassPrompt lib);
                    ai.UserMessage diffBuilder ] in
  r <- ai_Client_Chat (reviewer.Analyzer_aiClient a) messages ;;
  match snd r with
  | Fail err => ret (Fail ("AI first pass failed: " +:+ err))
  | Ok response =>
    let response := reviewer.extractJSON response in
    match json_Unmarshal_FirstPassResult lib response with
    | Fail err =>
        ret (Fail ("failed to parse first pass result: " +:+ err +:+
                   " (response: " +:+ response +:+ ")"))
    | Ok result => ret (Ok result)
    end
  end.

Definition Analyzer_DeepAnalyze (a : reviewer.Analyzer)
  (issue : reviewer.Issue) (ref : github.PRReference)
  (pr : github.PullRequest) : IO (result reviewer.DeepAnalysisResult) :=
  let gh := reviewer.Analyzer_githubClient a in
  let owner := github.PRReference_Owner ref in
  let repo := github.PRReference_Repo ref in
  let sha := github.PullRequest_HeadSHA pr in
  fc <- github_Client_GetFileContent gh owner repo
          (reviewer.Issue_File issue) sha ;;
  let fullContent := match fc with
                     | Ok content => content
                     | Fail _ => "(File content unavailable)"
                     end in
  related <- github_Client_GetRelatedFiles gh owner repo
               (reviewer.Issue_File issue) sha ;;
  relatedContent <-
    for_range
      (fun _ r b =>
         content <- github_Client_GetFileContent gh owner repo r sha ;;
         match content with
         | Ok content =>
             ret (b +:+ (nl +:+ "--- " +:+ r +:+ " ---" +:+ nl +:+ content +:+ nl))
         | Fail _ => ret b
         end)
      0 related "" ;;
  let issueDesc :=
    "File: " +:+ reviewer.Issue_File issue +:+ ", Line: " +:+
    itoa (reviewer.Issue_Line issue) +:+ nl +:+
    "Code: " +:+ reviewer.Issue_Code issue +:+ nl +:+
    "Issue: " +:+ reviewer.Issue_Issue issue in
  let prompt := GetDeepAnalysisPrompt lib issueDesc fullContent relatedContent in
  let messages :=
    [ ai.SystemMessage
        "You are a thoughtful code reviewer who considers context before judging.";
      ai.UserMessage prompt ] in
  r <- ai_Client_Chat (reviewer.Analyzer_aiClient a) messages ;;
  match snd r with
  | Fail err => ret (Fail ("AI deep analysis failed: " +:+ err))
  | Ok response =>
    let response := reviewer.extractJSON response in
    match json_Unmarshal_DeepAnalysisResult lib response with
    | Fail err => ret (Fail ("failed to parse deep analysis: " +:+ err))
    | Ok result => ret (Ok result)
    end
  end.

Definition Analyzer_GenerateExtraNitpicks (a : reviewer.Analyzer)
  (files : list github.FileChange) (existingComments : list string)
  : IO (result reviewer.NitpickResult) :=
  let diffBuilder :=
    fold_left
      (fun b f =>
         b +:+ (nl +:+ "--- " +:+ github.FileChange_Filename f +:+ " ---" +:+ nl)
           +:+ github.FileChange_Patch f)
      files "" in
  let prompt := GetExtraNitpickPrompt lib diffBuilder
                  (strings.Join existingComments nl) in
  let messages :=
    [ ai.SystemMessage
        "You are an extremely pedantic code reviewer who finds issues with everything.";
      ai.UserMessage prompt ] in
  r <- ai_Client_Chat (reviewer.Analyzer_aiClient a) messages ;;
  match snd r with
  | Fail err => ret (Fail ("AI nitpick generation failed: " +:+ err))
  | Ok response =>
    let response := reviewer.extractJSON response in
    match json_Unmarshal_NitpickResult lib response with
    | Fail err => ret (Fail ("failed to parse nitpicks: " +:+ err))
    | Ok result => ret (Ok result)
    end
  end.

Definition Reviewer_formatComment (r : reviewer.Reviewer)
  (issue : reviewer.AnalyzedIssue) : IO (result string) :=
  let cfg := reviewer.Reviewer_config r in
  let issueDesc :=
    "Issue: " +:+ reviewer.Issue_Issue (reviewer.AnalyzedIssue_Original issue)
    +:+ nl +:+
    "Code: " +:+ reviewer.Issue_Code (reviewer.AnalyzedIssue_Original issue) in
  let analysisDesc :=
    "Reasoning: " +:+
    reviewer.DeepAnalysisResult_Reasoning (reviewer.AnalyzedIssue_Analysis issue) in
  let prompt := GetCommentFormattingPrompt lib issueDesc analysisDesc
                  (config.Config_WritingStyle cfg) in
  let messages :=
    [ ai.SystemMessage (GetSystemPrompt lib (config.Config_WritingStyle cfg)
                          (config.Config_NitpickyLevel cfg));
      ai.UserMessage prompt ] in
  x <- ai_Client_Chat (reviewer.Reviewer_aiClient r) messages ;;
  ret (snd x).

Definition Reviewer_generateSummary (r : reviewer.Reviewer)
  (result : reviewer.ReviewResult) (pr : github.PullRequest) : string :=
  let style := config.Config_WritingStyle (reviewer.Reviewer_config r) in
  let comments := reviewer.ReviewResult_Comments result in
  let sb :=
    if String.eqb style config.StyleCorporate then
      "## Code Review Summary" +:+ nl +:+ nl +:+
      "Thank you for your contribution to this project. " +:+
      "Please find below my observations regarding this pull request." +:+ nl +:+ nl
    else if String.eqb style config.StylePassiveAggressive then
      "## Review Notes" +:+ nl +:+ nl +:+
      "I've had a chance to look over this PR. " +:+
      "I'm sure most of my comments are probably unnecessary, but just in case..."
      +:+ nl +:+ nl
    else if String.eqb style config.StyleTechBro then
      "## Quick Review 🚀" +:+ nl +:+ nl +:+
      "Took a pass through this. Some thoughts below. " +:+
      "Let's iterate quickly on these and ship it." +:+ nl +:+ nl
    else if String.eqb style config.StyleAcademic then
      "## Review Commentary" +:+ nl +:+ nl +:+
      "Upon examination of the proposed changes, " +:+
      "several observations warrant discussion." +:+ nl +:+ nl
    else "" in
  let sb := sb +:+ ("**Files reviewed:** " +:+
                    itoa (reviewer.ReviewStats_FilesReviewed
                            (reviewer.ReviewResult_Stats result)) +:+ nl) in
  let sb := sb +:+ ("**Comments:** " +:+ itoa (len_slice comments) +:+ nl +:+ nl) in
  if len_slice comments =? 0 then
    if String.eqb style config.StyleCorporate then
      sb +:+ "No significant issues identified at this time. Approved pending standard verification procedures."
    else if String.eqb style config.StylePassiveAggressive then
      sb +:+ "I couldn't find anything to comment on. I'm sure it's fine. Probably."
    else if String.eqb style config.StyleTechBro then
      sb +:+ "LGTM! Ship it. 🚀"
    else if String.eqb style config.StyleAcademic then
      sb +:+ "The implementation appears sound. No substantive concerns identified."
    else sb
  else sb.

(** Lines 298-305 of [Review]: the configured level plus the bias for the
    author, clamped to 1..10. *)
Definition effectiveNitpicky (cfg : config.Config) (author : string) : int :=
  let e := add (config.Config_NitpickyLevel cfg)
               (config.GetReviewerBias cfg author) in
  let e := if e <? 1 then 1 else e in
  let e := if e >? 10 then 10 else e in
  e.

(** Line 351: [threshold := 90 - (effectiveNitpicky * 5)]. *)
Definition threshold (effectiveNitpicky : int) : int :=
  sub 90 (mul effectiveNitpicky 5).

(** The body of the deep-analysis loop (lines 341-361). *)
Definition Review_deep_body (r : reviewer.Reviewer)
  (ref : github.PRReference) (pr : github.PullRequest)
  (effectiveNitpicky : int) (total : int)
  (i : int) (issue : reviewer.Issue)
  (confirmedIssues : list reviewer.AnalyzedIssue)
  : IO (list reviewer.AnalyzedIssue) :=
  Printf ("   [%d/%d] Analyzing: %s (line %d)..." +:+ nl)
    [AInt (i + 1); AInt total; AStr (reviewer.Issue_File issue);
     AInt (reviewer.Issue_Line issue)] ;;
  res <- Analyzer_DeepAnalyze (reviewer.Reviewer_analyzer r) issue ref pr ;;
  match res with
  | Fail err =>
      Printf ("      ⚠️  Deep analysis failed: %v" +:+ nl) [AStr err] ;;
      ret confirmedIssues
  | Ok analysis =>
      let threshold := threshold effectiveNitpicky in
      if (reviewer.DeepAnalysisResult_Confidence analysis >=? threshold) &&
         String.eqb (reviewer.DeepAnalysisResult_FinalVerdict analysis) "COMMENT"
      then
        let confirmedIssues :=
          (confirmedIssues ++
           [ {| reviewer.AnalyzedIssue_Original := issue;
                reviewer.AnalyzedIssue_Analysis := analysis |} ])%list in
        Printf ("      ✓ Confirmed (confidence: %d%%)" +:+ nl)
          [AInt (reviewer.DeepAnalysisResult_Confidence analysis)] ;;
        ret confirmedIssues
      else
        Printf ("      ✗ Skipped (confidence: %d%%, threshold: %d%%)" +:+ nl)
          [AInt (reviewer.DeepAnalysisResult_Confidence analysis);
           AInt threshold] ;;
        ret confirmedIssues
  end.

(** The body of the formatting loop (lines 368-381). *)
Definition Review_format_body (r : reviewer.Reviewer)
  (i : int) (ci : reviewer.AnalyzedIssue)
  (comments : list github.ReviewComment) : IO (list github.ReviewComment) :=
  res <- Reviewer_formatComment r ci ;;
  match res with
  | Fail err =>
      Printf ("   ⚠️  Failed to format comment: %v" +:+ nl) [AStr err] ;;
      ret comments
  | Ok comment =>
      ret (comments ++
           [ {| github.ReviewComment_Path :=
                  reviewer.Issue_File (reviewer.AnalyzedIssue_Original ci);
                github.ReviewComment_Line :=
                  reviewer.Issue_Line (reviewer.AnalyzedIssue_Original ci);
                github.ReviewComment_Body := comment;
                github.ReviewComment_Side := "RIGHT" |} ])%list
  end.

(** The body of the loop over the extra nitpicks (lines 393-401). *)
Definition Review_nitpick_body (result : reviewer.ReviewResult)
  (np : reviewer.Nitpick) : reviewer.ReviewResult :=
  let result :=
    reviewer.set_Comments result
      (reviewer.ReviewResult_Comments result ++
       [ {| github.ReviewComment_Path := reviewer.Nitpick_File np;
            github.ReviewComment_Line := reviewer.Nitpick_Line np;
            github.ReviewComment_Body := reviewer.Nitpick_Comment np;
            github.ReviewComment_Side := "RIGHT" |} ])%list in
  reviewer.set_Stats result
    (reviewer.set_NitpicksAdded (reviewer.ReviewResult_Stats result)
       (add (reviewer.ReviewStats_NitpicksAdded
               (reviewer.ReviewResult_Stats result)) 1)).

(** Lines 383-404: the extra nitpicks for a disliked author. *)
Definition Review_extra_nitpicks (r : reviewer.Reviewer) (author : string)
  (files : list github.FileChange) (result : reviewer.ReviewResult)
  : IO reviewer.ReviewResult :=
  if config.IsDislikedReviewer (reviewer.Reviewer_config r) author then
    Println "😈 Generating extra nitpicks for disliked reviewer..." ;;
    let existingCommentBodies :=
      map github.ReviewComment_Body (reviewer.ReviewResult_Comments result) in
    res <- Analyzer_GenerateExtraNitpicks (reviewer.Reviewer_analyzer r)
             files existingCommentBodies ;;
    match res with
    | Ok nitpicks =>
        let result :=
          fold_left Review_nitpick_body
            (reviewer.NitpickResult_Nitpicks nitpicks) result in
        Printf ("   Added %d extra nitpicks" +:+ nl)
          [AInt (len_slice (reviewer.NitpickResult_Nitpicks nitpicks))] ;;
        ret result
    | Fail _ => ret result
    end
  else ret result.

(** Line 420-423: the review event. *)
Definition review_event (comments : list github.ReviewComment)
  (effectiveNitpicky : int) : string :=
  if (len_slice comments >? 0) && (effectiveNitpicky >=? 7)
  then "REQUEST_CHANGES" else "COMMENT".

(** Lines 409-432: post the review, or print it in a dry run. *)
Definition Review_publish (r : reviewer.Reviewer) (ref : github.PRReference)
  (effectiveNitpicky : int) (dryRun : bool) (result : reviewer.ReviewResult)
  : IO (Go.result reviewer.ReviewResult) :=
  let comments := reviewer.ReviewResult_Comments result in
  if dryRun then
    Println (nl +:+ "📋 DRY RUN - Would post the following review:") ;;
    Println "─────────────────────────────────────────" ;;
    Println (reviewer.ReviewResult_Summary result) ;;
    for_range
      (fun _ c (_ : unit) =>
         Printf (nl +:+ "📍 %s:%d" +:+ nl +:+ "%s" +:+ nl)
           [AStr (github.ReviewComment_Path c);
            AInt (github.ReviewComment_Line c);
            AStr (github.ReviewComment_Body c)])
      0 comments tt ;;
    Println "─────────────────────────────────────────" ;;
    ret (Ok result)
  else
    Println "📤 Posting review..." ;;
    let event := review_event comments effectiveNitpicky in
    err <- github_Client_PostReview (reviewer.Reviewer_githubClient r) ref
             (reviewer.ReviewResult_Summary result) event comments ;;
    match err with
    | Some err => ret (Fail ("failed to post review: " +:+ err))
    | None =>
        let result :=
          reviewer.set_Stats result
            (reviewer.set_CommentsPosted (reviewer.ReviewResult_Stats result)
               (len_slice comments)) in
        Printf ("✅ Review posted with %d comments" +:+ nl)
          [AInt (len_slice comments)] ;;
        ret (Ok result)
    end.

(** Lines 319-407, once the pull request and its files are known:
    first pass, deep analysis, formatting, extra nitpicks, summary. *)
Definition Review_pipeline (r : reviewer.Reviewer) (ref : github.PRReference)
  (pr : github.PullRequest) (author : string) (effectiveNitpicky : int)
  (files : list github.FileChange) : IO (result reviewer.ReviewResult) :=
  Printf ("📁 Reviewing %d changed files..." +:+ nl) [AInt (len_slice files)] ;;
  let result :=
    {| reviewer.ReviewResult_Summary := "";
       reviewer.ReviewResult_Comments := [];
       reviewer.ReviewResult_Stats :=
         reviewer.mkReviewStats (len_slice files) 0 0 0 0 |} in
  Println "🔎 First pass: identifying potential issues..." ;;
  fp <- Analyzer_FirstPass (reviewer.Reviewer_analyzer r) files ;;
  match fp with
  | Fail err => ret (Fail ("first pass failed: " +:+ err))
  | Ok firstPass =>
    let issues := reviewer.FirstPassResult_Issues firstPass in
    let result :=
      reviewer.set_Stats result
        (reviewer.set_IssuesFound (reviewer.ReviewResult_Stats result)
           (len_slice issues)) in
    Printf ("   Found %d potential issues" +:+ nl) [AInt (len_slice issues)] ;;
    Println "🔬 Deep analysis: verifying each issue..." ;;
    confirmedIssues <-
      for_range (Review_deep_body r ref pr effectiveNitpicky (len_slice issues))
        0 issues [] ;;
    let result :=
      reviewer.set_Stats result
        (reviewer.set_IssuesAfterDeep (reviewer.ReviewResult_Stats result)
           (len_slice confirmedIssues)) in
    Printf ("   %d issues confirmed after deep analysis" +:+ nl)
      [AInt (len_slice confirmedIssues)] ;;
    Println "✍️  Formatting comments..." ;;
    comments <-
      for_range (Review_format_body r) 0 confirmedIssues
        (reviewer.ReviewResult_Comments result) ;;
    let result := reviewer.set_Comments result comments in
    result <- Review_extra_nitpicks r author files result ;;
    let result :=
      reviewer.set_Summary result (Reviewer_generateSummary r result pr) in
    ret (Ok result)
  end.

Definition Reviewer_Review (r : reviewer.Reviewer) (prRef : string)
  (dryRun : bool) : IO (result reviewer.ReviewResult) :=
  match ParsePRReference prRef with
  | Fail err => ret (Fail err)
  | Ok ref =>
    Printf ("🔍 Fetching PR #%d from %s/%s..." +:+ nl)
      [AInt (github.PRReference_Number ref);
       AStr (github.PRReference_Owner ref);
       AStr (github.PRReference_Repo ref)] ;;
    p <- github_Client_GetPR (reviewer.Reviewer_githubClient r) ref ;;
    match p with
    | Fail err => ret (Fail err)
    | Ok pr =>
      let cfg := reviewer.Reviewer_config r in
      let author := github.PullRequest_Login pr in
      Printf ("📝 PR by @%s: %s" +:+ nl)
        [AStr author; AStr (github.PullRequest_Title pr)] ;;
      let effectiveNitpicky := effectiveNitpicky cfg author in
      (if config.IsLikedReviewer cfg author then
         Printf ("💚 Author is liked - going easy (nitpicky: %d)" +:+ nl)
           [AInt effectiveNitpicky]
       else if config.IsDislikedReviewer cfg author then
         Printf ("🔴 Author is disliked - extra scrutiny (nitpicky: %d)" +:+ nl)
           [AInt effectiveNitpicky]
       else ret tt) ;;
      fs <- github_Client_GetPRFiles (reviewer.Reviewer_githubClient r) ref ;;
      match fs with
      | Fail err => ret (Fail err)
      | Ok files =>
        res <- Review_pipeline r ref pr author effectiveNitpicky files ;;
        match res with
        | Fail err => ret (Fail err)
        | Ok result => Review_publish r ref effectiveNitpicky dryRun result
        end
      end
    end
  end.

(** ** Package defender *)

Definition Defender_analyzeComment (d : defender.Defender)
  (comment : github.PRComment) (codeContext : string)
  : IO (result defender.CommentAnalysis) :=
  let style := config.Config_WritingStyle (defender.Defender_config d) in
  let prompt := GetCommentAnalysisPrompt lib (github.PRComment_Body comment)
                  codeContext in
  let messages := [ ai.SystemMessage (GetDefenseSystemPrompt lib style);
                    ai.UserMessage prompt ] in
  r <- ai_Client_Chat (defender.Defender_aiClient d) messages ;;
  match snd r with
  | Fail err => ret (Fail err)
  | Ok response =>
    let response := defender.extractJSON response in
    match json_Unmarshal_CommentAnalysis lib response with
    | Fail err => ret (Fail ("failed to parse analysis: " +:+ err))
    | Ok analysis => ret (Ok analysis)
    end
  end.

Definition Defender_generateDefense (d : defender.Defender)
  (comment : string) (analysis : defender.CommentAnalysis)
  : IO (result string) :=
  let style := config.Config_WritingStyle (defender.Defender_config d) in
  let analysisJSON := match json_Marshal_CommentAnalysis lib analysis with
                      | Ok b => b
                      | Fail _ => ""
                      end in
  let prompt := GetDefenseResponsePrompt lib comment analysisJSON style in
  let messages := [ ai.SystemMessage (GetDefenseSystemPrompt lib style);
                    ai.UserMessage prompt ] in
  x <- ai_Client_Chat (defender.Defender_aiClient d) messages ;;
  ret (snd x).

Definition Defender_generateConcession (d : defender.Defender)
  (comment : string) : IO (result string) :=
  let style := config.Config_WritingStyle (defender.Defender_config d) in
  let prompt := GetConcessionPrompt lib comment style in
  let messages := [ ai.SystemMessage (GetDefenseSystemPrompt lib style);
                    ai.UserMessage prompt ] in
  x <- ai_Client_Chat (defender.Defender_aiClient d) messages ;;
  ret (snd x).

(** Lines 108-116 of [Defend]: the contents of the changed files. *)
Definition Defend_file_body (d : defender.Defender)
  (ref : github.PRReference) (pr : github.PullRequest)
  (i : int) (f : github.FileChange) (fileContents : gmap string string)
  : IO (gmap string string) :=
  content <- github_Client_GetFileContent (defender.Defender_githubClient d)
               (github.PRReference_Owner ref) (github.PRReference_Repo ref)
               (github.FileChange_Filename f) (github.PullRequest_HeadSHA pr) ;;
  match content with
  | Ok content => ret (<[github.FileChange_Filename f := content]> fileContents)
  | Fail _ => ret fileContents
  end.

(** The body of the loop over the reviewers' comments (lines 119-161). *)
Definition Defend_comment_body (d : defender.Defender)
  (fileContents : gmap string string) (total : int)
  (i : int) (comment : github.PRComment) (result : defender.DefenseResult)
  : IO defender.DefenseResult :=
  Printf (nl +:+ "📍 [%d/%d] Comment from @%s on %s" +:+ nl)
    [AInt (i + 1); AInt total; AStr (github.PRComment_User comment);
     AStr (github.PRComment_Path comment)] ;;
  Printf ("   " +:+ dq +:+ "%s" +:+ dq +:+ nl)
    [AStr (defender.truncate (github.PRComment_Body comment) 80)] ;;
  let codeContext :=
    match fileContents !! github.PRComment_Path comment with
    | Some content =>
        defender.extractContext content (github.PRComment_Line comment)
    | None => ""
    end in
  an <- Defender_analyzeComment d comment codeContext ;;
  match an with
  | Fail err =>
      Printf ("   ⚠️  Analysis failed: %v" +:+ nl) [AStr err] ;;
      ret (defender.incr_Skipped result)
  | Ok analysis =>
      x <- (if String.eqb (defender.CommentAnalysis_RecommendedAction analysis)
                          "CONCEDE"
               || (defender.CommentAnalysis_ConfidenceValid analysis >=? 95)
            then
              Printf ("   😤 Grudgingly conceding (they're %d%% right)" +:+ nl)
                [AInt (defender.CommentAnalysis_ConfidenceValid analysis)] ;;
              response <- Defender_generateConcession d
                            (github.PRComment_Body comment) ;;
              ret (response, defender.incr_Conceded result)
            else
              Printf ("   💪 Defending! (only %d%% valid, found %d defense points)"
                      +:+ nl)
                [AInt (defender.CommentAnalysis_ConfidenceValid analysis);
                 AInt (len_slice (defender.CommentAnalysis_DefensePoints analysis))] ;;
              response <- Defender_generateDefense d
                            (github.PRComment_Body comment) analysis ;;
              ret (response, defender.incr_Defended result)) ;;
      match fst x with
      | Fail err =>
          Printf ("   ⚠️  Response generation failed: %v" +:+ nl) [AStr err] ;;
          ret (defender.incr_Skipped (snd x))
      | Ok response =>
          ret (defender.append_Response (snd x)
                 {| defender.CommentResponse_OriginalComment := comment;
                    defender.CommentResponse_Response := response;
                    defender.CommentResponse_Action :=
                      defender.CommentAnalysis_RecommendedAction analysis |})
      end
  end.

(** Lines 163-184: post the replies, or print them in a dry run. *)
Definition Defend_publish (d : defender.Defender) (ref : github.PRReference)
  (dryRun : bool) (result : defender.DefenseResult) : IO unit :=
  let responses := defender.DefenseResult_Responses result in
  if dryRun then
    Println (nl +:+ "📋 DRY RUN - Would post the following responses:") ;;
    Println "─────────────────────────────────────────" ;;
    for_range
      (fun _ r (_ : unit) =>
         let original := defender.CommentResponse_OriginalComment r in
         Printf (nl +:+ "📍 In reply to @%s:" +:+ nl)
           [AStr (github.PRComment_User original)] ;;
         Printf ("   Original: " +:+ dq +:+ "%s" +:+ dq +:+ nl)
           [AStr (defender.truncate (github.PRComment_Body original) 60)] ;;
         Printf ("   Action: %s" +:+ nl)
           [AStr (defender.CommentResponse_Action r)] ;;
         Printf ("   Response:" +:+ nl +:+ "%s" +:+ nl)
           [AStr (defender.indent (defender.CommentResponse_Response r) "   ")])
      0 responses tt ;;
    Println "─────────────────────────────────────────"
  else
    Println (nl +:+ "📤 Posting responses...") ;;
    for_range
      (fun i r (_ : unit) =>
         err <- github_Client_ReplyToComment (defender.Defender_githubClient d)
                  ref
                  (github.PRComment_ID (defender.CommentResponse_OriginalComment r))
                  (defender.CommentResponse_Response r) ;;
         match err with
         | Some err =>
             Printf ("   ⚠️  Failed to post response %d: %v" +:+ nl)
               [AInt (i + 1); AStr err]
         | None =>
             Printf ("   ✅ Posted response %d/%d" +:+ nl)
               [AInt (i + 1); AInt (len_slice responses)]
         end)
      0 responses tt.

Definition Defender_Defend (d : defender.Defender) (prRef : string)
  (dryRun : bool) : IO (result defender.DefenseResult) :=
  match ParsePRReference prRef with
  | Fail err => ret (Fail err)
  | Ok ref =>
    Printf ("🛡️  Fetching PR #%d from %s/%s..." +:+ nl)
      [AInt (github.PRReference_Number ref);
       AStr (github.PRReference_Owner ref);
       AStr (github.PRReference_Repo ref)] ;;
    p <- github_Client_GetPR (defender.Defender_githubClient d) ref ;;
    match p with
    | Fail err => ret (Fail err)
    | Ok pr =>
      let myUsername := defender.getMyUsername d in
      (if negb (String.eqb (github.PullRequest_Login pr) myUsername) then
         Printf ("⚠️  Warning: This PR was created by @%s, not you (@%s)" +:+ nl)
           [AStr (github.PullRequest_Login pr); AStr myUsername]
       else ret tt) ;;
      Printf ("📝 PR: %s" +:+ nl) [AStr (github.PullRequest_Title pr)] ;;
      cs <- github_Client_GetPRComments (defender.Defender_githubClient d) ref ;;
      match cs with
      | Fail err => ret (Fail err)
      | Ok comments =>
        let otherComments :=
          List.filter
            (fun c => negb (String.eqb (github.PRComment_User c) myUsername)
                      && (github.PRComment_InReplyTo c =? 0))
            comments in
        Printf ("💬 Found %d comments from reviewers" +:+ nl)
          [AInt (len_slice otherComments)] ;;
        if len_slice otherComments =? 0 then
          Println "🎉 No comments to respond to!" ;;
          ret (Ok defender.zero_DefenseResult)
        else
          let result :=
            {| defender.DefenseResult_Responses := [];
               defender.DefenseResult_Stats :=
                 defender.mkDefenseStats (len_slice otherComments) 0 0 0 |} in
          fs <- github_Client_GetPRFiles (defender.Defender_githubClient d) ref ;;
          let files := match fs with Ok files => files | Fail _ => [] end in
          fileContents <- for_range (Defend_file_body d ref pr) 0 files ∅ ;;
          result <-
            for_range
              (Defend_comment_body d fileContents (len_slice otherComments))
              0 otherComments result ;;
          Defend_publish d ref dryRun result ;;
          Printf (nl +:+ "📊 Summary: %d defended, %d conceded, %d skipped" +:+ nl)
            [AInt (defender.DefenseStats_Defended
                     (defender.DefenseResult_Stats result));
             AInt (defender.DefenseStats_Conceded
                     (defender.DefenseResult_Stats result));
             AInt (defender.DefenseStats_Skipped
                     (defender.DefenseResult_Stats result))] ;;
          ret (Ok result)
      end
    end
  end.

End Program.

(* ===================================================================== *)
(** * Vocabulary of the statements                                        *)
(* ===================================================================== *)

Module Spec.

(** A call that posts to the hosting API. *)
Definition is_post (e : Event) : bool :=
  match e with
  | EvPostReview _ _ _ _ | EvReplyToComment _ _ _ => true
  | _ => false
  end.

(** [spec m Q]: from every trace, [m] returns a value [a] and appends
    events [d] to the trace, with [Q a d]. In particular [m] returns. *)
Definition spec {A} (m : IO A) (Q : A -> Trace -> Prop) : Prop :=
  forall tr, exists a d, m tr = (a, (tr ++ d)%list) /\ Q a d.

(** [m] performs only events that satisfy [P]. *)
Definition only {A} (P : Event -> Prop) (m : IO A) : Prop :=
  spec m (fun _ d => Forall P d).

(** The acceptance test in the words of the specification: the verdict is
    COMMENT and the confidence is at least 90 - 5e. *)
Definition accepted (e : int) (a : reviewer.DeepAnalysisResult) : Prop :=
  reviewer.DeepAnalysisResult_FinalVerdict a = "COMMENT" /\
  90 - 5 * e <= reviewer.DeepAnalysisResult_Confidence a.

Definition acceptedb (e : int) (a : reviewer.DeepAnalysisResult) : bool :=
  String.eqb (reviewer.DeepAnalysisResult_FinalVerdict a) "COMMENT" &&
  (90 - 5 * e <=? reviewer.DeepAnalysisResult_Confidence a).

(** The candidates kept by the second stage, given the outcome of the
    deep analysis of each: those analysed successfully and accepted. *)
Fixpoint confirmed_of (e : int)
  (judged : list (reviewer.Issue * result reviewer.DeepAnalysisResult))
  : list reviewer.AnalyzedIssue :=
  match judged with
  | [] => []
  | (issue, Ok a) :: rest =>
      if acceptedb e a
      then reviewer.mkAnalyzedIssue issue a :: confirmed_of e rest
      else confirmed_of e rest
  | (_, Fail _) :: rest => confirmed_of e rest
  end.

(** The review comments of the confirmed issues, given the outcome of
    formatting each: one comment per issue formatted successfully. *)
Fixpoint comments_of
  (formatted : list (reviewer.AnalyzedIssue * result string))
  : list github.ReviewComment :=
  match formatted with
  | [] => []
  | (ci, Ok body) :: rest =>
      github.mkReviewComment
        (reviewer.Issue_File (reviewer.AnalyzedIssue_Original ci))
        (reviewer.Issue_Line (reviewer.AnalyzedIssue_Original ci))
        body "RIGHT" :: comments_of rest
  | (_, Fail _) :: rest => comments_of rest
  end.

(** The comment made of an extra nitpick. *)
Definition nitpick_comment (np : reviewer.Nitpick) : github.ReviewComment :=
  github.mkReviewComment (reviewer.Nitpick_File np) (reviewer.Nitpick_Line np)
    (reviewer.Nitpick_Comment np) "RIGHT".

(** Where a comment or a candidate points: file and line. *)
Definition comment_place (c : github.ReviewComment) : string * int :=
  (github.ReviewComment_Path c, github.ReviewComment_Line c).

Definition issue_place (i : reviewer.Issue) : string * int :=
  (reviewer.Issue_File i, reviewer.Issue_Line i).

(** What a dry run of [Review] prints for a result. *)
Definition review_preview (result : reviewer.ReviewResult) : Trace :=
  ([ EvPrintln (nl +:+ "📋 DRY RUN - Would post the following review:");
     EvPrintln "─────────────────────────────────────────";
     EvPrintln (reviewer.ReviewResult_Summary result) ] ++
   map (fun c =>
          EvPrintf (nl +:+ "📍 %s:%d" +:+ nl +:+ "%s" +:+ nl)
            [AStr (github.ReviewComment_Path c);
             AInt (github.ReviewComment_Line c);
             AStr (github.ReviewComment_Body c)])
       (reviewer.ReviewResult_Comments result) ++
   [ EvPrintln "─────────────────────────────────────────" ])%list.

(** What a dry run of [Defend] prints for one response, and for all. *)
Definition response_preview (r : defender.CommentResponse) : Trace :=
  let original := defender.CommentResponse_OriginalComment r in
  [ EvPrintf (nl +:+ "📍 In reply to @%s:" +:+ nl)
      [AStr (github.PRComment_User original)];
    EvPrintf ("   Original: " +:+ dq +:+ "%s" +:+ dq +:+ nl)
      [AStr (defender.truncate (github.PRComment_Body original) 60)];
    EvPrintf ("   Action: %s" +:+ nl) [AStr (defender.CommentResponse_Action r)];
    EvPrintf ("   Response:" +:+ nl +:+ "%s" +:+ nl)
      [AStr (defender.indent (defender.CommentResponse_Response r) "   ")] ].

Definition defense_preview (result : defender.DefenseResult) : Trace :=
  flat_map response_preview (defender.DefenseResult_Responses result).

(** [out] is what the deep analysis of [issue] returned at some moment
    of some run. *)
Definition judged_by (lib : Lib) (world : World) (r : reviewer.Reviewer)
  (ref : github.PRReference) (pr : github.PullRequest)
  (issue : reviewer.Issue) (out : result reviewer.DeepAnalysisResult) : Prop :=
  exists tr,
    out = run (Analyzer_DeepAnalyze lib world (reviewer.Reviewer_analyzer r)
                 issue ref pr) tr.

(** [out] is what formatting the comment of [ci] returned at some moment. *)
Definition formatted_by (lib : Lib) (world : World) (r : reviewer.Reviewer)
  (ci : reviewer.AnalyzedIssue) (out : result string) : Prop :=
  exists tr, out = run (Reviewer_formatComment lib world r ci) tr.

(** The shape of a result of the pipeline: the candidates of a first
    pass, judged one by one; the confirmed ones, formatted one by one;
    then the extra nitpicks, present only for a disliked author. *)
Inductive pipeline_result (lib : Lib) (world : World) (r : reviewer.Reviewer)
  (ref : github.PRReference) (pr : github.PullRequest) (author : string)
  (e : int) (files : list github.FileChange)
  (review : reviewer.ReviewResult) : Prop :=
| PipelineResult
    (issues : list reviewer.Issue)
    (judged : list (result reviewer.DeepAnalysisResult))
    (formatted : list (result string))
    (nitpicks : list reviewer.Nitpick)
    (pl_first_pass :
       exists tr,
         run (Analyzer_FirstPass lib world (reviewer.Reviewer_analyzer r) files) tr
         = Ok (reviewer.mkFirstPassResult issues))
    (pl_second_pass : Forall2 (judged_by lib world r ref pr) issues judged)
    (pl_formatting :
       Forall2 (formatted_by lib world r)
         (confirmed_of e (combine issues judged)) formatted)
    (pl_comments :
       reviewer.ReviewResult_Comments review =
       (comments_of (combine (confirmed_of e (combine issues judged)) formatted)
        ++ map nitpick_comment nitpicks)%list)
    (pl_nitpicks_disliked :
       config.IsDislikedReviewer (reviewer.Reviewer_config r) author = false ->
       nitpicks = [])
    (pl_nitpicks_generated :
       nitpicks = [] \/
       exists tr existing,
         run (Analyzer_GenerateExtraNitpicks lib world
                (reviewer.Reviewer_analyzer r) files existing) tr
         = Ok (reviewer.mkNitpickResult nitpicks))
    (pl_found :
       reviewer.ReviewStats_IssuesFound (reviewer.ReviewResult_Stats review)
       = len_slice issues)
    (pl_after_deep :
       reviewer.ReviewStats_IssuesAfterDeep (reviewer.ReviewResult_Stats review)
       = len_slice (confirmed_of e (combine issues judged)))
    (pl_files :
       reviewer.ReviewStats_FilesReviewed (reviewer.ReviewResult_Stats review)
       = len_slice files)
    (pl_posted :
       reviewer.ReviewStats_CommentsPosted (reviewer.ReviewResult_Stats review)
       = 0).

(** The counters of a result that the extra nitpicks leave alone. *)
Definition same_counts (a b : reviewer.ReviewResult) : Prop :=
  reviewer.ReviewStats_IssuesFound (reviewer.ReviewResult_Stats a)
  = reviewer.ReviewStats_IssuesFound (reviewer.ReviewResult_Stats b) /\
  reviewer.ReviewStats_IssuesAfterDeep (reviewer.ReviewResult_Stats a)
  = reviewer.ReviewStats_IssuesAfterDeep (reviewer.ReviewResult_Stats b) /\
  reviewer.ReviewStats_FilesReviewed (reviewer.ReviewResult_Stats a)
  = reviewer.ReviewStats_FilesReviewed (reviewer.ReviewResult_Stats b) /\
  reviewer.ReviewStats_CommentsPosted (reviewer.ReviewResult_Stats a)
  = reviewer.ReviewStats_CommentsPosted (reviewer.ReviewResult_Stats b).

Definition no_post (e : Event) : Prop := is_post e = false.

(** The review as it stands once posted. *)
Definition posted_review (review : reviewer.ReviewResult)
  : reviewer.ReviewResult :=
  reviewer.set_Stats review
    (reviewer.set_CommentsPosted (reviewer.ReviewResult_Stats review)
       (len_slice (reviewer.ReviewResult_Comments review))).

(** The call that posts [review] for a pull request at level [e]. *)
Definition post_event (ref : github.PRReference) (e : int)
  (review : reviewer.ReviewResult) : Event :=
  EvPostReview ref (reviewer.ReviewResult_Summary review)
    (review_event (reviewer.ReviewResult_Comments review) e)
    (reviewer.ReviewResult_Comments review).

(** The seven ways in which [Review] ends: the value it returns and the
    events it has performed. *)
Inductive Review_outcome (lib : Lib) (world : World) (r : reviewer.Reviewer)
  (prRef : string) (dryRun : bool)
  : result reviewer.ReviewResult -> Trace -> Prop :=
| RO_bad_reference err :
    ParsePRReference lib prRef = Fail err ->
    Review_outcome lib world r prRef dryRun (Fail err) []
| RO_no_pull_request ref tr err d :
    ParsePRReference lib prRef = Ok ref ->
    GetPR world tr ref = Fail err ->
    Forall no_post d ->
    Review_outcome lib world r prRef dryRun (Fail err) d
| RO_no_files ref tr pr tr' err d :
    ParsePRReference lib prRef = Ok ref ->
    GetPR world tr ref = Ok pr ->
    GetPRFiles world tr' ref = Fail err ->
    Forall no_post d ->
    Review_outcome lib world r prRef dryRun (Fail err) d
| RO_first_pass_failed ref tr pr tr' files tr'' err d :
    ParsePRReference lib prRef = Ok ref ->
    GetPR world tr ref = Ok pr ->
    GetPRFiles world tr' ref = Ok files ->
    run (Analyzer_FirstPass lib world (reviewer.Reviewer_analyzer r) files) tr''
      = Fail err ->
    Forall no_post d ->
    Review_outcome lib world r prRef dryRun
      (Fail ("first pass failed: " +:+ err)) d
| RO_previewed ref tr pr tr' files review d :
    dryRun = true ->
    ParsePRReference lib prRef = Ok ref ->
    GetPR world tr ref = Ok pr ->
    GetPRFiles world tr' ref = Ok files ->
    pipeline_result lib world r ref pr (github.PullRequest_Login pr)
      (effectiveNitpicky (reviewer.Reviewer_config r)
         (github.PullRequest_Login pr)) files review ->
    Forall no_post d ->
    Review_outcome lib world r prRef dryRun (Ok review)
      (d ++ review_preview review)%list
| RO_post_failed ref tr pr tr' files review d tr'' err :
    dryRun = false ->
    ParsePRReference lib prRef = Ok ref ->
    GetPR world tr ref = Ok pr ->
    GetPRFiles world tr' ref = Ok files ->
    pipeline_result lib world r ref pr (github.PullRequest_Login pr)
      (effectiveNitpicky (reviewer.Reviewer_config r)
         (github.PullRequest_Login pr)) files review ->
    Forall no_post d ->
    PostReview world tr'' ref (reviewer.ReviewResult_Summary review)
      (review_event (reviewer.ReviewResult_Comments review)
         (effectiveNitpicky (reviewer.Reviewer_config r)
            (github.PullRequest_Login pr)))
      (reviewer.ReviewResult_Comments review) = Some err ->
    Review_outcome lib world r prRef dryRun
      (Fail ("failed to post review: " +:+ err))
      (d ++ [post_event ref
               (effectiveNitpicky (reviewer.Reviewer_config r)
                  (github.PullRequest_Login pr)) review])%list
| RO_posted ref tr pr tr' files review d tr'' :
    dryRun = false ->
    ParsePRReference lib prRef = Ok ref ->
    GetPR world tr ref = Ok pr ->
    GetPRFiles world tr' ref = Ok files ->
    pipeline_result lib world r ref pr (github.PullRequest_Login pr)
      (effectiveNitpicky (reviewer.Reviewer_config r)
         (github.PullRequest_Login pr)) files review ->
    Forall no_post d ->
    PostReview world tr'' ref (reviewer.ReviewResult_Summary review)
      (review_event (reviewer.ReviewResult_Comments review)
         (effectiveNitpicky (reviewer.Reviewer_config r)
            (github.PullRequest_Login pr)))
      (reviewer.ReviewResult_Comments review) = None ->
    Review_outcome lib world r prRef dryRun (Ok (posted_review review))
      (d ++ [post_event ref
               (effectiveNitpicky (reviewer.Reviewer_config r)
                  (github.PullRequest_Login pr)) review;
             EvPrintf ("✅ Review posted with %d comments" +:+ nl)
               [AInt (len_slice (reviewer.ReviewResult_Comments review))]])%list.

(** The two lists of reviewers are well formed: no username twice in a
    list, none in both. *)
Definition lists_wf (c : config.Config) : Prop :=
  List.NoDup (config.Config_LikedReviewers c) /\
  List.NoDup (config.Config_DislikedReviewers c) /\
  forall u, In u (config.Config_LikedReviewers c) ->
            ~ In u (config.Config_DislikedReviewers c).

(** ** Defense mode *)

(** How the treatment of one reviewer comment ends. *)
Inductive Defense : Type :=
| AnalysisFailed (err : error)
| ResponseFailed (analysis : defender.CommentAnalysis) (err : error)
| Responded (analysis : defender.CommentAnalysis) (response : string).

(** Line 139: concede rather than defend. *)
Definition concedes (a : defender.CommentAnalysis) : bool :=
  String.eqb (defender.CommentAnalysis_RecommendedAction a) "CONCEDE"
  || (defender.CommentAnalysis_ConfidenceValid a >=? 95).

Definition count_side (a : defender.CommentAnalysis)
  (acc : defender.DefenseResult) : defender.DefenseResult :=
  if concedes a then defender.incr_Conceded acc else defender.incr_Defended acc.

(** The effect of one treated comment on the accumulated result. *)
Definition defense_step (acc : defender.DefenseResult)
  (item : github.PRComment * Defense) : defender.DefenseResult :=
  match item with
  | (_, AnalysisFailed _) => defender.incr_Skipped acc
  | (_, ResponseFailed a _) => defender.incr_Skipped (count_side a acc)
  | (comment, Responded a response) =>
      defender.append_Response (count_side a acc)
        {| defender.CommentResponse_OriginalComment := comment;
           defender.CommentResponse_Response := response;
           defender.CommentResponse_Action :=
             defender.CommentAnalysis_RecommendedAction a |}
  end.

(** The responses that a list of treated comments contributes. *)
Fixpoint responses_of (items : list (github.PRComment * Defense))
  : list defender.CommentResponse :=
  match items with
  | [] => []
  | (comment, Responded a response) :: rest =>
      {| defender.CommentResponse_OriginalComment := comment;
         defender.CommentResponse_Response := response;
         defender.CommentResponse_Action :=
           defender.CommentAnalysis_RecommendedAction a |} :: responses_of rest
  | _ :: rest => responses_of rest
  end.

(** The response generator chosen for an analysis. *)
Definition answer (lib : Lib) (world : World) (d : defender.Defender)
  (comment : github.PRComment) (a : defender.CommentAnalysis)
  : IO (result string) :=
  if concedes a
  then Defender_generateConcession lib world d (github.PRComment_Body comment)
  else Defender_generateDefense lib world d (github.PRComment_Body comment) a.

(** [o] is how the treatment of [comment] ended at some moment. *)
Definition defended_by (lib : Lib) (world : World) (d : defender.Defender)
  (comment : github.PRComment) (o : Defense) : Prop :=
  match o with
  | AnalysisFailed err =>
      exists ctx tr,
        run (Defender_analyzeComment lib world d comment ctx) tr = Fail err
  | ResponseFailed a err =>
      (exists ctx tr,
         run (Defender_analyzeComment lib world d comment ctx) tr = Ok a) /\
      exists tr, run (answer lib world d comment a) tr = Fail err
  | Responded a response =>
      (exists ctx tr,
         run (Defender_analyzeComment lib world d comment ctx) tr = Ok a) /\
      exists tr, run (answer lib world d comment a) tr = Ok response
  end.

(** Lines 87-93: the comments of others that are not replies. *)
Definition reviewer_comments (d : defender.Defender)
  (comments : list github.PRComment) : list github.PRComment :=
  List.filter
    (fun c => negb (String.eqb (github.PRComment_User c) (defender.getMyUsername d))
              && (github.PRComment_InReplyTo c =? 0))
    comments.

(** The result before the first comment is treated. *)
Definition initial_defense (n : int) : defender.DefenseResult :=
  {| defender.DefenseResult_Responses := [];
     defender.DefenseResult_Stats := defender.mkDefenseStats n 0 0 0 |}.

(** The call that posts one response. *)
Definition reply_event (ref : github.PRReference) (r : defender.CommentResponse)
  : Event :=
  EvReplyToComment ref
    (github.PRComment_ID (defender.CommentResponse_OriginalComment r))
    (defender.CommentResponse_Response r).

(** The six ways in which [Defend] ends. *)
Inductive Defend_outcome (lib : Lib) (world : World) (d : defender.Defender)
  (prRef : string) (dryRun : bool)
  : result defender.DefenseResult -> Trace -> Prop :=
| DO_bad_reference err :
    ParsePRReference lib prRef = Fail err ->
    Defend_outcome lib world d prRef dryRun (Fail err) []
| DO_no_pull_request ref tr err dl :
    ParsePRReference lib prRef = Ok ref ->
    GetPR world tr ref = Fail err ->
    Forall no_post dl ->
    Defend_outcome lib world d prRef dryRun (Fail err) dl
| DO_no_comments ref tr pr tr' err dl :
    ParsePRReference lib prRef = Ok ref ->
    GetPR world tr ref = Ok pr ->
    GetPRComments world tr' ref = Fail err ->
    Forall no_post dl ->
    Defend_outcome lib world d prRef dryRun (Fail err) dl
| DO_nothing_to_do ref tr pr tr' comments dl :
    ParsePRReference lib prRef = Ok ref ->
    GetPR world tr ref = Ok pr ->
    GetPRComments world tr' ref = Ok comments ->
    reviewer_comments d comments = [] ->
    Forall no_post dl ->
    Defend_outcome lib world d prRef dryRun (Ok defender.zero_DefenseResult) dl
| DO_previewed ref tr pr tr' comments outs res dl :
    dryRun = true ->
    ParsePRReference lib prRef = Ok ref ->
    GetPR world tr ref = Ok pr ->
    GetPRComments world tr' ref = Ok comments ->
    reviewer_comments d comments <> [] ->
    Forall2 (defended_by lib world d) (reviewer_comments d comments) outs ->
    res = fold_left defense_step (combine (reviewer_comments d comments) outs)
            (initial_defense (len_slice (reviewer_comments d comments))) ->
    Forall no_post dl ->
    (exists d0 d1, dl = (d0 ++ defense_preview res ++ d1)%list) ->
    Defend_outcome lib world d prRef dryRun (Ok res) dl
| DO_posted ref tr pr tr' comments outs res dl :
    dryRun = false ->
    ParsePRReference lib prRef = Ok ref ->
    GetPR world tr ref = Ok pr ->
    GetPRComments world tr' ref = Ok comments ->
    reviewer_comments d comments <> [] ->
    Forall2 (defended_by lib world d) (reviewer_comments d comments) outs ->
    res = fold_left defense_step (combine (reviewer_comments d comments) outs)
            (initial_defense (len_slice (reviewer_comments d comments))) ->
    List.filter is_post dl = map (reply_event ref) (defender.DefenseResult_Responses res) ->
    Defend_outcome lib world d prRef dryRun (Ok res) dl.

End Spec.

Import Spec.

(* ===================================================================== *)
(** * A scripted outside, for running the program                         *)
(* ===================================================================== *)

Module Fixture.

Definition is_http (e : Event) : bool :=
  match e with EvHTTPDo _ _ => true | _ => false end.

Definition ref1 : github.PRReference := github.mkPRReference "o" "r" 1.

Definition issue1 : reviewer.Issue :=
  reviewer.mkIssue "a.go" 3 "x := 1" "unused" 80 "".
Definition issue2 : reviewer.Issue :=
  reviewer.mkIssue "b.go" 7 "y := 2" "shadowed" 70 "".
Definition issue3 : reviewer.Issue :=
  reviewer.mkIssue "c.go" 9 "z := 3" "dead code" 60 "".

Definition nitpick1 : reviewer.Nitpick := reviewer.mkNitpick "n.go" 1 "naming".

Definition comment1 : github.PRComment :=
  github.mkPRComment 11 "alice" "this is wrong" "a.go" 3 "t0" 0.
Definition comment2 : github.PRComment :=
  github.mkPRComment 12 "bob" "rename this" "b.go" 7 "t1" 0.

(** The chat service answers with the replies of [script], in order. *)
Definition world (author : string) (script : list (result (result string)))
  (post : option error) : World :=
  {| GetPR := fun _ _ => Ok (github.mkPullRequest author "title" "sha");
     GetPRFiles := fun _ _ =>
       Ok [github.mkFileChange "a.go" "modified" 1 0 "+x := 1" ""];
     GetFileContent := fun _ _ _ path _ =>
       if String.eqb path "a.go" then Ok "package a" else Fail "404";
     GetPRComments := fun _ _ => Ok [comment1; comment2];
     PostReview := fun _ _ _ _ _ => post;
     ReplyToComment := fun _ _ _ _ => post;
     http_Do := fun tr _ _ =>
       nth (List.length (List.filter is_http tr)) script (Fail "EOF") |}.

(** Toy codecs: enough JSON for the replies used in the scripts. *)
Definition lib : Lib :=
  {| match_PRReference := fun s =>
       if String.eqb s "o/r#1" then Some ref1 else None;
     url_error := fun _ => None;
     json_Marshal_ChatRequest := fun req =>
       Ok (strings.Join (map ai.Message_Content (ai.ChatRequest_Messages req)) "|");
     json_Unmarshal_ChatResponse := fun body =>
       if String.eqb body "" then Fail "unexpected end of JSON input"
       else Ok (ai.mkChatResponse "" "" 0 ""
                  [ai.mkChoice 0 (ai.mkMessage "assistant" body) "stop"]
                  (ai.mkUsage 0 0 0) None);
     json_Unmarshal_FirstPassResult := fun s =>
       if String.eqb s "{3}" then
         Ok (reviewer.mkFirstPassResult [issue1; issue2; issue3])
       else if String.eqb s "{0}" then Ok (reviewer.mkFirstPassResult [])
       else Fail "invalid character";
     json_Unmarshal_DeepAnalysisResult := fun s =>
       if String.eqb s "{yes 90}" then
         Ok (reviewer.mkDeepAnalysisResult true 90 "r" "" "COMMENT")
       else if String.eqb s "{yes 50}" then
         Ok (reviewer.mkDeepAnalysisResult true 50 "r" "" "COMMENT")
       else if String.eqb s "{no 95}" then
         Ok (reviewer.mkDeepAnalysisResult false 95 "r" "" "SKIP")
       else Fail "invalid character";
     json_Unmarshal_NitpickResult := fun s =>
       if String.eqb s "{nit}" then Ok (reviewer.mkNitpickResult [nitpick1])
       else Fail "invalid character";
     json_Unmarshal_CommentAnalysis := fun s =>
       if String.eqb s "{defend}" then
         Ok (defender.mkCommentAnalysis false 20 ["p"] "m" "DEFEND")
       else if String.eqb s "{concede}" then
         Ok (defender.mkCommentAnalysis true 99 [] "" "CONCEDE")
       else Fail "invalid character";
     json_Marshal_CommentAnalysis := fun _ => Ok "{}";
     GetSystemPrompt := fun _ _ => "system";
     GetFirstPassPrompt := "first pass";
     GetDeepAnalysisPrompt := fun i _ _ => "deep: " +:+ i;
     GetCommentFormattingPrompt := fun i _ _ => "format: " +:+ i;
     GetExtraNitpickPrompt := fun _ _ => "nitpick";
     GetDefenseSystemPrompt := fun _ => "defense";
     GetCommentAnalysisPrompt := fun c _ => "analyze: " +:+ c;
     GetDefenseResponsePrompt := fun c _ _ => "defend: " +:+ c;
     GetConcessionPrompt := fun c _ => "concede: " +:+ c |}.

Definition cfg (level : int) (liked disliked : list string) : config.Config :=
  config.mkConfig "token" "https://api.example/v1/" "key" "gpt-4"
    config.StyleTechBro level liked disliked.

Definition say (s : string) : result (result string) := Ok (Ok s).

(** A reviewer who dislikes mallory, and a pull request by mallory for
    which the first pass finds nothing and the nitpicker one thing. *)
Definition hostile : reviewer.Reviewer :=
  reviewer.NewReviewer (cfg 5 [] ["mallory"]).

Definition world_nitpick_only : World :=
  world "mallory" [say "{0}"; say "{nit}"] None.

(** A neutral reviewer at level 8, and a pull request by bob with three
    candidates: the first is confirmed and formatted, the deep analysis of
    the second fails, the third is confirmed and its formatting fails. *)
Definition strict : reviewer.Reviewer := reviewer.NewReviewer (cfg 8 [] []).

Definition world_three (post : option error) : World :=
  world "bob"
    [say "{3}"; say "{yes 90}"; Fail "timeout"; say "{yes 50}";
     say "Please fix."; Fail "reset"]
    post.

(** A defender, and a pull request of their own with two reviewer
    comments: the first is defended, the analysis of the second fails. *)
Definition me : defender.Defender := defender.NewDefender (cfg 5 [] []).

Definition world_defense (post : option error) : World :=
  world "me" [say "{defend}"; say "No."; Fail "timeout"] post.

End Fixture.


(* ===================================================================== *)
(** * The command line                                                    *)
(* ===================================================================== *)

Module main.

(** [maskToken] (lines 475-483). The token is longer than 8 bytes where
    [len(token)-4] is computed. *)
Definition maskToken (token : string) : string :=
  if String.eqb token "" then "(not set)"
  else if len token <=? 8 then "****"
  else slice token 0 4 +:+ "..." +:+ slice token (len token - 4) (len token).

End main.

(* ===================================================================== *)
(** * Vocabulary for the calls to the outside                             *)
(* ===================================================================== *)

Module Calls.

(** The candidate test files of [GetRelatedFiles] (lines 369-375). *)
Definition testPatterns (path : string) : list string :=
  let dir := github.getDirectory path in
  let filename := github.getFilename path in
  let ext := github.getExtension path in
  let baseName := strings.TrimSuffix filename ext in
  [ dir +:+ "/" +:+ baseName +:+ "_test" +:+ ext;
    dir +:+ "/" +:+ baseName +:+ ".test" +:+ ext;
    dir +:+ "/" +:+ baseName +:+ ".spec" +:+ ext;
    "test/" +:+ path;
    "tests/" +:+ path ].

(** The call that fetches one file of a repository at a commit. *)
Definition fetch (owner repo ref path : string) : Event :=
  EvGetFileContent owner repo path ref.

(** A request to the chat service. *)
Definition is_chat (e : Event) : bool :=
  match e with EvHTTPDo _ _ => true | _ => false end.

Definition chats (d : Trace) : int := len_slice (List.filter is_chat d).

(** A fetch of a file. *)
Definition is_fetch (e : Event) : bool :=
  match e with EvGetFileContent _ _ _ _ => true | _ => false end.

Definition fetches (d : Trace) : int := len_slice (List.filter is_fetch d).

(** At most [c] requests to the chat service and [f] fetches of files. *)
Definition within (c f : int) (d : Trace) : Prop :=
  chats d <= c /\ fetches d <= f.

End Calls.

(* ===================================================================== *)
(** * The configuration file and the commands                             *)
(* ===================================================================== *)

Module os.

(** Permission bits: [0700] and [0600]. *)
Definition FileMode := Z.
Definition mode_0700 : FileMode := 448.
Definition mode_0600 : FileMode := 384.

(** The host of the process, for what [config] and [main] ask of it. The
    state of the host (environment and files) is a value [fs] that the
    writing calls return anew; [filepath.Join] of two elements,
    [gopkg.in/yaml.v3] at the type [Config] (decoding fills a value given)
    and [strconv.Atoi] are library code. An error is its message, and
    [IsNotExist] tells the errors of a missing file. *)
Record Host (FS : Type) : Type := mkHost {
  UserHomeDir : FS -> result string;
  ReadFile : FS -> string -> result string;
  IsNotExist : error -> bool;
  MkdirAll : FS -> string -> FileMode -> option error * FS;
  WriteFile : FS -> string -> string -> FileMode -> option error * FS;
  filepath_Join : string -> string -> string;
  yaml_Unmarshal_Config : string -> config.Config -> result config.Config;
  yaml_Marshal_Config : config.Config -> result string;
  strconv_Atoi : string -> result int
}.
Arguments UserHomeDir {FS} _ _.
Arguments ReadFile {FS} _ _ _.
Arguments IsNotExist {FS} _ _.
Arguments MkdirAll {FS} _ _ _ _.
Arguments WriteFile {FS} _ _ _ _ _.
Arguments filepath_Join {FS} _ _ _.
Arguments yaml_Unmarshal_Config {FS} _ _ _.
Arguments yaml_Marshal_Config {FS} _ _.
Arguments strconv_Atoi {FS} _ _.

End os.

Section Commands.

Context (lib : Lib) (world : World) {FS : Type} (host : os.Host FS).

Local Open Scope io_scope.

(** ** Package config: the file (config.go, lines 48-119) *)

Definition config_ConfigDir (fs : FS) : result string :=
  match os.UserHomeDir host fs with
  | Fail err => Fail ("could not find home directory: " +:+ err)
  | Ok home => Ok (os.filepath_Join host home ".salty-reviewer")
  end.

Definition config_ConfigPath (fs : FS) : result string :=
  match config_ConfigDir fs with
  | Fail err => Fail err
  | Ok dir => Ok (os.filepath_Join host dir "config.yaml")
  end.

Definition config_Load (fs : FS) : result config.Config :=
  match config_ConfigPath fs with
  | Fail err => Fail err
  | Ok path =>
    match os.ReadFile host fs path with
    | Fail err =>
        if os.IsNotExist host err
        then Fail "config not found. Run 'salty init' first"
        else Fail ("could not read config: " +:+ err)
    | Ok data =>
      match os.yaml_Unmarshal_Config host data config.DefaultConfig with
      | Fail err => Fail ("could not parse config: " +:+ err)
      | Ok cfg =>
        match config.Validate cfg with
        | Some err => Fail err
        | None => Ok cfg
        end
      end
    end
  end.

(** [Save] returns its error and the state of the host after it. *)
Definition Config_Save (c : config.Config) (fs : FS) : option error * FS :=
  match config_ConfigDir fs with
  | Fail err => (Some err, fs)
  | Ok dir =>
    match os.MkdirAll host fs dir os.mode_0700 with
    | (Some err, fs) =>
        (Some ("could not create config directory: " +:+ err), fs)
    | (None, fs) =>
      match config_ConfigPath fs with
      | Fail err => (Some err, fs)
      | Ok path =>
        match os.yaml_Marshal_Config host c with
        | Fail err => (Some ("could not encode config: " +:+ err), fs)
        | Ok data =>
          match os.WriteFile host fs path data os.mode_0600 with
          | (Some err, fs) => (Some ("could not write config: " +:+ err), fs)
          | (None, fs) => (None, fs)
          end
        end
      end
    end
  end.

(** ** Package main: the commands (lines 358-473) *)

(** [args] holds one element ([cobra.ExactArgs(1)]). *)
Definition runReview (prRef : string) (dryRun : bool) (fs : FS)
  : IO (option error) :=
  match config_Load fs with
  | Fail err => ret (Some err)
  | Ok cfg =>
      let r := reviewer.NewReviewer cfg in
      res <- Reviewer_Review lib world r prRef dryRun ;;
      ret (match res with Ok _ => None | Fail err => Some err end)
  end.

Definition runDefend (prRef : string) (dryRun : bool) (fs : FS)
  : IO (option error) :=
  match config_Load fs with
  | Fail err => ret (Some err)
  | Ok cfg =>
      let d := defender.NewDefender cfg in
      res <- Defender_Defend lib world d prRef dryRun ;;
      ret (match res with Ok _ => None | Fail err => Some err end)
  end.

(** The assignments of [runConfigSet] to the fields of the configuration. *)
Definition set_field (c : config.Config)
  (token url key model : string) (style : config.WritingStyle) (level : int)
  : config.Config :=
  {| config.Config_GitHubToken := token;
     config.Config_AIApiURL := url;
     config.Config_AIApiKey := key;
     config.Config_AIModel := model;
     config.Config_WritingStyle := style;
     config.Config_NitpickyLevel := level;
     config.Config_LikedReviewers := config.Config_LikedReviewers c;
     config.Config_DislikedReviewers := config.Config_DislikedReviewers c |}.

Definition set_WritingStyle (c : config.Config) (style : config.WritingStyle)
  : config.Config :=
  set_field c (config.Config_GitHubToken c) (config.Config_AIApiURL c)
    (config.Config_AIApiKey c) (config.Config_AIModel c) style
    (config.Config_NitpickyLevel c).

(** The switch on the key (lines 412-442): the new configuration, or the
    error returned. *)
Definition runConfigSet_switch (cfg : config.Config) (key value : string)
  : result config.Config :=
  if String.eqb key "writing_style" then
    if String.eqb value "corporate" then
      Ok (set_WritingStyle cfg config.StyleCorporate)
    else if String.eqb value "passive_aggressive" then
      Ok (set_WritingStyle cfg config.StylePassiveAggressive)
    else if String.eqb value "tech_bro" then
      Ok (set_WritingStyle cfg config.StyleTechBro)
    else if String.eqb value "academic" then
      Ok (set_WritingStyle cfg config.StyleAcademic)
    else Fail ("invalid writing style: " +:+ value)
  else if String.eqb key "nitpicky_level" then
    match os.strconv_Atoi host value with
    | Fail _ => Fail "nitpicky_level must be 1-10"
    | Ok level =>
        if (level <? 1) || (level >? 10)
        then Fail "nitpicky_level must be 1-10"
        else Ok (set_field cfg (config.Config_GitHubToken cfg)
                   (config.Config_AIApiURL cfg) (config.Config_AIApiKey cfg)
                   (config.Config_AIModel cfg) (config.Config_WritingStyle cfg)
                   level)
    end
  else if String.eqb key "github_token" then
    Ok (set_field cfg value (config.Config_AIApiURL cfg)
          (config.Config_AIApiKey cfg) (config.Config_AIModel cfg)
          (config.Config_WritingStyle cfg) (config.Config_NitpickyLevel cfg))
  else if String.eqb key "ai_api_url" then
    Ok (set_field cfg (config.Config_GitHubToken cfg) value
          (config.Config_AIApiKey cfg) (config.Config_AIModel cfg)
          (config.Config_WritingStyle cfg) (config.Config_NitpickyLevel cfg))
  else if String.eqb key "ai_api_key" then
    Ok (set_field cfg (config.Config_GitHubToken cfg)
          (config.Config_AIApiURL cfg) value (config.Config_AIModel cfg)
          (config.Config_WritingStyle cfg) (config.Config_NitpickyLevel cfg))
  else if String.eqb key "ai_model" then
    Ok (set_field cfg (config.Config_GitHubToken cfg)
          (config.Config_AIApiURL cfg) (config.Config_AIApiKey cfg) value
          (config.Config_WritingStyle cfg) (config.Config_NitpickyLevel cfg))
  else Fail ("unknown config key: " +:+ key).

(** [args] holds the key and the value ([cobra.ExactArgs(2)]). *)
Definition runConfigSet (key value : string) (fs : FS)
  : IO (option error * FS) :=
  let cfg := match config_Load fs with
             | Ok cfg => cfg
             | Fail _ => config.DefaultConfig
             end in
  match runConfigSet_switch cfg key value with
  | Fail err => ret (Some err, fs)
  | Ok cfg =>
      match Config_Save cfg fs with
      | (Some err, fs) => ret (Some err, fs)
      | (None, fs) =>
          Printf ("✅ Set %s = %s" +:+ nl) [AStr key; AStr value] ;;
          ret (None, fs)
      end
  end.

Definition runConfigAdd (list_ username : string) (fs : FS)
  : IO (option error * FS) :=
  match config_Load fs with
  | Fail err => ret (Some err, fs)
  | Ok cfg =>
      if String.eqb list_ "liked_reviewer" then
        let cfg := config.AddLikedReviewer cfg username in
        Printf ("✅ Added @%s to liked reviewers (will go easy on them)" +:+ nl)
          [AStr username] ;;
        ret (Config_Save cfg fs)
      else if String.eqb list_ "disliked_reviewer" then
        let cfg := config.AddDislikedReviewer cfg username in
        Printf ("✅ Added @%s to disliked reviewers (extra scrutiny mode)" +:+ nl)
          [AStr username] ;;
        ret (Config_Save cfg fs)
      else
        ret (Some ("unknown list: " +:+ list_ +:+
                   " (use liked_reviewer or disliked_reviewer)"), fs)
  end.

(** [%v] of a slice of strings. *)
Definition fmt_strings (l : list string) : string :=
  "[" +:+ strings.Join l " " +:+ "]".

(** [runConfigShow] (lines 380-401). *)
Definition runConfigShow (fs : FS) : IO (option error) :=
  cfg <- match config_Load fs with
         | Ok cfg => ret cfg
         | Fail _ =>
             Println "⚠️  No config found. Run 'salty init' to create one." ;;
             Println (nl +:+ "Default settings:") ;;
             ret config.DefaultConfig
         end ;;
  Println "🧂 Salty Code Reviewer Configuration" ;;
  Println "─────────────────────────────────────────" ;;
  Printf ("Writing Style:      %s" +:+ nl)
    [AStr (config.Config_WritingStyle cfg)] ;;
  Printf ("Nitpicky Level:     %d/10" +:+ nl)
    [AInt (config.Config_NitpickyLevel cfg)] ;;
  Printf ("AI API URL:         %s" +:+ nl) [AStr (config.Config_AIApiURL cfg)] ;;
  Printf ("AI Model:           %s" +:+ nl) [AStr (config.Config_AIModel cfg)] ;;
  Printf ("GitHub Token:       %s" +:+ nl)
    [AStr (main.maskToken (config.Config_GitHubToken cfg))] ;;
  Printf ("AI API Key:         %s" +:+ nl)
    [AStr (main.maskToken (config.Config_AIApiKey cfg))] ;;
  Printf ("Liked Reviewers:    %v" +:+ nl)
    [AStr (fmt_strings (config.Config_LikedReviewers cfg))] ;;
  Printf ("Disliked Reviewers: %v" +:+ nl)
    [AStr (fmt_strings (config.Config_DislikedReviewers cfg))] ;;
  ret None.

End Commands.

(** A host with one file, for running the commands: the state is the
    content of the configuration file, if there is one. The toy codec
    writes the token, the level and the two lists of the configuration. *)
Module Desk.

Definition encode (c : config.Config) : string :=
  config.Config_GitHubToken c +:+ "|" +:+
  itoa (config.Config_NitpickyLevel c) +:+ "|" +:+
  strings.Join (config.Config_LikedReviewers c) "," +:+ "|" +:+
  strings.Join (config.Config_DislikedReviewers c) ",".

(** A configuration with a token of more than 8 bytes. *)
Definition long_token (token : string) : config.Config :=
  set_field (Fixture.cfg 5 [] []) token "https://api.example/v1/" "key" "gpt-4"
    config.StyleTechBro 5.

(** The configurations that the toy codec knows. *)
Definition known : list config.Config :=
  [ Fixture.cfg 5 ["ann"] ["bob"];
    Fixture.cfg 7 ["ann"] ["bob"];
    Fixture.cfg 5 ["ann"; "bob"] [];
    Fixture.cfg 5 [] [];
    long_token "ghp_0123456789abcdef";
    long_token "ghp_zyxwvutsrqcdef" ].

Definition decode (data : string) : result config.Config :=
  match List.find (fun c => String.eqb (encode c) data) known with
  | Some c => Ok c
  | None => Fail "yaml: unmarshal errors"
  end.

Definition host : os.Host (option string) :=
  {| os.UserHomeDir := fun _ => Ok "/home/me";
     os.ReadFile := fun fs _ =>
       match fs with
       | Some data => Ok data
       | None => Fail "no such file or directory"
       end;
     os.IsNotExist := fun err => String.eqb err "no such file or directory";
     os.MkdirAll := fun fs _ _ => (None, fs);
     os.WriteFile := fun _ _ data _ => (None, Some data);
     os.filepath_Join := fun a b => a +:+ "/" +:+ b;
     os.yaml_Unmarshal_Config := fun data _ => decode data;
     os.yaml_Marshal_Config := fun c => Ok (encode c);
     os.strconv_Atoi := fun s =>
       if String.eqb s "7" then Ok 7
       else if String.eqb s "11" then Ok 11
       else Fail "invalid syntax" |}.

End Desk.

(* ===================================================================== *)
(** * The stages of a run, every call at its moment                       *)
(* ===================================================================== *)

(** A reference for [Review] and [Defend] that keeps what the program
    forgets: the outcome of every call made for an item, taken at the
    trace at which the program makes it. Nothing here is quantified over
    a trace: the stages of a run are a function of the trace at which the
    run starts. *)
Module Stages.

(** A stage takes the items of a list one by one, in order. An item is
    handled by one call, made when the item is reached: after the lines
    [before] and before the lines [after], which depend on its outcome.
    The stage yields the outcome of every item and the trace once the
    last item is done. *)
Fixpoint stage {A B : Type} (handle : A -> IO B)
  (before : int -> A -> Trace) (after : A -> B -> Trace)
  (i : int) (items : list A) (tr : Trace) : list B * Trace :=
  match items with
  | [] => ([], tr)
  | x :: rest =>
      let start := (tr ++ before i x)%list in
      let out := run (handle x) start in
      let later :=
        stage handle before after (i + 1) rest
          (trace_of (handle x) start ++ after x out)%list in
      (out :: fst later, snd later)
  end.

Section Stages.

Context (lib : Lib) (world : World).

Local Open Scope io_scope.

(** ** Review *)

(** The line that announces the deep analysis of a candidate. *)
Definition deep_before (total i : int) (issue : reviewer.Issue) : Trace :=
  [ EvPrintf ("   [%d/%d] Analyzing: %s (line %d)..." +:+ nl)
      [AInt (i + 1); AInt total; AStr (reviewer.Issue_File issue);
       AInt (reviewer.Issue_Line issue)] ].

(** The line that reports its outcome: failed, confirmed or skipped. *)
Definition deep_after (e : int) (issue : reviewer.Issue)
  (out : result reviewer.DeepAnalysisResult) : Trace :=
  match out with
  | Fail err =>
      [ EvPrintf ("      ⚠️  Deep analysis failed: %v" +:+ nl) [AStr err] ]
  | Ok a =>
      if acceptedb e a then
        [ EvPrintf ("      ✓ Confirmed (confidence: %d%%)" +:+ nl)
            [AInt (reviewer.DeepAnalysisResult_Confidence a)] ]
      else
        [ EvPrintf ("      ✗ Skipped (confidence: %d%%, threshold: %d%%)" +:+ nl)
            [AInt (reviewer.DeepAnalysisResult_Confidence a);
             AInt (90 - 5 * e)] ]
  end.

(** The deep analysis of the candidates: one call of [DeepAnalyze] for
    each, in order. *)
Definition deep_stage (r : reviewer.Reviewer) (ref : github.PRReference)
  (pr : github.PullRequest) (e : int) (issues : list reviewer.Issue)
  (tr : Trace) : list (result reviewer.DeepAnalysisResult) * Trace :=
  stage
    (fun issue =>
       Analyzer_DeepAnalyze lib world (reviewer.Reviewer_analyzer r) issue ref pr)
    (deep_before (len_slice issues)) (deep_after e) 0 issues tr.

(** Nothing is printed before a comment is formatted; a failure is
    reported. *)
Definition format_after (ci : reviewer.AnalyzedIssue) (out : result string)
  : Trace :=
  match out with
  | Fail err =>
      [ EvPrintf ("   ⚠️  Failed to format comment: %v" +:+ nl) [AStr err] ]
  | Ok _ => []
  end.

(** The formatting of the confirmed issues: one call of [formatComment]
    for each, in order. *)
Definition format_stage (r : reviewer.Reviewer)
  (confirmed : list reviewer.AnalyzedIssue) (tr : Trace)
  : list (result string) * Trace :=
  stage (Reviewer_formatComment lib world r) (fun _ _ => []) format_after
    0 confirmed tr.

(** The extra nitpicks: for a disliked author one call of
    [GenerateExtraNitpicks], given the bodies of the comments made so far;
    its failure leaves no nitpick and no line. *)
Definition nitpick_stage (r : reviewer.Reviewer) (author : string)
  (files : list github.FileChange) (comments : list github.ReviewComment)
  (tr : Trace) : list reviewer.Nitpick * Trace :=
  if config.IsDislikedReviewer (reviewer.Reviewer_config r) author then
    let start :=
      (tr ++ [EvPrintln "😈 Generating extra nitpicks for disliked reviewer..."])%list in
    let m :=
      Analyzer_GenerateExtraNitpicks lib world (reviewer.Reviewer_analyzer r)
        files (map github.ReviewComment_Body comments) in
    match run m start with
    | Ok nitpicks =>
        (reviewer.NitpickResult_Nitpicks nitpicks,
         (trace_of m start ++
          [EvPrintf ("   Added %d extra nitpicks" +:+ nl)
             [AInt (len_slice (reviewer.NitpickResult_Nitpicks nitpicks))]])%list)
    | Fail _ => ([], trace_of m start)
    end
  else ([], tr).

(** What a run of [Review] goes through before it publishes. *)
Record Review : Type := mkReview {
  (* the pull request and its changed files *)
  rv_ref : github.PRReference;
  rv_pr : github.PullRequest;
  rv_files : list github.FileChange;
  (* the candidates of the first pass *)
  rv_issues : list reviewer.Issue;
  (* the outcome of the deep analysis of each candidate *)
  rv_judged : list (result reviewer.DeepAnalysisResult);
  (* the outcome of the formatting of each confirmed issue *)
  rv_formatted : list (result string);
  (* the extra nitpicks *)
  rv_nitpicks : list reviewer.Nitpick
}.

(** The effective level for the author of the pull request. *)
Definition level (r : reviewer.Reviewer) (st : Review) : int :=
  effectiveNitpicky (reviewer.Reviewer_config r)
    (github.PullRequest_Login (rv_pr st)).

(** The confirmed issues: the candidates whose deep analysis succeeded
    and was accepted at that level. *)
Definition confirmed (r : reviewer.Reviewer) (st : Review)
  : list reviewer.AnalyzedIssue :=
  confirmed_of (level r st) (combine (rv_issues st) (rv_judged st)).

(** The comments of the confirmed issues whose formatting succeeded. *)
Definition pipeline_comments (r : reviewer.Reviewer) (st : Review)
  : list github.ReviewComment :=
  comments_of (combine (confirmed r st) (rv_formatted st)).

(** The review as it stands before it is published. *)
Definition review (r : reviewer.Reviewer) (st : Review)
  : reviewer.ReviewResult :=
  let base :=
    {| reviewer.ReviewResult_Summary := "";
       reviewer.ReviewResult_Comments := pipeline_comments r st;
       reviewer.ReviewResult_Stats :=
         reviewer.mkReviewStats (len_slice (rv_files st))
           (len_slice (rv_issues st)) (len_slice (confirmed r st)) 0 0 |} in
  let result := fold_left Review_nitpick_body (rv_nitpicks st) base in
  reviewer.set_Summary result (Reviewer_generateSummary r result (rv_pr st)).

(** The stages of the pipeline, for a pull request and its changed
    files, from the trace [tr]: first pass, deep analysis, formatting,
    extra nitpicks; or the error of the first pass. *)
Definition of_pipeline (r : reviewer.Reviewer) (ref : github.PRReference)
  (pr : github.PullRequest) (files : list github.FileChange) (tr : Trace)
  : result Review * Trace :=
  let author := github.PullRequest_Login pr in
  let e := effectiveNitpicky (reviewer.Reviewer_config r) author in
  let t1 :=
    (tr ++ [EvPrintf ("📁 Reviewing %d changed files..." +:+ nl)
              [AInt (len_slice files)];
            EvPrintln "🔎 First pass: identifying potential issues..."])%list in
  let first := Analyzer_FirstPass lib world (reviewer.Reviewer_analyzer r) files in
  match run first t1 with
  | Fail err => (Fail ("first pass failed: " +:+ err), trace_of first t1)
  | Ok firstPass =>
    let issues := reviewer.FirstPassResult_Issues firstPass in
    let t2 :=
      (trace_of first t1 ++
       [EvPrintf ("   Found %d potential issues" +:+ nl)
          [AInt (len_slice issues)];
        EvPrintln "🔬 Deep analysis: verifying each issue..."])%list in
    let deep := deep_stage r ref pr e issues t2 in
    let confirmedIssues := confirmed_of e (combine issues (fst deep)) in
    let t3 :=
      (snd deep ++
       [EvPrintf ("   %d issues confirmed after deep analysis" +:+ nl)
          [AInt (len_slice confirmedIssues)];
        EvPrintln "✍️  Formatting comments..."])%list in
    let formatting := format_stage r confirmedIssues t3 in
    let comments := comments_of (combine confirmedIssues (fst formatting)) in
    let extra := nitpick_stage r author files comments (snd formatting) in
    (Ok {| rv_ref := ref; rv_pr := pr; rv_files := files;
           rv_issues := issues; rv_judged := fst deep;
           rv_formatted := fst formatting; rv_nitpicks := fst extra |},
     snd extra)
  end.

(** The stages of the run of [Review] that starts at [tr], and the trace
    when the review is about to be published; or the error that ends the
    run before, and the trace then. *)
Definition of_Review (r : reviewer.Reviewer) (prRef : string) (tr : Trace)
  : result Review * Trace :=
  match ParsePRReference lib prRef with
  | Fail err => (Fail err, tr)
  | Ok ref =>
    let t1 :=
      (tr ++ [EvPrintf ("🔍 Fetching PR #%d from %s/%s..." +:+ nl)
                [AInt (github.PRReference_Number ref);
                 AStr (github.PRReference_Owner ref);
                 AStr (github.PRReference_Repo ref)]])%list in
    match GetPR world t1 ref with
    | Fail err => (Fail err, (t1 ++ [EvGetPR ref])%list)
    | Ok pr =>
      let cfg := reviewer.Reviewer_config r in
      let author := github.PullRequest_Login pr in
      let e := effectiveNitpicky cfg author in
      let t2 :=
        (t1 ++ [EvGetPR ref;
                EvPrintf ("📝 PR by @%s: %s" +:+ nl)
                  [AStr author; AStr (github.PullRequest_Title pr)]] ++
         (if config.IsLikedReviewer cfg author then
            [EvPrintf ("💚 Author is liked - going easy (nitpicky: %d)" +:+ nl)
               [AInt e]]
          else if config.IsDislikedReviewer cfg author then
            [EvPrintf ("🔴 Author is disliked - extra scrutiny (nitpicky: %d)" +:+ nl)
               [AInt e]]
          else []))%list in
      match GetPRFiles world t2 ref with
      | Fail err => (Fail err, (t2 ++ [EvGetPRFiles ref])%list)
      | Ok files => of_pipeline r ref pr files (t2 ++ [EvGetPRFiles ref])%list
      end
    end
  end.

(** ** Defend *)

(** The line that tells the side taken for a comment. *)
Definition side_line (a : defender.CommentAnalysis) : Event :=
  if concedes a then
    EvPrintf ("   😤 Grudgingly conceding (they're %d%% right)" +:+ nl)
      [AInt (defender.CommentAnalysis_ConfidenceValid a)]
  else
    EvPrintf ("   💪 Defending! (only %d%% valid, found %d defense points)"
              +:+ nl)
      [AInt (defender.CommentAnalysis_ConfidenceValid a);
       AInt (len_slice (defender.CommentAnalysis_DefensePoints a))].

(** The code around the line of a comment, when the file was fetched. *)
Definition code_context (fileContents : gmap string string)
  (comment : github.PRComment) : string :=
  match fileContents !! github.PRComment_Path comment with
  | Some content =>
      defender.extractContext content (github.PRComment_Line comment)
  | None => ""
  end.

(** The treatment of one reviewer comment: one analysis; when it
    succeeds, the line that tells the side taken and one call of the
    response generator of that side. *)
Definition treat (d : defender.Defender) (fileContents : gmap string string)
  (comment : github.PRComment) : IO Defense :=
  an <- Defender_analyzeComment lib world d comment
          (code_context fileContents comment) ;;
  match an with
  | Fail err => ret (AnalysisFailed err)
  | Ok a =>
      call (fun _ => tt) (side_line a) ;;
      response <- answer lib world d comment a ;;
      ret (match response with
           | Ok response => Responded a response
           | Fail err => ResponseFailed a err
           end)
  end.

(** The two lines that announce a reviewer comment. *)
Definition defend_before (total i : int) (comment : github.PRComment) : Trace :=
  [ EvPrintf (nl +:+ "📍 [%d/%d] Comment from @%s on %s" +:+ nl)
      [AInt (i + 1); AInt total; AStr (github.PRComment_User comment);
       AStr (github.PRComment_Path comment)];
    EvPrintf ("   " +:+ dq +:+ "%s" +:+ dq +:+ nl)
      [AStr (defender.truncate (github.PRComment_Body comment) 80)] ].

(** The line that reports a failure. *)
Definition defend_after (comment : github.PRComment) (o : Defense) : Trace :=
  match o with
  | AnalysisFailed err =>
      [ EvPrintf ("   ⚠️  Analysis failed: %v" +:+ nl) [AStr err] ]
  | ResponseFailed _ err =>
      [ EvPrintf ("   ⚠️  Response generation failed: %v" +:+ nl) [AStr err] ]
  | Responded _ _ => []
  end.

(** What a run of [Defend] goes through before it publishes. *)
Record Defend : Type := mkDefend {
  df_ref : github.PRReference;
  df_pr : github.PullRequest;
  (* the comments of the reviewers *)
  df_comments : list github.PRComment;
  (* the contents of the changed files that could be fetched *)
  df_contents : gmap string string;
  (* how the treatment of each comment ended *)
  df_outcomes : list Defense
}.

(** The result of the defense. *)
Definition defense (st : Defend) : defender.DefenseResult :=
  fold_left defense_step (combine (df_comments st) (df_outcomes st))
    (initial_defense (len_slice (df_comments st))).

(** The stages of the run of [Defend] that starts at [tr], and the trace
    when the responses are about to be published; no stages when no
    reviewer has commented; or the error that ends the run before. *)
Definition of_Defend (d : defender.Defender) (prRef : string) (tr : Trace)
  : result (option Defend) * Trace :=
  match ParsePRReference lib prRef with
  | Fail err => (Fail err, tr)
  | Ok ref =>
    let t1 :=
      (tr ++ [EvPrintf ("🛡️  Fetching PR #%d from %s/%s..." +:+ nl)
                [AInt (github.PRReference_Number ref);
                 AStr (github.PRReference_Owner ref);
                 AStr (github.PRReference_Repo ref)]])%list in
    match GetPR world t1 ref with
    | Fail err => (Fail err, (t1 ++ [EvGetPR ref])%list)
    | Ok pr =>
      let myUsername := defender.getMyUsername d in
      let t2 :=
        (t1 ++ [EvGetPR ref] ++
         (if negb (String.eqb (github.PullRequest_Login pr) myUsername) then
            [EvPrintf ("⚠️  Warning: This PR was created by @%s, not you (@%s)" +:+ nl)
               [AStr (github.PullRequest_Login pr); AStr myUsername]]
          else []) ++
         [EvPrintf ("📝 PR: %s" +:+ nl) [AStr (github.PullRequest_Title pr)]])%list in
      match GetPRComments world t2 ref with
      | Fail err => (Fail err, (t2 ++ [EvGetPRComments ref])%list)
      | Ok comments =>
        let otherComments := reviewer_comments d comments in
        let t3 :=
          (t2 ++ [EvGetPRComments ref;
                  EvPrintf ("💬 Found %d comments from reviewers" +:+ nl)
                    [AInt (len_slice otherComments)]])%list in
        if len_slice otherComments =? 0 then
          (Ok None, (t3 ++ [EvPrintln "🎉 No comments to respond to!"])%list)
        else
          let files := match GetPRFiles world t3 ref with
                       | Ok files => files
                       | Fail _ => []
                       end in
          let fetching := for_range (Defend_file_body world d ref pr) 0 files ∅ in
          let t4 := (t3 ++ [EvGetPRFiles ref])%list in
          let fileContents := run fetching t4 in
          let treated :=
            stage (treat d fileContents)
              (defend_before (len_slice otherComments)) defend_after
              0 otherComments (trace_of fetching t4) in
          (Ok (Some {| df_ref := ref; df_pr := pr;
                       df_comments := otherComments;
                       df_contents := fileContents;
                       df_outcomes := fst treated |}),
           snd treated)
      end
    end
  end.

(** The line that ends a run of [Defend]. *)
Definition defense_summary (res : defender.DefenseResult) : Event :=
  EvPrintf (nl +:+ "📊 Summary: %d defended, %d conceded, %d skipped" +:+ nl)
    [AInt (defender.DefenseStats_Defended (defender.DefenseResult_Stats res));
     AInt (defender.DefenseStats_Conceded (defender.DefenseResult_Stats res));
     AInt (defender.DefenseStats_Skipped (defender.DefenseResult_Stats res))].

End Stages.

End Stages.

(* ===================================================================== *)
(** * Where a comment of a review comes from                              *)
(* ===================================================================== *)

Module Origin.

(** The comment made of a confirmed issue and the text formatted for it. *)
Definition issue_comment (issue : reviewer.Issue) (body : string)
  : github.ReviewComment :=
  github.mkReviewComment (reviewer.Issue_File issue)
    (reviewer.Issue_Line issue) body "RIGHT".

(** A comment has gone through both stages of a run when it is made of a
    candidate of the first pass of that run, which the deep analysis of
    that run judged and accepted at the level of the author of the pull
    request, and of the text that the run formatted for it. *)
Definition two_stage_origin (r : reviewer.Reviewer) (st : Stages.Review)
  (c : github.ReviewComment) : Prop :=
  exists (k j : nat) issue a body,
    Stages.rv_issues st !! k = Some issue /\
    Stages.rv_judged st !! k = Some (Ok a) /\
    accepted (Stages.level r st) a /\
    Stages.confirmed r st !! j = Some (reviewer.mkAnalyzedIssue issue a) /\
    Stages.rv_formatted st !! j = Some (Ok body) /\
    c = issue_comment issue body.

(** A comment is an extra nitpick of a run when the author of the pull
    request is disliked and the comment is made of a nitpick that the run
    generated. *)
Definition extra_nitpick (r : reviewer.Reviewer) (st : Stages.Review)
  (c : github.ReviewComment) : Prop :=
  config.IsDislikedReviewer (reviewer.Reviewer_config r)
    (github.PullRequest_Login (Stages.rv_pr st)) = true /\
  exists np, In np (Stages.rv_nitpicks st) /\ c = nitpick_comment np.

(** The third claim as the specification words it, for the run of
    [Review] that starts at [tr]: every comment of the result has gone
    through both stages of that run. *)
Definition every_comment_two_stage (lib : Lib) (world : World)
  (r : reviewer.Reviewer) (prRef : string) (dryRun : bool) (tr : Trace)
  : Prop :=
  forall result,
    run (Reviewer_Review lib world r prRef dryRun) tr = Ok result ->
    exists st t,
      Stages.of_Review lib world r prRef tr = (Ok st, t) /\
      forall c, In c (reviewer.ReviewResult_Comments result) ->
                two_stage_origin r st c.

(** A candidate has been turned into a review comment of a result when
    the result holds a comment at its file and line. *)
Definition turned_into_comment (result : reviewer.ReviewResult)
  (issue : reviewer.Issue) : Prop :=
  exists c, In c (reviewer.ReviewResult_Comments result) /\
            comment_place c = issue_place issue.

(** The first claim as the specification words it, for the run of
    [Review] that starts at [tr]: a candidate that has been deep-analysed
    is turned into a review comment exactly when its analysis is
    accepted. *)
Definition confirmed_means_comment (lib : Lib) (world : World)
  (r : reviewer.Reviewer) (prRef : string) (dryRun : bool) (tr : Trace)
  : Prop :=
  forall result,
    run (Reviewer_Review lib world r prRef dryRun) tr = Ok result ->
    exists st t,
      Stages.of_Review lib world r prRef tr = (Ok st, t) /\
      forall (k : nat) issue a,
        Stages.rv_issues st !! k = Some issue ->
        Stages.rv_judged st !! k = Some (Ok a) ->
        (turned_into_comment result issue <-> accepted (Stages.level r st) a).

End Origin.
(* ===================================================================== *)
(** * Rules for [spec]                                                    *)
(* ===================================================================== *)

Section Rules.

Context {A B : Type}.

Lemma spec_ret (a : A) (Q : A -> Trace -> Prop) :
  Q a [] -> spec (ret a) Q.
Proof.
  intros HQ tr. exists a, []. rewrite app_nil_r. auto.
Qed.

Lemma spec_bind (m : IO A) (k : A -> IO B) (Q : A -> Trace -> Prop)
  (R : B -> Trace -> Prop) :
  spec m Q ->
  (forall a d1, Q a d1 -> spec (k a) (fun b d2 => R b (d1 ++ d2)%list)) ->
  spec (bind m k) R.
Proof.
  intros Hm Hk tr. unfold bind.
  destruct (Hm tr) as (a & d1 & -> & HQ).
  destruct (Hk a d1 HQ (tr ++ d1)%list) as (b & d2 & -> & HR).
  exists b, (d1 ++ d2)%list. rewrite app_assoc. auto.
Qed.

Lemma spec_call (answer : Trace -> A) (e : Event) (Q : A -> Trace -> Prop) :
  (forall tr, Q (answer tr) [e]) -> spec (call answer e) Q.
Proof.
  intros HQ tr. exists (answer tr), [e]. auto.
Qed.

Lemma spec_mono (m : IO A) (Q Q' : A -> Trace -> Prop) :
  spec m Q -> (forall a d, Q a d -> Q' a d) -> spec m Q'.
Proof.
  intros Hm HQ tr. destruct (Hm tr) as (a & d & E & H). eauto.
Qed.

Lemma spec_conj (m : IO A) (Q Q' : A -> Trace -> Prop) :
  spec m Q -> spec m Q' -> spec m (fun a d => Q a d /\ Q' a d).
Proof.
  intros H1 H2 tr.
  destruct (H1 tr) as (a & d & E & HQ), (H2 tr) as (a' & d' & E' & HQ').
  rewrite E in E'. injection E' as <- Ed. apply app_inv_head in Ed as <-.
  eauto.
Qed.

(** The value returned is the one the computation returns somewhere. *)
Lemma spec_run (m : IO A) (Q : A -> Trace -> Prop) :
  spec m Q -> spec m (fun a d => Q a d /\ exists tr, a = run m tr).
Proof.
  intros Hm tr. destruct (Hm tr) as (a & d & E & H).
  exists a, d. repeat split; auto. exists tr. unfold run. now rewrite E.
Qed.

Lemma spec_elim (m : IO A) (Q : A -> Trace -> Prop) tr :
  spec m Q ->
  exists d, trace_of m tr = (tr ++ d)%list /\ Q (run m tr) d.
Proof.
  intros Hm. destruct (Hm tr) as (a & d & E & H).
  exists d. unfold trace_of, run. rewrite E. auto.
Qed.

End Rules.

Lemma spec_Printf format args (Q : unit -> Trace -> Prop) :
  Q tt [EvPrintf format args] -> spec (Printf format args) Q.
Proof. intros H. apply spec_call. auto. Qed.

Lemma spec_Println line (Q : unit -> Trace -> Prop) :
  Q tt [EvPrintln line] -> spec (Println line) Q.
Proof. intros H. apply spec_call. auto. Qed.

(** The loop rule: [Inv done acc d] relates the items processed so far,
    the accumulator and the events of the loop so far. *)
Lemma spec_for_range_from {A S} (body : int -> A -> S -> IO S)
  (Inv : list A -> S -> Trace -> Prop) (l : list A) :
  (forall i done x acc d,
      Inv done acc d ->
      spec (body i x acc) (fun acc' d' => Inv (done ++ [x]) acc' (d ++ d'))%list) ->
  forall i done acc d,
    Inv done acc d ->
    spec (for_range body i l acc)
         (fun acc' d' => Inv (done ++ l) acc' (d ++ d'))%list.
Proof.
  intros Hbody. induction l as [|x rest IH]; intros i done acc d HI; simpl.
  - apply spec_ret. now rewrite !app_nil_r.
  - eapply spec_bind; [apply (Hbody i done x acc d HI)|].
    intros acc' d1 HI'. simpl in HI'.
    eapply spec_mono; [apply (IH (i + 1) _ _ _ HI')|].
    intros a d2. simpl. rewrite <- !app_assoc. simpl. auto.
Qed.

Lemma spec_for_range {A S} (body : int -> A -> S -> IO S)
  (Inv : list A -> S -> Trace -> Prop) (l : list A) i acc :
  Inv [] acc [] ->
  (forall i done x acc d,
      Inv done acc d ->
      spec (body i x acc) (fun acc' d' => Inv (done ++ [x]) acc' (d ++ d'))%list) ->
  spec (for_range body i l acc) (Inv l).
Proof.
  intros H0 Hbody.
  eapply spec_mono;
    [apply (spec_for_range_from body Inv l Hbody i [] acc [] H0)|].
  intros a d. simpl. auto.
Qed.

(** ** Rules for [only] *)

Lemma only_ret {A} P (a : A) : only P (ret a).
Proof. apply spec_ret. constructor. Qed.

Lemma only_bind {A B} P (m : IO A) (k : A -> IO B) :
  only P m -> (forall a, only P (k a)) -> only P (bind m k).
Proof.
  intros Hm Hk. eapply spec_bind; [apply Hm|].
  intros a d1 Hd1. eapply spec_mono; [apply (Hk a)|].
  intros b d2 Hd2. simpl in *. apply Forall_app. auto.
Qed.

Lemma only_call {A} (P : Event -> Prop) (answer : Trace -> A) e :
  P e -> only P (call answer e).
Proof. intros H. apply spec_call. intros _. constructor; auto. Qed.

Lemma only_for_range {A S} P (body : int -> A -> S -> IO S) l :
  (forall i x acc, only P (body i x acc)) ->
  forall i acc, only P (for_range body i l acc).
Proof.
  intros Hbody. induction l as [|x rest IH]; intros i acc; simpl.
  - apply only_ret.
  - apply only_bind; auto.
Qed.

(* ===================================================================== *)
(** * Which calls each function makes                                     *)
(* ===================================================================== *)

Ltac only_step HP :=
  first
    [ apply only_ret
    | apply only_call; apply HP; reflexivity
    | apply only_bind; [|intros ?]
    | apply only_for_range; intros ? ? ?
    | match goal with
      | |- only _ (match ?x with _ => _ end) => destruct x
      | |- only _ (let _ := _ in _) => cbv zeta
      end ].

Ltac only_auto HP := repeat only_step HP.

(** Everything below the two publishing steps performs no posting call:
    it satisfies every event predicate that holds of the other calls. *)
Section NoPosting.

Context (lib : Lib) (world : World).
Context (P : Event -> Prop) (HP : forall e, is_post e = false -> P e).

Lemma only_GetFileContent c owner repo path ref :
  only P (github_Client_GetFileContent world c owner repo path ref).
Proof. unfold github_Client_GetFileContent. only_auto HP. Qed.

Lemma only_GetRelatedFiles c owner repo path ref :
  only P (github_Client_GetRelatedFiles world c owner repo path ref).
Proof.
  unfold github_Client_GetRelatedFiles. cbv zeta.
  apply only_for_range. intros i x acc.
  apply only_bind; [apply only_GetFileContent|].
  intros a. only_auto HP.
Qed.

Lemma only_ChatWithOptions c messages temperature maxTokens :
  only P (ai_Client_ChatWithOptions lib world c messages temperature maxTokens).
Proof. unfold ai_Client_ChatWithOptions. only_auto HP. Qed.

Lemma only_Chat c messages : only P (ai_Client_Chat lib world c messages).
Proof. apply only_ChatWithOptions. Qed.

Lemma only_FirstPass a files : only P (Analyzer_FirstPass lib world a files).
Proof.
  unfold Analyzer_FirstPass. cbv zeta.
  apply only_bind; [apply only_Chat|]. intros x. only_auto HP.
Qed.

Lemma only_DeepAnalyze a issue ref pr :
  only P (Analyzer_DeepAnalyze lib world a issue ref pr).
Proof.
  unfold Analyzer_DeepAnalyze. cbv zeta.
  apply only_bind; [apply only_GetFileContent|]. intros fc.
  apply only_bind; [apply only_GetRelatedFiles|]. intros related.
  apply only_bind.
  { apply only_for_range. intros i x acc.
    apply only_bind; [apply only_GetFileContent|]. intros y. only_auto HP. }
  intros rc. apply only_bind; [apply only_Chat|]. intros x. only_auto HP.
Qed.

Lemma only_GenerateExtraNitpicks a files existing :
  only P (Analyzer_GenerateExtraNitpicks lib world a files existing).
Proof.
  unfold Analyzer_GenerateExtraNitpicks. cbv zeta.
  apply only_bind; [apply only_Chat|]. intros x. only_auto HP.
Qed.

Lemma only_formatComment r ci : only P (Reviewer_formatComment lib world r ci).
Proof.
  unfold Reviewer_formatComment. cbv zeta.
  apply only_bind; [apply only_Chat|]. intros x. only_auto HP.
Qed.

Lemma only_deep_body r ref pr e total i issue acc :
  only P (Review_deep_body lib world r ref pr e total i issue acc).
Proof.
  unfold Review_deep_body, Printf.
  apply only_bind; [only_auto HP|]. intros _.
  apply only_bind; [apply only_DeepAnalyze|]. intros res.
  destruct res; [|only_auto HP].
  cbv zeta. match goal with |- only _ (if ?b then _ else _) => destruct b end;
    only_auto HP.
Qed.

Lemma only_format_body r i ci acc :
  only P (Review_format_body lib world r i ci acc).
Proof.
  unfold Review_format_body, Printf.
  apply only_bind; [apply only_formatComment|]. intros res. only_auto HP.
Qed.

Lemma only_extra_nitpicks r author files result :
  only P (Review_extra_nitpicks lib world r author files result).
Proof.
  unfold Review_extra_nitpicks, Printf, Println.
  destruct (config.IsDislikedReviewer _ _); [|apply only_ret].
  apply only_bind; [only_auto HP|]. intros _. cbv zeta.
  apply only_bind; [apply only_GenerateExtraNitpicks|]. intros res.
  only_auto HP.
Qed.

Lemma only_pipeline r ref pr author e files :
  only P (Review_pipeline lib world r ref pr author e files).
Proof.
  unfold Review_pipeline, Printf, Println.
  apply only_bind; [only_auto HP|]. intros _. cbv zeta.
  apply only_bind; [only_auto HP|]. intros _.
  apply only_bind; [apply only_FirstPass|]. intros fp.
  destruct fp as [firstPass|err]; [|apply only_ret].
  apply only_bind; [only_auto HP|]. intros _.
  apply only_bind; [only_auto HP|]. intros _.
  apply only_bind.
  { apply only_for_range. intros. apply only_deep_body. }
  intros confirmed.
  apply only_bind; [only_auto HP|]. intros _.
  apply only_bind; [only_auto HP|]. intros _.
  apply only_bind.
  { apply only_for_range. intros. apply only_format_body. }
  intros comments.
  apply only_bind; [apply only_extra_nitpicks|]. intros result.
  apply only_ret.
Qed.

Lemma only_analyzeComment d comment ctx :
  only P (Defender_analyzeComment lib world d comment ctx).
Proof.
  unfold Defender_analyzeComment. cbv zeta.
  apply only_bind; [apply only_Chat|]. intros x. only_auto HP.
Qed.

Lemma only_generateDefense d comment analysis :
  only P (Defender_generateDefense lib world d comment analysis).
Proof.
  unfold Defender_generateDefense. cbv zeta.
  apply only_bind; [apply only_Chat|]. intros x. only_auto HP.
Qed.

Lemma only_generateConcession d comment :
  only P (Defender_generateConcession lib world d comment).
Proof.
  unfold Defender_generateConcession. cbv zeta.
  apply only_bind; [apply only_Chat|]. intros x. only_auto HP.
Qed.

Lemma only_file_body d ref pr i f acc :
  only P (Defend_file_body world d ref pr i f acc).
Proof.
  unfold Defend_file_body.
  apply only_bind; [apply only_GetFileContent|]. intros x. only_auto HP.
Qed.

Lemma only_comment_body d fileContents total i comment acc :
  only P (Defend_comment_body lib world d fileContents total i comment acc).
Proof.
  unfold Defend_comment_body, Printf.
  apply only_bind; [only_auto HP|]. intros _.
  apply only_bind; [only_auto HP|]. intros _. cbv zeta.
  apply only_bind; [apply only_analyzeComment|]. intros an.
  destruct an as [analysis|err]; [|only_auto HP].
  apply only_bind.
  { match goal with |- only _ (if ?b then _ else _) => destruct b end.
    - apply only_bind; [only_auto HP|]. intros _.
      apply only_bind; [apply only_generateConcession|]. intros; apply only_ret.
    - apply only_bind; [only_auto HP|]. intros _.
      apply only_bind; [apply only_generateDefense|]. intros; apply only_ret. }
  intros x. only_auto HP.
Qed.

End NoPosting.

Lemma spec_call_eq {A} (answer : Trace -> A) e :
  spec (call answer e) (fun _ d => d = [e]).
Proof. now apply spec_call. Qed.

Lemma spec_Println_eq line :
  spec (Println line) (fun _ d => d = [EvPrintln line]).
Proof. apply spec_call_eq. Qed.

Lemma spec_Printf_eq format args :
  spec (Printf format args) (fun _ d => d = [EvPrintf format args]).
Proof. apply spec_call_eq. Qed.

(** ** The dry-run branch of the two publishing steps *)

Section Publishing.

Context (lib : Lib) (world : World).

Lemma publish_dry_preview r ref e result :
  spec (Review_publish world r ref e true result)
       (fun res d => res = Ok result /\ d = review_preview result).
Proof.
  unfold Review_publish, review_preview. cbv zeta.
  eapply spec_bind; [apply spec_Println_eq|].
  intros _ d1 ->.
  eapply spec_bind; [apply spec_Println_eq|].
  intros _ d2 ->.
  eapply spec_bind; [apply spec_Println_eq|].
  intros _ d3 ->.
  eapply spec_bind.
  { apply spec_for_range
      with (Inv := fun done (_ : unit) d =>
              d = map (fun c =>
                         EvPrintf (nl +:+ "📍 %s:%d" +:+ nl +:+ "%s" +:+ nl)
                           [AStr (github.ReviewComment_Path c);
                            AInt (github.ReviewComment_Line c);
                            AStr (github.ReviewComment_Body c)]) done).
    - reflexivity.
    - intros i done x acc d ->. apply spec_Printf.
      now rewrite map_app. }
  intros _ d4 ->.
  eapply spec_bind; [apply spec_Println_eq|].
  intros _ d5 ->.
  apply spec_ret. split; [reflexivity|].
  rewrite app_nil_r. reflexivity.
Qed.

Lemma defend_publish_dry d ref result :
  spec (Defend_publish world d ref true result)
       (fun _ dl => Forall (fun ev => is_post ev = false) dl /\
                    exists d0 d1, dl = (d0 ++ defense_preview result ++ d1)%list).
Proof.
  unfold Defend_publish, defense_preview. cbv zeta.
  eapply spec_bind; [apply spec_Println_eq|].
  intros _ d1 ->.
  eapply spec_bind; [apply spec_Println_eq|].
  intros _ d2 ->.
  eapply spec_bind.
  { apply spec_for_range
      with (Inv := fun done (_ : unit) dl => dl = flat_map response_preview done).
    - reflexivity.
    - intros i done x acc dl ->. unfold Printf.
      eapply spec_bind; [apply spec_call_eq|].
      intros _ e1 ->.
      eapply spec_bind; [apply spec_call_eq|].
      intros _ e2 ->.
      eapply spec_bind; [apply spec_call_eq|].
      intros _ e3 ->.
      apply spec_call. intros _.
      rewrite flat_map_app. now f_equal. }
  intros _ d3 ->.
  apply spec_Println. split.
  - simpl. repeat constructor. apply Forall_app. split; [|repeat constructor].
    apply List.Forall_flat_map. apply List.Forall_forall. intros x _.
    repeat constructor.
  - eexists [_; _], [_]. simpl. reflexivity.
Qed.

End Publishing.

(* ===================================================================== *)
(** * The effective level and the threshold                               *)
(* ===================================================================== *)

Lemma wrap64_small z : - 2 ^ 63 <= z < 2 ^ 63 -> wrap64 z = z.
Proof.
  intros H. unfold wrap64. rewrite Z.mod_small; lia.
Qed.

Lemma GetReviewerBias_range cfg author :
  -2 <= config.GetReviewerBias cfg author <= 3.
Proof.
  unfold config.GetReviewerBias.
  destruct (config.IsLikedReviewer _ _); [lia|].
  destruct (config.IsDislikedReviewer _ _); lia.
Qed.

Lemma effectiveNitpicky_range cfg author :
  1 <= effectiveNitpicky cfg author <= 10.
Proof.
  unfold effectiveNitpicky. cbv zeta.
  destruct (Z.ltb_spec (add (config.Config_NitpickyLevel cfg)
                            (config.GetReviewerBias cfg author)) 1) as [H1|H1].
  - cbn. lia.
  - destruct (Z.gtb_spec (add (config.Config_NitpickyLevel cfg)
                            (config.GetReviewerBias cfg author)) 10); lia.
Qed.

Lemma threshold_small e : 1 <= e <= 10 -> threshold e = 90 - 5 * e.
Proof.
  intros H. unfold threshold, sub, mul.
  rewrite (wrap64_small (e * 5)) by lia.
  rewrite wrap64_small by lia. lia.
Qed.

Lemma threshold_effective cfg author :
  threshold (effectiveNitpicky cfg author)
  = 90 - 5 * effectiveNitpicky cfg author.
Proof. apply threshold_small, effectiveNitpicky_range. Qed.

Lemma acceptedb_spec e a : acceptedb e a = true <-> accepted e a.
Proof.
  unfold acceptedb, accepted.
  rewrite andb_true_iff, String.eqb_eq, Z.leb_le. tauto.
Qed.

(* ===================================================================== *)
(** * The two loops of the pipeline                                       *)
(* ===================================================================== *)

Lemma confirmed_of_app e l1 l2 :
  confirmed_of e (l1 ++ l2) = (confirmed_of e l1 ++ confirmed_of e l2)%list.
Proof.
  induction l1 as [|[issue [a|err]] l1 IH]; simpl; auto.
  destruct (acceptedb e a); simpl; now rewrite IH.
Qed.

Lemma comments_of_app l1 l2 :
  comments_of (l1 ++ l2) = (comments_of l1 ++ comments_of l2)%list.
Proof.
  induction l1 as [|[ci [body|err]] l1 IH]; simpl; auto. now rewrite IH.
Qed.

Lemma combine_snoc {A B} (l : list A) (l' : list B) x y :
  List.length l = List.length l' ->
  combine (l ++ [x]) (l' ++ [y]) = (combine l l' ++ [(x, y)])%list.
Proof.
  revert l'. induction l as [|a l IH]; intros [|b l'] H; simpl in *;
    try discriminate; auto.
  f_equal. apply IH. lia.
Qed.

Section Loops.

Context (lib : Lib) (world : World).

Lemma deep_body_spec r ref pr e total i issue acc :
  threshold e = 90 - 5 * e ->
  spec (Review_deep_body lib world r ref pr e total i issue acc)
       (fun acc' _ =>
          exists out, judged_by lib world r ref pr issue out /\
                      acc' = (acc ++ confirmed_of e [(issue, out)])%list).
Proof.
  intros He. unfold Review_deep_body.
  eapply spec_bind; [apply spec_Printf_eq|]. intros _ d0 _.
  eapply spec_bind.
  { apply spec_run. apply (only_DeepAnalyze lib world (fun _ => True)). auto. }
  intros res d1 [_ Hres].
  destruct res as [analysis|err].
  - cbv zeta. rewrite He. cbn [confirmed_of].
    replace ((reviewer.DeepAnalysisResult_Confidence analysis >=? 90 - 5 * e) &&
             String.eqb (reviewer.DeepAnalysisResult_FinalVerdict analysis) "COMMENT")
      with (acceptedb e analysis)
      by (unfold acceptedb; now rewrite andb_comm, Z.geb_leb).
    destruct (acceptedb e analysis) eqn:Hacc.
    + eapply spec_bind; [apply spec_Printf_eq|]. intros _ d2 _.
      apply spec_ret. exists (Ok analysis). split; [exact Hres|].
      cbn [confirmed_of]. now rewrite Hacc.
    + eapply spec_bind; [apply spec_Printf_eq|]. intros _ d2 _.
      apply spec_ret. exists (Ok analysis). split; [exact Hres|].
      cbn [confirmed_of]. rewrite Hacc. now rewrite app_nil_r.
  - eapply spec_bind; [apply spec_Printf_eq|]. intros _ d2 _.
    apply spec_ret. exists (Fail err). split; [exact Hres|].
    cbn. now rewrite app_nil_r.
Qed.

Lemma deep_loop_spec r ref pr e total issues i acc :
  threshold e = 90 - 5 * e ->
  spec (for_range (Review_deep_body lib world r ref pr e total) i issues acc)
       (fun acc' _ =>
          exists outs, Forall2 (judged_by lib world r ref pr) issues outs /\
                       acc' = (acc ++ confirmed_of e (combine issues outs))%list).
Proof.
  intros He.
  apply spec_for_range
    with (Inv := fun done acc' (_ : Trace) =>
            exists outs, Forall2 (judged_by lib world r ref pr) done outs /\
                         acc' = (acc ++ confirmed_of e (combine done outs))%list).
  - exists []. split; [constructor|]. now rewrite app_nil_r.
  - intros j done x a d (outs & Houts & ->).
    eapply spec_mono; [apply deep_body_spec; exact He|].
    intros a' d' (out & Hout & ->). exists (outs ++ [out])%list. split.
    + apply Forall2_app; auto.
    + rewrite combine_snoc by (eapply Forall2_length; eauto).
      now rewrite confirmed_of_app, app_assoc.
Qed.

Lemma format_body_spec r i ci acc :
  spec (Review_format_body lib world r i ci acc)
       (fun acc' _ =>
          exists out, formatted_by lib world r ci out /\
                      acc' = (acc ++ comments_of [(ci, out)])%list).
Proof.
  unfold Review_format_body.
  eapply spec_bind.
  { apply spec_run. apply (only_formatComment lib world (fun _ => True)). auto. }
  intros res d1 [_ Hres].
  destruct res as [body|err].
  - apply spec_ret. exists (Ok body). split; [exact Hres|reflexivity].
  - eapply spec_bind; [apply spec_Printf_eq|]. intros _ d2 _.
    apply spec_ret. exists (Fail err). split; [exact Hres|].
    cbn. now rewrite app_nil_r.
Qed.

Lemma format_loop_spec r confirmed i acc :
  spec (for_range (Review_format_body lib world r) i confirmed acc)
       (fun acc' _ =>
          exists outs, Forall2 (formatted_by lib world r) confirmed outs /\
                       acc' = (acc ++ comments_of (combine confirmed outs))%list).
Proof.
  apply spec_for_range
    with (Inv := fun done acc' (_ : Trace) =>
            exists outs, Forall2 (formatted_by lib world r) done outs /\
                         acc' = (acc ++ comments_of (combine done outs))%list).
  - exists []. split; [constructor|]. now rewrite app_nil_r.
  - intros j done x a d (outs & Houts & ->).
    eapply spec_mono; [apply format_body_spec|].
    intros a' d' (out & Hout & ->). exists (outs ++ [out])%list. split.
    + apply Forall2_app; auto.
    + rewrite combine_snoc by (eapply Forall2_length; eauto).
      now rewrite comments_of_app, app_assoc.
Qed.

End Loops.

(* ===================================================================== *)
(** * The pipeline as a whole                                             *)
(* ===================================================================== *)

Lemma nitpick_fold nits : forall review,
  reviewer.ReviewResult_Comments (fold_left Review_nitpick_body nits review)
  = (reviewer.ReviewResult_Comments review ++ map nitpick_comment nits)%list /\
  same_counts (fold_left Review_nitpick_body nits review) review.
Proof.
  induction nits as [|np nits IH]; intros review; cbn [fold_left map].
  - rewrite app_nil_r. unfold same_counts. auto.
  - destruct (IH (Review_nitpick_body review np)) as [Hc Hs]. split.
    + rewrite Hc. cbn. now rewrite <- app_assoc.
    + unfold same_counts in *. cbn in Hs. exact Hs.
Qed.

Section Pipeline.

Context (lib : Lib) (world : World).

Lemma extra_nitpicks_spec r author files review :
  spec (Review_extra_nitpicks lib world r author files review)
       (fun review' _ =>
          exists nits,
            reviewer.ReviewResult_Comments review'
            = (reviewer.ReviewResult_Comments review
               ++ map nitpick_comment nits)%list /\
            (config.IsDislikedReviewer (reviewer.Reviewer_config r) author
             = false -> nits = []) /\
            (nits = [] \/
             exists tr existing,
               run (Analyzer_GenerateExtraNitpicks lib world
                      (reviewer.Reviewer_analyzer r) files existing) tr
               = Ok (reviewer.mkNitpickResult nits)) /\
            same_counts review' review).
Proof.
  unfold Review_extra_nitpicks.
  destruct (config.IsDislikedReviewer _ _) eqn:Hd.
  - eapply spec_bind; [apply spec_Println_eq|]. intros _ d0 _. cbv zeta.
    eapply spec_bind.
    { apply spec_run.
      apply (only_GenerateExtraNitpicks lib world (fun _ => True)). auto. }
    intros res d1 [_ (tr & Hres)].
    destruct res as [[nits]|err].
    + eapply spec_bind; [apply spec_Printf_eq|]. intros _ d2 _.
      apply spec_ret. exists nits. cbn [reviewer.NitpickResult_Nitpicks].
      destruct (nitpick_fold nits review) as [Hc Hs].
      repeat split; try apply Hs; auto; [discriminate|].
      right. eauto.
    + apply spec_ret. exists []. rewrite app_nil_r.
      unfold same_counts. repeat split; auto.
  - apply spec_ret. exists []. rewrite app_nil_r.
    unfold same_counts. repeat split; auto.
Qed.

Lemma pipeline_value r ref pr author e files :
  threshold e = 90 - 5 * e ->
  spec (Review_pipeline lib world r ref pr author e files)
       (fun res _ =>
          match res with
          | Fail err =>
              exists tr e1,
                run (Analyzer_FirstPass lib world
                       (reviewer.Reviewer_analyzer r) files) tr = Fail e1 /\
                err = "first pass failed: " +:+ e1
          | Ok review =>
              pipeline_result lib world r ref pr author e files review
          end).
Proof.
  intros He. unfold Review_pipeline.
  eapply spec_bind; [apply spec_Printf_eq|]. intros _ d0 _. cbv zeta.
  eapply spec_bind; [apply spec_Println_eq|]. intros _ d1 _.
  eapply spec_bind.
  { apply spec_run. apply (only_FirstPass lib world (fun _ => True)). auto. }
  intros fp d2 [_ (tr & Hfp)].
  destruct fp as [[issues]|err].
  2:{ apply spec_ret. exists tr, err. auto. }
  cbn [reviewer.FirstPassResult_Issues].
  eapply spec_bind; [apply spec_Printf_eq|]. intros _ d3 _.
  eapply spec_bind; [apply spec_Println_eq|]. intros _ d4 _.
  eapply spec_bind; [apply deep_loop_spec; exact He|].
  intros confirmed d5 (outs & Houts & ->). rewrite app_nil_l.
  eapply spec_bind; [apply spec_Printf_eq|]. intros _ d6 _.
  eapply spec_bind; [apply spec_Println_eq|]. intros _ d7 _.
  eapply spec_bind; [apply format_loop_spec|].
  intros comments d8 (fouts & Hfouts & ->).
  eapply spec_bind; [apply extra_nitpicks_spec|].
  intros review d9 (nits & Hc & Hdis & Hgen & Hs).
  apply spec_ret.
  destruct Hs as (Hs1 & Hs2 & Hs3 & Hs4). cbn in Hc, Hs1, Hs2, Hs3, Hs4.
  apply (PipelineResult lib world r ref pr author e files _
           issues outs fouts nits); cbn; eauto.
Qed.

Lemma pipeline_spec r ref pr author e files :
  threshold e = 90 - 5 * e ->
  spec (Review_pipeline lib world r ref pr author e files)
       (fun res d =>
          Forall (fun ev => is_post ev = false) d /\
          match res with
          | Fail err =>
              exists tr e1,
                run (Analyzer_FirstPass lib world
                       (reviewer.Reviewer_analyzer r) files) tr = Fail e1 /\
                err = "first pass failed: " +:+ e1
          | Ok review =>
              pipeline_result lib world r ref pr author e files review
          end).
Proof.
  intros He. apply spec_conj; [|now apply pipeline_value].
  apply only_pipeline. auto.
Qed.

End Pipeline.

(* ===================================================================== *)
(** * How [Review] ends                                                   *)
(* ===================================================================== *)

Ltac no_post_tac :=
  repeat first
    [ assumption
    | apply Forall_nil_2
    | apply Forall_cons_2; [reflexivity|]
    | rewrite Forall_app; split ].

Section ReviewOutcome.

Context (lib : Lib) (world : World).

Lemma publish_post_spec r ref e review :
  spec (Review_publish world r ref e false review)
       (fun res d =>
          exists tr,
            match PostReview world tr ref (reviewer.ReviewResult_Summary review)
                    (review_event (reviewer.ReviewResult_Comments review) e)
                    (reviewer.ReviewResult_Comments review) with
            | Some err =>
                res = Fail ("failed to post review: " +:+ err) /\
                d = [EvPrintln "📤 Posting review..."; post_event ref e review]
            | None =>
                res = Ok (posted_review review) /\
                d = [EvPrintln "📤 Posting review..."; post_event ref e review;
                     EvPrintf ("✅ Review posted with %d comments" +:+ nl)
                       [AInt (len_slice (reviewer.ReviewResult_Comments review))]]
            end).
Proof.
  unfold Review_publish. cbv zeta.
  eapply spec_bind; [apply spec_Println_eq|]. intros _ d0 ->.
  eapply spec_bind.
  { unfold github_Client_PostReview.
    apply spec_call
      with (Q := fun a d =>
              d = [post_event ref e review] /\
              exists tr,
                a = PostReview world tr ref (reviewer.ReviewResult_Summary review)
                      (review_event (reviewer.ReviewResult_Comments review) e)
                      (reviewer.ReviewResult_Comments review)).
    intros tr. split; [reflexivity|]. now exists tr. }
  intros perr d1 [-> (tr & ->)].
  destruct (PostReview world tr ref _ _ _) as [err|] eqn:Hpost.
  - apply spec_ret. exists tr. rewrite Hpost. auto.
  - eapply spec_bind; [apply spec_Printf_eq|]. intros _ d2 ->.
    apply spec_ret. exists tr. rewrite Hpost. auto.
Qed.

Theorem Review_spec r prRef dryRun :
  spec (Reviewer_Review lib world r prRef dryRun)
       (Review_outcome lib world r prRef dryRun).
Proof.
  unfold Reviewer_Review.
  destruct (ParsePRReference lib prRef) as [ref|err] eqn:Href.
  2:{ apply spec_ret. now constructor. }
  eapply spec_bind; [apply spec_Printf_eq|]. intros _ d0 ->.
  eapply spec_bind.
  { unfold github_Client_GetPR.
    apply spec_call
      with (Q := fun a d => d = [EvGetPR ref] /\ exists tr, GetPR world tr ref = a).
    intros tr. split; [reflexivity|]. now exists tr. }
  intros p d1 [-> (tr & Hp)].
  destruct p as [pr|err].
  2:{ apply spec_ret. eapply RO_no_pull_request; eauto. no_post_tac. }
  cbv zeta.
  eapply spec_bind; [apply spec_Printf_eq|]. intros _ d2 ->.
  eapply spec_bind
    with (Q := fun _ d => Forall no_post d).
  { destruct (config.IsLikedReviewer _ _);
      [|destruct (config.IsDislikedReviewer _ _)].
    - apply spec_Printf. no_post_tac.
    - apply spec_Printf. no_post_tac.
    - apply spec_ret. constructor. }
  intros _ d3 Hd3.
  eapply spec_bind.
  { unfold github_Client_GetPRFiles.
    apply spec_call
      with (Q := fun a d => d = [EvGetPRFiles ref] /\
                            exists tr, GetPRFiles world tr ref = a).
    intros tr'. split; [reflexivity|]. now exists tr'. }
  intros fs d4 [-> (tr' & Hfs)].
  destruct fs as [files|err].
  2:{ apply spec_ret. eapply RO_no_files; eauto. no_post_tac. }
  eapply spec_bind; [apply pipeline_spec, threshold_effective|].
  intros res d5 [Hd5 Hres].
  destruct res as [review|err].
  2:{ destruct Hres as (tr'' & e1 & Hfp & ->).
      apply spec_ret. eapply RO_first_pass_failed; eauto. no_post_tac. }
  destruct dryRun.
  - eapply spec_mono; [apply publish_dry_preview|].
    intros res d6 [-> ->]. rewrite !app_assoc.
    eapply RO_previewed; eauto. no_post_tac.
  - eapply spec_mono; [apply publish_post_spec|].
    intros res d6 (tr'' & Hpost).
    destruct (PostReview world tr'' ref _ _ _) as [err|] eqn:Hp';
      destruct Hpost as [-> ->].
    + change [EvPrintln "📤 Posting review...";
              post_event ref (effectiveNitpicky (reviewer.Reviewer_config r)
                                (github.PullRequest_Login pr)) review]
        with ([EvPrintln "📤 Posting review..."] ++
              [post_event ref (effectiveNitpicky (reviewer.Reviewer_config r)
                                 (github.PullRequest_Login pr)) review])%list.
      rewrite !app_assoc.
      eapply RO_post_failed; eauto. no_post_tac.
    + match goal with
      | |- Review_outcome _ _ _ _ _ _ (_ ++ _ ++ _ ++ _ ++ _ ++ _ ++ ?x :: ?rest)%list =>
          change (x :: rest) with ([x] ++ rest)%list
      end.
      rewrite !app_assoc.
      eapply RO_posted; eauto. no_post_tac.
Qed.

End ReviewOutcome.

(* ===================================================================== *)
(** * How [Defend] ends                                                   *)
(* ===================================================================== *)

Lemma filter_no_post l : Forall no_post l -> List.filter is_post l = [].
Proof.
  induction 1 as [|x l Hx _ IH]; cbn; [reflexivity|]. now rewrite Hx.
Qed.

Lemma infix_app_l {A} (a b s : list A) :
  (exists d0 d1, a = d0 ++ s ++ d1)%list ->
  (exists d0 d1, a ++ b = d0 ++ s ++ d1)%list.
Proof.
  intros (d0 & d1 & ->). exists d0, (d1 ++ b)%list. now rewrite <- !app_assoc.
Qed.

Lemma infix_app_r {A} (a b s : list A) :
  (exists d0 d1, b = d0 ++ s ++ d1)%list ->
  (exists d0 d1, a ++ b = d0 ++ s ++ d1)%list.
Proof.
  intros (d0 & d1 & ->). exists (a ++ d0)%list, d1. now rewrite <- !app_assoc.
Qed.

Ltac find_infix H :=
  first [ exact H
        | apply infix_app_l; find_infix H
        | apply infix_app_r; find_infix H ].

Section DefendOutcome.

Context (lib : Lib) (world : World).

Lemma comment_body_spec d fileContents total i comment acc :
  spec (Defend_comment_body lib world d fileContents total i comment acc)
       (fun acc' dl =>
          Forall no_post dl /\
          exists o, defended_by lib world d comment o /\
                    acc' = defense_step acc (comment, o)).
Proof.
  apply spec_conj; [apply only_comment_body; auto|].
  unfold Defend_comment_body.
  eapply spec_bind; [apply spec_Printf_eq|]. intros _ d0 _.
  eapply spec_bind; [apply spec_Printf_eq|]. intros _ d1 _. cbv zeta.
  eapply spec_bind.
  { apply spec_run. apply (only_analyzeComment lib world (fun _ => True)). auto. }
  intros an d2 [_ (tr & Han)]. symmetry in Han.
  destruct an as [analysis|err].
  2:{ eapply spec_bind; [apply spec_Printf_eq|]. intros _ d3 _.
      apply spec_ret. exists (AnalysisFailed err). split; [|reflexivity].
      cbn. eauto. }
  eapply spec_bind
    with (Q := fun x _ =>
            snd x = count_side analysis acc /\
            exists tr', run (answer lib world d comment analysis) tr' = fst x).
  { unfold count_side, answer. fold (concedes analysis).
    destruct (concedes analysis).
    - eapply spec_bind; [apply spec_Printf_eq|]. intros _ d3 _.
      eapply spec_bind.
      { apply spec_run.
        apply (only_generateConcession lib world (fun _ => True)). auto. }
      intros resp d4 [_ (tr' & ->)]. apply spec_ret. cbn. eauto.
    - eapply spec_bind; [apply spec_Printf_eq|]. intros _ d3 _.
      eapply spec_bind.
      { apply spec_run.
        apply (only_generateDefense lib world (fun _ => True)). auto. }
      intros resp d4 [_ (tr' & ->)]. apply spec_ret. cbn. eauto. }
  intros [resp acc1] d3 [Hacc (tr' & Hresp)]. cbn [fst snd] in *. subst acc1.
  destruct resp as [response|err].
  - apply spec_ret. exists (Responded analysis response). split; [|reflexivity].
    cbn. eauto.
  - eapply spec_bind; [apply spec_Printf_eq|]. intros _ d4 _.
    apply spec_ret. exists (ResponseFailed analysis err). split; [|reflexivity].
    cbn. eauto.
Qed.

Lemma comment_loop_spec d fileContents total comments i acc :
  spec (for_range (Defend_comment_body lib world d fileContents total)
          i comments acc)
       (fun acc' dl =>
          Forall no_post dl /\
          exists outs, Forall2 (defended_by lib world d) comments outs /\
                       acc' = fold_left defense_step (combine comments outs) acc).
Proof.
  apply spec_for_range
    with (Inv := fun done acc' dl =>
            Forall no_post dl /\
            exists outs, Forall2 (defended_by lib world d) done outs /\
                         acc' = fold_left defense_step (combine done outs) acc).
  - split; [constructor|]. exists []. split; [constructor|reflexivity].
  - intros j done x a dl [Hdl (outs & Houts & ->)].
    eapply spec_mono; [apply comment_body_spec|].
    intros a' d' [Hd' (o & Ho & ->)]. split; [no_post_tac|].
    exists (outs ++ [o])%list. split.
    + apply Forall2_app; auto.
    + rewrite combine_snoc by (eapply Forall2_length; eauto).
      now rewrite fold_left_app.
Qed.

Lemma defend_publish_post d ref res :
  spec (Defend_publish world d ref false res)
       (fun _ dl =>
          List.filter is_post dl
          = map (reply_event ref) (defender.DefenseResult_Responses res)).
Proof.
  unfold Defend_publish. cbv zeta.
  eapply spec_bind; [apply spec_Println_eq|]. intros _ d0 ->.
  eapply spec_mono.
  { apply spec_for_range
      with (Inv := fun done (_ : unit) dl =>
              List.filter is_post dl = map (reply_event ref) done).
    - reflexivity.
    - intros i done x acc dl Hdl.
      eapply spec_bind.
      { unfold github_Client_ReplyToComment. apply spec_call_eq. }
      intros err d1 ->.
      assert (Hx : forall ev, is_post ev = false ->
                List.filter is_post (dl ++ [reply_event ref x] ++ [ev])%list
                = map (reply_event ref) (done ++ [x])).
      { intros ev Hev. rewrite !List.filter_app, Hdl, map_app. cbn.
        now rewrite Hev. }
      destruct err; apply spec_Printf; apply Hx; reflexivity. }
  intros u dl Hdl. cbn. exact Hdl.
Qed.

Lemma Defend_spec d prRef dryRun :
  spec (Defender_Defend lib world d prRef dryRun)
       (Defend_outcome lib world d prRef dryRun).
Proof.
  unfold Defender_Defend.
  destruct (ParsePRReference lib prRef) as [ref|err] eqn:Href.
  2:{ apply spec_ret. now constructor. }
  eapply spec_bind; [apply spec_Printf_eq|]. intros _ d0 ->.
  eapply spec_bind.
  { unfold github_Client_GetPR.
    apply spec_call
      with (Q := fun a dl => dl = [EvGetPR ref] /\ exists tr, GetPR world tr ref = a).
    intros tr. split; [reflexivity|]. now exists tr. }
  intros p d1 [-> (tr & Hp)].
  destruct p as [pr|err].
  2:{ apply spec_ret. eapply DO_no_pull_request; eauto. no_post_tac. }
  cbv zeta.
  eapply spec_bind with (Q := fun _ dl => Forall no_post dl).
  { destruct (negb _).
    - apply spec_Printf. no_post_tac.
    - apply spec_ret. constructor. }
  intros _ d2 Hd2.
  eapply spec_bind; [apply spec_Printf_eq|]. intros _ d3 ->.
  eapply spec_bind.
  { unfold github_Client_GetPRComments.
    apply spec_call
      with (Q := fun a dl => dl = [EvGetPRComments ref] /\
                             exists tr, GetPRComments world tr ref = a).
    intros tr'. split; [reflexivity|]. now exists tr'. }
  intros cs d4 [-> (tr' & Hcs)].
  destruct cs as [comments|err].
  2:{ apply spec_ret. eapply DO_no_comments; eauto. no_post_tac. }
  fold (reviewer_comments d comments).
  eapply spec_bind; [apply spec_Printf_eq|]. intros _ d5 ->.
  destruct (len_slice (reviewer_comments d comments) =? 0) eqn:Hlen.
  { eapply spec_bind; [apply spec_Println_eq|]. intros _ d6 ->.
    apply spec_ret. eapply DO_nothing_to_do; eauto; [|no_post_tac].
    apply Z.eqb_eq in Hlen. unfold len_slice in Hlen.
    destruct (reviewer_comments d comments); [reflexivity|].
    cbn in Hlen. lia. }
  assert (Hne : reviewer_comments d comments <> []).
  { intros E. rewrite E in Hlen. discriminate. }
  eapply spec_bind with (Q := fun _ dl => Forall no_post dl).
  { unfold github_Client_GetPRFiles. apply spec_call. intros _. no_post_tac. }
  intros fs d6 Hd6.
  eapply spec_bind.
  { apply only_for_range with (P := no_post). intros. apply only_file_body. auto. }
  intros fileContents d7 Hd7.
  eapply spec_bind; [apply comment_loop_spec|].
  intros res d8 [Hd8 (outs & Houts & Hres)].
  fold (initial_defense (len_slice (reviewer_comments d comments))) in Hres.
  destruct dryRun.
  - eapply spec_bind; [apply defend_publish_dry|].
    intros u d9 [Hd9 Hinfix].
    eapply spec_bind; [apply spec_Printf_eq|]. intros _ d10 ->.
    apply spec_ret.
    eapply DO_previewed; eauto; [no_post_tac|find_infix Hinfix].
  - eapply spec_bind; [apply defend_publish_post|].
    intros u d9 Hd9.
    eapply spec_bind; [apply spec_Printf_eq|]. intros _ d10 ->.
    apply spec_ret.
    eapply DO_posted; eauto.
    repeat rewrite List.filter_app.
    rewrite (filter_no_post d2), (filter_no_post d6), (filter_no_post d7),
      (filter_no_post d8) by assumption.
    rewrite Hd9. cbn. now rewrite app_nil_r.
Qed.

End DefendOutcome.

(* ===================================================================== *)
(** * Strings: first and last occurrence of a byte                        *)
(* ===================================================================== *)

Section Strings.

Implicit Types (s pre post rest mid : string) (c d : ascii).

Lemma sapp_nil_l s : "" +:+ s = s.
Proof. reflexivity. Qed.

Lemma sapp_cons c s1 s2 : String c s1 +:+ s2 = String c (s1 +:+ s2).
Proof. reflexivity. Qed.

Lemma sapp_assoc s1 s2 s3 : (s1 +:+ s2) +:+ s3 = s1 +:+ (s2 +:+ s3).
Proof.
  induction s1 as [|c s1 IH]; [reflexivity|].
  now rewrite !sapp_cons, IH.
Qed.

Lemma length_sapp s1 s2 :
  String.length (s1 +:+ s2) = (String.length s1 + String.length s2)%nat.
Proof.
  induction s1 as [|c s1 IH]; [reflexivity|].
  rewrite sapp_cons. cbn [String.length]. now rewrite IH.
Qed.

Lemma len_sapp s1 s2 : len (s1 +:+ s2) = len s1 + len s2.
Proof. unfold len. rewrite length_sapp. lia. Qed.

Lemma len_String c s : len (String c s) = 1 + len s.
Proof. unfold len. cbn [String.length]. lia. Qed.

Lemma len_nonneg s : 0 <= len s.
Proof. unfold len. lia. Qed.

Lemma prefix_byte c d s :
  String.prefix (String c "") (String d s) = Ascii.eqb c d.
Proof.
  cbn. destruct (ascii_dec c d) as [->|Hne].
  - rewrite Ascii.eqb_refl. now destruct s.
  - symmetry. now apply Ascii.eqb_neq.
Qed.

Lemma Index_byte_cons c d s :
  strings.Index (String d s) (String c "") =
  if Ascii.eqb c d then 0
  else if strings.Index s (String c "") <? 0 then -1
       else strings.Index s (String c "") + 1.
Proof.
  cbn [strings.Index]. now rewrite prefix_byte.
Qed.

Lemma LastIndex_byte_cons c d s :
  strings.LastIndex (String d s) (String c "") =
  if strings.LastIndex s (String c "") <? 0
  then (if Ascii.eqb c d then 0 else -1)
  else strings.LastIndex s (String c "") + 1.
Proof.
  cbn [strings.LastIndex]. now rewrite prefix_byte.
Qed.

Lemma Index_byte_range c s :
  -1 <= strings.Index s (String c "") < len s \/
  (s = "" /\ strings.Index s (String c "") = -1).
Proof.
  induction s as [|d s IH].
  - right. auto.
  - left. rewrite Index_byte_cons, len_String. pose proof (len_nonneg s).
    destruct (Ascii.eqb c d); [lia|].
    destruct (Z.ltb_spec (strings.Index s (String c "")) 0); [lia|].
    destruct IH as [IH|[-> IH]]; [lia|]. cbn in *. lia.
Qed.

Lemma LastIndex_byte_range c s :
  -1 <= strings.LastIndex s (String c "") < len s \/
  (s = "" /\ strings.LastIndex s (String c "") = -1).
Proof.
  induction s as [|d s IH].
  - right. auto.
  - left. rewrite LastIndex_byte_cons, len_String. pose proof (len_nonneg s).
    destruct (Z.ltb_spec (strings.LastIndex s (String c "")) 0).
    + destruct (Ascii.eqb c d); lia.
    + destruct IH as [IH|[-> IH]]; [lia|]. cbn in *. lia.
Qed.

Lemma LastIndex_byte_absent c s :
  strings.contains_byte c s = false -> strings.LastIndex s (String c "") = -1.
Proof.
  induction s as [|d s IH]; cbn [strings.contains_byte]; intros H.
  - reflexivity.
  - apply orb_false_iff in H as [Hcd Hs].
    rewrite LastIndex_byte_cons, Hcd, (IH Hs). reflexivity.
Qed.

(** The first occurrence. *)
Lemma Index_byte_first c pre rest :
  strings.contains_byte c pre = false ->
  strings.Index (pre +:+ String c rest) (String c "") = len pre.
Proof.
  induction pre as [|d pre IH]; cbn [strings.contains_byte]; intros H.
  - rewrite sapp_nil_l, Index_byte_cons, Ascii.eqb_refl. reflexivity.
  - apply orb_false_iff in H as [Hcd Hs].
    rewrite sapp_cons, Index_byte_cons, Hcd, (IH Hs), len_String.
    pose proof (len_nonneg pre).
    destruct (Z.ltb_spec (len pre) 0); lia.
Qed.

(** The last occurrence. *)
Lemma LastIndex_byte_last c rest post :
  strings.contains_byte c post = false ->
  strings.LastIndex (rest +:+ String c post) (String c "") = len rest.
Proof.
  intros H. induction rest as [|d rest IH].
  - rewrite sapp_nil_l, LastIndex_byte_cons, (LastIndex_byte_absent _ _ H),
      Ascii.eqb_refl.
    reflexivity.
  - rewrite sapp_cons, LastIndex_byte_cons, IH, len_String.
    pose proof (len_nonneg rest).
    destruct (Z.ltb_spec (len rest) 0); lia.
Qed.

Lemma Index_byte_split c s :
  0 <= strings.Index s (String c "") ->
  exists pre rest, s = pre +:+ String c rest /\
                   strings.contains_byte c pre = false.
Proof.
  induction s as [|d s IH]; intros H.
  - cbn in H. lia.
  - rewrite Index_byte_cons in H.
    destruct (Ascii.eqb c d) eqn:Hcd.
    + apply Ascii.eqb_eq in Hcd as <-. exists "", s. auto.
    + destruct (Z.ltb_spec (strings.Index s (String c "")) 0); [lia|].
      destruct IH as (pre & rest & -> & Hpre); [lia|].
      exists (String d pre), rest. split; [reflexivity|].
      cbn [strings.contains_byte]. now rewrite Hcd, Hpre.
Qed.

Lemma LastIndex_byte_split c s :
  0 <= strings.LastIndex s (String c "") ->
  exists rest post, s = rest +:+ String c post /\
                    strings.contains_byte c post = false.
Proof.
  induction s as [|d s IH]; intros H.
  - cbn in H. lia.
  - rewrite LastIndex_byte_cons in H.
    destruct (Z.ltb_spec (strings.LastIndex s (String c "")) 0) as [Hneg|Hpos].
    + destruct (Ascii.eqb c d) eqn:Hcd; [|lia].
      apply Ascii.eqb_eq in Hcd as <-. exists "", s. split; [reflexivity|].
      destruct (strings.contains_byte c s) eqn:Hs; [|reflexivity].
      exfalso. clear -Hneg Hs.
      induction s as [|e s IHs]; cbn [strings.contains_byte] in Hs;
        [discriminate|].
      rewrite LastIndex_byte_cons in Hneg.
      destruct (Z.ltb_spec (strings.LastIndex s (String c "")) 0) as [Hn|Hn].
      * destruct (Ascii.eqb c e); [lia|]. cbn in Hs. auto.
      * destruct (LastIndex_byte_range c s) as [?|[-> ?]]; lia.
    + destruct (IH Hpos) as (rest & post & -> & Hpost).
      exists (String d rest), post. auto.
Qed.

(** Any occurrence bounds the first one from above and the last one from
    below. *)
Lemma Index_byte_le c pre rest :
  0 <= strings.Index (pre +:+ String c rest) (String c "") <= len pre.
Proof.
  induction pre as [|d pre IH].
  - rewrite sapp_nil_l, Index_byte_cons, Ascii.eqb_refl. unfold len. cbn [String.length]. lia.
  - rewrite sapp_cons, Index_byte_cons, len_String. pose proof (len_nonneg pre).
    destruct (Ascii.eqb c d); [lia|].
    destruct (Z.ltb_spec (strings.Index (pre +:+ String c rest) (String c "")) 0);
      lia.
Qed.

Lemma LastIndex_byte_ge c pre rest :
  len pre <= strings.LastIndex (pre +:+ String c rest) (String c "").
Proof.
  induction pre as [|d pre IH].
  - rewrite sapp_nil_l, LastIndex_byte_cons, Ascii.eqb_refl.
    destruct (Z.ltb_spec (strings.LastIndex rest (String c "")) 0);
      unfold len; cbn [String.length]; lia.
  - rewrite sapp_cons, LastIndex_byte_cons, len_String. pose proof (len_nonneg pre).
    destruct (Z.ltb_spec (strings.LastIndex (pre +:+ String c rest) (String c "")) 0);
      lia.
Qed.

Lemma sapp_split s1 : forall x s2 y,
  s1 +:+ x = s2 +:+ y ->
  (String.length s1 < String.length s2)%nat ->
  exists m, s2 = s1 +:+ m /\ x = m +:+ y /\ m <> "".
Proof.
  induction s1 as [|c s1 IH]; intros x s2 y E Hlt.
  - destruct s2 as [|d s2]; [cbn in Hlt; lia|].
    exists (String d s2). rewrite sapp_nil_l in *.
    repeat split; auto; discriminate.
  - destruct s2 as [|d s2]; [cbn in Hlt; lia|].
    rewrite !sapp_cons in E. injection E as <- E.
    destruct (IH x s2 y E) as (m & -> & -> & Hm); [cbn in Hlt; lia|].
    exists m. auto.
Qed.

Lemma substring_middle pre x post :
  substring (String.length pre) (String.length x) (pre +:+ x +:+ post) = x.
Proof.
  induction pre as [|c pre IH]; cbn [String.length].
  - rewrite sapp_nil_l. induction x as [|d x IHx]; cbn [String.length].
    + rewrite sapp_nil_l. now destruct post.
    + rewrite sapp_cons. cbn [substring]. now rewrite IHx.
  - rewrite sapp_cons. cbn [substring]. exact IH.
Qed.

End Strings.

(* ===================================================================== *)
(** * extractJSON                                                         *)
(* ===================================================================== *)

Lemma extractJSON_first_last pre mid post :
  strings.contains_byte "{" pre = false ->
  strings.contains_byte "}" post = false ->
  reviewer.extractJSON (pre +:+ "{" +:+ mid +:+ "}" +:+ post)
  = "{" +:+ mid +:+ "}".
Proof.
  intros Hpre Hpost. unfold reviewer.extractJSON.
  assert (Hstart : strings.Index (pre +:+ "{" +:+ mid +:+ "}" +:+ post) "{"
                   = len pre).
  { apply (Index_byte_first "{" pre (mid +:+ "}" +:+ post) Hpre). }
  assert (Hend : strings.LastIndex (pre +:+ "{" +:+ mid +:+ "}" +:+ post) "}"
                 = len pre + 1 + len mid).
  { replace (pre +:+ "{" +:+ mid +:+ "}" +:+ post)
      with ((pre +:+ "{" +:+ mid) +:+ String "}" post)
      by (now rewrite !sapp_assoc).
    rewrite (LastIndex_byte_last "}" _ post Hpost).
    rewrite !len_sapp. unfold len at 2. cbn [String.length]. lia. }
  cbv zeta. rewrite Hstart, Hend.
  pose proof (len_nonneg pre). pose proof (len_nonneg mid).
  destruct (Z.eqb_spec (len pre) (-1)); [lia|].
  destruct (Z.eqb_spec (len pre + 1 + len mid) (-1)); [lia|].
  destruct (Z.gtb_spec (len pre + 1 + len mid) (len pre)); [|lia].
  cbn [negb andb]. unfold slice.
  replace (Z.to_nat (len pre)) with (String.length pre) by (unfold len; lia).
  replace (Z.to_nat (len pre + 1 + len mid + 1 - len pre))
    with (String.length ("{" +:+ mid +:+ "}")).
  2:{ rewrite !length_sapp. unfold len. cbn [String.length]. lia. }
  replace (pre +:+ "{" +:+ mid +:+ "}" +:+ post)
    with (pre +:+ ("{" +:+ mid +:+ "}") +:+ post)
    by (now rewrite !sapp_assoc).
  apply substring_middle.
Qed.

(** When the test of [extractJSON] succeeds, the response splits at the
    first opening and the last closing brace. *)
Lemma extractJSON_test_split s :
  strings.Index s "{" < strings.LastIndex s "}" ->
  0 <= strings.Index s "{" ->
  exists pre mid post,
    s = pre +:+ "{" +:+ mid +:+ "}" +:+ post /\
    strings.contains_byte "{" pre = false /\
    strings.contains_byte "}" post = false.
Proof.
  intros Hlt Hstart.
  destruct (Index_byte_split "{" s Hstart) as (pre & r1 & E1 & Hpre).
  destruct (LastIndex_byte_split "}" s) as (r2 & post & E2 & Hpost); [lia|].
  pose proof (Index_byte_first "{" pre r1 Hpre) as Hi. rewrite <- E1 in Hi.
  pose proof (LastIndex_byte_last "}" r2 post Hpost) as Hl. rewrite <- E2 in Hl.
  assert (Hlen : (String.length pre < String.length r2)%nat)
    by (unfold len in *; lia).
  rewrite E1 in E2.
  destruct (sapp_split pre _ r2 _ E2 Hlen) as (m & -> & Em & Hm).
  destruct m as [|c mid]; [congruence|].
  rewrite sapp_cons in Em. injection Em as <- ->.
  exists pre, mid, post. rewrite E1. auto.
Qed.

Lemma extractJSON_unchanged s :
  ~ (0 <= strings.Index s "{" /\ strings.Index s "{" < strings.LastIndex s "}") ->
  reviewer.extractJSON s = s.
Proof.
  intros H. unfold reviewer.extractJSON. cbv zeta.
  destruct (Z.eqb_spec (strings.Index s "{") (-1)); [reflexivity|].
  destruct (Z.eqb_spec (strings.LastIndex s "}") (-1)); [reflexivity|].
  destruct (Z.gtb_spec (strings.LastIndex s "}") (strings.Index s "{"));
    [|reflexivity].
  exfalso. apply H.
  destruct (Index_byte_range "{" s) as [?|[_ ?]]; lia.
Qed.

(** C9. For every string [s]: when [s] contains an opening brace with a
    closing brace somewhere after it, [extractJSON s] is the part of [s]
    from the first opening brace through the last closing brace (and the
    slice taken is within bounds); otherwise [extractJSON s] is [s];
    [extractJSON] is idempotent. The copies of the function in the packages
    [reviewer] and [defender] agree. *)
Theorem extractJSON_spec (s : string) :
  (forall a b c,
      s = a +:+ "{" +:+ b +:+ "}" +:+ c ->
      exists pre mid post,
        s = pre +:+ "{" +:+ mid +:+ "}" +:+ post /\
        strings.contains_byte "{" pre = false /\
        strings.contains_byte "}" post = false /\
        0 <= strings.Index s "{" <= strings.LastIndex s "}" + 1 /\
        strings.LastIndex s "}" + 1 <= len s /\
        reviewer.extractJSON s = "{" +:+ mid +:+ "}") /\
  ((forall a b c, s <> a +:+ "{" +:+ b +:+ "}" +:+ c) ->
   reviewer.extractJSON s = s) /\
  reviewer.extractJSON (reviewer.extractJSON s) = reviewer.extractJSON s /\
  defender.extractJSON s = reviewer.extractJSON s.
Proof.
  assert (Hcases :
            reviewer.extractJSON s = s /\
            ~ (0 <= strings.Index s "{" /\
               strings.Index s "{" < strings.LastIndex s "}") \/
            exists pre mid post,
              s = pre +:+ "{" +:+ mid +:+ "}" +:+ post /\
              strings.contains_byte "{" pre = false /\
              strings.contains_byte "}" post = false).
  { destruct (Z_le_gt_dec 0 (strings.Index s "{")) as [H0|H0];
      [destruct (Z_lt_ge_dec (strings.Index s "{") (strings.LastIndex s "}"))
        as [H1|H1]|].
    - right. now apply extractJSON_test_split.
    - left. split; [apply extractJSON_unchanged|]; lia.
    - left. split; [apply extractJSON_unchanged|]; lia. }
  repeat split.
  - intros a b c E.
    destruct Hcases as [[_ Hno]|(pre & mid & post & E' & Hpre & Hpost)].
    + exfalso. apply Hno.
      pose proof (Index_byte_le "{" a (b +:+ "}" +:+ c)) as Hi.
      pose proof (LastIndex_byte_ge "}" (a +:+ "{" +:+ b) c) as Hl.
      replace ((a +:+ "{" +:+ b) +:+ String "}" c)
        with (a +:+ "{" +:+ b +:+ "}" +:+ c) in Hl
        by (now rewrite !sapp_assoc).
      change (a +:+ String "{" (b +:+ "}" +:+ c))
        with (a +:+ "{" +:+ b +:+ "}" +:+ c) in Hi.
      rewrite <- E in Hi, Hl.
      rewrite !len_sapp in Hl. unfold len at 2 in Hl. cbn [String.length] in Hl.
      pose proof (len_nonneg b). lia.
    + exists pre, mid, post. repeat split; auto.
      * subst s. apply (Index_byte_le "{" pre (mid +:+ "}" +:+ post)).
      * pose proof (Index_byte_first "{" pre (mid +:+ "}" +:+ post) Hpre) as Hi.
        pose proof (LastIndex_byte_last "}" (pre +:+ "{" +:+ mid) post Hpost) as Hl.
        replace ((pre +:+ "{" +:+ mid) +:+ String "}" post)
          with (pre +:+ "{" +:+ mid +:+ "}" +:+ post) in Hl
          by (now rewrite !sapp_assoc).
        change (pre +:+ String "{" (mid +:+ "}" +:+ post))
          with (pre +:+ "{" +:+ mid +:+ "}" +:+ post) in Hi.
        rewrite <- E' in Hi, Hl. rewrite Hi, Hl.
        unfold len. rewrite !length_sapp. cbn [String.length]. lia.
      * destruct (LastIndex_byte_range "}" s) as [?|[_ ?]]; [lia|].
        pose proof (len_nonneg s). lia.
      * subst s. now apply extractJSON_first_last.
  - intros Hno.
    destruct Hcases as [[Hs _]|(pre & mid & post & E' & _)]; [exact Hs|].
    exfalso. exact (Hno _ _ _ E').
  - destruct Hcases as [[Hs _]|(pre & mid & post & E' & Hpre & Hpost)].
    + now rewrite !Hs.
    + subst s. rewrite (extractJSON_first_last pre mid post Hpre Hpost).
      apply (extractJSON_first_last "" mid "" eq_refl eq_refl).
Qed.

(** The statement at a response with text around the object and a stray
    closing brace inside it. *)
Lemma extractJSON_spec_witness :
  (exists pre mid post,
      "Sure: {a}b} ok" = pre +:+ "{" +:+ mid +:+ "}" +:+ post /\
      strings.contains_byte "{" pre = false /\
      strings.contains_byte "}" post = false /\
      0 <= strings.Index "Sure: {a}b} ok" "{"
        <= strings.LastIndex "Sure: {a}b} ok" "}" + 1 /\
      strings.LastIndex "Sure: {a}b} ok" "}" + 1 <= len "Sure: {a}b} ok" /\
      reviewer.extractJSON "Sure: {a}b} ok" = "{" +:+ mid +:+ "}") /\
  reviewer.extractJSON (reviewer.extractJSON "Sure: {a}b} ok")
  = reviewer.extractJSON "Sure: {a}b} ok".
Proof.
  destruct (extractJSON_spec "Sure: {a}b} ok") as (H1 & _ & H3 & _).
  split; [|exact H3].
  apply (H1 "Sure: " "a" "b} ok"). reflexivity.
Defined.

Example extractJSON_examples :
  reviewer.extractJSON "Sure: {a}b} ok" = "{a}b}" /\
  reviewer.extractJSON "no object" = "no object" /\
  reviewer.extractJSON "} before {" = "} before {".
Proof. repeat split; vm_compute; reflexivity. Qed.

(* ===================================================================== *)
(** * The lists of liked and disliked reviewers                           *)
(* ===================================================================== *)

Section ReviewerLists.

Implicit Types (l : list string) (u v : string) (c : config.Config).

Lemma range_contains_In l u : config.range_contains l u = true <-> In u l.
Proof.
  induction l as [|w l IH]; cbn; [split; [discriminate|tauto]|].
  destruct (String.eqb_spec w u) as [->|Hne]; [tauto|].
  rewrite IH. split; [auto|]. intros [E|H]; [contradiction|exact H].
Qed.

Lemma range_contains_not_In l u : config.range_contains l u = false <-> ~ In u l.
Proof.
  rewrite <- range_contains_In. destruct (config.range_contains l u); split;
    congruence.
Qed.

Lemma range_remove_In l u v : In v (config.range_remove l u) -> In v l.
Proof.
  induction l as [|w l IH]; cbn; [tauto|].
  destruct (String.eqb_spec w u); cbn; tauto.
Qed.

Lemma range_remove_other l u v :
  v <> u -> In v l -> In v (config.range_remove l u).
Proof.
  intros Hne. induction l as [|w l IH]; cbn; [tauto|].
  destruct (String.eqb_spec w u) as [->|Hw]; cbn; intros [E|H]; auto.
  congruence.
Qed.

Lemma range_remove_NoDup l u : List.NoDup l -> List.NoDup (config.range_remove l u).
Proof.
  induction 1 as [|w l Hw Hl IH]; cbn; [constructor|].
  destruct (String.eqb_spec w u); [exact Hl|].
  constructor; [|exact IH]. intros H. apply Hw. eapply range_remove_In; eauto.
Qed.

Lemma range_remove_gone l u : List.NoDup l -> ~ In u (config.range_remove l u).
Proof.
  induction 1 as [|w l Hw Hl IH]; cbn; [tauto|].
  destruct (String.eqb_spec w u) as [->|Hne]; [exact Hw|].
  cbn. intros [E|H]; auto.
Qed.

Lemma NoDup_snoc l u : List.NoDup l -> ~ In u l -> List.NoDup (l ++ [u]).
Proof.
  intros Hl Hu. induction Hl as [|w l Hw Hl IH]; cbn.
  - constructor; [tauto|constructor].
  - constructor.
    + rewrite in_app_iff. cbn. intros [H|[E|[]]]; [tauto|].
      subst. apply Hu. now left.
    + apply IH. intros H. apply Hu. now right.
Qed.

Ltac lists_absurd Hdis :=
  exfalso;
  match goal with
  | H : In ?w (config.range_remove ?l ?w) |- _ =>
      exact (range_remove_gone l w ltac:(assumption) H)
  | H1 : In ?w (config.range_remove ?l ?x), H2 : In ?w _ |- _ =>
      first [ exact (Hdis w (range_remove_In l x w H1) H2)
            | exact (Hdis w H2 (range_remove_In l x w H1)) ]
  end.

Ltac lists_tac Hdis :=
  repeat split; intros;
  rewrite ?in_app_iff in *; cbn [In] in *;
  try solve
    [ assumption
    | apply range_remove_NoDup; assumption
    | apply NoDup_snoc; assumption
    | eapply range_remove_gone; eauto
    | eapply range_remove_In; eauto
    | apply range_remove_other; assumption
    | tauto
    | intuition (subst; try congruence; lists_absurd Hdis) ].

Lemma AddLikedReviewer_lists c u :
  lists_wf c ->
  lists_wf (config.AddLikedReviewer c u) /\
  In u (config.Config_LikedReviewers (config.AddLikedReviewer c u)) /\
  ~ In u (config.Config_DislikedReviewers (config.AddLikedReviewer c u)) /\
  (In u (config.Config_LikedReviewers c) ->
   config.Config_LikedReviewers (config.AddLikedReviewer c u)
   = config.Config_LikedReviewers c) /\
  (forall v, v <> u ->
     (In v (config.Config_LikedReviewers (config.AddLikedReviewer c u))
      <-> In v (config.Config_LikedReviewers c)) /\
     (In v (config.Config_DislikedReviewers (config.AddLikedReviewer c u))
      <-> In v (config.Config_DislikedReviewers c))).
Proof.
  intros (HL & HD & Hdis).
  unfold lists_wf, config.AddLikedReviewer, config.IsLikedReviewer. cbv zeta.
  destruct (config.range_contains (config.Config_LikedReviewers c) u) eqn:Hc;
    cbn [negb config.removeFromLiked config.removeFromDisliked
         config.set_Disliked config.set_Liked
         config.Config_LikedReviewers config.Config_DislikedReviewers].
  - apply range_contains_In in Hc. lists_tac Hdis.
  - apply range_contains_not_In in Hc. lists_tac Hdis.
Qed.

Lemma AddDislikedReviewer_lists c u :
  lists_wf c ->
  lists_wf (config.AddDislikedReviewer c u) /\
  In u (config.Config_DislikedReviewers (config.AddDislikedReviewer c u)) /\
  ~ In u (config.Config_LikedReviewers (config.AddDislikedReviewer c u)) /\
  (In u (config.Config_DislikedReviewers c) ->
   config.Config_DislikedReviewers (config.AddDislikedReviewer c u)
   = config.Config_DislikedReviewers c) /\
  (forall v, v <> u ->
     (In v (config.Config_DislikedReviewers (config.AddDislikedReviewer c u))
      <-> In v (config.Config_DislikedReviewers c)) /\
     (In v (config.Config_LikedReviewers (config.AddDislikedReviewer c u))
      <-> In v (config.Config_LikedReviewers c))).
Proof.
  intros (HL & HD & Hdis).
  unfold lists_wf, config.AddDislikedReviewer, config.IsDislikedReviewer. cbv zeta.
  destruct (config.range_contains (config.Config_DislikedReviewers c) u) eqn:Hc;
    cbn [negb config.removeFromLiked config.removeFromDisliked
         config.set_Disliked config.set_Liked
         config.Config_LikedReviewers config.Config_DislikedReviewers].
  - apply range_contains_In in Hc. lists_tac Hdis.
  - apply range_contains_not_In in Hc. lists_tac Hdis.
Qed.


End ReviewerLists.



Example reviewer_lists_example :
  let c := config.apply_ops (Fixture.cfg 5 ["alice"] ["mallory"])
             [config.OpAddLiked "mallory"; config.OpAddDisliked "alice";
              config.OpAddDisliked "alice"] in
  config.Config_LikedReviewers c = ["mallory"] /\
  config.Config_DislikedReviewers c = ["alice"].
Proof. split; reflexivity. Qed.

(* ===================================================================== *)
(** * The effective level of an author                                    *)
(* ===================================================================== *)

Lemma Validate_level cfg :
  config.Validate cfg = None -> 1 <= config.Config_NitpickyLevel cfg <= 10.
Proof.
  unfold config.Validate.
  destruct (String.eqb _ _); [discriminate|].
  destruct (String.eqb _ _); [discriminate|].
  destruct (Z.ltb_spec (config.Config_NitpickyLevel cfg) 1); [discriminate|].
  destruct (Z.gtb_spec (config.Config_NitpickyLevel cfg) 10); [discriminate|].
  lia.
Qed.

(** C2. For every author and every valid configuration, the effective
    level is the configured level plus the bias of the author, clamped to
    1..10, where the bias is -2 for a liked author, otherwise +3 for a
    disliked author, otherwise 0 (the liked list is consulted first, so an
    author on both lists counts as liked); the threshold 90 - 5e computed
    from it lies between 40 and 85. *)
Theorem effective_level_and_threshold (cfg : config.Config) (author : string) :
  config.Validate cfg = None ->
  let bias := config.GetReviewerBias cfg author in
  let e := effectiveNitpicky cfg author in
  (In author (config.Config_LikedReviewers cfg) -> bias = -2) /\
  (~ In author (config.Config_LikedReviewers cfg) ->
   In author (config.Config_DislikedReviewers cfg) -> bias = 3) /\
  (~ In author (config.Config_LikedReviewers cfg) ->
   ~ In author (config.Config_DislikedReviewers cfg) -> bias = 0) /\
  e = Z.max 1 (Z.min 10 (config.Config_NitpickyLevel cfg + bias)) /\
  threshold e = 90 - 5 * e /\
  40 <= threshold e <= 85.
Proof.
  intros Hvalid bias e. subst bias e.
  pose proof (Validate_level cfg Hvalid) as Hlevel.
  pose proof (GetReviewerBias_range cfg author) as Hbias.
  pose proof (effectiveNitpicky_range cfg author) as He.
  pose proof (threshold_effective cfg author) as Ht.
  repeat split; try lia.
  - intros H. unfold config.GetReviewerBias, config.IsLikedReviewer.
    apply range_contains_In in H. now rewrite H.
  - intros H1 H2.
    unfold config.GetReviewerBias, config.IsLikedReviewer,
      config.IsDislikedReviewer.
    apply range_contains_not_In in H1. apply range_contains_In in H2.
    now rewrite H1, H2.
  - intros H1 H2.
    unfold config.GetReviewerBias, config.IsLikedReviewer,
      config.IsDislikedReviewer.
    apply range_contains_not_In in H1. apply range_contains_not_In in H2.
    now rewrite H1, H2.
  - unfold effectiveNitpicky, add. cbv zeta.
    rewrite wrap64_small by lia.
    destruct (Z.ltb_spec (config.Config_NitpickyLevel cfg
                          + config.GetReviewerBias cfg author) 1).
    + cbn. lia.
    + destruct (Z.gtb_spec (config.Config_NitpickyLevel cfg
                            + config.GetReviewerBias cfg author) 10); lia.
Qed.

(** The statement at level 9 with a disliked author: effective level 10,
    threshold 40. *)
Lemma effective_level_and_threshold_witness :
  config.Validate (Fixture.cfg 9 ["alice"] ["mallory"]) = None /\
  effectiveNitpicky (Fixture.cfg 9 ["alice"] ["mallory"]) "mallory"
  = Z.max 1 (Z.min 10 (9 + config.GetReviewerBias
                             (Fixture.cfg 9 ["alice"] ["mallory"]) "mallory")) /\
  40 <= threshold (effectiveNitpicky (Fixture.cfg 9 ["alice"] ["mallory"])
                     "mallory") <= 85.
Proof.
  assert (H : config.Validate (Fixture.cfg 9 ["alice"] ["mallory"]) = None)
    by reflexivity.
  split; [exact H|].
  destruct (effective_level_and_threshold
              (Fixture.cfg 9 ["alice"] ["mallory"]) "mallory" H)
    as (_ & _ & _ & He & _ & Ht).
  split; [exact He|exact Ht].
Defined.

Example effective_level_examples :
  effectiveNitpicky (Fixture.cfg 9 ["alice"] ["mallory"]) "mallory" = 10 /\
  effectiveNitpicky (Fixture.cfg 2 ["alice"] ["mallory"]) "alice" = 1 /\
  effectiveNitpicky (Fixture.cfg 5 ["alice"] ["mallory"]) "bob" = 5 /\
  effectiveNitpicky (Fixture.cfg 5 ["eve"] ["eve"]) "eve" = 3 /\
  threshold 10 = 40 /\ threshold 1 = 85.
Proof. repeat split; reflexivity. Qed.

(* ===================================================================== *)
(** * The confirmation pipeline                                           *)
(* ===================================================================== *)

Lemma confirmed_of_In e judged ci :
  In ci (confirmed_of e judged) <->
  exists issue a, In (issue, Ok a) judged /\ accepted e a /\
                  ci = reviewer.mkAnalyzedIssue issue a.
Proof.
  induction judged as [|[issue [a|err]] judged IH]; cbn [confirmed_of].
  - split; [intros []|intros (? & ? & [] & _)].
  - destruct (acceptedb e a) eqn:Ha.
    + cbn [In]. rewrite IH. split.
      * intros [<-|(i & b & Hin & Hb & ->)].
        -- exists issue, a. split; [now left|].
           split; [now apply acceptedb_spec|reflexivity].
        -- exists i, b. split; [now right|]. split; [exact Hb|reflexivity].
      * intros (i & b & [E|Hin] & Hb & ->).
        -- injection E as -> ->. now left.
        -- right. exists i, b. split; [exact Hin|].
           split; [exact Hb|reflexivity].
    + rewrite IH. split.
      * intros (i & b & Hin & Hb & ->). exists i, b.
        split; [now right|]. split; [exact Hb|reflexivity].
      * intros (i & b & [E|Hin] & Hb & ->).
        -- injection E as -> ->. apply acceptedb_spec in Hb. congruence.
        -- exists i, b. split; [exact Hin|]. split; [exact Hb|reflexivity].
  - rewrite IH. split.
    + intros (i & b & Hin & Hb & ->). exists i, b.
      split; [now right|]. split; [exact Hb|reflexivity].
    + intros (i & b & [E|Hin] & Hb & ->); [discriminate|].
      exists i, b. split; [exact Hin|]. split; [exact Hb|reflexivity].
Qed.

(** Three candidates at level 8 (threshold 50): the first is accepted at
    confidence 90, the analysis of the second fails, the third is accepted
    at confidence 50. *)
Example confirmed_example :
  let r := reviewer.NewReviewer (Fixture.cfg 5 [] ["mallory"]) in
  let world := Fixture.world "mallory"
                 [Fixture.say "{yes 90}"; Fail "timeout"; Fixture.say "{yes 50}"]
                 None in
  map reviewer.AnalyzedIssue_Original
    (run (for_range
            (Review_deep_body Fixture.lib world r Fixture.ref1
               (github.mkPullRequest "mallory" "title" "sha")
               (effectiveNitpicky (reviewer.Reviewer_config r) "mallory") 3)
            0 [Fixture.issue1; Fixture.issue2; Fixture.issue3] []) [])
  = [Fixture.issue1; Fixture.issue3].
Proof. vm_compute. reflexivity. Qed.

Lemma confirmed_of_sublist e : forall issues judged,
  map reviewer.AnalyzedIssue_Original (confirmed_of e (combine issues judged))
  `sublist_of` issues.
Proof.
  induction issues as [|issue issues IH]; intros [|[a|err] judged];
    cbn [combine confirmed_of map]; try apply sublist_nil_l.
  - destruct (acceptedb e a); cbn [map reviewer.AnalyzedIssue_Original].
    + apply sublist_skip, IH.
    + apply sublist_cons, IH.
  - apply sublist_cons, IH.
Qed.

Lemma comments_of_sublist : forall confirmed formatted,
  map comment_place (comments_of (combine confirmed formatted))
  `sublist_of`
  map issue_place (map reviewer.AnalyzedIssue_Original confirmed).
Proof.
  induction confirmed as [|ci confirmed IH]; intros [|[body|err] formatted];
    cbn [combine comments_of map]; try apply sublist_nil_l.
  - apply sublist_skip, IH.
  - apply sublist_cons, IH.
Qed.

Lemma len_slice_sublist {A} (l1 l2 : list A) :
  l1 `sublist_of` l2 -> len_slice l1 <= len_slice l2.
Proof.
  intros H. apply sublist_length in H. unfold len_slice. lia.
Qed.

Lemma len_slice_map {A B} (f : A -> B) l : len_slice (map f l) = len_slice l.
Proof. unfold len_slice. now rewrite length_map. Qed.

(** What every run of [Review] does, from any trace. *)
Lemma Review_run lib world r prRef dryRun tr :
  exists d,
    trace_of (Reviewer_Review lib world r prRef dryRun) tr = (tr ++ d)%list /\
    Review_outcome lib world r prRef dryRun
      (run (Reviewer_Review lib world r prRef dryRun) tr) d.
Proof. apply spec_elim, Review_spec. Qed.

Lemma Defend_run lib world d prRef dryRun tr :
  exists dl,
    trace_of (Defender_Defend lib world d prRef dryRun) tr = (tr ++ dl)%list /\
    Defend_outcome lib world d prRef dryRun
      (run (Defender_Defend lib world d prRef dryRun) tr) dl.
Proof. apply spec_elim, Defend_spec. Qed.

Example confirmed_subsequence_example :
  let r := reviewer.NewReviewer (Fixture.cfg 5 [] []) in
  let world := Fixture.world "bob"
                 [Fixture.say "{3}"; Fixture.say "{yes 90}"; Fail "timeout";
                  Fixture.say "{yes 50}"; Fixture.say "Please fix."]
                 None in
  match run (Reviewer_Review Fixture.lib world r "o/r#1" true) [] with
  | Ok result =>
      map comment_place (reviewer.ReviewResult_Comments result) = [("a.go", 3)] /\
      reviewer.ReviewStats_IssuesFound (reviewer.ReviewResult_Stats result) = 3 /\
      reviewer.ReviewStats_IssuesAfterDeep (reviewer.ReviewResult_Stats result) = 1
  | Fail _ => False
  end.
Proof. vm_compute. repeat split. Qed.

Example nitpick_without_candidate :
  match run (Reviewer_Review Fixture.lib Fixture.world_nitpick_only
               Fixture.hostile "o/r#1" true) [] with
  | Ok result =>
      reviewer.ReviewStats_IssuesFound (reviewer.ReviewResult_Stats result) = 0 /\
      reviewer.ReviewResult_Comments result
      = [nitpick_comment Fixture.nitpick1]
  | Fail _ => False
  end.
Proof. vm_compute. split; reflexivity. Qed.

(* ===================================================================== *)
(** * Posting and previewing                                              *)
(* ===================================================================== *)

Lemma no_post_review_preview review : Forall no_post (review_preview review).
Proof.
  unfold review_preview. rewrite !Forall_app. repeat split.
  - repeat constructor.
  - apply List.Forall_forall. intros ev Hev.
    apply in_map_iff in Hev as (c & <- & _). reflexivity.
  - repeat constructor.
Qed.

Lemma Review_outcome_dry lib world r prRef res d :
  Review_outcome lib world r prRef true res d ->
  Forall no_post d /\
  match res with
  | Ok result => exists d0, d = (d0 ++ review_preview result)%list
  | Fail _ => True
  end.
Proof.
  intros H. inversion H; subst; try discriminate; try (split; [assumption|exact I]).
  - split; [constructor|exact I].
  - split; [|eauto]. apply Forall_app. split; [assumption|].
    apply no_post_review_preview.
Qed.

Lemma Defend_outcome_dry lib world d prRef res dl :
  Defend_outcome lib world d prRef true res dl ->
  Forall no_post dl /\
  match res with
  | Ok result => exists d0 d1, dl = (d0 ++ defense_preview result ++ d1)%list
  | Fail _ => True
  end.
Proof.
  intros H. inversion H; subst; try discriminate; try (split; [assumption|exact I]).
  - split; [constructor|exact I].
  - split; [assumption|]. exists dl, []. now rewrite app_nil_r.
  - split; assumption.
Qed.

Lemma no_post_Exists d :
  Forall no_post d -> ~ List.Exists (fun ev => is_post ev = true) d.
Proof.
  intros Hall Hex. apply List.Exists_exists in Hex as (ev & Hin & Hev).
  rewrite List.Forall_forall in Hall. specialize (Hall ev Hin).
  unfold no_post in Hall. congruence.
Qed.

(** C5. With dry-run enabled, [Review] and [Defend] perform no call to
    [PostReview] or [ReplyToComment], whatever the outside answers, and
    the result they return has been printed: the preview of the review
    ends the events of [Review], the preview of each response is among
    those of [Defend]. Hence a run that posts has dry-run disabled. *)
Theorem dry_run_posts_nothing (lib : Lib) (world : World) :
  (forall r prRef tr,
      exists d,
        trace_of (Reviewer_Review lib world r prRef true) tr = (tr ++ d)%list /\
        Forall (fun ev => is_post ev = false) d /\
        match run (Reviewer_Review lib world r prRef true) tr with
        | Ok result => exists d0, d = (d0 ++ review_preview result)%list
        | Fail _ => True
        end) /\
  (forall dfn prRef tr,
      exists d,
        trace_of (Defender_Defend lib world dfn prRef true) tr = (tr ++ d)%list /\
        Forall (fun ev => is_post ev = false) d /\
        match run (Defender_Defend lib world dfn prRef true) tr with
        | Ok result =>
            exists d0 d1, d = (d0 ++ defense_preview result ++ d1)%list
        | Fail _ => True
        end) /\
  (forall r prRef dryRun tr d,
      trace_of (Reviewer_Review lib world r prRef dryRun) tr = (tr ++ d)%list ->
      List.Exists (fun ev => is_post ev = true) d ->
      dryRun = false) /\
  (forall dfn prRef dryRun tr d,
      trace_of (Defender_Defend lib world dfn prRef dryRun) tr = (tr ++ d)%list ->
      List.Exists (fun ev => is_post ev = true) d ->
      dryRun = false).
Proof.
  assert (HR : forall r prRef tr,
             exists d,
               trace_of (Reviewer_Review lib world r prRef true) tr
               = (tr ++ d)%list /\
               Forall (fun ev => is_post ev = false) d /\
               match run (Reviewer_Review lib world r prRef true) tr with
               | Ok result => exists d0, d = (d0 ++ review_preview result)%list
               | Fail _ => True
               end).
  { intros r prRef tr.
    destruct (Review_run lib world r prRef true tr) as (d & Ht & Ho).
    exists d. split; [exact Ht|]. now apply Review_outcome_dry in Ho. }
  assert (HD : forall dfn prRef tr,
             exists d,
               trace_of (Defender_Defend lib world dfn prRef true) tr
               = (tr ++ d)%list /\
               Forall (fun ev => is_post ev = false) d /\
               match run (Defender_Defend lib world dfn prRef true) tr with
               | Ok result =>
                   exists d0 d1, d = (d0 ++ defense_preview result ++ d1)%list
               | Fail _ => True
               end).
  { intros dfn prRef tr.
    destruct (Defend_run lib world dfn prRef true tr) as (d & Ht & Ho).
    exists d. split; [exact Ht|]. now apply Defend_outcome_dry in Ho. }
  split; [exact HR|]. split; [exact HD|]. split.
  - intros r prRef [|] tr d Ht Hex; [exfalso|reflexivity].
    destruct (HR r prRef tr) as (d' & Ht' & Hall & _).
    rewrite Ht in Ht'. apply app_inv_head in Ht' as <-.
    exact (no_post_Exists d Hall Hex).
  - intros dfn prRef [|] tr d Ht Hex; [exfalso|reflexivity].
    destruct (HD dfn prRef tr) as (d' & Ht' & Hall & _).
    rewrite Ht in Ht'. apply app_inv_head in Ht' as <-.
    exact (no_post_Exists d Hall Hex).
Qed.

(** The same review and the same defense, in a dry run and not. *)
Example dry_run_example :
  List.filter is_post
    (trace_of (Reviewer_Review Fixture.lib (Fixture.world_three None)
                 Fixture.strict "o/r#1" true) []) = [] /\
  List.length
    (List.filter is_post
       (trace_of (Reviewer_Review Fixture.lib (Fixture.world_three None)
                    Fixture.strict "o/r#1" false) [])) = 1%nat /\
  List.filter is_post
    (trace_of (Defender_Defend Fixture.lib (Fixture.world_defense None)
                 Fixture.me "o/r#1" true) []) = [] /\
  List.filter is_post
    (trace_of (Defender_Defend Fixture.lib (Fixture.world_defense None)
                 Fixture.me "o/r#1" false) [])
  = [EvReplyToComment Fixture.ref1 11 "No."].
Proof. vm_compute. repeat split. Qed.

(* ===================================================================== *)
(** * The review event                                                    *)
(* ===================================================================== *)

Lemma review_event_spec comments e :
  (review_event comments e = "REQUEST_CHANGES" <-> comments <> [] /\ e >= 7) /\
  (review_event comments e = "REQUEST_CHANGES" \/
   review_event comments e = "COMMENT").
Proof.
  unfold review_event.
  assert (Hlen : (len_slice comments >? 0) = true <-> comments <> []).
  { unfold len_slice. destruct comments; cbn [List.length].
    - split; [discriminate|congruence].
    - split; [discriminate|]. intros _. apply Z.gtb_lt. lia. }
  destruct (len_slice comments >? 0).
  - destruct (Z.geb_spec e 7); cbn [andb].
    + split; [|now left]. split; [|reflexivity].
      intros _. split; [now apply Hlen|lia].
    + split; [|now right]. split; [discriminate|]. intros [_ Hge]. lia.
  - cbn [andb]. split; [|now right]. split; [discriminate|].
    intros [Hne _]. apply Hlen in Hne. discriminate.
Qed.

(** C10. The posting calls of a run of [Review] are none, or, with dry-run
    disabled, exactly one [PostReview], for the review generated for the
    pull request fetched, whose event is REQUEST_CHANGES if and only if the
    review has a comment and the effective level of the author is at least
    7, and COMMENT otherwise. *)
Theorem posted_review_event (lib : Lib) (world : World)
  (r : reviewer.Reviewer) (prRef : string) (dryRun : bool) (tr : Trace) :
  exists d,
    trace_of (Reviewer_Review lib world r prRef dryRun) tr = (tr ++ d)%list /\
    (List.filter is_post d = [] \/
     dryRun = false /\
     exists ref pr tr0 files review event,
       ParsePRReference lib prRef = Ok ref /\
       GetPR world tr0 ref = Ok pr /\
       pipeline_result lib world r ref pr (github.PullRequest_Login pr)
         (effectiveNitpicky (reviewer.Reviewer_config r)
            (github.PullRequest_Login pr)) files review /\
       List.filter is_post d
       = [EvPostReview ref (reviewer.ReviewResult_Summary review) event
            (reviewer.ReviewResult_Comments review)] /\
       (event = "REQUEST_CHANGES" <->
        reviewer.ReviewResult_Comments review <> [] /\
        effectiveNitpicky (reviewer.Reviewer_config r)
          (github.PullRequest_Login pr) >= 7) /\
       (event = "REQUEST_CHANGES" \/ event = "COMMENT")).
Proof.
  destruct (Review_run lib world r prRef dryRun tr) as (d & Ht & Ho).
  exists d. split; [exact Ht|].
  inversion Ho; subst;
    try (left; apply filter_no_post; (assumption || constructor)).
  - left. apply filter_no_post, Forall_app. split; [assumption|].
    apply no_post_review_preview.
  - right. split; [reflexivity|].
    destruct (review_event_spec (reviewer.ReviewResult_Comments review)
                (effectiveNitpicky (reviewer.Reviewer_config r)
                   (github.PullRequest_Login pr))) as [Hiff Hor].
    exists ref, pr, tr0, files, review,
      (review_event (reviewer.ReviewResult_Comments review)
         (effectiveNitpicky (reviewer.Reviewer_config r)
            (github.PullRequest_Login pr))).
    repeat (split; [eassumption|]).
    split; [|split; [exact Hiff|exact Hor]].
    rewrite List.filter_app, filter_no_post by assumption. reflexivity.
  - right. split; [reflexivity|].
    destruct (review_event_spec (reviewer.ReviewResult_Comments review)
                (effectiveNitpicky (reviewer.Reviewer_config r)
                   (github.PullRequest_Login pr))) as [Hiff Hor].
    exists ref, pr, tr0, files, review,
      (review_event (reviewer.ReviewResult_Comments review)
         (effectiveNitpicky (reviewer.Reviewer_config r)
            (github.PullRequest_Login pr))).
    repeat (split; [eassumption|]).
    split; [|split; [exact Hiff|exact Hor]].
    rewrite List.filter_app, filter_no_post by assumption. reflexivity.
Qed.

(** At level 8 with one comment the event is REQUEST_CHANGES; at level 5,
    or without comments, it is COMMENT. *)
Example posted_review_event_example :
  map (fun ev => match ev with EvPostReview _ _ event _ => event | _ => "" end)
    (List.filter is_post
       (trace_of (Reviewer_Review Fixture.lib (Fixture.world_three None)
                    Fixture.strict "o/r#1" false) []))
  = ["REQUEST_CHANGES"] /\
  review_event [nitpick_comment Fixture.nitpick1] 6 = "COMMENT" /\
  review_event [] 10 = "COMMENT".
Proof. vm_compute. repeat split. Qed.

(* ===================================================================== *)
(** * Failures of single items                                            *)
(* ===================================================================== *)

Lemma responses_of_app l1 l2 :
  responses_of (l1 ++ l2) = (responses_of l1 ++ responses_of l2)%list.
Proof.
  induction l1 as [|[c [err|a err|a s]] l1 IH]; cbn [app responses_of]; auto.
  now rewrite IH.
Qed.

Lemma count_side_Responses a acc :
  defender.DefenseResult_Responses (count_side a acc)
  = defender.DefenseResult_Responses acc.
Proof. unfold count_side. now destruct (concedes a). Qed.

Lemma defense_step_Responses acc item :
  defender.DefenseResult_Responses (defense_step acc item)
  = (defender.DefenseResult_Responses acc ++ responses_of [item])%list.
Proof.
  destruct item as [c [err|a err|a s]]; cbn [defense_step responses_of].
  - cbn. now rewrite app_nil_r.
  - cbn. now rewrite count_side_Responses, app_nil_r.
  - cbn. now rewrite count_side_Responses.
Qed.

Lemma defense_fold_Responses items : forall acc,
  defender.DefenseResult_Responses (fold_left defense_step items acc)
  = (defender.DefenseResult_Responses acc ++ responses_of items)%list.
Proof.
  induction items as [|item items IH]; intros acc; cbn [fold_left].
  - cbn. now rewrite app_nil_r.
  - rewrite IH, defense_step_Responses, <- app_assoc.
    now rewrite <- responses_of_app.
Qed.

(** A dry run in which the deep analysis of the second candidate and the
    formatting of the third fail returns the comment of the first; a
    defense in which the analysis of the second comment fails returns the
    response to the first and counts one skipped. *)
Example log_and_skip_example :
  match run (Reviewer_Review Fixture.lib (Fixture.world_three None)
               Fixture.strict "o/r#1" true) [] with
  | Ok result =>
      map comment_place (reviewer.ReviewResult_Comments result) = [("a.go", 3)] /\
      reviewer.ReviewStats_IssuesAfterDeep (reviewer.ReviewResult_Stats result) = 2
  | Fail _ => False
  end /\
  match run (Defender_Defend Fixture.lib (Fixture.world_defense None)
               Fixture.me "o/r#1" true) [] with
  | Ok result =>
      map defender.CommentResponse_Response
        (defender.DefenseResult_Responses result) = ["No."] /\
      defender.DefenseStats_Skipped (defender.DefenseResult_Stats result) = 1
  | Fail _ => False
  end.
Proof. vm_compute. repeat split. Qed.

(* ===================================================================== *)
(** * The chat-completion client                                          *)
(* ===================================================================== *)

(** A call either fails before anything is sent, with an error that
    depends on the client and the arguments only, or sends one request,
    which depends on the client and the arguments only, and returns a
    value that depends on the answer to that request only. *)
Lemma ChatWithOptions_shape lib c messages temperature maxTokens :
  (exists err,
      forall world tr,
        ai_Client_ChatWithOptions lib world c messages temperature maxTokens tr
        = ((c, Fail err), tr)) \/
  (exists req (decode : result (result string) -> result string),
      forall world tr,
        ai_Client_ChatWithOptions lib world c messages temperature maxTokens tr
        = ((c, decode (http_Do world tr (ai.Client_httpClient c) req)),
           (tr ++ [EvHTTPDo (ai.Client_httpClient c) req])%list)).
Proof.
  unfold ai_Client_ChatWithOptions. cbv zeta.
  destruct (json_Marshal_ChatRequest lib _) as [body|err].
  2:{ left. eexists. intros world tr. reflexivity. }
  destruct (http_NewRequest lib "POST" _ body) as [httpReq|err].
  2:{ left. eexists. intros world tr. reflexivity. }
  right.
  exists (http.Request_set_header
            (http.Request_set_header httpReq "Content-Type" "application/json")
            "Authorization" ("Bearer " +:+ ai.Client_apiKey c)).
  exists (fun resp =>
            match resp with
            | Fail err => Fail ("failed to send request: " +:+ err)
            | Ok (Fail err) => Fail ("failed to read response: " +:+ err)
            | Ok (Ok respBody) =>
                match json_Unmarshal_ChatResponse lib respBody with
                | Fail err =>
                    Fail ("failed to parse response: " +:+ err +:+
                          " (body: " +:+ respBody +:+ ")")
                | Ok chatResp =>
                    match ai.ChatResponse_Error chatResp with
                    | Some e =>
                        Fail ("API error: " +:+ ai.APIError_Message e +:+
                              " (type: " +:+ ai.APIError_Type e +:+ ")")
                    | None =>
                        match ai.ChatResponse_Choices chatResp with
                        | [] => Fail "no choices in response"
                        | choice :: _ =>
                            Ok (ai.Message_Content (ai.Choice_Message choice))
                        end
                    end
                end
            end).
  intros world tr. unfold bind, call.
  destruct (http_Do world tr _ _) as [[respBody|err]|err]; try reflexivity.
  destruct (json_Unmarshal_ChatResponse lib respBody) as [chatResp|err];
    [|reflexivity].
  destruct (ai.ChatResponse_Error chatResp); [reflexivity|].
  destruct (ai.ChatResponse_Choices chatResp); reflexivity.
Qed.

(** Two calls in different states of the outside that receive the same
    body return its first choice. *)
Example chat_example :
  let c := ai.NewClient "https://api.example/v1/" "key" "gpt-4" in
  ai.Client_baseURL c = "https://api.example/v1" /\
  run (ai_Client_Chat Fixture.lib (Fixture.world "bob" [Fixture.say "hello"] None)
         c [ai.UserMessage "hi"]) []
  = (c, Ok "hello") /\
  run (ai_Client_Chat Fixture.lib
         (Fixture.world "eve" [Fail "x"; Fixture.say "hello"] None)
         c [ai.UserMessage "hi"]) [EvHTTPDo (ai.Client_httpClient c)
                                     (http.mkRequest "GET" "" [] "")]
  = (c, Ok "hello").
Proof. vm_compute. repeat split. Qed.

(* ===================================================================== *)
(** * More on strings: slices, suffixes, replacing and splitting          *)
(* ===================================================================== *)

Section MoreStrings.

Implicit Types (s pre post rest mid : string) (c d : ascii).

Lemma sapp_nil_r s : s +:+ "" = s.
Proof.
  induction s as [|c s IH]; [reflexivity|]. now rewrite sapp_cons, IH.
Qed.

Lemma slice_prefix pre post : slice (pre +:+ post) 0 (len pre) = pre.
Proof.
  unfold slice, len. rewrite Z.sub_0_r, Nat2Z.id. change (Z.to_nat 0) with 0%nat.
  pose proof (substring_middle "" pre post) as H.
  now rewrite sapp_nil_l in H.
Qed.

Lemma slice_suffix pre post :
  slice (pre +:+ post) (len pre) (len (pre +:+ post)) = post.
Proof.
  unfold slice. rewrite len_sapp. unfold len.
  replace (Z.of_nat (String.length pre) + Z.of_nat (String.length post)
           - Z.of_nat (String.length pre)) with (Z.of_nat (String.length post))
    by lia.
  rewrite !Nat2Z.id.
  pose proof (substring_middle pre post "") as H.
  now rewrite sapp_nil_r in H.
Qed.

Lemma HasSuffix_sapp pre post : strings.HasSuffix (pre +:+ post) post = true.
Proof.
  unfold strings.HasSuffix. rewrite length_sapp.
  apply andb_true_intro. split.
  - apply Nat.leb_le. lia.
  - replace (String.length pre + String.length post - String.length post)%nat
      with (String.length pre) by lia.
    pose proof (substring_middle pre post "") as H.
    rewrite sapp_nil_r in H. rewrite H. apply String.eqb_refl.
Qed.

Lemma TrimSuffix_sapp pre post : strings.TrimSuffix (pre +:+ post) post = pre.
Proof.
  unfold strings.TrimSuffix. rewrite HasSuffix_sapp, len_sapp.
  replace (len pre + len post - len post) with (len pre) by lia.
  apply slice_prefix.
Qed.

Lemma contains_byte_sapp c s1 s2 :
  strings.contains_byte c (s1 +:+ s2) =
  strings.contains_byte c s1 || strings.contains_byte c s2.
Proof.
  induction s1 as [|d s1 IH]; [reflexivity|].
  rewrite sapp_cons. cbn [strings.contains_byte]. rewrite IH.
  now rewrite orb_assoc.
Qed.

Lemma LastIndex_byte_present c s :
  strings.LastIndex s (String c "") <> -1 ->
  exists rest post, s = rest +:+ String c post /\
                    strings.contains_byte c post = false /\
                    strings.LastIndex s (String c "") = len rest.
Proof.
  intros H.
  destruct (LastIndex_byte_split c s) as (rest & post & -> & Hpost).
  { destruct (LastIndex_byte_range c s) as [?|[_ ?]]; lia. }
  exists rest, post. repeat split; auto.
  now apply LastIndex_byte_last.
Qed.

Lemma LastIndex_byte_none c s :
  strings.LastIndex s (String c "") = -1 -> strings.contains_byte c s = false.
Proof.
  intros H. destruct (strings.contains_byte c s) eqn:Hc; [|reflexivity].
  exfalso. induction s as [|d s IH]; cbn [strings.contains_byte] in Hc;
    [discriminate|].
  rewrite LastIndex_byte_cons in H.
  destruct (Z.ltb_spec (strings.LastIndex s (String c "")) 0) as [Hn|Hn].
  - destruct (Ascii.eqb c d); [lia|]. cbn in Hc.
    destruct (LastIndex_byte_range c s) as [?|[_ ?]]; apply IH; auto; lia.
  - destruct (LastIndex_byte_range c s) as [?|[-> ?]]; lia.
Qed.

End MoreStrings.

(* ===================================================================== *)
(** * Lines: replacing, splitting and joining at newlines                 *)
(* ===================================================================== *)

Section Lines.

Implicit Types (s cur pre post : string) (c d : ascii) (l : list string).




Lemma prefix_nl d s : String.prefix nl (String d s) = Ascii.eqb (ascii_of_nat 10) d.
Proof. unfold nl. apply prefix_byte. Qed.

Lemma sapp_length_split s (k : nat) :
  (k <= String.length s)%nat ->
  exists pre post, s = pre +:+ post /\ String.length pre = k.
Proof.
  revert k. induction s as [|c s IH]; intros k Hk.
  - exists "", "". cbn in *. split; [reflexivity|lia].
  - destruct k as [|k].
    + exists "", (String c s). auto.
    + destruct (IH k) as (pre & post & -> & Hlen); [cbn in Hk; lia|].
      exists (String c pre), post. cbn [String.length]. auto.
Qed.

(** [ReplaceAll(s, "\n", " ")] replaces byte by byte. *)
Lemma ReplaceAll_nl_cons d s :
  strings.ReplaceAll (String d s) nl " " =
  (if Ascii.eqb (ascii_of_nat 10) d then " " else String d "") +:+ strings.ReplaceAll s nl " ".
Proof.
  unfold strings.ReplaceAll. cbn [strings.ReplaceAll_from].
  rewrite prefix_nl. destruct (Ascii.eqb (ascii_of_nat 10) d); reflexivity.
Qed.

Lemma ReplaceAll_nl_length s :
  String.length (strings.ReplaceAll s nl " ") = String.length s.
Proof.
  induction s as [|d s IH]; [reflexivity|].
  rewrite ReplaceAll_nl_cons, length_sapp, IH.
  destruct (Ascii.eqb (ascii_of_nat 10) d); reflexivity.
Qed.

Lemma ReplaceAll_nl_clean s :
  strings.contains_byte (ascii_of_nat 10) (strings.ReplaceAll s nl " ") = false.
Proof.
  induction s as [|d s IH]; [reflexivity|].
  rewrite ReplaceAll_nl_cons, contains_byte_sapp, IH, orb_false_r.
  destruct (Ascii.eqb (ascii_of_nat 10) d) eqn:E; [reflexivity|].
  cbn [strings.contains_byte]. now rewrite E.
Qed.

Lemma ReplaceAll_nl_id s :
  strings.contains_byte (ascii_of_nat 10) s = false -> strings.ReplaceAll s nl " " = s.
Proof.
  induction s as [|d s IH]; cbn [strings.contains_byte]; intros H;
    [reflexivity|].
  apply orb_false_iff in H as [Hd Hs].
  now rewrite ReplaceAll_nl_cons, Hd, (IH Hs).
Qed.

Lemma ReplaceAll_nl_sapp s1 s2 :
  strings.ReplaceAll (s1 +:+ s2) nl " " =
  strings.ReplaceAll s1 nl " " +:+ strings.ReplaceAll s2 nl " ".
Proof.
  induction s1 as [|d s1 IH]; [reflexivity|].
  now rewrite sapp_cons, !ReplaceAll_nl_cons, IH, sapp_assoc.
Qed.

(** [Split(s, "\n")], with the line being read in [cur]. *)
Lemma Split_from_nl_cons cur d s :
  strings.Split_from nl 0 cur (String d s) =
  if Ascii.eqb (ascii_of_nat 10) d then cur :: strings.Split_from nl 0 "" s
  else strings.Split_from nl 0 (cur +:+ String d "") s.
Proof.
  cbn [strings.Split_from]. rewrite prefix_nl. reflexivity.
Qed.

Lemma Split_from_nl_line cur s :
  strings.contains_byte (ascii_of_nat 10) s = false ->
  strings.Split_from nl 0 cur s = [cur +:+ s].
Proof.
  revert cur. induction s as [|d s IH]; intros cur;
    cbn [strings.contains_byte]; intros H.
  - now rewrite sapp_nil_r.
  - apply orb_false_iff in H as [Hd Hs].
    rewrite Split_from_nl_cons, Hd, (IH _ Hs), sapp_assoc. reflexivity.
Qed.

Lemma Split_from_nl_sapp cur s1 s2 :
  strings.Split_from nl 0 cur (s1 +:+ nl +:+ s2) =
  (strings.Split_from nl 0 cur s1 ++ strings.Split_from nl 0 "" s2)%list.
Proof.
  revert cur. induction s1 as [|d s1 IH]; intros cur.
  - rewrite sapp_nil_l. unfold nl at 2. rewrite sapp_cons, sapp_nil_l.
    rewrite Split_from_nl_cons, Ascii.eqb_refl. reflexivity.
  - rewrite sapp_cons, !Split_from_nl_cons.
    destruct (Ascii.eqb (ascii_of_nat 10) d); [|apply IH].
    rewrite IH. reflexivity.
Qed.

Lemma Split_from_nonempty sep skip cur s :
  strings.Split_from sep skip cur s <> [].
Proof.
  revert skip cur. induction s as [|d s IH]; intros skip cur;
    cbn [strings.Split_from]; [discriminate|].
  destruct skip; [|apply IH].
  destruct (String.prefix sep (String d s)); [discriminate|apply IH].
Qed.

Lemma Split_from_nl_clean s : forall cur,
  strings.contains_byte (ascii_of_nat 10) cur = false ->
  Forall (fun line => strings.contains_byte (ascii_of_nat 10) line = false)
         (strings.Split_from nl 0 cur s).
Proof.
  induction s as [|d s IH]; intros cur Hcur.
  - constructor; [exact Hcur|constructor].
  - rewrite Split_from_nl_cons. destruct (Ascii.eqb (ascii_of_nat 10) d) eqn:E.
    + constructor; [exact Hcur|]. now apply IH.
    + apply IH. rewrite contains_byte_sapp, Hcur.
      cbn [strings.contains_byte]. now rewrite E.
Qed.

Lemma Join_cons e l sep :
  l <> [] -> strings.Join (e :: l) sep = e +:+ sep +:+ strings.Join l sep.
Proof. destruct l; [congruence|reflexivity]. Qed.

Lemma Join_app l1 l2 sep :
  l1 <> [] -> l2 <> [] ->
  strings.Join (l1 ++ l2) sep =
  strings.Join l1 sep +:+ sep +:+ strings.Join l2 sep.
Proof.
  intros H1 H2. induction l1 as [|e l1 IH]; [congruence|].
  destruct l1 as [|e' l1].
  - cbn [app]. now rewrite Join_cons.
  - rewrite <- app_comm_cons, Join_cons by (cbn; discriminate).
    rewrite IH by discriminate.
    rewrite (Join_cons e (e' :: l1)) by discriminate.
    now rewrite !sapp_assoc.
Qed.

Lemma Join_Split_from_nl s : forall cur,
  strings.Join (strings.Split_from nl 0 cur s) nl = cur +:+ s.
Proof.
  induction s as [|d s IH]; intros cur.
  - cbn. now rewrite sapp_nil_r.
  - rewrite Split_from_nl_cons. destruct (Ascii.eqb_spec (ascii_of_nat 10) d) as [<-|Hne].
    + rewrite Join_cons by apply Split_from_nonempty.
      rewrite IH, sapp_nil_l. reflexivity.
    + rewrite IH, sapp_assoc. reflexivity.
Qed.

End Lines.

(* ===================================================================== *)
(** * The bias after a change of the reviewer lists                       *)
(* ===================================================================== *)

Lemma range_contains_ext l1 l2 v :
  (In v l1 <-> In v l2) ->
  config.range_contains l1 v = config.range_contains l2 v.
Proof.
  intros H. destruct (config.range_contains l2 v) eqn:E.
  - apply range_contains_In, H, range_contains_In, E.
  - apply range_contains_not_In. intros Hin.
    apply range_contains_not_In in E. tauto.
Qed.

Lemma AddLikedReviewer_level c u :
  config.Config_NitpickyLevel (config.AddLikedReviewer c u)
  = config.Config_NitpickyLevel c.
Proof.
  unfold config.AddLikedReviewer. now destruct (negb _).
Qed.

Lemma AddDislikedReviewer_level c u :
  config.Config_NitpickyLevel (config.AddDislikedReviewer c u)
  = config.Config_NitpickyLevel c.
Proof.
  unfold config.AddDislikedReviewer. now destruct (negb _).
Qed.

(** X1. On well-formed lists, [AddLikedReviewer] and [AddDislikedReviewer]
    take effect at the next review: the user added has bias -2, respectively
    +3, whatever list held them before, so that for a level in 1..10 the
    effective level for them is max 1 (level - 2), respectively
    min 10 (level + 3); the bias of every other user is unchanged. *)
Theorem bias_after_add (c : config.Config) (u : string) :
  lists_wf c ->
  1 <= config.Config_NitpickyLevel c <= 10 ->
  config.GetReviewerBias (config.AddLikedReviewer c u) u = -2 /\
  config.GetReviewerBias (config.AddDislikedReviewer c u) u = 3 /\
  effectiveNitpicky (config.AddLikedReviewer c u) u
    = Z.max 1 (config.Config_NitpickyLevel c - 2) /\
  effectiveNitpicky (config.AddDislikedReviewer c u) u
    = Z.min 10 (config.Config_NitpickyLevel c + 3) /\
  (forall v, v <> u ->
     config.GetReviewerBias (config.AddLikedReviewer c u) v
       = config.GetReviewerBias c v /\
     config.GetReviewerBias (config.AddDislikedReviewer c u) v
       = config.GetReviewerBias c v).
Proof.
  intros Hwf Hlevel.
  destruct (AddLikedReviewer_lists c u Hwf) as (_ & HLin & _ & _ & HLother).
  destruct (AddDislikedReviewer_lists c u Hwf) as (_ & HDin & HDout & _ & HDother).
  assert (HbL : config.GetReviewerBias (config.AddLikedReviewer c u) u = -2).
  { unfold config.GetReviewerBias, config.IsLikedReviewer.
    apply range_contains_In in HLin. now rewrite HLin. }
  assert (HbD : config.GetReviewerBias (config.AddDislikedReviewer c u) u = 3).
  { unfold config.GetReviewerBias, config.IsLikedReviewer,
      config.IsDislikedReviewer.
    apply range_contains_In in HDin. apply range_contains_not_In in HDout.
    now rewrite HDout, HDin. }
  repeat split; auto.
  - unfold effectiveNitpicky. rewrite HbL, AddLikedReviewer_level.
    unfold add. rewrite wrap64_small by lia.
    destruct (Z.ltb_spec (config.Config_NitpickyLevel c + -2) 1);
      [destruct (Z.gtb_spec 1 10)|
       destruct (Z.gtb_spec (config.Config_NitpickyLevel c + -2) 10)]; lia.
  - unfold effectiveNitpicky. rewrite HbD, AddDislikedReviewer_level.
    unfold add. rewrite wrap64_small by lia.
    destruct (Z.ltb_spec (config.Config_NitpickyLevel c + 3) 1);
      [destruct (Z.gtb_spec 1 10)|
       destruct (Z.gtb_spec (config.Config_NitpickyLevel c + 3) 10)]; lia.
  - destruct (HLother v H) as [H1 H2].
    unfold config.GetReviewerBias, config.IsLikedReviewer,
      config.IsDislikedReviewer.
    now rewrite (range_contains_ext _ _ v H1), (range_contains_ext _ _ v H2).
  - destruct (HDother v H) as [H1 H2].
    unfold config.GetReviewerBias, config.IsLikedReviewer,
      config.IsDislikedReviewer.
    now rewrite (range_contains_ext _ _ v H1), (range_contains_ext _ _ v H2).
Qed.

Lemma bias_after_add_witness :
  lists_wf (Fixture.cfg 9 ["ann"] ["bob"]) /\
  config.GetReviewerBias
    (config.AddDislikedReviewer (Fixture.cfg 9 ["ann"] ["bob"]) "ann") "ann" = 3 /\
  effectiveNitpicky
    (config.AddDislikedReviewer (Fixture.cfg 9 ["ann"] ["bob"]) "ann") "ann" = 10.
Proof.
  assert (Hwf : lists_wf (Fixture.cfg 9 ["ann"] ["bob"])).
  { unfold lists_wf. cbn. repeat split.
    - repeat constructor; cbn; tauto.
    - repeat constructor; cbn; tauto.
    - intros u [<-|[]] [E|[]]. discriminate. }
  split; [exact Hwf|].
  destruct (bias_after_add (Fixture.cfg 9 ["ann"] ["bob"]) "ann" Hwf)
    as (_ & H2 & _ & H4 & _).
  - cbn. lia.
  - split; [exact H2|exact H4].
Defined.

(** Without the well-formedness the second part fails: of a user listed
    twice as liked, [AddDislikedReviewer] removes one entry only. *)
Example bias_after_add_needs_NoDup :
  config.GetReviewerBias
    (config.AddDislikedReviewer (Fixture.cfg 5 ["ann"; "ann"] []) "ann") "ann"
  = -2.
Proof. reflexivity. Qed.

(* ===================================================================== *)
(** * Paths of the related files                                          *)
(* ===================================================================== *)

Lemma getFilename_no_slash path :
  strings.contains_byte "/" (github.getFilename path) = false.
Proof.
  unfold github.getFilename.
  destruct (Z.eqb_spec (strings.LastIndex path "/") (-1)) as [Hno|Hyes].
  - now apply LastIndex_byte_none.
  - destruct (LastIndex_byte_present _ _ Hyes) as (rest & post & -> & Hpost & ->).
    replace (len rest + 1) with (len (rest +:+ "/"))
      by (rewrite len_sapp; reflexivity).
    replace (rest +:+ String "/" post) with ((rest +:+ "/") +:+ post)
      by (now rewrite sapp_assoc).
    now rewrite slice_suffix.
Qed.

(** X2. [getDirectory] and [getFilename] cut a path at its last slash:
    with a slash in the path, directory, slash and file name give the
    path back; without one the directory is the current one and the file
    name is the path. The file name never holds a slash, and both slices
    are within the path. *)
Theorem path_split (path : string) :
  let lastSlash := strings.LastIndex path "/" in
  (if lastSlash =? -1
   then github.getDirectory path = "." /\ github.getFilename path = path
   else github.getDirectory path +:+ "/" +:+ github.getFilename path = path /\
        0 <= lastSlash /\ lastSlash + 1 <= len path) /\
  strings.LastIndex (github.getFilename path) "/" = -1.
Proof.
  cbv zeta. split; [|apply LastIndex_byte_absent, getFilename_no_slash].
  unfold github.getDirectory, github.getFilename.
  destruct (Z.eqb_spec (strings.LastIndex path "/") (-1)) as [Hno|Hyes].
  - auto.
  - destruct (LastIndex_byte_present _ _ Hyes) as (rest & post & -> & Hpost & ->).
    rewrite slice_prefix.
    replace (len rest + 1) with (len (rest +:+ "/")) by (rewrite len_sapp; reflexivity).
    replace (rest +:+ String "/" post) with ((rest +:+ "/") +:+ post)
      by (now rewrite sapp_assoc).
    rewrite slice_suffix, !sapp_assoc.
    repeat split; auto using len_nonneg, LastIndex_byte_absent.
    rewrite !len_sapp. pose proof (len_nonneg post). lia.
Qed.

(** X3. [getExtension] cuts the file name at its last dot, so that the
    base name that [GetRelatedFiles] computes with [TrimSuffix], followed
    by the extension, is the file name. The extension is empty exactly
    when the file name has no dot; otherwise it is a dot followed by
    bytes that are neither dots nor slashes. *)
Theorem extension_split (path : string) :
  let filename := github.getFilename path in
  let ext := github.getExtension path in
  strings.TrimSuffix filename ext +:+ ext = filename /\
  (strings.LastIndex filename "." = -1 <-> ext = "") /\
  (ext = "" \/
   exists e, ext = "." +:+ e /\
             strings.LastIndex e "." = -1 /\ strings.LastIndex e "/" = -1).
Proof.
  cbv zeta. unfold github.getExtension.
  set (filename := github.getFilename path).
  assert (Hslash : strings.contains_byte "/" filename = false).
  { apply getFilename_no_slash. }
  destruct (Z.eqb_spec (strings.LastIndex filename ".") (-1)) as [Hno|Hyes].
  - split; [|split; [tauto|auto]].
    unfold strings.TrimSuffix, strings.HasSuffix. cbn [String.length].
    rewrite Nat.sub_0_r. cbn [andb Nat.leb].
    replace (substring (String.length filename) 0 filename) with "".
    2:{ clear. induction filename as [|c s IH]; [reflexivity|]. exact IH. }
    cbn [String.eqb]. unfold len at 2. cbn [String.length].
    rewrite Z.sub_0_r, sapp_nil_r.
    pose proof (slice_prefix filename "") as H. now rewrite sapp_nil_r in H.
  - destruct (LastIndex_byte_present _ _ Hyes) as (rest & post & E & Hpost & Hidx).
    rewrite Hidx, E, slice_suffix, TrimSuffix_sapp.
    split; [reflexivity|]. split; [split; [lia|discriminate]|].
    right. exists post. split; [reflexivity|]. split.
    + now apply LastIndex_byte_absent.
    + apply LastIndex_byte_absent.
      rewrite E, contains_byte_sapp in Hslash.
      apply orb_false_iff in Hslash as [_ Hs].
      cbn [strings.contains_byte] in Hs.
      now apply orb_false_iff in Hs as [_ Hs].
Qed.

(* ===================================================================== *)
(** * The helpers of the defender's preview                               *)
(* ===================================================================== *)

Lemma slice_prefix_len s k :
  0 <= k <= len s ->
  exists pre post, s = pre +:+ post /\ len pre = k /\ slice s 0 k = pre.
Proof.
  intros Hk.
  destruct (sapp_length_split s (Z.to_nat k)) as (pre & post & -> & Hlen).
  { unfold len in Hk. lia. }
  exists pre, post. split; [reflexivity|].
  assert (Hpre : len pre = k) by (unfold len; lia).
  split; [exact Hpre|]. rewrite <- Hpre. apply slice_prefix.
Qed.

(** X4. [truncate] with a limit of at least 3 (the program uses 80 and
    60) returns one line of at most [maxLen] bytes: every newline is
    replaced by a space; a text within the limit is otherwise unchanged; a
    longer one is cut to its first [maxLen - 3] bytes, followed by three
    dots. *)
Theorem truncate_spec (s : string) (maxLen : int) :
  3 <= maxLen < 2 ^ 63 ->
  len (defender.truncate s maxLen) <= maxLen /\
  strings.contains_byte (ascii_of_nat 10) (defender.truncate s maxLen) = false /\
  (len s <= maxLen ->
   defender.truncate s maxLen = strings.ReplaceAll s nl " ") /\
  (len s <= maxLen -> strings.contains_byte (ascii_of_nat 10) s = false ->
   defender.truncate s maxLen = s) /\
  (maxLen < len s ->
   exists pre post,
     s = pre +:+ post /\ len pre = maxLen - 3 /\
     defender.truncate s maxLen = strings.ReplaceAll pre nl " " +:+ "...").
Proof.
  intros Hmax. unfold defender.truncate. cbv zeta.
  assert (Hlen : len (strings.ReplaceAll s nl " ") = len s).
  { unfold len. now rewrite ReplaceAll_nl_length. }
  rewrite Hlen.
  assert (Hsub : sub maxLen 3 = maxLen - 3).
  { unfold sub. apply wrap64_small. lia. }
  destruct (Z.leb_spec (len s) maxLen) as [Hle|Hgt].
  - repeat split; try lia; auto using ReplaceAll_nl_clean.
    intros _ Hclean. now apply ReplaceAll_nl_id.
  - rewrite Hsub.
    destruct (slice_prefix_len s (maxLen - 3)) as (pre & post & E & Hpre & _);
      [lia|].
    assert (Hcut : slice (strings.ReplaceAll s nl " ") 0 (maxLen - 3)
                   = strings.ReplaceAll pre nl " ").
    { rewrite E, ReplaceAll_nl_sapp, <- Hpre.
      replace (len pre) with (len (strings.ReplaceAll pre nl " "))
        by (unfold len; now rewrite ReplaceAll_nl_length).
      apply slice_prefix. }
    rewrite Hcut. repeat split; try lia.
    + rewrite len_sapp. unfold len at 1. rewrite ReplaceAll_nl_length.
      fold (len pre). rewrite Hpre. unfold len. cbn [String.length]. lia.
    + rewrite contains_byte_sapp, ReplaceAll_nl_clean. reflexivity.
    + intros _. exists pre, post. auto.
Qed.

Lemma truncate_spec_witness :
  3 <= 8 < 2 ^ 63 /\
  len (defender.truncate ("a long" +:+ nl +:+ "comment") 8) <= 8.
Proof.
  split; [lia|].
  apply (truncate_spec ("a long" +:+ nl +:+ "comment") 8). lia.
Defined.

Example truncate_example :
  defender.truncate ("a long" +:+ nl +:+ "comment") 8 = "a lon..." /\
  defender.truncate ("two" +:+ nl +:+ "lines") 80 = "two lines".
Proof. split; reflexivity. Qed.

(** X5. [indent] puts the prefix in front of every line: a text without
    a newline gets the prefix in front, and the indented form of two texts
    separated by a newline is the indented forms of the two, separated by
    a newline. The number of lines is unchanged, and an empty prefix
    changes nothing. *)
Theorem indent_lines (s1 s2 prefix : string) :
  (strings.contains_byte (ascii_of_nat 10) s1 = false ->
   defender.indent s1 prefix = prefix +:+ s1) /\
  defender.indent (s1 +:+ nl +:+ s2) prefix
    = defender.indent s1 prefix +:+ nl +:+ defender.indent s2 prefix /\
  defender.indent s1 "" = s1.
Proof.
  unfold defender.indent, strings.Split. cbv zeta. repeat split.
  - intros H. rewrite (Split_from_nl_line _ _ H). reflexivity.
  - rewrite Split_from_nl_sapp, map_app.
    apply Join_app.
    + intros E. apply map_eq_nil in E. now apply Split_from_nonempty in E.
    + intros E. apply map_eq_nil in E. now apply Split_from_nonempty in E.
  - rewrite (map_ext _ (fun x => x)) by reflexivity.
    rewrite map_id. apply (Join_Split_from_nl s1 "").
Qed.

Example indent_example :
  defender.indent ("No." +:+ nl +:+ nl +:+ "Really.") "   "
  = "   No." +:+ nl +:+ "   " +:+ nl +:+ "   Really.".
Proof. reflexivity. Qed.

(* ===================================================================== *)
(** * The masked token of [salty config show]                             *)
(* ===================================================================== *)

Lemma slice_middle pre x post :
  slice (pre +:+ x +:+ post) (len pre) (len pre + len x) = x.
Proof.
  unfold slice. replace (len pre + len x - len pre) with (len x) by lia.
  unfold len. rewrite !Nat2Z.id. apply substring_middle.
Qed.

Lemma sapp_length_split_r s (k : nat) :
  (k <= String.length s)%nat ->
  exists pre post, s = pre +:+ post /\ String.length post = k.
Proof.
  intros Hk.
  destruct (sapp_length_split s (String.length s - k)) as (pre & post & E & Hlen);
    [lia|].
  exists pre, post. split; [exact E|].
  apply (f_equal String.length) in E. rewrite length_sapp in E. lia.
Qed.

(** The three parts of a token of more than 8 bytes. *)
Lemma token_parts token :
  8 < len token ->
  exists a mid b, token = a +:+ mid +:+ b /\ len a = 4 /\ len b = 4 /\
                  mid <> "".
Proof.
  intros H. unfold len in H.
  destruct (sapp_length_split token 4) as (a & rest & -> & Ha); [lia|].
  rewrite length_sapp in H.
  destruct (sapp_length_split_r rest 4) as (mid & b & -> & Hb); [lia|].
  exists a, mid, b. unfold len. rewrite Ha, Hb. repeat split.
  intros ->. rewrite sapp_nil_l in H. lia.
Qed.

Lemma maskToken_parts a mid b :
  len a = 4 -> len b = 4 -> mid <> "" ->
  main.maskToken (a +:+ mid +:+ b) = a +:+ "..." +:+ b.
Proof.
  intros Ha Hb Hmid. unfold main.maskToken.
  assert (Hm : 0 < len mid).
  { destruct mid as [|c m]; [congruence|]. rewrite len_String.
    pose proof (len_nonneg m). lia. }
  assert (Hlen : len (a +:+ mid +:+ b) = 8 + len mid).
  { rewrite !len_sapp. lia. }
  destruct (String.eqb_spec (a +:+ mid +:+ b) "") as [E|_].
  { rewrite E in Hlen. unfold len in Hlen, Hm. cbn [String.length] in Hlen. lia. }
  destruct (Z.leb_spec (len (a +:+ mid +:+ b)) 8); [lia|].
  f_equal.
  - rewrite <- Ha. apply slice_prefix.
  - f_equal. rewrite <- sapp_assoc.
    replace (len ((a +:+ mid) +:+ b) - 4) with (len (a +:+ mid))
      by (rewrite !len_sapp; lia).
    apply slice_suffix.
Qed.

(** X6. [maskToken] shows "(not set)" for no token, four stars for a
    token of at most 8 bytes, and for a longer one its first 4 and last 4
    bytes with three dots in between, whatever lies in the middle: two
    tokens with the same first 4 and last 4 bytes are masked alike. The
    result has at most 11 bytes. *)
Theorem maskToken_spec (token : string) :
  len (main.maskToken token) <= 11 /\
  (token = "" -> main.maskToken token = "(not set)") /\
  (0 < len token <= 8 -> main.maskToken token = "****") /\
  (8 < len token ->
   exists a mid b,
     token = a +:+ mid +:+ b /\ len a = 4 /\ len b = 4 /\
     main.maskToken token = a +:+ "..." +:+ b /\
     forall mid', mid' <> "" ->
       main.maskToken (a +:+ mid' +:+ b) = main.maskToken token).
Proof.
  assert (Hlong : 8 < len token ->
    exists a mid b,
      token = a +:+ mid +:+ b /\ len a = 4 /\ len b = 4 /\
      main.maskToken token = a +:+ "..." +:+ b /\
      forall mid', mid' <> "" ->
        main.maskToken (a +:+ mid' +:+ b) = main.maskToken token).
  { intros H. destruct (token_parts token H) as (a & mid & b & -> & Ha & Hb & Hmid).
    exists a, mid, b. repeat split; auto using maskToken_parts.
    intros mid' Hmid'. now rewrite !maskToken_parts. }
  repeat split.
  - destruct (Z.leb_spec (len token) 8) as [Hle|Hgt].
    + unfold main.maskToken.
      destruct (String.eqb token ""); [unfold len; cbn [String.length]; lia|].
      destruct (Z.leb_spec (len token) 8);
        [unfold len; cbn [String.length]; lia|lia].
    + destruct (Hlong Hgt) as (a & mid & b & _ & Ha & Hb & -> & _).
      rewrite !len_sapp, Ha, Hb. unfold len. cbn [String.length]. lia.
  - intros ->. reflexivity.
  - intros [Hpos Hle]. unfold main.maskToken.
    destruct (String.eqb_spec token "") as [->|_];
      [unfold len in Hpos; cbn [String.length] in Hpos; lia|].
    destruct (Z.leb_spec (len token) 8); [reflexivity|lia].
  - exact Hlong.
Qed.

Example maskToken_example :
  main.maskToken "ghp_0123456789abcdef" = "ghp_...cdef" /\
  main.maskToken "ghp_0cdef" = "ghp_...cdef".
Proof. split; reflexivity. Qed.

(** X7. [extractContext] gives nothing for a line number that is not a
    line of the content (zero, negative, or beyond the last line), and
    otherwise the lines [max 0 (line-5) .. min n (line+5) - 1], counted
    from 0, joined by newlines: a window within the content, of at most 10
    lines, that holds the commented line (4 lines before it and 5 after
    it, where they exist). A content always has a line 1. *)
Theorem extractContext_window (content : string) (line : int) :
  let lines := strings.Split content nl in
  let n := len_slice lines in
  1 <= n /\
  (line <= 0 \/ n < line -> defender.extractContext content line = "") /\
  (0 < line <= n -> line + 5 < 2 ^ 63 ->
   let lo := Z.max 0 (line - 5) in
   let hi := Z.min n (line + 5) in
   0 <= lo /\ lo < line /\ line <= hi /\ hi <= n /\ hi - lo <= 10 /\
   defender.extractContext content line
     = strings.Join (slice_list lines lo hi) nl /\
   slice_list lines lo hi !! Z.to_nat (line - 1 - lo)
     = lines !! Z.to_nat (line - 1)).
Proof.
  cbv zeta. unfold defender.extractContext. cbv zeta.
  set (lines := strings.Split content nl).
  assert (Hn : 1 <= len_slice lines).
  { unfold len_slice, lines, strings.Split.
    pose proof (Split_from_nonempty nl 0 "" content) as H.
    destruct (strings.Split_from nl 0 "" content); [congruence|].
    cbn [List.length]. lia. }
  split; [exact Hn|]. split.
  - intros Hout.
    destruct (Z.gtb_spec line 0) as [Hpos|Hneg]; [|reflexivity].
    destruct (Z.leb_spec line (len_slice lines)); [lia|reflexivity].
  - intros Hin Hbig.
    assert (Hsub : sub line 5 = line - 5) by (apply wrap64_small; lia).
    assert (Hadd : add line 5 = line + 5) by (apply wrap64_small; lia).
    rewrite Hsub, Hadd.
    destruct (Z.gtb_spec line 0) as [_|?]; [|lia].
    destruct (Z.leb_spec line (len_slice lines)) as [_|?]; [|lia].
    cbn [andb].
    assert (Hlo : (if line - 5 <? 0 then 0 else line - 5) = Z.max 0 (line - 5)).
    { destruct (Z.ltb_spec (line - 5) 0); lia. }
    assert (Hhi : (if line + 5 >? len_slice lines then len_slice lines
                   else line + 5) = Z.min (len_slice lines) (line + 5)).
    { destruct (Z.gtb_spec (line + 5) (len_slice lines)); lia. }
    rewrite Hlo, Hhi.
    repeat split; try lia.
    unfold slice_list.
    rewrite lookup_take_lt by lia.
    rewrite lookup_drop. f_equal. lia.
Qed.

Example extractContext_example :
  let content := "l1" +:+ nl +:+ "l2" +:+ nl +:+ "l3" +:+ nl +:+ "l4" +:+ nl +:+
                 "l5" +:+ nl +:+ "l6" +:+ nl +:+ "l7" +:+ nl +:+ "l8" in
  defender.extractContext content 7 = "l3" +:+ nl +:+ "l4" +:+ nl +:+ "l5" +:+ nl +:+
                                      "l6" +:+ nl +:+ "l7" +:+ nl +:+ "l8" /\
  defender.extractContext content 0 = "" /\
  defender.extractContext content 9 = "" /\
  defender.extractContext "" 1 = "".
Proof. cbv zeta. repeat split; reflexivity. Qed.

(* ===================================================================== *)
(** * The related files and the calls of the deep analysis                *)
(* ===================================================================== *)

Lemma bind_eq {A B} (m : IO A) (k : A -> IO B) tr a tr' :
  m tr = (a, tr') -> bind m k tr = k a tr'.
Proof. intros E. unfold bind. now rewrite E. Qed.

Section Related.

Context (world : World) (c : github.Client) (owner repo ref : string).

(** The loop of [GetRelatedFiles] over any list of candidates. *)
Lemma probe_loop ps : forall i acc tr,
  exists kept,
    for_range
      (fun (_ : int) pattern related =>
         bind (github_Client_GetFileContent world c owner repo pattern ref)
           (fun r => match r with
                     | Ok _ => ret (related ++ [pattern])%list
                     | Fail _ => ret related
                     end))
      i ps acc tr
    = ((acc ++ kept)%list, (tr ++ map (Calls.fetch owner repo ref) ps)%list) /\
    kept `sublist_of` ps /\
    forall p, In p kept <->
      exists j content,
        ps !! j = Some p /\
        GetFileContent world
          (tr ++ map (Calls.fetch owner repo ref) (take j ps))%list
          owner repo p ref = Ok content.
Proof.
  induction ps as [|p0 rest IH]; intros i acc tr.
  - exists []. cbn [for_range map]. unfold ret. rewrite !app_nil_r.
    split; [reflexivity|]. split; [constructor|].
    intros p. split; [intros []|]. intros (j & content & Hj & _).
    destruct j; discriminate.
  - cbn [for_range map].
    unfold github_Client_GetFileContent at 1, call, bind at 1 2.
    destruct (GetFileContent world tr owner repo p0 ref) as [content0|err] eqn:E0.
    + destruct (IH (i + 1) (acc ++ [p0])%list
                  (tr ++ [EvGetFileContent owner repo p0 ref])%list)
        as (kept & Hrun & Hsub & Hin).
      exists (p0 :: kept). unfold ret at 1. rewrite Hrun.
      rewrite <- !app_assoc. split; [reflexivity|].
      split; [now constructor|].
      intros p. cbn [In]. rewrite Hin. split.
      * intros [<-|(j & content & Hj & Hc)].
        -- exists 0%nat, content0. cbn [take map]. rewrite app_nil_r. auto.
        -- exists (S j), content. cbn [take map]. split; [exact Hj|].
           rewrite <- app_assoc in Hc. exact Hc.
      * intros (j & content & Hj & Hc). destruct j as [|j].
        -- left. cbn in Hj. congruence.
        -- right. exists j, content. split; [exact Hj|].
           cbn [take map] in Hc. rewrite <- app_assoc. exact Hc.
    + destruct (IH (i + 1) acc
                  (tr ++ [EvGetFileContent owner repo p0 ref])%list)
        as (kept & Hrun & Hsub & Hin).
      exists kept. unfold ret at 1. rewrite Hrun.
      rewrite <- !app_assoc. split; [reflexivity|].
      split; [now constructor|].
      intros p. rewrite Hin. split.
      * intros (j & content & Hj & Hc).
        exists (S j), content. cbn [take map]. split; [exact Hj|].
        rewrite <- app_assoc in Hc. exact Hc.
      * intros (j & content & Hj & Hc). destruct j as [|j].
        -- cbn [take map] in Hc. rewrite app_nil_r in Hc. cbn in Hj.
           injection Hj as <-. congruence.
        -- exists j, content. split; [exact Hj|].
           cbn [take map] in Hc. rewrite <- app_assoc. exact Hc.
Qed.

Lemma GetRelatedFiles_eq path tr :
  exists related,
    github_Client_GetRelatedFiles world c owner repo path ref tr
    = (related,
       (tr ++ map (Calls.fetch owner repo ref) (Calls.testPatterns path))%list) /\
    related `sublist_of` Calls.testPatterns path /\
    forall p, In p related <->
      exists j content,
        Calls.testPatterns path !! j = Some p /\
        GetFileContent world
          (tr ++ map (Calls.fetch owner repo ref)
                   (take j (Calls.testPatterns path)))%list
          owner repo p ref = Ok content.
Proof.
  destruct (probe_loop (Calls.testPatterns path) 0 [] tr)
    as (kept & Hrun & Hsub & Hin).
  exists kept. rewrite app_nil_l in Hrun. auto.
Qed.

(** The loop of [DeepAnalyze] that fetches the related files. *)
Lemma related_content_loop ps : forall i b tr,
  exists b',
    for_range
      (fun (_ : int) r b =>
         bind (github_Client_GetFileContent world c owner repo r ref)
           (fun content =>
              match content with
              | Ok content =>
                  ret (b +:+ (nl +:+ "--- " +:+ r +:+ " ---" +:+ nl +:+ content
                              +:+ nl))
              | Fail _ => ret b
              end))
      i ps b tr
    = (b', (tr ++ map (Calls.fetch owner repo ref) ps)%list).
Proof.
  induction ps as [|p0 rest IH]; intros i b tr.
  - exists b. cbn [for_range map]. unfold ret. now rewrite app_nil_r.
  - cbn [for_range map].
    unfold github_Client_GetFileContent at 1, call, bind at 1 2.
    destruct (GetFileContent world tr owner repo p0 ref) as [content0|err];
      unfold ret at 1;
      match goal with
      | |- context [for_range _ _ rest ?b0 ?tr0] =>
          destruct (IH (i + 1) b0 tr0) as (b' & ->)
      end;
      exists b'; now rewrite <- app_assoc.
Qed.

End Related.

(** X8. [GetRelatedFiles] makes exactly five calls, one [GetFileContent]
    for each candidate test file, in order, and nothing else; it returns
    the candidates whose fetch succeeded, in order: a candidate is
    returned exactly when the fetch made for it succeeded. *)
Theorem GetRelatedFiles_probes (world : World) (c : github.Client)
  (owner repo path ref : string) (tr : Trace) :
  let m := github_Client_GetRelatedFiles world c owner repo path ref in
  let patterns := Calls.testPatterns path in
  trace_of m tr = (tr ++ map (Calls.fetch owner repo ref) patterns)%list /\
  List.length patterns = 5%nat /\
  run m tr `sublist_of` patterns /\
  forall p, In p (run m tr) <->
    exists j content,
      patterns !! j = Some p /\
      GetFileContent world
        (tr ++ map (Calls.fetch owner repo ref) (take j patterns))%list
        owner repo p ref = Ok content.
Proof.
  cbv zeta. unfold trace_of, run.
  destruct (GetRelatedFiles_eq world c owner repo ref path tr)
    as (related & -> & Hsub & Hin).
  cbn [fst snd]. auto.
Qed.

(** One chat: no call, or one request through the client's transport. *)
Lemma Chat_eq lib world c messages tr :
  exists r chat,
    ai_Client_Chat lib world c messages tr = ((c, r), (tr ++ chat)%list) /\
    (chat = [] /\ (exists err, r = Fail err) \/
     exists req, chat = [EvHTTPDo (ai.Client_httpClient c) req]).
Proof.
  unfold ai_Client_Chat.
  destruct (ChatWithOptions_shape lib c messages 0x1.6666666666666p-1%float 4096)
    as [(err & H)|(req & decode & H)]; rewrite H.
  - exists (Fail err), []. rewrite app_nil_r. split; [reflexivity|].
    left. eauto.
  - eexists _, _. split; [reflexivity|]. right. eauto.
Qed.

Lemma DeepAnalyze_eq lib world a issue ref pr tr :
  let fetch := Calls.fetch (github.PRReference_Owner ref)
                 (github.PRReference_Repo ref) (github.PullRequest_HeadSHA pr) in
  let file := reviewer.Issue_File issue in
  exists related chat res,
    Analyzer_DeepAnalyze lib world a issue ref pr tr
    = (res, (tr ++ fetch file :: map fetch (Calls.testPatterns file)
                ++ map fetch related ++ chat)%list) /\
    related `sublist_of` Calls.testPatterns file /\
    (chat = [] \/
     exists req,
       chat = [EvHTTPDo (ai.Client_httpClient (reviewer.Analyzer_aiClient a))
                 req]) /\
    match res with
    | Ok _ => chat <> []
    | Fail err =>
        exists e, err = "AI deep analysis failed: " +:+ e \/
                  err = "failed to parse deep analysis: " +:+ e
    end /\
    related
    = run (github_Client_GetRelatedFiles world (reviewer.Analyzer_githubClient a)
             (github.PRReference_Owner ref) (github.PRReference_Repo ref)
             file (github.PullRequest_HeadSHA pr))
        (tr ++ [fetch file])%list.
Proof.
  cbv zeta. unfold Analyzer_DeepAnalyze. cbv zeta.
  unfold github_Client_GetFileContent at 1, call at 1.
  unfold bind at 1.
  set (gh := reviewer.Analyzer_githubClient a).
  set (owner := github.PRReference_Owner ref).
  set (repo := github.PRReference_Repo ref).
  set (sha := github.PullRequest_HeadSHA pr).
  set (file := reviewer.Issue_File issue).
  set (tr1 := (tr ++ [EvGetFileContent owner repo file sha])%list).
  destruct (GetRelatedFiles_eq world gh owner repo sha file tr1)
    as (related & Hrel & Hsub & _).
  assert (Hrun : related
                 = run (github_Client_GetRelatedFiles world gh owner repo file sha)
                     (tr ++ [Calls.fetch owner repo sha file])%list).
  { unfold run. fold tr1. unfold Calls.fetch. fold tr1. now rewrite Hrel. }
  rewrite (bind_eq _ _ _ _ _ Hrel).
  match goal with
  | |- context [bind (for_range ?body 0 related "") ?k ?tr0] =>
      destruct (related_content_loop world gh owner repo sha related 0 "" tr0)
        as (relatedContent & Hloop);
      rewrite (bind_eq _ k _ _ _ Hloop)
  end.
  match goal with
  | |- context [bind (ai_Client_Chat lib world ?c ?msgs) ?k ?tr0] =>
      destruct (Chat_eq lib world c msgs tr0) as (r & chat & Hchat & Hshape);
      rewrite (bind_eq _ k _ _ _ Hchat)
  end.
  exists related, chat.
  assert (Htr :
    (((tr1 ++ map (Calls.fetch owner repo sha) (Calls.testPatterns file))
      ++ map (Calls.fetch owner repo sha) related) ++ chat)%list
    = (tr ++ Calls.fetch owner repo sha file
          :: map (Calls.fetch owner repo sha) (Calls.testPatterns file)
          ++ map (Calls.fetch owner repo sha) related ++ chat)%list).
  { unfold tr1. rewrite <- !app_assoc. reflexivity. }
  cbn [snd].
  destruct r as [response|err].
  - destruct (json_Unmarshal_DeepAnalysisResult lib _) as [res|err];
      unfold ret; rewrite Htr; eexists; (split; [reflexivity|]);
      (split; [exact Hsub|]); (split; [|split; [|exact Hrun]]).
    + destruct Hshape as [[_ (err & Herr)]|H]; [discriminate Herr|tauto].
    + destruct Hshape as [[_ (err & Herr)]|(req & ->)];
        [discriminate Herr|discriminate].
    + destruct Hshape as [[_ (err' & Herr)]|H]; [discriminate Herr|tauto].
    + eauto.
  - unfold ret; rewrite Htr; eexists; (split; [reflexivity|]);
      (split; [exact Hsub|]); (split; [|split; [|exact Hrun]]).
    + destruct Hshape as [[-> _]|H]; tauto.
    + eauto.
Qed.

(** X9. The calls of [DeepAnalyze]: the file of the issue is fetched,
    the five candidate test files are probed by [GetRelatedFiles], every
    candidate that [GetRelatedFiles] found (those it returns, called at
    that moment: the candidates whose probe succeeded) is fetched a second
    time for its content, no other candidate is, and at most one request
    goes to the chat service; nothing else happens. No failure of a fetch
    fails the analysis: an error comes from the chat or from decoding its
    answer, and a result needs the chat request to have been made. *)
Theorem DeepAnalyze_calls (lib : Lib) (world : World) (a : reviewer.Analyzer)
  (issue : reviewer.Issue) (ref : github.PRReference)
  (pr : github.PullRequest) (tr : Trace) :
  let m := Analyzer_DeepAnalyze lib world a issue ref pr in
  let owner := github.PRReference_Owner ref in
  let repo := github.PRReference_Repo ref in
  let sha := github.PullRequest_HeadSHA pr in
  let fetch := Calls.fetch owner repo sha in
  let file := reviewer.Issue_File issue in
  let related :=
    run (github_Client_GetRelatedFiles world (reviewer.Analyzer_githubClient a)
           owner repo file sha)
      (tr ++ [fetch file])%list in
  (forall p,
      In p related <->
      exists (j : nat) content,
        Calls.testPatterns file !! j = Some p /\
        GetFileContent world
          ((tr ++ [fetch file]) ++ map fetch (take j (Calls.testPatterns file)))%list
          owner repo p sha = Ok content) /\
  related `sublist_of` Calls.testPatterns file /\
  exists chat,
    trace_of m tr
    = (tr ++ fetch file :: map fetch (Calls.testPatterns file)
          ++ map fetch related ++ chat)%list /\
    (chat = [] \/
     exists req,
       chat = [EvHTTPDo (ai.Client_httpClient (reviewer.Analyzer_aiClient a))
                 req]) /\
    match run m tr with
    | Ok _ => chat <> []
    | Fail err =>
        exists e, err = "AI deep analysis failed: " +:+ e \/
                  err = "failed to parse deep analysis: " +:+ e
    end.
Proof.
  cbv zeta.
  destruct (GetRelatedFiles_eq world (reviewer.Analyzer_githubClient a)
              (github.PRReference_Owner ref) (github.PRReference_Repo ref)
              (github.PullRequest_HeadSHA pr) (reviewer.Issue_File issue)
              (tr ++ [Calls.fetch (github.PRReference_Owner ref)
                        (github.PRReference_Repo ref)
                        (github.PullRequest_HeadSHA pr)
                        (reviewer.Issue_File issue)])%list)
    as (related0 & Hrel & Hsub0 & Hin0).
  assert (E0 : run (github_Client_GetRelatedFiles world
                      (reviewer.Analyzer_githubClient a)
                      (github.PRReference_Owner ref)
                      (github.PRReference_Repo ref)
                      (reviewer.Issue_File issue)
                      (github.PullRequest_HeadSHA pr))
                 (tr ++ [Calls.fetch (github.PRReference_Owner ref)
                           (github.PRReference_Repo ref)
                           (github.PullRequest_HeadSHA pr)
                           (reviewer.Issue_File issue)])%list
               = related0)
    by (unfold run; now rewrite Hrel).
  rewrite E0. split; [exact Hin0|]. split; [exact Hsub0|].
  unfold trace_of, run.
  destruct (DeepAnalyze_eq lib world a issue ref pr tr)
    as (related & chat & res & -> & Hsub & Hchat & Hres & Hrun).
  cbv zeta in Hrun. rewrite E0 in Hrun. subst related.
  exists chat. cbn [fst snd]. auto.
Qed.

(* ===================================================================== *)
(** * The chat client: its base URL, its request, its answer              *)
(* ===================================================================== *)

Section TrimSlash.

Implicit Types (s t p : string).

Lemma contains_byte_slash (b : ascii) :
  strings.contains_byte b "/" = Ascii.eqb b "/".
Proof. cbn [strings.contains_byte]. apply orb_false_r. Qed.

Lemma TrimRight_slash_cons b s :
  strings.TrimRight (String b s) "/" =
  match strings.TrimRight s "/" with
  | EmptyString => if Ascii.eqb b "/" then "" else String b ""
  | t => String b t
  end.
Proof.
  cbn [strings.TrimRight]. rewrite contains_byte_slash. reflexivity.
Qed.

(** What is cut is slashes only. *)
Lemma TrimRight_slash_cut s :
  exists t, s = strings.TrimRight s "/" +:+ t /\
            forall b, strings.contains_byte b t = true -> b = "/"%char.
Proof.
  induction s as [|b s (t & E & Ht)].
  - exists "". split; [reflexivity|]. cbn. discriminate.
  - rewrite TrimRight_slash_cons.
    destruct (strings.TrimRight s "/") as [|b' s'] eqn:Es.
    + destruct (Ascii.eqb_spec b "/") as [->|Hne].
      * exists (String "/" s). split; [reflexivity|].
        intros b0. cbn [strings.contains_byte].
        intros [H|H]%orb_true_iff; [now apply Ascii.eqb_eq in H|].
        apply Ht. rewrite sapp_nil_l in E. now rewrite <- E.
      * exists t. rewrite sapp_cons. split; [now f_equal|exact Ht].
    + exists t. rewrite sapp_cons. split; [now f_equal|exact Ht].
Qed.

(** What is left does not end with a slash. *)
Lemma TrimRight_slash_end s p : strings.TrimRight s "/" <> p +:+ "/".
Proof.
  revert p. induction s as [|b s IH]; intros p.
  - cbn [strings.TrimRight]. destruct p; discriminate.
  - rewrite TrimRight_slash_cons.
    destruct (strings.TrimRight s "/") as [|b' s'] eqn:Es.
    + destruct (Ascii.eqb_spec b "/") as [->|Hne].
      * destruct p; discriminate.
      * destruct p as [|c p]; [rewrite sapp_nil_l; congruence|].
        rewrite sapp_cons. destruct p; discriminate.
    + destruct p as [|c p].
      * rewrite sapp_nil_l. discriminate.
      * rewrite sapp_cons. intros H. injection H as _ H.
        exact (IH p H).
Qed.

(** A text that does not end with a slash is left as it is. *)
Lemma TrimRight_slash_id s :
  (forall p, s <> p +:+ "/") -> strings.TrimRight s "/" = s.
Proof.
  induction s as [|b s IH]; intros H; [reflexivity|].
  rewrite TrimRight_slash_cons.
  destruct s as [|b' s'].
  - cbn [strings.TrimRight].
    destruct (Ascii.eqb_spec b "/") as [->|Hne]; [|reflexivity].
    exfalso. apply (H ""). reflexivity.
  - rewrite IH.
    + reflexivity.
    + intros p E. apply (H (String b p)). rewrite sapp_cons. now f_equal.
Qed.

End TrimSlash.

(** X10. [NewClient] keeps the key and the model, sets a timeout of 120
    seconds and removes the slashes at the end of the base URL, and
    nothing else: the URL given is the base URL of the client followed by
    slashes only, and the base URL does not end with a slash. The client
    made from its own base URL is the same client. *)
Theorem NewClient_baseURL (baseURL apiKey model : string) :
  let c := ai.NewClient baseURL apiKey model in
  (exists slashes,
      baseURL = ai.Client_baseURL c +:+ slashes /\
      forall b, strings.contains_byte b slashes = true -> b = "/"%char) /\
  (forall p, ai.Client_baseURL c <> p +:+ "/") /\
  ai.NewClient (ai.Client_baseURL c) apiKey model = c /\
  ai.Client_apiKey c = apiKey /\
  ai.Client_model c = model /\
  http.Client_Timeout (ai.Client_httpClient c) = 120.
Proof.
  cbv zeta. unfold ai.NewClient. cbv zeta. cbn [ai.Client_baseURL].
  repeat split.
  - apply TrimRight_slash_cut.
  - apply TrimRight_slash_end.
  - f_equal. apply TrimRight_slash_id, TrimRight_slash_end.
Qed.

Example NewClient_example :
  ai.Client_baseURL (ai.NewClient "https://api.example/v1//" "key" "gpt-4")
  = "https://api.example/v1".
Proof. reflexivity. Qed.

(** X11. What [ChatWithOptions] sends and when it succeeds. If the
    request can be encoded and its URL is accepted, one request is made
    and no other call: a POST to the base URL followed by
    /chat/completions, with the encoded request as its body and exactly
    the two headers Content-Type and Authorization; otherwise no call is
    made. The call returns a text exactly when the answer has a body that
    decodes to a response without an error field and with at least one
    choice, and the text is the content of the first choice: an error
    field wins over the choices that come with it. *)
Theorem ChatWithOptions_request (lib : Lib) (world : World) (c : ai.Client)
  (messages : list ai.Message) (temperature : float) (maxTokens : int)
  (tr : Trace) :
  let m := ai_Client_ChatWithOptions lib world c messages temperature
             maxTokens in
  let url := ai.Client_baseURL c +:+ "/chat/completions" in
  match json_Marshal_ChatRequest lib
          (ai.mkChatRequest (ai.Client_model c) messages temperature maxTokens),
        url_error lib url with
  | Ok body, None =>
      let req :=
        http.mkRequest "POST" url
          [("Content-Type", "application/json");
           ("Authorization", "Bearer " +:+ ai.Client_apiKey c)] body in
      trace_of m tr = (tr ++ [EvHTTPDo (ai.Client_httpClient c) req])%list /\
      forall content,
        snd (run m tr) = Ok content <->
        exists respBody resp choice rest,
          http_Do world tr (ai.Client_httpClient c) req = Ok (Ok respBody) /\
          json_Unmarshal_ChatResponse lib respBody = Ok resp /\
          ai.ChatResponse_Error resp = None /\
          ai.ChatResponse_Choices resp = choice :: rest /\
          content = ai.Message_Content (ai.Choice_Message choice)
  | _, _ =>
      trace_of m tr = tr /\ exists err, snd (run m tr) = Fail err
  end.
Proof.
  cbv zeta. unfold trace_of, run, ai_Client_ChatWithOptions, http_NewRequest.
  cbv zeta.
  destruct (json_Marshal_ChatRequest lib _) as [body|err].
  2:{ unfold ret. cbn [fst snd]. eauto. }
  destruct (url_error lib _) as [err|].
  { unfold ret. cbn [fst snd]. eauto. }
  unfold bind, call. cbn [fst snd].
  unfold http.Request_set_header. cbn.
  destruct (http_Do world tr _ _) as [[respBody|err]|err];
    [|unfold ret; cbn [fst snd]; split; [reflexivity|]; intros content;
      split; [discriminate|];
      intros (b & resp & ch & rest & H & _); discriminate H ..].
  destruct (json_Unmarshal_ChatResponse lib respBody) as [resp|err] eqn:Hdec.
  2:{ unfold ret; cbn [fst snd]; split; [reflexivity|]; intros content.
      split; [discriminate|].
      intros (b & resp & ch & rest & H & Hd & _).
      injection H as <-. rewrite Hdec in Hd. discriminate Hd. }
  destruct (ai.ChatResponse_Error resp) as [e|] eqn:Herr.
  { unfold ret; cbn [fst snd]; split; [reflexivity|]; intros content.
    split; [discriminate|].
    intros (b & resp' & ch & rest & H & Hd & He & _).
    injection H as <-. rewrite Hdec in Hd. injection Hd as <-. congruence. }
  destruct (ai.ChatResponse_Choices resp) as [|choice rest] eqn:Hch.
  { unfold ret; cbn [fst snd]; split; [reflexivity|]; intros content.
    split; [discriminate|].
    intros (b & resp' & ch & rest & H & Hd & _ & Hc & _).
    injection H as <-. rewrite Hdec in Hd. injection Hd as <-. congruence. }
  unfold ret; cbn [fst snd]; split; [reflexivity|]; intros content. split.
  - intros [= <-]. exists respBody, resp, choice, rest. auto.
  - intros (b & resp' & ch & rest' & H & Hd & _ & Hc & ->).
    injection H as <-. rewrite Hdec in Hd. injection Hd as <-.
    rewrite Hch in Hc. injection Hc as <- _. reflexivity.
Qed.

(* ===================================================================== *)
(** * Defense mode: the replies and the counters                          *)
(* ===================================================================== *)

Lemma responses_of_sublist : forall comments outs,
  map defender.CommentResponse_OriginalComment
      (responses_of (combine comments outs)) `sublist_of` comments.
Proof.
  induction comments as [|c comments IH]; intros outs; [constructor|].
  destruct outs as [|o outs]; cbn [combine responses_of map].
  - apply sublist_nil_l.
  - destruct o as [err|a err|a s]; cbn [map].
    + apply sublist_cons, IH.
    + apply sublist_cons, IH.
    + apply sublist_skip, IH.
Qed.

Lemma reviewer_comments_sublist d comments :
  reviewer_comments d comments `sublist_of` comments.
Proof.
  unfold reviewer_comments.
  induction comments as [|c comments IH]; cbn [List.filter]; [constructor|].
  destruct (_ && _); [apply sublist_skip|apply sublist_cons]; exact IH.
Qed.

Lemma reviewer_comments_others d comments c :
  In c (reviewer_comments d comments) ->
  github.PRComment_User c <> defender.getMyUsername d /\
  github.PRComment_InReplyTo c = 0.
Proof.
  unfold reviewer_comments. intros [_ H]%List.filter_In.
  apply andb_true_iff in H as [Hu Hr].
  split; [|now apply Z.eqb_eq].
  intros E. apply negb_true_iff in Hu. apply String.eqb_neq in Hu. auto.
Qed.

Lemma sublist_In {A} (l1 l2 : list A) x : l1 `sublist_of` l2 -> In x l1 -> In x l2.
Proof.
  induction 1 as [|y l1 l2 _ IH|y l1 l2 _ IH]; cbn [In]; tauto.
Qed.

(** X12. Without dry run, the posting calls of [Defend] are exactly one
    [ReplyToComment] for each response of the result, in order, with the
    id of the comment answered and the response as the body; a reply that
    fails does not stop the following ones, and [PostReview] is never
    called. Each comment is answered at most once, in the order in which
    the comments were fetched, and every comment answered is a comment of
    somebody else that is not itself a reply. A run that returns an error
    has posted nothing. *)
Theorem Defend_replies (lib : Lib) (world : World) (d : defender.Defender)
  (prRef : string) (tr : Trace) :
  let m := Defender_Defend lib world d prRef false in
  exists dl,
    trace_of m tr = (tr ++ dl)%list /\
    match run m tr with
    | Fail _ => List.filter is_post dl = []
    | Ok res =>
        exists ref tr' comments,
          ParsePRReference lib prRef = Ok ref /\
          GetPRComments world tr' ref = Ok comments /\
          List.filter is_post dl
          = map (reply_event ref) (defender.DefenseResult_Responses res) /\
          map defender.CommentResponse_OriginalComment
              (defender.DefenseResult_Responses res) `sublist_of` comments /\
          Forall (fun r =>
                    github.PRComment_User
                      (defender.CommentResponse_OriginalComment r)
                    <> defender.getMyUsername d /\
                    github.PRComment_InReplyTo
                      (defender.CommentResponse_OriginalComment r) = 0)
                 (defender.DefenseResult_Responses res)
    end.
Proof.
  cbv zeta.
  destruct (Defend_run lib world d prRef false tr) as (dl & Htr & Ho).
  exists dl. split; [exact Htr|].
  inversion Ho as
    [err Href| ref tr0 err dl0 Href Hpr Hno
    | ref tr0 pr tr1 err dl0 Href Hpr Hcs Hno
    | ref tr0 pr tr1 comments dl0 Href Hpr Hcs Hnone Hno
    | ref tr0 pr tr1 comments outs res dl0 Hdry
    | ref tr0 pr tr1 comments outs res dl0 Hdry Href Hpr Hcs Hsome Houts Hres Hpost];
    subst; try discriminate.
  - reflexivity.
  - now apply filter_no_post.
  - now apply filter_no_post.
  - exists ref, tr1, comments. rewrite (filter_no_post _ Hno).
    cbn. repeat split; auto. apply sublist_nil_l.
  - assert (HR : defender.DefenseResult_Responses
                   (fold_left defense_step
                      (combine (reviewer_comments d comments) outs)
                      (initial_defense
                         (len_slice (reviewer_comments d comments))))
                 = responses_of (combine (reviewer_comments d comments) outs)).
    { now rewrite defense_fold_Responses. }
    assert (Hsub : map defender.CommentResponse_OriginalComment
                     (responses_of (combine (reviewer_comments d comments) outs))
                   `sublist_of` reviewer_comments d comments)
      by apply responses_of_sublist.
    exists ref, tr1, comments. rewrite HR in *.
    repeat split; auto.
    + etransitivity; [exact Hsub|apply reviewer_comments_sublist].
    + apply List.Forall_forall. intros r Hr.
      apply (reviewer_comments_others d comments).
      apply (sublist_In _ _ _ Hsub). now apply in_map.
Qed.

Lemma defense_fold_analyzed items : forall acc,
  defender.DefenseStats_CommentsAnalyzed
    (defender.DefenseResult_Stats (fold_left defense_step items acc))
  = defender.DefenseStats_CommentsAnalyzed (defender.DefenseResult_Stats acc).
Proof.
  induction items as [|[c [err|a err|a s]] items IH]; intros acc;
    cbn [fold_left]; [reflexivity|rewrite IH..];
    cbn [defense_step]; unfold count_side; try destruct (concedes a);
    reflexivity.
Qed.

(** The counters of a result, along the treated comments. *)
Lemma defense_fold_stats items : forall acc,
  let s := defender.DefenseResult_Stats acc in
  let s' := defender.DefenseResult_Stats (fold_left defense_step items acc) in
  let R := len_slice (defender.DefenseResult_Responses acc) in
  let R' := len_slice (defender.DefenseResult_Responses
                         (fold_left defense_step items acc)) in
  0 <= defender.DefenseStats_Defended s ->
  0 <= defender.DefenseStats_Conceded s ->
  0 <= defender.DefenseStats_Skipped s ->
  defender.DefenseStats_Defended s + defender.DefenseStats_Conceded s
    + len_slice items < 2 ^ 63 ->
  defender.DefenseStats_Skipped s + len_slice items < 2 ^ 63 ->
  defender.DefenseStats_CommentsAnalyzed s'
    = defender.DefenseStats_CommentsAnalyzed s /\
  defender.DefenseStats_Defended s <= defender.DefenseStats_Defended s' /\
  defender.DefenseStats_Conceded s <= defender.DefenseStats_Conceded s' /\
  defender.DefenseStats_Skipped s <= defender.DefenseStats_Skipped s' /\
  R' + defender.DefenseStats_Skipped s'
    = R + defender.DefenseStats_Skipped s + len_slice items /\
  R' - R <= defender.DefenseStats_Defended s' + defender.DefenseStats_Conceded s'
            - (defender.DefenseStats_Defended s + defender.DefenseStats_Conceded s)
         <= len_slice items.
Proof.
  induction items as [|item items IH]; intros acc; cbv zeta;
    intros HD HC HS Hdc Hsk.
  - cbn [fold_left]. unfold len_slice in *. cbn [List.length] in *. lia.
  - cbn [fold_left].
    assert (Hlen : len_slice (item :: items) = 1 + len_slice items).
    { unfold len_slice. cbn [List.length]. lia. }
    rewrite Hlen in *. pose proof (Hitems := Zle_0_nat (List.length items)).
    fold (len_slice items) in Hitems.
    specialize (IH (defense_step acc item)). cbv zeta in IH.
    destruct acc as [R [n D C S]].
    cbn [defender.DefenseResult_Stats defender.DefenseResult_Responses
         defender.DefenseStats_Defended defender.DefenseStats_Conceded
         defender.DefenseStats_Skipped defender.DefenseStats_CommentsAnalyzed]
      in *.
    assert (HD1 : add D 1 = D + 1) by (apply wrap64_small; lia).
    assert (HC1 : add C 1 = C + 1) by (apply wrap64_small; lia).
    assert (HS1 : add S 1 = S + 1) by (apply wrap64_small; lia).
    destruct item as [c [err|a err|a resp]]; cbn [defense_step] in *;
      unfold count_side in *; try destruct (concedes a);
      unfold defender.incr_Skipped, defender.incr_Conceded,
        defender.incr_Defended, defender.append_Response in *;
      cbn [defender.DefenseResult_Stats defender.DefenseResult_Responses
           defender.DefenseStats_Defended defender.DefenseStats_Conceded
           defender.DefenseStats_Skipped defender.DefenseStats_CommentsAnalyzed]
        in *;
      rewrite ?HD1, ?HC1, ?HS1 in *;
      unfold len_slice in *; rewrite ?length_app in *;
      cbn [List.length] in *;
      (destruct IH as (I1 & I2 & I3 & I4 & I5 & I6 & I7); [lia..|]);
      repeat split; lia.
Qed.

(** X13. The counters of a result of [Defend], for fewer than 2^63
    comments: every reviewer comment is answered or skipped, so responses
    plus skipped is the number of comments analysed; defended plus
    conceded counts the comments whose analysis succeeded, whether or not
    a response could then be generated, so it lies between the number of
    responses and the number of comments analysed. A comment whose
    response failed is thus counted twice, as defended or conceded and as
    skipped. *)
Theorem Defend_stats (lib : Lib) (world : World) (d : defender.Defender)
  (prRef : string) (dryRun : bool) (tr : Trace) (res : defender.DefenseResult) :
  run (Defender_Defend lib world d prRef dryRun) tr = Ok res ->
  defender.DefenseStats_CommentsAnalyzed (defender.DefenseResult_Stats res)
    < 2 ^ 63 ->
  let s := defender.DefenseResult_Stats res in
  let responses := len_slice (defender.DefenseResult_Responses res) in
  responses + defender.DefenseStats_Skipped s
    = defender.DefenseStats_CommentsAnalyzed s /\
  responses <= defender.DefenseStats_Defended s + defender.DefenseStats_Conceded s /\
  defender.DefenseStats_Defended s + defender.DefenseStats_Conceded s
    <= defender.DefenseStats_CommentsAnalyzed s /\
  0 <= defender.DefenseStats_Defended s /\
  0 <= defender.DefenseStats_Conceded s /\
  0 <= defender.DefenseStats_Skipped s.
Proof.
  intros Hrun Hn. cbv zeta.
  destruct (Defend_run lib world d prRef dryRun tr) as (dl & _ & Ho).
  rewrite Hrun in Ho.
  assert (Hfold : forall comments outs,
    Forall2 (defended_by lib world d) comments outs ->
    res = fold_left defense_step (combine comments outs)
            (initial_defense (len_slice comments)) ->
    len_slice (defender.DefenseResult_Responses res)
      + defender.DefenseStats_Skipped (defender.DefenseResult_Stats res)
      = defender.DefenseStats_CommentsAnalyzed (defender.DefenseResult_Stats res) /\
    len_slice (defender.DefenseResult_Responses res)
      <= defender.DefenseStats_Defended (defender.DefenseResult_Stats res)
         + defender.DefenseStats_Conceded (defender.DefenseResult_Stats res) /\
    defender.DefenseStats_Defended (defender.DefenseResult_Stats res)
      + defender.DefenseStats_Conceded (defender.DefenseResult_Stats res)
      <= defender.DefenseStats_CommentsAnalyzed (defender.DefenseResult_Stats res) /\
    0 <= defender.DefenseStats_Defended (defender.DefenseResult_Stats res) /\
    0 <= defender.DefenseStats_Conceded (defender.DefenseResult_Stats res) /\
    0 <= defender.DefenseStats_Skipped (defender.DefenseResult_Stats res)).
  { intros comments outs Houts Hres.
    assert (Hlen : len_slice (combine comments outs) = len_slice comments).
    { unfold len_slice. rewrite length_combine.
      apply Forall2_length in Houts. lia. }
    pose proof (defense_fold_stats (combine comments outs)
                  (initial_defense (len_slice comments))) as H.
    cbv zeta in H. rewrite <- Hres, Hlen in H.
    cbn [initial_defense defender.DefenseResult_Stats
         defender.DefenseResult_Responses defender.DefenseStats_Defended
         defender.DefenseStats_Conceded defender.DefenseStats_Skipped
         defender.DefenseStats_CommentsAnalyzed] in H.
    assert (Hn' : len_slice comments < 2 ^ 63).
    { rewrite Hres, defense_fold_analyzed in Hn. exact Hn. }
    unfold len_slice in *. cbn [List.length] in H.
    destruct H as (H1 & H2 & H3 & H4 & H5 & H6 & H7); [lia..|].
    rewrite H1. repeat split; lia. }
  inversion Ho; subst.
  - cbv. repeat split; try reflexivity; intros H; discriminate H.
  - eauto.
  - eauto.
Qed.

Lemma Defend_stats_witness :
  exists res,
    run (Defender_Defend Fixture.lib (Fixture.world_defense None) Fixture.me
           "o/r#1" true) [] = Ok res /\
    len_slice (defender.DefenseResult_Responses res)
      + defender.DefenseStats_Skipped (defender.DefenseResult_Stats res)
    = defender.DefenseStats_CommentsAnalyzed (defender.DefenseResult_Stats res).
Proof.
  eexists. split.
  - vm_compute. reflexivity.
  - apply (Defend_stats Fixture.lib (Fixture.world_defense None) Fixture.me
             "o/r#1" true []).
    + vm_compute. reflexivity.
    + vm_compute. reflexivity.
Defined.

(** A comment whose response could not be generated is counted as
    defended and as skipped: the three counters of the summary add up to
    more than the number of comments. *)
Example Defend_stats_double_count :
  match run (Defender_Defend Fixture.lib
               (Fixture.world "me" [Fixture.say "{defend}"; Fail "reset"] None)
               Fixture.me "o/r#1" true) [] with
  | Ok res =>
      defender.DefenseResult_Responses res = [] /\
      defender.DefenseResult_Stats res = defender.mkDefenseStats 2 1 0 2
  | Fail _ => False
  end.
Proof. vm_compute. split; reflexivity. Qed.

(* ===================================================================== *)
(** * The result of a review: summary and counters                        *)
(* ===================================================================== *)

Lemma spec_total {A} (m : IO A) :
  only (fun _ => True) m -> spec m (fun _ _ => True).
Proof. intros H. eapply spec_mono; [exact H|]. auto. Qed.

Lemma comments_of_RIGHT formatted :
  Forall (fun c => github.ReviewComment_Side c = "RIGHT")
         (comments_of formatted).
Proof.
  induction formatted as [|[ci [body|err]] formatted IH]; cbn [comments_of];
    [constructor| |exact IH].
  constructor; [reflexivity|exact IH].
Qed.

Lemma comments_of_length : forall confirmed formatted,
  len_slice (comments_of (combine confirmed formatted)) <= len_slice confirmed.
Proof.
  intros confirmed formatted.
  pose proof (len_slice_sublist _ _ (comments_of_sublist confirmed formatted))
    as H.
  now rewrite !len_slice_map in H.
Qed.

(** The counter of nitpicks along the loop that adds them. *)
Lemma nitpick_fold_added nits : forall review,
  0 <= reviewer.ReviewStats_NitpicksAdded (reviewer.ReviewResult_Stats review) ->
  reviewer.ReviewStats_NitpicksAdded (reviewer.ReviewResult_Stats review)
    + len_slice nits < 2 ^ 63 ->
  reviewer.ReviewStats_NitpicksAdded
    (reviewer.ReviewResult_Stats (fold_left Review_nitpick_body nits review))
  = reviewer.ReviewStats_NitpicksAdded (reviewer.ReviewResult_Stats review)
    + len_slice nits.
Proof.
  induction nits as [|np nits IH]; intros review H0 Hbig; cbn [fold_left].
  - unfold len_slice. cbn [List.length]. lia.
  - unfold len_slice in *. cbn [List.length] in Hbig |- *.
    rewrite IH; cbn [Review_nitpick_body reviewer.set_Stats reviewer.set_Comments
                     reviewer.set_NitpicksAdded reviewer.ReviewResult_Stats
                     reviewer.ReviewStats_NitpicksAdded];
      unfold add; rewrite wrap64_small; lia.
Qed.

Lemma nitpick_fold_Summary nits : forall review,
  reviewer.ReviewResult_Summary (fold_left Review_nitpick_body nits review)
  = reviewer.ReviewResult_Summary review.
Proof.
  induction nits as [|np nits IH]; intros review; cbn [fold_left];
    [reflexivity|]. now rewrite IH.
Qed.

Section Report.

Context (lib : Lib) (world : World).

Lemma extra_nitpicks_added r author files review :
  spec (Review_extra_nitpicks lib world r author files review)
       (fun review' _ =>
          exists nits,
            reviewer.ReviewResult_Comments review'
            = (reviewer.ReviewResult_Comments review
               ++ map nitpick_comment nits)%list /\
            same_counts review' review /\
            (0 <= reviewer.ReviewStats_NitpicksAdded
                    (reviewer.ReviewResult_Stats review) ->
             reviewer.ReviewStats_NitpicksAdded
               (reviewer.ReviewResult_Stats review) + len_slice nits < 2 ^ 63 ->
             reviewer.ReviewStats_NitpicksAdded
               (reviewer.ReviewResult_Stats review')
             = reviewer.ReviewStats_NitpicksAdded
                 (reviewer.ReviewResult_Stats review) + len_slice nits)).
Proof.
  assert (Hnone :
    exists nits,
      reviewer.ReviewResult_Comments review
      = (reviewer.ReviewResult_Comments review
         ++ map nitpick_comment nits)%list /\
      same_counts review review /\
      (0 <= reviewer.ReviewStats_NitpicksAdded
              (reviewer.ReviewResult_Stats review) ->
       reviewer.ReviewStats_NitpicksAdded
         (reviewer.ReviewResult_Stats review) + len_slice nits < 2 ^ 63 ->
       reviewer.ReviewStats_NitpicksAdded (reviewer.ReviewResult_Stats review)
       = reviewer.ReviewStats_NitpicksAdded
           (reviewer.ReviewResult_Stats review) + len_slice nits)).
  { exists []. rewrite app_nil_r. unfold same_counts, len_slice.
    cbn [List.length]. repeat split; auto. intros. lia. }
  unfold Review_extra_nitpicks.
  destruct (config.IsDislikedReviewer _ _).
  - eapply spec_bind; [apply spec_Println_eq|]. intros _ d0 _. cbv zeta.
    eapply spec_bind.
    { apply spec_total.
      apply (only_GenerateExtraNitpicks lib world (fun _ => True)). auto. }
    intros res d1 _.
    destruct res as [[nits]|err].
    + eapply spec_bind; [apply spec_Printf_eq|]. intros _ d2 _.
      apply spec_ret. exists nits. cbn [reviewer.NitpickResult_Nitpicks].
      destruct (nitpick_fold nits review) as [Hc Hs].
      split; [exact Hc|]. split; [exact Hs|].
      apply nitpick_fold_added.
    + apply spec_ret. exact Hnone.
  - apply spec_ret. exact Hnone.
Qed.

Lemma pipeline_report r ref pr author e files :
  spec (Review_pipeline lib world r ref pr author e files)
       (fun res _ =>
          match res with
          | Fail _ => True
          | Ok review =>
              let stats := reviewer.ReviewResult_Stats review in
              let comments := reviewer.ReviewResult_Comments review in
              reviewer.ReviewResult_Summary review
                = Reviewer_generateSummary r review pr /\
              Forall (fun c => github.ReviewComment_Side c = "RIGHT") comments /\
              reviewer.ReviewStats_FilesReviewed stats = len_slice files /\
              reviewer.ReviewStats_CommentsPosted stats = 0 /\
              (len_slice comments < 2 ^ 63 ->
               0 <= reviewer.ReviewStats_NitpicksAdded stats <= len_slice comments /\
               len_slice comments - reviewer.ReviewStats_NitpicksAdded stats
                 <= reviewer.ReviewStats_IssuesAfterDeep stats)
          end).
Proof.
  unfold Review_pipeline.
  eapply spec_bind; [apply spec_Printf_eq|]. intros _ d0 _. cbv zeta.
  eapply spec_bind; [apply spec_Println_eq|]. intros _ d1 _.
  eapply spec_bind.
  { apply spec_total. apply (only_FirstPass lib world (fun _ => True)). auto. }
  intros fp d2 _.
  destruct fp as [[issues]|err]; [|apply spec_ret; exact I].
  cbn [reviewer.FirstPassResult_Issues].
  eapply spec_bind; [apply spec_Printf_eq|]. intros _ d3 _.
  eapply spec_bind; [apply spec_Println_eq|]. intros _ d4 _.
  eapply spec_bind.
  { apply spec_total. apply only_for_range. intros i x acc.
    apply (only_deep_body lib world (fun _ => True)). auto. }
  intros confirmed d5 _.
  eapply spec_bind; [apply spec_Printf_eq|]. intros _ d6 _.
  eapply spec_bind; [apply spec_Println_eq|]. intros _ d7 _.
  eapply spec_bind; [apply format_loop_spec|].
  intros comments d8 (fouts & Hfouts & ->).
  eapply spec_bind; [apply extra_nitpicks_added|].
  intros review d9 (nits & Hc & Hs & Hn).
  apply spec_ret. cbv zeta.
  destruct Hs as (Hs1 & Hs2 & Hs3 & Hs4).
  cbn in Hc, Hs1, Hs2, Hs3, Hs4, Hn.
  unfold reviewer.set_Summary.
  cbn [reviewer.ReviewResult_Summary reviewer.ReviewResult_Comments
       reviewer.ReviewResult_Stats].
  split; [reflexivity|]. rewrite Hc, Hs2, Hs3, Hs4.
  split; [|split; [reflexivity|split; [reflexivity|]]].
  - apply Forall_app. split; [apply comments_of_RIGHT|].
    apply List.Forall_forall. intros c (np & <- & _)%in_map_iff. reflexivity.
  - pose proof (comments_of_length confirmed fouts) as Hlen.
    unfold len_slice in *. rewrite length_app, length_map in *.
    intros Hbig. rewrite Hn by lia. lia.
Qed.

Lemma generateSummary_posted r review pr :
  Reviewer_generateSummary r (posted_review review) pr
  = Reviewer_generateSummary r review pr.
Proof. reflexivity. Qed.

Lemma Review_report_spec r prRef dryRun :
  spec (Reviewer_Review lib world r prRef dryRun)
       (fun res _ =>
          match res with
          | Fail _ => True
          | Ok result =>
              let stats := reviewer.ReviewResult_Stats result in
              let comments := reviewer.ReviewResult_Comments result in
              (forall pr, reviewer.ReviewResult_Summary result
                          = Reviewer_generateSummary r result pr) /\
              Forall (fun c => github.ReviewComment_Side c = "RIGHT") comments /\
              (exists tr' ref files,
                  GetPRFiles world tr' ref = Ok files /\
                  reviewer.ReviewStats_FilesReviewed stats = len_slice files) /\
              reviewer.ReviewStats_CommentsPosted stats
                = (if dryRun then 0 else len_slice comments) /\
              (len_slice comments < 2 ^ 63 ->
               0 <= reviewer.ReviewStats_NitpicksAdded stats <= len_slice comments /\
               len_slice comments - reviewer.ReviewStats_NitpicksAdded stats
                 <= reviewer.ReviewStats_IssuesAfterDeep stats)
          end).
Proof.
  unfold Reviewer_Review.
  destruct (ParsePRReference lib prRef) as [ref|err] eqn:Href.
  2:{ apply spec_ret. exact I. }
  eapply spec_bind; [apply spec_Printf_eq|]. intros _ d0 _.
  eapply spec_bind; [apply spec_call_eq|]. intros p d1 _.
  destruct p as [pr|err]; [|apply spec_ret; exact I].
  cbv zeta.
  eapply spec_bind; [apply spec_Printf_eq|]. intros _ d2 _.
  eapply spec_bind with (Q := fun _ _ => True).
  { destruct (config.IsLikedReviewer _ _);
      [|destruct (config.IsDislikedReviewer _ _)].
    - now apply spec_Printf.
    - now apply spec_Printf.
    - now apply spec_ret. }
  intros _ d3 _.
  eapply spec_bind.
  { unfold github_Client_GetPRFiles.
    apply spec_call
      with (Q := fun a (_ : Trace) => exists tr, GetPRFiles world tr ref = a).
    intros tr'. now exists tr'. }
  intros fs d4 (tr' & Hfs).
  destruct fs as [files|err]; [|apply spec_ret; exact I].
  eapply spec_bind; [apply pipeline_report|].
  intros res d5 Hres.
  destruct res as [review|err]; [|apply spec_ret; exact I].
  cbv zeta in Hres. destruct Hres as (Hsum & Hside & Hfiles & Hposted & Hnit).
  destruct dryRun.
  - eapply spec_mono; [apply publish_dry_preview|].
    intros res d6 [-> _]. cbv zeta.
    split; [intros pr'; exact Hsum|]. split; [exact Hside|].
    split; [eauto|]. split; [exact Hposted|exact Hnit].
  - eapply spec_mono; [apply publish_post_spec|].
    intros res d6 (tr'' & Hpost).
    destruct (PostReview world tr'' ref _ _ _) as [err|];
      destruct Hpost as [-> _]; [exact I|].
    cbv zeta. unfold posted_review.
    cbn [reviewer.set_Stats reviewer.set_CommentsPosted
         reviewer.ReviewResult_Summary reviewer.ReviewResult_Comments
         reviewer.ReviewResult_Stats reviewer.ReviewStats_FilesReviewed
         reviewer.ReviewStats_CommentsPosted reviewer.ReviewStats_NitpicksAdded
         reviewer.ReviewStats_IssuesAfterDeep].
    split; [intros pr'; exact Hsum|]. split; [exact Hside|].
    split; [eauto|]. split; [reflexivity|exact Hnit].
Qed.

End Report.

(** X14. The result that [Review] returns describes itself: its summary
    is the summary generated from the result (it states the number of
    files reviewed and the final number of comments, nitpicks included);
    every comment is on the right side of the diff; [FilesReviewed] is the
    number of files fetched; [CommentsPosted] is 0 in a dry run and the
    number of comments once posted; and, for fewer than 2^63 comments,
    the comments are [NitpicksAdded] nitpicks and at most
    [IssuesAfterDeep] others. *)
Theorem Review_report (lib : Lib) (world : World) (r : reviewer.Reviewer)
  (prRef : string) (dryRun : bool) (tr : Trace) :
  match run (Reviewer_Review lib world r prRef dryRun) tr with
  | Fail _ => True
  | Ok result =>
      let stats := reviewer.ReviewResult_Stats result in
      let comments := reviewer.ReviewResult_Comments result in
      (forall pr, reviewer.ReviewResult_Summary result
                  = Reviewer_generateSummary r result pr) /\
      Forall (fun c => github.ReviewComment_Side c = "RIGHT") comments /\
      (exists tr' ref files,
          GetPRFiles world tr' ref = Ok files /\
          reviewer.ReviewStats_FilesReviewed stats = len_slice files) /\
      reviewer.ReviewStats_CommentsPosted stats
        = (if dryRun then 0 else len_slice comments) /\
      (len_slice comments < 2 ^ 63 ->
       0 <= reviewer.ReviewStats_NitpicksAdded stats <= len_slice comments /\
       len_slice comments - reviewer.ReviewStats_NitpicksAdded stats
         <= reviewer.ReviewStats_IssuesAfterDeep stats)
  end.
Proof.
  destruct (spec_elim _ _ tr (Review_report_spec lib world r prRef dryRun))
    as (d & _ & H).
  exact H.
Qed.

(* ===================================================================== *)
(** * The number of calls of a run                                        *)
(* ===================================================================== *)

Section Budget.

Context (lib : Lib) (world : World).

Lemma chats_app d1 d2 : Calls.chats (d1 ++ d2)%list = Calls.chats d1 + Calls.chats d2.
Proof.
  unfold Calls.chats, len_slice. rewrite List.filter_app, length_app. lia.
Qed.

Lemma fetches_app d1 d2 :
  Calls.fetches (d1 ++ d2)%list = Calls.fetches d1 + Calls.fetches d2.
Proof.
  unfold Calls.fetches, len_slice. rewrite List.filter_app, length_app. lia.
Qed.

Lemma chats_nonneg d : 0 <= Calls.chats d.
Proof. unfold Calls.chats, len_slice. lia. Qed.

Lemma fetches_nonneg d : 0 <= Calls.fetches d.
Proof. unfold Calls.fetches, len_slice. lia. Qed.

Lemma fetches_map_fetch owner repo ref ps :
  Calls.fetches (map (Calls.fetch owner repo ref) ps) = len_slice ps.
Proof.
  unfold Calls.fetches, len_slice.
  induction ps as [|p ps IH]; [reflexivity|].
  cbn [map List.filter Calls.fetch Calls.is_fetch List.length]. lia.
Qed.

Lemma chats_map_fetch owner repo ref ps :
  Calls.chats (map (Calls.fetch owner repo ref) ps) = 0.
Proof.
  unfold Calls.chats, len_slice.
  induction ps as [|p ps IH]; [reflexivity|].
  cbn [map List.filter Calls.fetch Calls.is_chat]. exact IH.
Qed.

(** Events that are neither requests to the chat service nor fetches. *)
Lemma within_other (P := fun e => Calls.is_chat e = false /\
                                  Calls.is_fetch e = false) d :
  Forall P d -> Calls.within 0 0 d.
Proof.
  unfold Calls.within, Calls.chats, Calls.fetches, len_slice.
  induction 1 as [|e d [Hc Hf] _ IH]; cbn [List.filter List.length]; [lia|].
  now rewrite Hc, Hf.
Qed.

Lemma within_app c1 f1 c2 f2 d1 d2 :
  Calls.within c1 f1 d1 -> Calls.within c2 f2 d2 ->
  Calls.within (c1 + c2) (f1 + f2) (d1 ++ d2)%list.
Proof.
  unfold Calls.within. rewrite chats_app, fetches_app. lia.
Qed.

Lemma within_mono c f c' f' d :
  Calls.within c f d -> c <= c' -> f <= f' -> Calls.within c' f' d.
Proof. unfold Calls.within. lia. Qed.

Lemma within_print_f format args d :
  d = [EvPrintf format args] -> Calls.within 0 0 d.
Proof. intros ->. split; cbv; discriminate. Qed.

Lemma within_print_ln line d : d = [EvPrintln line] -> Calls.within 0 0 d.
Proof. intros ->. split; cbv; discriminate. Qed.

(** Collects the bounds of the parts of a trace. *)
Ltac budget :=
  cbv beta in *;
  repeat match goal with
         | H : _ = [EvPrintf _ _] |- _ => apply within_print_f in H
         | H : _ = [EvPrintln _] |- _ => apply within_print_ln in H
         | H : Calls.within _ _ _ |- _ => destruct H
         end;
  unfold Calls.within; rewrite ?chats_app, ?fetches_app;
  repeat match goal with
         | |- context [Calls.chats ?d] =>
             lazymatch goal with
             | _ : 0 <= Calls.chats d |- _ => fail
             | _ => pose proof (chats_nonneg d)
             end
         | |- context [Calls.fetches ?d] =>
             lazymatch goal with
             | _ : 0 <= Calls.fetches d |- _ => fail
             | _ => pose proof (fetches_nonneg d)
             end
         end;
  try lia.

Lemma spec_within_call {A} (answer : Trace -> A) e c f :
  Calls.within c f [e] ->
  spec (call answer e) (fun _ d => Calls.within c f d).
Proof. intros H. apply spec_call. auto. Qed.

Lemma spec_within_for_range {A S} (body : int -> A -> S -> IO S) c f l :
  0 <= c -> 0 <= f ->
  (forall i x acc, spec (body i x acc) (fun _ d => Calls.within c f d)) ->
  forall i acc,
    spec (for_range body i l acc)
         (fun _ d => Calls.within (c * len_slice l) (f * len_slice l) d).
Proof.
  intros Hc Hf Hbody i acc.
  apply spec_for_range
    with (Inv := fun done (_ : S) d =>
            Calls.within (c * len_slice done) (f * len_slice done) d).
  - split; cbv; destruct c, f; discriminate.
  - intros j done x a d Hd.
    eapply spec_mono; [apply Hbody|].
    intros a' d' Hd'. cbv beta.
    unfold len_slice in *. rewrite length_app. cbn [List.length].
    eapply within_mono; [apply (within_app _ _ _ _ _ _ Hd Hd')|nia..].
Qed.

Lemma Chat_within c messages :
  spec (ai_Client_Chat lib world c messages) (fun _ d => Calls.within 1 0 d).
Proof.
  intros tr. destruct (Chat_eq lib world c messages tr) as (r & chat & E & H).
  exists (c, r), chat. split; [exact E|].
  destruct H as [[-> _]|(req & ->)]; split; cbv; discriminate.
Qed.

Lemma FirstPass_within a files :
  spec (Analyzer_FirstPass lib world a files) (fun _ d => Calls.within 1 0 d).
Proof.
  unfold Analyzer_FirstPass. cbv zeta.
  eapply spec_bind; [apply Chat_within|]. intros r d1 H1.
  destruct (snd r) as [response|err]; [|apply spec_ret; rewrite app_nil_r; auto].
  destruct (json_Unmarshal_FirstPassResult lib _);
    apply spec_ret; rewrite app_nil_r; auto.
Qed.

Lemma GenerateExtraNitpicks_within a files existing :
  spec (Analyzer_GenerateExtraNitpicks lib world a files existing)
       (fun _ d => Calls.within 1 0 d).
Proof.
  unfold Analyzer_GenerateExtraNitpicks. cbv zeta.
  eapply spec_bind; [apply Chat_within|]. intros r d1 H1.
  destruct (snd r) as [response|err]; [|apply spec_ret; rewrite app_nil_r; auto].
  destruct (json_Unmarshal_NitpickResult lib _);
    apply spec_ret; rewrite app_nil_r; auto.
Qed.

Lemma formatComment_within r ci :
  spec (Reviewer_formatComment lib world r ci) (fun _ d => Calls.within 1 0 d).
Proof.
  unfold Reviewer_formatComment. cbv zeta.
  eapply spec_bind; [apply Chat_within|]. intros x d1 H1.
  apply spec_ret; rewrite app_nil_r; auto.
Qed.

Lemma analyzeComment_within d comment ctx :
  spec (Defender_analyzeComment lib world d comment ctx)
       (fun _ dl => Calls.within 1 0 dl).
Proof.
  unfold Defender_analyzeComment. cbv zeta.
  eapply spec_bind; [apply Chat_within|]. intros r d1 H1.
  destruct (snd r) as [response|err]; [|apply spec_ret; rewrite app_nil_r; auto].
  destruct (json_Unmarshal_CommentAnalysis lib _);
    apply spec_ret; rewrite app_nil_r; auto.
Qed.

Lemma generateDefense_within d comment analysis :
  spec (Defender_generateDefense lib world d comment analysis)
       (fun _ dl => Calls.within 1 0 dl).
Proof.
  unfold Defender_generateDefense. cbv zeta.
  eapply spec_bind; [apply Chat_within|]. intros x d1 H1.
  apply spec_ret; rewrite app_nil_r; auto.
Qed.

Lemma generateConcession_within d comment :
  spec (Defender_generateConcession lib world d comment)
       (fun _ dl => Calls.within 1 0 dl).
Proof.
  unfold Defender_generateConcession. cbv zeta.
  eapply spec_bind; [apply Chat_within|]. intros x d1 H1.
  apply spec_ret; rewrite app_nil_r; auto.
Qed.

Lemma DeepAnalyze_within a issue ref pr :
  spec (Analyzer_DeepAnalyze lib world a issue ref pr)
       (fun _ d => Calls.within 1 11 d).
Proof.
  intros tr.
  destruct (DeepAnalyze_eq lib world a issue ref pr tr)
    as (related & chat & res & E & Hsub & Hchat & _).
  cbv zeta in E. eexists _, _. split; [exact E|].
  unfold Calls.within.
  change (Calls.fetch ?o ?r ?s ?f :: ?l)
    with (map (Calls.fetch o r s) [f] ++ l)%list.
  rewrite !chats_app, !fetches_app, !chats_map_fetch, !fetches_map_fetch.
  apply len_slice_sublist in Hsub.
  assert (Hchats : Calls.chats chat <= 1 /\ Calls.fetches chat = 0).
  { destruct Hchat as [->|(req & ->)]; split; cbv; congruence. }
  change (len_slice (Calls.testPatterns (reviewer.Issue_File issue))) with 5
    in *.
  change (len_slice [reviewer.Issue_File issue]) with 1.
  lia.
Qed.

Lemma deep_body_within r ref pr e total i issue acc :
  spec (Review_deep_body lib world r ref pr e total i issue acc)
       (fun _ d => Calls.within 1 11 d).
Proof.
  unfold Review_deep_body.
  eapply spec_bind; [apply spec_Printf_eq|]. intros ? d0 H0; cbv beta in H0.
  eapply spec_bind; [apply DeepAnalyze_within|]. intros res d1 H1.
  destruct res as [analysis|err].
  - cbv zeta. destruct (_ && _);
      (eapply spec_bind; [apply spec_Printf_eq|]); intros ? d2 H2; cbv beta in H2;
      apply spec_ret; rewrite app_nil_r; budget.
  - eapply spec_bind; [apply spec_Printf_eq|]. intros ? d2 H2; cbv beta in H2.
    apply spec_ret. rewrite app_nil_r. budget.
Qed.

Lemma format_body_within r i ci acc :
  spec (Review_format_body lib world r i ci acc)
       (fun _ d => Calls.within 1 0 d).
Proof.
  unfold Review_format_body.
  eapply spec_bind; [apply formatComment_within|]. intros res d1 H1.
  destruct res as [comment|err].
  - apply spec_ret. rewrite app_nil_r. budget.
  - eapply spec_bind; [apply spec_Printf_eq|]. intros ? d2 H2; cbv beta in H2.
    apply spec_ret. rewrite app_nil_r. budget.
Qed.

Lemma extra_nitpicks_within r author files review :
  spec (Review_extra_nitpicks lib world r author files review)
       (fun _ d => Calls.within 1 0 d).
Proof.
  unfold Review_extra_nitpicks.
  destruct (config.IsDislikedReviewer _ _).
  - eapply spec_bind; [apply spec_Println_eq|]. intros ? d0 H0; cbv beta in H0. cbv zeta.
    eapply spec_bind; [apply GenerateExtraNitpicks_within|]. intros res d1 H1.
    destruct res as [nitpicks|err].
    + eapply spec_bind; [apply spec_Printf_eq|]. intros ? d2 H2; cbv beta in H2.
      apply spec_ret. rewrite app_nil_r. budget.
    + apply spec_ret. rewrite app_nil_r. budget.
  - apply spec_ret. split; cbv; discriminate.
Qed.

Lemma pipeline_within r ref pr author e files :
  threshold e = 90 - 5 * e ->
  spec (Review_pipeline lib world r ref pr author e files)
       (fun res d =>
          match res with
          | Fail _ => Calls.within 1 0 d
          | Ok review =>
              let stats := reviewer.ReviewResult_Stats review in
              Calls.within
                (2 + reviewer.ReviewStats_IssuesFound stats
                   + reviewer.ReviewStats_IssuesAfterDeep stats)
                (11 * reviewer.ReviewStats_IssuesFound stats) d
          end).
Proof.
  intros He. unfold Review_pipeline.
  eapply spec_bind; [apply spec_Printf_eq|]. intros ? d0 H0; cbv beta in H0. cbv zeta.
  eapply spec_bind; [apply spec_Println_eq|]. intros ? d1 H1; cbv beta in H1.
  eapply spec_bind; [apply FirstPass_within|]. intros fp d2 H2.
  destruct fp as [[issues]|err].
  2:{ apply spec_ret. rewrite app_nil_r. budget. }
  cbn [reviewer.FirstPassResult_Issues].
  eapply spec_bind; [apply spec_Printf_eq|]. intros ? d3 H3; cbv beta in H3.
  eapply spec_bind; [apply spec_Println_eq|]. intros ? d4 H4; cbv beta in H4.
  eapply spec_bind.
  { apply spec_conj.
    - apply (spec_within_for_range
               (Review_deep_body lib world r ref pr e (len_slice issues))
               1 11 issues); [lia..|].
      intros. apply deep_body_within.
    - apply deep_loop_spec. exact He. }
  intros confirmed d5 [H5 _].
  eapply spec_bind; [apply spec_Printf_eq|]. intros ? d6 H6; cbv beta in H6.
  eapply spec_bind; [apply spec_Println_eq|]. intros ? d7 H7; cbv beta in H7.
  eapply spec_bind.
  { apply (spec_within_for_range (Review_format_body lib world r)
             1 0 confirmed); [lia..|].
    intros. apply format_body_within. }
  intros comments d8 H8.
  eapply spec_bind.
  { apply spec_conj; [apply extra_nitpicks_within|apply extra_nitpicks_spec]. }
  intros review d9 [H9 (nits & _ & _ & _ & Hs)].
  apply spec_ret. rewrite app_nil_r. cbv zeta.
  destruct Hs as (Hs1 & Hs2 & _ & _). cbn in Hs1, Hs2.
  cbn [reviewer.set_Summary reviewer.ReviewResult_Stats].
  rewrite Hs1, Hs2.
  pose proof (Zle_0_nat (List.length issues)) as Hi.
  pose proof (Zle_0_nat (List.length confirmed)) as Hcf.
  fold (len_slice issues) in Hi. fold (len_slice confirmed) in Hcf.
  budget.
Qed.

(** ** The steps that neither chat nor fetch *)

Ltac quiet :=
  repeat first
    [ apply only_ret
    | apply only_call; split; reflexivity
    | apply only_bind; [|intros ?]
    | apply only_for_range; intros ? ? ?
    | match goal with
      | |- only _ (match ?x with _ => _ end) => destruct x
      | |- only _ (let _ := _ in _) => cbv zeta
      end ].

Lemma spec_quiet {A} (m : IO A) :
  only (fun e => Calls.is_chat e = false /\ Calls.is_fetch e = false) m ->
  spec m (fun _ d => Calls.within 0 0 d).
Proof.
  intros H. eapply spec_mono; [exact H|]. intros a d. apply within_other.
Qed.

Lemma Review_publish_within r ref e dryRun review :
  spec (Review_publish world r ref e dryRun review)
       (fun res d =>
          Calls.within 0 0 d /\
          forall result, res = Ok result ->
            reviewer.ReviewStats_IssuesFound (reviewer.ReviewResult_Stats result)
            = reviewer.ReviewStats_IssuesFound (reviewer.ReviewResult_Stats review) /\
            reviewer.ReviewStats_IssuesAfterDeep
              (reviewer.ReviewResult_Stats result)
            = reviewer.ReviewStats_IssuesAfterDeep
                (reviewer.ReviewResult_Stats review)).
Proof.
  apply spec_conj.
  - apply spec_quiet. unfold Review_publish, github_Client_PostReview.
    cbv zeta. destruct dryRun; quiet.
  - destruct dryRun.
    + eapply spec_mono; [apply publish_dry_preview|].
      intros res d [-> _] result [= <-]. auto.
    + eapply spec_mono; [apply publish_post_spec|].
      intros res d (tr & H) result ->.
      destruct (PostReview world tr ref _ _ _); destruct H as [H _];
        [discriminate H|]. injection H as ->. auto.
Qed.

Lemma Review_within r prRef dryRun :
  spec (Reviewer_Review lib world r prRef dryRun)
       (fun res d =>
          match res with
          | Fail _ => True
          | Ok result =>
              let stats := reviewer.ReviewResult_Stats result in
              Calls.within
                (2 + reviewer.ReviewStats_IssuesFound stats
                   + reviewer.ReviewStats_IssuesAfterDeep stats)
                (11 * reviewer.ReviewStats_IssuesFound stats) d
          end).
Proof.
  unfold Reviewer_Review.
  destruct (ParsePRReference lib prRef) as [ref|err] eqn:Href.
  2:{ apply spec_ret. exact I. }
  eapply spec_bind; [apply spec_Printf_eq|]. intros ? d0 H0.
  eapply spec_bind.
  { apply spec_quiet. unfold github_Client_GetPR. quiet. }
  intros p d1 H1.
  destruct p as [pr|err]; [|apply spec_ret; exact I].
  cbv zeta.
  eapply spec_bind; [apply spec_Printf_eq|]. intros ? d2 H2.
  eapply spec_bind.
  { apply spec_quiet. quiet. }
  intros ? d3 H3.
  eapply spec_bind.
  { apply spec_quiet. unfold github_Client_GetPRFiles. quiet. }
  intros fs d4 H4.
  destruct fs as [files|err]; [|apply spec_ret; exact I].
  eapply spec_bind; [apply pipeline_within, threshold_effective|].
  intros res d5 H5.
  destruct res as [review|err]; [|apply spec_ret; exact I].
  eapply spec_mono; [apply Review_publish_within|].
  intros res d6 [H6 Hres].
  destruct res as [result|err]; [|exact I].
  destruct (Hres result eq_refl) as [-> ->]. cbv zeta in H5 |- *.
  budget.
Qed.

(** ** Defense mode *)

Lemma file_body_within d ref pr i f acc :
  spec (Defend_file_body world d ref pr i f acc)
       (fun _ dl => Calls.within 0 1 dl).
Proof.
  unfold Defend_file_body, github_Client_GetFileContent.
  eapply spec_bind; [apply spec_call_eq|]. intros content d0 ->.
  destruct content; apply spec_ret; split; cbv; discriminate.
Qed.

Lemma comment_body_within d fileContents total i comment acc :
  spec (Defend_comment_body lib world d fileContents total i comment acc)
       (fun _ dl => Calls.within 2 0 dl).
Proof.
  unfold Defend_comment_body.
  eapply spec_bind; [apply spec_Printf_eq|]. intros ? d0 H0.
  eapply spec_bind; [apply spec_Printf_eq|]. intros ? d1 H1. cbv zeta.
  eapply spec_bind; [apply analyzeComment_within|]. intros an d2 H2.
  destruct an as [analysis|err].
  2:{ eapply spec_bind; [apply spec_Printf_eq|]. intros ? d3 H3.
      apply spec_ret. rewrite app_nil_r. budget. }
  eapply spec_bind with (Q := fun _ dl => Calls.within 1 0 dl).
  { destruct (_ || _).
    - eapply spec_bind; [apply spec_Printf_eq|]. intros ? d3 H3.
      eapply spec_bind; [apply generateConcession_within|]. intros resp d4 H4.
      apply spec_ret. rewrite app_nil_r. budget.
    - eapply spec_bind; [apply spec_Printf_eq|]. intros ? d3 H3.
      eapply spec_bind; [apply generateDefense_within|]. intros resp d4 H4.
      apply spec_ret. rewrite app_nil_r. budget. }
  intros x d3 H3.
  destruct (fst x) as [response|err].
  - apply spec_ret. rewrite app_nil_r. budget.
  - eapply spec_bind; [apply spec_Printf_eq|]. intros ? d4 H4.
    apply spec_ret. rewrite app_nil_r. budget.
Qed.

Lemma Defend_within d prRef dryRun :
  spec (Defender_Defend lib world d prRef dryRun)
       (fun res dl =>
          match res with
          | Fail _ => Calls.within 0 0 dl
          | Ok result =>
              Calls.chats dl
                <= 2 * defender.DefenseStats_CommentsAnalyzed
                         (defender.DefenseResult_Stats result) /\
              exists tr' ref,
                Calls.fetches dl
                <= len_slice match GetPRFiles world tr' ref with
                             | Ok files => files
                             | Fail _ => []
                             end
          end).
Proof.
  unfold Defender_Defend.
  destruct (ParsePRReference lib prRef) as [ref|err] eqn:Href.
  2:{ apply spec_ret. split; cbv; discriminate. }
  eapply spec_bind; [apply spec_Printf_eq|]. intros ? d0 H0.
  eapply spec_bind.
  { apply spec_quiet. unfold github_Client_GetPR. quiet. }
  intros p d1 H1.
  destruct p as [pr|err]; [|apply spec_ret; rewrite app_nil_r; budget].
  cbv zeta.
  eapply spec_bind.
  { apply spec_quiet. quiet. }
  intros ? d2 H2.
  eapply spec_bind; [apply spec_Printf_eq|]. intros ? d3 H3.
  eapply spec_bind.
  { apply spec_quiet. unfold github_Client_GetPRComments. quiet. }
  intros cs d4 H4.
  destruct cs as [comments|err]; [|apply spec_ret; rewrite app_nil_r; budget].
  fold (reviewer_comments d comments).
  eapply spec_bind; [apply spec_Printf_eq|]. intros ? d5 H5.
  destruct (len_slice (reviewer_comments d comments) =? 0) eqn:Hlen.
  { eapply spec_bind; [apply spec_Println_eq|]. intros ? d6 H6.
    apply spec_ret. rewrite app_nil_r.
    cbn [defender.zero_DefenseResult defender.DefenseResult_Stats
         defender.DefenseStats_CommentsAnalyzed].
    split; [budget|]. exists [], ref.
    pose proof (Zle_0_nat (List.length
      match GetPRFiles world [] ref with Ok files => files | Fail _ => [] end)).
    unfold len_slice. budget. }
  eapply spec_bind.
  { unfold github_Client_GetPRFiles.
    apply spec_call
      with (Q := fun a dl => Calls.within 0 0 dl /\
                             exists tr', GetPRFiles world tr' ref = a).
    intros tr'. split; [split; cbv; discriminate|]. now exists tr'. }
  intros fs d6 [H6 (tr' & Hfs)].
  eapply spec_bind.
  { apply (spec_within_for_range (Defend_file_body world d ref pr) 0 1);
      [lia..|]. intros. apply file_body_within. }
  intros fileContents d7 H7.
  eapply spec_bind.
  { apply spec_conj.
    - apply (spec_within_for_range
               (Defend_comment_body lib world d fileContents
                  (len_slice (reviewer_comments d comments))) 2 0); [lia..|].
      intros. apply comment_body_within.
    - apply comment_loop_spec. }
  intros res d8 [H8 [_ (outs & _ & Hres)]].
  eapply spec_bind.
  { apply spec_quiet. unfold Defend_publish, github_Client_ReplyToComment.
    cbv zeta. destruct dryRun; quiet. }
  intros ? d9 H9.
  eapply spec_bind; [apply spec_Printf_eq|]. intros ? d10 H10.
  apply spec_ret. rewrite app_nil_r.
  assert (Hn : defender.DefenseStats_CommentsAnalyzed
                 (defender.DefenseResult_Stats res)
               = len_slice (reviewer_comments d comments)).
  { rewrite Hres, defense_fold_analyzed. reflexivity. }
  rewrite Hn.
  pose proof (Zle_0_nat (List.length (reviewer_comments d comments))) as Hc.
  fold (len_slice (reviewer_comments d comments)) in Hc.
  split; [budget|].
  exists tr', ref. rewrite Hfs.
  pose proof (Zle_0_nat (List.length
    match fs with Ok files => files | Fail _ => [] end)) as Hf.
  fold (len_slice match fs with Ok files => files | Fail _ => [] end) in Hf.
  budget.
Qed.

End Budget.

(** X15. The calls of a review that returns a result: at most
    [2 + IssuesFound + IssuesAfterDeep] requests to the chat service (one
    for the first pass, one for each candidate, one for each confirmed
    issue, one for the extra nitpicks) and at most [11 * IssuesFound]
    fetches of files (for each candidate its file, five probes for test
    files and the test files found). *)
Theorem Review_budget (lib : Lib) (world : World) (r : reviewer.Reviewer)
  (prRef : string) (dryRun : bool) (tr : Trace) :
  let m := Reviewer_Review lib world r prRef dryRun in
  exists d,
    trace_of m tr = (tr ++ d)%list /\
    match run m tr with
    | Fail _ => True
    | Ok result =>
        let stats := reviewer.ReviewResult_Stats result in
        Calls.chats d <= 2 + reviewer.ReviewStats_IssuesFound stats
                           + reviewer.ReviewStats_IssuesAfterDeep stats /\
        Calls.fetches d <= 11 * reviewer.ReviewStats_IssuesFound stats
    end.
Proof.
  cbv zeta.
  destruct (spec_elim _ _ tr (Review_within lib world r prRef dryRun))
    as (d & Htr & H).
  exists d. split; [exact Htr|].
  destruct (run _ tr); [exact H|exact I].
Qed.

(** X16. The calls of a defense: a run that returns an error has made
    no request to the chat service and fetched no file; a run that
    returns a result has made at most two requests for each comment
    analysed (one for the analysis, one for the response) and has fetched
    each changed file at most once, none if the list of files could not
    be fetched. *)
Theorem Defend_budget (lib : Lib) (world : World) (d : defender.Defender)
  (prRef : string) (dryRun : bool) (tr : Trace) :
  let m := Defender_Defend lib world d prRef dryRun in
  exists dl,
    trace_of m tr = (tr ++ dl)%list /\
    match run m tr with
    | Fail _ => Calls.chats dl = 0 /\ Calls.fetches dl = 0
    | Ok result =>
        Calls.chats dl
          <= 2 * defender.DefenseStats_CommentsAnalyzed
                   (defender.DefenseResult_Stats result) /\
        exists tr' ref,
          Calls.fetches dl
          <= len_slice match GetPRFiles world tr' ref with
                       | Ok files => files
                       | Fail _ => []
                       end
    end.
Proof.
  cbv zeta.
  destruct (spec_elim _ _ tr (Defend_within lib world d prRef dryRun))
    as (dl & Htr & H).
  exists dl. split; [exact Htr|].
  destruct (run _ tr) as [result|err]; [exact H|].
  destruct H as [Hc Hf].
  pose proof (chats_nonneg dl). pose proof (fetches_nonneg dl). lia.
Qed.

(* ===================================================================== *)
(** * The configuration file and the commands                             *)
(* ===================================================================== *)

Lemma Validate_iff cfg :
  config.Validate cfg = None <->
  config.Config_GitHubToken cfg <> "" /\
  config.Config_AIApiKey cfg <> "" /\
  1 <= config.Config_NitpickyLevel cfg <= 10.
Proof.
  unfold config.Validate.
  destruct (String.eqb_spec (config.Config_GitHubToken cfg) "") as [Ht|Ht].
  { split; [discriminate|tauto]. }
  destruct (String.eqb_spec (config.Config_AIApiKey cfg) "") as [Hk|Hk].
  { split; [discriminate|tauto]. }
  destruct (Z.ltb_spec (config.Config_NitpickyLevel cfg) 1).
  { split; [discriminate|lia]. }
  destruct (Z.gtb_spec (config.Config_NitpickyLevel cfg) 10).
  { split; [discriminate|lia]. }
  split; [intros _; repeat split; auto; lia|reflexivity].
Qed.

Section CommandLemmas.

Context (lib : Lib) (world : World) {FS : Type} (host : os.Host FS).

Lemma Load_Validate fs cfg :
  config_Load host fs = Ok cfg -> config.Validate cfg = None.
Proof.
  unfold config_Load.
  destruct (config_ConfigPath host fs) as [path|err]; [|discriminate].
  destruct (os.ReadFile host fs path) as [data|err].
  2:{ destruct (os.IsNotExist host err); discriminate. }
  destruct (os.yaml_Unmarshal_Config host data config.DefaultConfig)
    as [c|err]; [|discriminate].
  destruct (config.Validate c) eqn:Hv; [discriminate|].
  now intros [= <-].
Qed.

End CommandLemmas.

(** X17. [runReview] and [runDefend] work with a validated
    configuration or not at all. If [Load] fails, for a missing, unreadable,
    undecodable or invalid file, the command returns that error and does
    nothing: no call to the hosting API or to the chat service, nothing
    printed. Otherwise the configuration has a token, an API key and a level
    in 1..10, and the command is [Review], respectively [Defend], of the
    reviewer or defender made from it, whose error it returns. *)
Theorem commands_load_config {FS : Type} (lib : Lib) (world : World)
  (host : os.Host FS) (prRef : string) (dryRun : bool) (fs : FS) (tr : Trace) :
  match config_Load host fs with
  | Fail err =>
      runReview lib world host prRef dryRun fs tr = (Some err, tr) /\
      runDefend lib world host prRef dryRun fs tr = (Some err, tr)
  | Ok cfg =>
      config.Config_GitHubToken cfg <> "" /\
      config.Config_AIApiKey cfg <> "" /\
      1 <= config.Config_NitpickyLevel cfg <= 10 /\
      (let review := Reviewer_Review lib world (reviewer.NewReviewer cfg)
                       prRef dryRun in
       trace_of (runReview lib world host prRef dryRun fs) tr
         = trace_of review tr /\
       run (runReview lib world host prRef dryRun fs) tr
         = match run review tr with Ok _ => None | Fail err => Some err end) /\
      (let defend := Defender_Defend lib world (defender.NewDefender cfg)
                       prRef dryRun in
       trace_of (runDefend lib world host prRef dryRun fs) tr
         = trace_of defend tr /\
       run (runDefend lib world host prRef dryRun fs) tr
         = match run defend tr with Ok _ => None | Fail err => Some err end)
  end.
Proof.
  unfold runReview, runDefend.
  destruct (config_Load host fs) as [cfg|err] eqn:Hload; [|split; reflexivity].
  apply Load_Validate, Validate_iff in Hload as (Ht & Hk & Hl).
  repeat split; auto; try lia; cbv zeta; unfold trace_of, run, bind, ret;
    match goal with
    | |- context [let (_, _) := ?m in _] => destruct m
    end; reflexivity.
Qed.

(** X18. Saving and loading. On a host where a file written can be read
    back, where writing the file leaves the home directory as it is, and
    for a configuration that the decoder gives back from its encoding:
    after a successful [Save], [Load] returns the configuration saved if
    [Validate] accepts it, and the complaint of [Validate] otherwise.
    [Save] itself does not validate. *)
Theorem Save_then_Load {FS : Type} (host : os.Host FS) (c : config.Config)
  (fs fs' : FS) :
  (forall fs0 path data fs1,
      os.WriteFile host fs0 path data os.mode_0600 = (None, fs1) ->
      os.ReadFile host fs1 path = Ok data /\
      os.UserHomeDir host fs1 = os.UserHomeDir host fs0) ->
  (forall data,
      os.yaml_Marshal_Config host c = Ok data ->
      os.yaml_Unmarshal_Config host data config.DefaultConfig = Ok c) ->
  Config_Save host c fs = (None, fs') ->
  config_Load host fs'
  = match config.Validate c with
    | None => Ok c
    | Some err => Fail err
    end.
Proof.
  intros Hfs Hyaml. unfold Config_Save.
  destruct (config_ConfigDir host fs) as [dir|err]; [|discriminate].
  destruct (os.MkdirAll host fs dir os.mode_0700) as [[err|] fs1];
    [discriminate|].
  destruct (config_ConfigPath host fs1) as [path|err] eqn:Hpath;
    [|discriminate].
  destruct (os.yaml_Marshal_Config host c) as [data|err] eqn:Hdata;
    [|discriminate].
  destruct (os.WriteFile host fs1 path data os.mode_0600) as [[err|] fs2]
    eqn:Hwrite; [discriminate|].
  intros [= <-].
  destruct (Hfs _ _ _ _ Hwrite) as [Hread Hhome].
  unfold config_Load.
  assert (Hpath' : config_ConfigPath host fs2 = Ok path).
  { revert Hpath. unfold config_ConfigPath, config_ConfigDir.
    now rewrite Hhome. }
  rewrite Hpath', Hread, (Hyaml _ eq_refl). reflexivity.
Qed.

Lemma Save_then_Load_witness :
  Config_Save Desk.host (Fixture.cfg 5 ["ann"] ["bob"]) None
  = (None, Some (Desk.encode (Fixture.cfg 5 ["ann"] ["bob"]))) /\
  config_Load Desk.host (Some (Desk.encode (Fixture.cfg 5 ["ann"] ["bob"])))
  = Ok (Fixture.cfg 5 ["ann"] ["bob"]).
Proof.
  split; [reflexivity|].
  apply (Save_then_Load Desk.host (Fixture.cfg 5 ["ann"] ["bob"]) None).
  - intros fs0 path data fs1 [= <-]. split; reflexivity.
  - intros data [= <-]. reflexivity.
  - reflexivity.
Defined.

Section SetAndAdd.

Context {FS : Type} (host : os.Host FS).

Lemma switch_fields cfg key value cfg' :
  runConfigSet_switch host cfg key value = Ok cfg' ->
  config.Config_LikedReviewers cfg' = config.Config_LikedReviewers cfg /\
  config.Config_DislikedReviewers cfg' = config.Config_DislikedReviewers cfg /\
  (1 <= config.Config_NitpickyLevel cfg <= 10 ->
   1 <= config.Config_NitpickyLevel cfg' <= 10) /\
  (config.Validate cfg = None -> value <> "" -> config.Validate cfg' = None) /\
  (config.Config_GitHubToken cfg = "" -> config.Config_AIApiKey cfg = "" ->
   config.Validate cfg' <> None).
Proof.
  unfold runConfigSet_switch.
  repeat match goal with
         | |- context [if String.eqb ?a ?b then _ else _] =>
             destruct (String.eqb a b)
         | |- context [match os.strconv_Atoi host value with _ => _ end] =>
             destruct (os.strconv_Atoi host value) as [level|?]
         | |- context [if (?l <? 1) || (?l >? 10) then _ else _] =>
             destruct (Z.ltb_spec l 1); destruct (Z.gtb_spec l 10);
             cbn [orb]
         end;
    try discriminate;
    intros [= <-];
    (split; [reflexivity|]); (split; [reflexivity|]);
    rewrite !Validate_iff; unfold set_WritingStyle; cbn; intuition lia.
Qed.

End SetAndAdd.

(** X19. [salty config set]. The command starts from the configuration
    loaded, or from the default one when [Load] fails for any reason. A key
    or value that the switch rejects is answered by its error with nothing
    written and nothing printed. Otherwise the configuration passed to
    [Save] keeps both reviewer lists and has a level in 1..10; it is valid
    again if the one loaded was and the value is not empty, but it is
    never valid when [Load] had failed, since the default configuration
    lacks the token and the key and one assignment sets one field. The
    confirmation is printed after a successful [Save] only. *)
Theorem runConfigSet_spec {FS : Type} (host : os.Host FS)
  (key value : string) (fs : FS) (tr : Trace) :
  let base := match config_Load host fs with
              | Ok cfg => cfg
              | Fail _ => config.DefaultConfig
              end in
  match runConfigSet_switch host base key value with
  | Fail err => runConfigSet host key value fs tr = ((Some err, fs), tr)
  | Ok cfg' =>
      config.Config_LikedReviewers cfg' = config.Config_LikedReviewers base /\
      config.Config_DislikedReviewers cfg'
        = config.Config_DislikedReviewers base /\
      1 <= config.Config_NitpickyLevel cfg' <= 10 /\
      (forall cfg, config_Load host fs = Ok cfg -> value <> "" ->
                   config.Validate cfg' = None) /\
      (forall err, config_Load host fs = Fail err ->
                   config.Validate cfg' <> None) /\
      runConfigSet host key value fs tr
      = (Config_Save host cfg' fs,
         match fst (Config_Save host cfg' fs) with
         | Some _ => tr
         | None => (tr ++ [EvPrintf ("✅ Set %s = %s" +:+ nl)
                             [AStr key; AStr value]])%list
         end)
  end.
Proof.
  cbv zeta. unfold runConfigSet. cbv zeta.
  set (base := match config_Load host fs with
               | Ok cfg => cfg
               | Fail _ => config.DefaultConfig
               end).
  destruct (runConfigSet_switch host base key value) as [cfg'|err] eqn:Hsw;
    [|reflexivity].
  destruct (switch_fields host base key value cfg' Hsw)
    as (HL & HD & Hlevel & Hvalid & Hbad).
  split; [exact HL|]. split; [exact HD|]. split; [|split; [|split]].
  - apply Hlevel. unfold base.
    destruct (config_Load host fs) as [cfg|err] eqn:Hload; [|cbn; lia].
    now apply Validate_level, (Load_Validate host fs).
  - intros cfg Hload Hvalue. apply Hvalid; [|exact Hvalue].
    unfold base. rewrite Hload. now apply (Load_Validate host fs).
  - intros err Hload. apply Hbad; unfold base; now rewrite Hload.
  - destruct (Config_Save host cfg' fs) as [[err|] fs']; reflexivity.
Qed.

Example runConfigSet_example :
  let fs := Some (Desk.encode (Fixture.cfg 5 ["ann"] ["bob"])) in
  run (runConfigSet Desk.host "nitpicky_level" "7" fs) []
    = (None, Some (Desk.encode (Fixture.cfg 7 ["ann"] ["bob"]))) /\
  run (runConfigSet Desk.host "nitpicky_level" "11" fs) []
    = (Some "nitpicky_level must be 1-10", fs) /\
  run (runConfigSet Desk.host "nitpicky" "7" fs) []
    = (Some "unknown config key: nitpicky", fs).
Proof. cbv zeta. repeat split; reflexivity. Qed.

(** X20. [salty config add]. Without a configuration that loads, the
    command returns the error of [Load]; for a list that is neither
    liked_reviewer nor disliked_reviewer it returns an error; in both cases
    nothing is written or printed. Otherwise it saves the configuration
    loaded after [AddLikedReviewer], respectively [AddDislikedReviewer],
    which is valid and keeps the lists well formed if they were; the
    confirmation is printed before [Save] is called, hence also when
    [Save] fails. *)
Theorem runConfigAdd_spec {FS : Type} (host : os.Host FS)
  (list_ username : string) (fs : FS) (tr : Trace) :
  match config_Load host fs with
  | Fail err => runConfigAdd host list_ username fs tr = ((Some err, fs), tr)
  | Ok cfg =>
      if String.eqb list_ "liked_reviewer" then
        let cfg' := config.AddLikedReviewer cfg username in
        config.Validate cfg' = None /\
        (lists_wf cfg -> lists_wf cfg') /\
        runConfigAdd host list_ username fs tr
        = (Config_Save host cfg' fs,
           (tr ++ [EvPrintf ("✅ Added @%s to liked reviewers (will go easy on them)"
                             +:+ nl) [AStr username]])%list)
      else if String.eqb list_ "disliked_reviewer" then
        let cfg' := config.AddDislikedReviewer cfg username in
        config.Validate cfg' = None /\
        (lists_wf cfg -> lists_wf cfg') /\
        runConfigAdd host list_ username fs tr
        = (Config_Save host cfg' fs,
           (tr ++ [EvPrintf ("✅ Added @%s to disliked reviewers (extra scrutiny mode)"
                             +:+ nl) [AStr username]])%list)
      else
        exists err, runConfigAdd host list_ username fs tr = ((Some err, fs), tr)
  end.
Proof.
  unfold runConfigAdd.
  destruct (config_Load host fs) as [cfg|err] eqn:Hload; [|reflexivity].
  apply Load_Validate in Hload.
  destruct (String.eqb list_ "liked_reviewer");
    [|destruct (String.eqb list_ "disliked_reviewer")].
  - cbv zeta. split; [|split; [|reflexivity]].
    + revert Hload. unfold config.Validate, config.AddLikedReviewer.
      now destruct (negb _).
    + intros Hwf. now apply AddLikedReviewer_lists.
  - cbv zeta. split; [|split; [|reflexivity]].
    + revert Hload. unfold config.Validate, config.AddDislikedReviewer.
      now destruct (negb _).
    + intros Hwf. now apply AddDislikedReviewer_lists.
  - eexists. reflexivity.
Qed.

Example runConfigAdd_example :
  let fs := Some (Desk.encode (Fixture.cfg 5 ["ann"] ["bob"])) in
  fst (run (runConfigAdd Desk.host "liked_reviewer" "bob" fs) [])
    = None /\
  config_Load Desk.host
    (snd (run (runConfigAdd Desk.host "liked_reviewer" "bob" fs) []))
    = Ok (Fixture.cfg 5 ["ann"; "bob"] []) /\
  run (runConfigAdd Desk.host "liked" "bob" fs) []
    = (Some "unknown list: liked (use liked_reviewer or disliked_reviewer)", fs) /\
  run (runConfigAdd Desk.host "liked_reviewer" "bob" None) []
    = (Some "config not found. Run 'salty init' first", None).
Proof. cbv zeta. repeat split; reflexivity. Qed.

Section Show.

Context {FS : Type} (host : os.Host FS).

(** What [runConfigShow] prints depends on the two secrets through
    [maskToken] only. *)
Lemma runConfigShow_masked fs1 fs2 c1 c2 tr :
  config_Load host fs1 = Ok c1 ->
  config_Load host fs2 = Ok c2 ->
  main.maskToken (config.Config_GitHubToken c1)
    = main.maskToken (config.Config_GitHubToken c2) ->
  main.maskToken (config.Config_AIApiKey c1)
    = main.maskToken (config.Config_AIApiKey c2) ->
  config.Config_AIApiURL c1 = config.Config_AIApiURL c2 ->
  config.Config_AIModel c1 = config.Config_AIModel c2 ->
  config.Config_WritingStyle c1 = config.Config_WritingStyle c2 ->
  config.Config_NitpickyLevel c1 = config.Config_NitpickyLevel c2 ->
  config.Config_LikedReviewers c1 = config.Config_LikedReviewers c2 ->
  config.Config_DislikedReviewers c1 = config.Config_DislikedReviewers c2 ->
  runConfigShow host fs1 tr = runConfigShow host fs2 tr.
Proof.
  intros H1 H2 Ht Hk Hu Hm Hs Hl HL HD. unfold runConfigShow.
  rewrite H1, H2. unfold bind, ret, Printf, Println, call.
  now rewrite Ht, Hk, Hu, Hm, Hs, Hl, HL, HD.
Qed.

End Show.

(** X21. [salty config show] does not tell tokens apart that agree on
    their first 4 and last 4 bytes: for two configuration files that load
    and differ only in the bytes in the middle of a GitHub token of more
    than 8 bytes, the command prints the same. (The 8 outer bytes are
    printed; a token of 9 bytes is hidden in one byte only.) *)
Theorem runConfigShow_hides_token {FS : Type} (host : os.Host FS)
  (fs1 fs2 : FS) (c : config.Config) (a mid1 mid2 b : string) (tr : Trace) :
  len a = 4 -> len b = 4 -> mid1 <> "" -> mid2 <> "" ->
  let with_token token :=
    set_field c token (config.Config_AIApiURL c) (config.Config_AIApiKey c)
      (config.Config_AIModel c) (config.Config_WritingStyle c)
      (config.Config_NitpickyLevel c) in
  config_Load host fs1 = Ok (with_token (a +:+ mid1 +:+ b)) ->
  config_Load host fs2 = Ok (with_token (a +:+ mid2 +:+ b)) ->
  runConfigShow host fs1 tr = runConfigShow host fs2 tr.
Proof.
  intros Ha Hb Hm1 Hm2 with_token H1 H2.
  apply (runConfigShow_masked host fs1 fs2 _ _ tr H1 H2); try reflexivity.
  unfold with_token. cbn [set_field config.Config_GitHubToken].
  now rewrite !maskToken_parts.
Qed.

Lemma runConfigShow_hides_token_witness :
  config_Load Desk.host (Some (Desk.encode (Desk.long_token "ghp_0123456789abcdef")))
    = Ok (Desk.long_token "ghp_0123456789abcdef") /\
  config_Load Desk.host (Some (Desk.encode (Desk.long_token "ghp_zyxwvutsrqcdef")))
    = Ok (Desk.long_token "ghp_zyxwvutsrqcdef") /\
  runConfigShow Desk.host
    (Some (Desk.encode (Desk.long_token "ghp_0123456789abcdef"))) []
  = runConfigShow Desk.host
      (Some (Desk.encode (Desk.long_token "ghp_zyxwvutsrqcdef"))) [].
Proof.
  split; [reflexivity|]. split; [reflexivity|].
  apply (runConfigShow_hides_token Desk.host _ _ (Fixture.cfg 5 [] [])
           "ghp_" "0123456789ab" "zyxwvutsrq" "cdef" []);
    try reflexivity; discriminate.
Defined.

Example runConfigShow_example :
  trace_of (runConfigShow Desk.host
              (Some (Desk.encode (Desk.long_token "ghp_0123456789abcdef")))) []
  = [ EvPrintln "🧂 Salty Code Reviewer Configuration";
      EvPrintln "─────────────────────────────────────────";
      EvPrintf ("Writing Style:      %s" +:+ nl) [AStr "tech_bro"];
      EvPrintf ("Nitpicky Level:     %d/10" +:+ nl) [AInt 5];
      EvPrintf ("AI API URL:         %s" +:+ nl) [AStr "https://api.example/v1/"];
      EvPrintf ("AI Model:           %s" +:+ nl) [AStr "gpt-4"];
      EvPrintf ("GitHub Token:       %s" +:+ nl) [AStr "ghp_...cdef"];
      EvPrintf ("AI API Key:         %s" +:+ nl) [AStr "****"];
      EvPrintf ("Liked Reviewers:    %v" +:+ nl) [AStr "[]"];
      EvPrintf ("Disliked Reviewers: %v" +:+ nl) [AStr "[]"] ].
Proof. reflexivity. Qed.

(* ===================================================================== *)
(** * What a dry run shows is what a run posts                            *)
(* ===================================================================== *)

Section Faithful.

Context (lib : Lib) (world : World).

Lemma spec_at {A} (m : IO A) Q tr :
  spec m Q -> exists a d, m tr = (a, (tr ++ d)%list) /\ Q a d.
Proof. intros H. apply H. Qed.

(** Up to the publishing step, [Review] does not look at [dryRun]. *)
Lemma Review_common r prRef tr :
  exists (pre : result (github.PRReference * int * reviewer.ReviewResult)) d,
    forall dryRun,
      Reviewer_Review lib world r prRef dryRun tr
      = match pre with
        | Fail err => (Fail err, (tr ++ d)%list)
        | Ok (ref, e, review) =>
            Review_publish world r ref e dryRun review (tr ++ d)%list
        end.
Proof.
  unfold Reviewer_Review.
  destruct (ParsePRReference lib prRef) as [ref|err].
  2:{ exists (Fail err), []. intros. now rewrite app_nil_r. }
  unfold bind at 1. unfold Printf at 1, call at 1.
  unfold bind at 1. unfold github_Client_GetPR at 1, call at 1.
  match goal with
  | |- context [GetPR world ?t ref] => destruct (GetPR world t ref) as [pr|err]
  end.
  2:{ exists (Fail err). eexists. intros. unfold ret.
      rewrite <- !app_assoc. reflexivity. }
  cbv zeta.
  unfold bind at 1. unfold Printf at 1, call at 1.
  unfold bind at 1.
  match goal with
  | |- context [(if config.IsLikedReviewer ?c ?a then ?x else ?y) ?t] =>
      destruct (spec_at (if config.IsLikedReviewer c a then x else y)
                  (fun _ _ => True) t) as (u & d3 & -> & _)
  end.
  { destruct (config.IsLikedReviewer _ _);
      [|destruct (config.IsDislikedReviewer _ _)].
    - now apply spec_Printf.
    - now apply spec_Printf.
    - now apply spec_ret. }
  unfold bind at 1. unfold github_Client_GetPRFiles at 1, call at 1.
  match goal with
  | |- context [GetPRFiles world ?t ref] =>
      destruct (GetPRFiles world t ref) as [files|err]
  end.
  2:{ exists (Fail err). eexists. intros. unfold ret.
      rewrite <- !app_assoc. reflexivity. }
  unfold bind at 1.
  match goal with
  | |- context [Review_pipeline lib world r ref pr ?a ?e files ?t] =>
      destruct (spec_at (Review_pipeline lib world r ref pr a e files)
                  (fun _ _ => True) t) as (res & d5 & -> & _)
  end.
  { eapply spec_mono; [apply pipeline_report|]. auto. }
  destruct res as [review|err].
  - eexists (Ok (ref, _, review)), _. intros dryRun.
    rewrite <- !app_assoc. reflexivity.
  - exists (Fail err). eexists. intros. unfold ret.
    rewrite <- !app_assoc. reflexivity.
Qed.

(** Up to the publishing step, [Defend] does not look at [dryRun]. *)
Lemma Defend_common d prRef tr :
  exists (pre : result defender.DefenseResult
                + github.PRReference * defender.DefenseResult) dl,
    Forall no_post dl /\
    match pre with
    | inl (Ok result) => defender.DefenseResult_Responses result = []
    | _ => True
    end /\
    forall dryRun,
      Defender_Defend lib world d prRef dryRun tr
      = match pre with
        | inl res => (res, (tr ++ dl)%list)
        | inr (ref, result) =>
            bind (Defend_publish world d ref dryRun result)
              (fun _ =>
                 bind (Printf (nl +:+ "📊 Summary: %d defended, %d conceded, %d skipped"
                               +:+ nl)
                         [AInt (defender.DefenseStats_Defended
                                  (defender.DefenseResult_Stats result));
                          AInt (defender.DefenseStats_Conceded
                                  (defender.DefenseResult_Stats result));
                          AInt (defender.DefenseStats_Skipped
                                  (defender.DefenseResult_Stats result))])
                   (fun _ => ret (Ok result)))
              (tr ++ dl)%list
        end.
Proof.
  unfold Defender_Defend.
  destruct (ParsePRReference lib prRef) as [ref|err].
  2:{ exists (inl (Fail err)), []. split; [constructor|]. split; [exact I|].
      intros. now rewrite app_nil_r. }
  unfold bind at 1. unfold Printf at 1, call at 1.
  unfold bind at 1. unfold github_Client_GetPR at 1, call at 1.
  match goal with
  | |- context [GetPR world ?t ref] => destruct (GetPR world t ref) as [pr|err]
  end.
  2:{ exists (inl (Fail err)). eexists. split; [|split; [exact I|]].
      2:{ intros. unfold ret. rewrite <- !app_assoc. reflexivity. }
      repeat constructor. }
  cbv zeta.
  unfold bind at 1.
  match goal with
  | |- context [(if negb ?b then ?x else ?y) ?t] =>
      destruct (spec_at (if negb b then x else y)
                  (fun _ dl => Forall no_post dl) t) as (u & d2 & -> & Hd2)
  end.
  { destruct (negb _).
    - apply spec_Printf. repeat constructor.
    - apply spec_ret. constructor. }
  unfold bind at 1. unfold Printf at 1, call at 1.
  unfold bind at 1. unfold github_Client_GetPRComments at 1, call at 1.
  match goal with
  | |- context [GetPRComments world ?t ref] =>
      destruct (GetPRComments world t ref) as [comments|err]
  end.
  2:{ exists (inl (Fail err)). eexists. split; [|split; [exact I|]].
      2:{ intros. unfold ret. rewrite <- !app_assoc. reflexivity. }
      no_post_tac. }
  fold (reviewer_comments d comments).
  unfold bind at 1. unfold Printf at 1, call at 1.
  destruct (len_slice (reviewer_comments d comments) =? 0).
  { exists (inl (Ok defender.zero_DefenseResult)). eexists.
    split; [|split; [reflexivity|]].
    2:{ intros. unfold bind, Println, call, ret.
        rewrite <- !app_assoc. reflexivity. }
    no_post_tac. }
  unfold bind at 1. unfold github_Client_GetPRFiles at 1, call at 1.
  unfold bind at 1.
  match goal with
  | |- context [for_range (Defend_file_body world d ref pr) 0 ?fs ?e ?t] =>
      destruct (spec_at (for_range (Defend_file_body world d ref pr) 0 fs e)
                  (fun _ dl => Forall no_post dl) t)
        as (fileContents & d7 & -> & Hd7)
  end.
  { apply only_for_range with (P := no_post). intros.
    apply only_file_body. auto. }
  unfold bind at 1.
  match goal with
  | |- context [for_range (Defend_comment_body lib world d fileContents ?n)
                  0 ?cs ?acc ?t] =>
      destruct (spec_at
                  (for_range (Defend_comment_body lib world d fileContents n)
                     0 cs acc)
                  (fun _ dl => Forall no_post dl) t)
        as (result & d8 & -> & Hd8)
  end.
  { apply only_for_range with (P := no_post). intros.
    apply only_comment_body. auto. }
  exists (inr (ref, result)). eexists. split; [|split; [exact I|]].
  2:{ intros dryRun. rewrite <- !app_assoc. reflexivity. }
  no_post_tac.
Qed.

End Faithful.

(** X22. The dry run of [Review] is faithful: from the same state of the
    outside, the run without dry run does the same up to the preview, and
    where the dry run prints the preview of its result it posts that
    review, with the summary and the comments previewed; it returns the
    result of the dry run with [CommentsPosted] set, or the error of the
    posting call. A dry run that fails fails the same way without dry
    run, with the same calls. *)
Theorem Review_dry_run_faithful (lib : Lib) (world : World)
  (r : reviewer.Reviewer) (prRef : string) (tr : Trace) :
  let dry := Reviewer_Review lib world r prRef true in
  let real := Reviewer_Review lib world r prRef false in
  match run dry tr with
  | Fail err => run real tr = Fail err /\ trace_of real tr = trace_of dry tr
  | Ok review =>
      exists d ref e rest,
        trace_of dry tr = (tr ++ d ++ review_preview review)%list /\
        trace_of real tr
        = (tr ++ d ++ [EvPrintln "📤 Posting review..."; post_event ref e review]
              ++ rest)%list /\
        Forall no_post rest /\
        (run real tr = Ok (posted_review review) \/
         exists err, run real tr = Fail ("failed to post review: " +:+ err))
  end.
Proof.
  cbv zeta. unfold run, trace_of.
  destruct (Review_common lib world r prRef tr) as (pre & d & H).
  rewrite !H. destruct pre as [[[ref e] review]|err].
  2:{ cbn [fst snd]. auto. }
  destruct (spec_at _ _ (tr ++ d)%list (publish_dry_preview world r ref e review))
    as (res & d1 & -> & -> & ->).
  destruct (spec_at _ _ (tr ++ d)%list (publish_post_spec world r ref e review))
    as (res & d2 & -> & tr' & Hpost).
  cbn [fst snd]. exists d, ref, e.
  destruct (PostReview world tr' ref _ _ _) as [err|];
    destruct Hpost as [-> ->]; eexists;
    (split; [now rewrite <- app_assoc|]);
    (split; [rewrite <- app_assoc; reflexivity|]).
  - split; [constructor|]. right. eauto.
  - split; [repeat constructor|]. now left.
Qed.

(** X23. The dry run of [Defend] is faithful: from the same state of the
    outside, the run without dry run returns the same result or error, and
    posts one reply for each response of that result, in order, and
    nothing else. *)
Theorem Defend_dry_run_faithful (lib : Lib) (world : World)
  (d : defender.Defender) (prRef : string) (tr : Trace) :
  let dry := Defender_Defend lib world d prRef true in
  let real := Defender_Defend lib world d prRef false in
  run real tr = run dry tr /\
  exists dl,
    trace_of real tr = (tr ++ dl)%list /\
    match run dry tr with
    | Fail _ => List.filter is_post dl = []
    | Ok result =>
        exists ref,
          List.filter is_post dl
          = map (reply_event ref) (defender.DefenseResult_Responses result)
    end.
Proof.
  cbv zeta. unfold run, trace_of.
  destruct (Defend_common lib world d prRef tr) as (pre & dl & Hno & Hres & H).
  rewrite !H. destruct pre as [res|[ref result]].
  - cbn [fst snd]. split; [reflexivity|]. exists dl. split; [reflexivity|].
    rewrite (filter_no_post _ Hno).
    destruct res as [result|err]; [|reflexivity].
    exists (github.mkPRReference "" "" 0). now rewrite Hres.
  - unfold bind.
    destruct (spec_at _ _ (tr ++ dl)%list (defend_publish_dry world d ref result))
      as (u1 & d1 & -> & _).
    destruct (spec_at _ _ (tr ++ dl)%list (defend_publish_post world d ref result))
      as (u2 & d2 & -> & Hd2).
    unfold Printf, call, ret. cbn [fst snd].
    split; [reflexivity|]. eexists. split.
    + rewrite <- !app_assoc. reflexivity.
    + exists ref. rewrite !List.filter_app, (filter_no_post _ Hno), Hd2.
      cbn. now rewrite app_nil_r.
Qed.

(* ===================================================================== *)
(** * The program, call by call                                           *)
(* ===================================================================== *)

Lemma bind_run {A B} (m : IO A) (k : A -> IO B) tr :
  bind m k tr = k (run m tr) (trace_of m tr).
Proof. unfold bind, run, trace_of. now destruct (m tr). Qed.

Lemma run_call {A} (answer : Trace -> A) e tr : run (call answer e) tr = answer tr.
Proof. reflexivity. Qed.

Lemma trace_of_call {A} (answer : Trace -> A) e tr :
  trace_of (call answer e) tr = (tr ++ [e])%list.
Proof. reflexivity. Qed.

Lemma trace_of_Printf format args tr :
  trace_of (Printf format args) tr = (tr ++ [EvPrintf format args])%list.
Proof. reflexivity. Qed.

Lemma trace_of_Println line tr :
  trace_of (Println line) tr = (tr ++ [EvPrintln line])%list.
Proof. reflexivity. Qed.

Lemma trace_of_ret {A} (a : A) tr : trace_of (ret a) tr = tr.
Proof. reflexivity. Qed.

Lemma app_two {A} (l : list A) x y : ((l ++ [x]) ++ [y] = l ++ [x; y])%list.
Proof. now rewrite <- app_assoc. Qed.

(** One step of a sequence: the first computation, then the rest from
    its value and its trace. *)
Ltac io_step :=
  rewrite bind_run; cbv beta;
  rewrite ?trace_of_Printf, ?trace_of_Println, ?trace_of_ret.

Lemma run_ret {A} (a : A) tr : run (ret a) tr = a.
Proof. reflexivity. Qed.

Lemma run_bind {A B} (m : IO A) (k : A -> IO B) tr :
  run (bind m k) tr = run (k (run m tr)) (trace_of m tr).
Proof. unfold run at 1. now rewrite bind_run. Qed.

Lemma trace_of_bind {A B} (m : IO A) (k : A -> IO B) tr :
  trace_of (bind m k) tr = trace_of (k (run m tr)) (trace_of m tr).
Proof. unfold trace_of at 1. now rewrite bind_run. Qed.

(** All the steps that can be taken. *)
Ltac io_norm :=
  repeat (first [ rewrite bind_run | rewrite run_bind | rewrite trace_of_bind
                | rewrite trace_of_Printf | rewrite trace_of_Println
                | rewrite trace_of_ret | rewrite run_ret
                | rewrite trace_of_call ];
          cbv beta).

(** Traces, associated to the right. *)
Ltac traces := repeat (progress (rewrite <- ?app_assoc; cbn [app])).

Section StageLemmas.

Context {A B S : Type}.
Context (handle : A -> IO B) (before : int -> A -> Trace)
        (after : A -> B -> Trace).

(** A stage yields one outcome for each item. *)
Lemma stage_length items : forall i tr,
  length (fst (Stages.stage handle before after i items tr)) = length items.
Proof.
  induction items as [|x rest IH]; intros i tr; cbn [Stages.stage fst length].
  - reflexivity.
  - now rewrite IH.
Qed.

(** A loop whose body handles an item by one call is the stage of its
    items: the loop folds the outcomes into its accumulator. *)
Lemma for_range_stage (body : int -> A -> S -> IO S) (step : S -> A * B -> S) :
  (forall i x acc tr,
      body i x acc tr
      = (step acc (x, run (handle x) (tr ++ before i x)%list),
         (trace_of (handle x) (tr ++ before i x)
          ++ after x (run (handle x) (tr ++ before i x)%list))%list)) ->
  forall items i acc tr,
    for_range body i items acc tr
    = (fold_left step
         (combine items (fst (Stages.stage handle before after i items tr))) acc,
       snd (Stages.stage handle before after i items tr)).
Proof.
  intros Hbody. induction items as [|x rest IH]; intros i acc tr.
  - reflexivity.
  - cbn [for_range Stages.stage fst snd combine fold_left].
    rewrite bind_run. unfold run at 1, trace_of at 1.
    rewrite Hbody. cbn [fst snd]. apply IH.
Qed.

End StageLemmas.

(* ===================================================================== *)
(** * A review, stage by stage                                            *)
(* ===================================================================== *)

Lemma confirmed_of_fold e l : forall acc,
  fold_left (fun acc item => (acc ++ confirmed_of e [item])%list) l acc
  = (acc ++ confirmed_of e l)%list.
Proof.
  induction l as [|item l IH]; intros acc; cbn [fold_left].
  - cbn. now rewrite app_nil_r.
  - rewrite IH, <- app_assoc, <- confirmed_of_app. reflexivity.
Qed.

Lemma comments_of_fold l : forall acc,
  fold_left (fun acc item => (acc ++ comments_of [item])%list) l acc
  = (acc ++ comments_of l)%list.
Proof.
  induction l as [|item l IH]; intros acc; cbn [fold_left].
  - cbn. now rewrite app_nil_r.
  - rewrite IH, <- app_assoc, <- comments_of_app. reflexivity.
Qed.

Section ReviewExact.

Context (lib : Lib) (world : World).

(** One turn of the deep-analysis loop: the line that announces the
    candidate, one call of [DeepAnalyze], the line that reports its
    outcome; the candidate is appended when it is accepted. *)
Lemma deep_body_exact r ref pr e total i issue acc tr :
  threshold e = 90 - 5 * e ->
  Review_deep_body lib world r ref pr e total i issue acc tr
  = ((acc ++
      confirmed_of e
        [(issue,
          run (Analyzer_DeepAnalyze lib world (reviewer.Reviewer_analyzer r)
                 issue ref pr)
            (tr ++ Stages.deep_before total i issue)%list)])%list,
     (trace_of (Analyzer_DeepAnalyze lib world (reviewer.Reviewer_analyzer r)
                  issue ref pr)
        (tr ++ Stages.deep_before total i issue)
      ++ Stages.deep_after e issue
           (run (Analyzer_DeepAnalyze lib world (reviewer.Reviewer_analyzer r)
                   issue ref pr)
              (tr ++ Stages.deep_before total i issue)%list))%list).
Proof.
  intros He. unfold Review_deep_body, Stages.deep_before.
  io_step. io_step.
  destruct (run _ _) as [a|err]; cbn [confirmed_of Stages.deep_after].
  - rewrite He.
    replace ((reviewer.DeepAnalysisResult_Confidence a >=? 90 - 5 * e)
             && String.eqb (reviewer.DeepAnalysisResult_FinalVerdict a) "COMMENT")
      with (acceptedb e a)
      by (unfold acceptedb; rewrite Z.geb_leb; apply andb_comm).
    destruct (acceptedb e a); io_step; unfold ret; [reflexivity|].
    now rewrite app_nil_r.
  - io_step. unfold ret. now rewrite app_nil_r.
Qed.

(** The deep-analysis loop is the stage of its candidates. *)
Lemma deep_loop_exact r ref pr e issues acc tr :
  threshold e = 90 - 5 * e ->
  for_range (Review_deep_body lib world r ref pr e (len_slice issues))
    0 issues acc tr
  = ((acc ++
      confirmed_of e
        (combine issues (fst (Stages.deep_stage lib world r ref pr e issues tr))))%list,
     snd (Stages.deep_stage lib world r ref pr e issues tr)).
Proof.
  intros He. unfold Stages.deep_stage.
  rewrite (for_range_stage
             (fun issue =>
                Analyzer_DeepAnalyze lib world (reviewer.Reviewer_analyzer r)
                  issue ref pr)
             (Stages.deep_before (len_slice issues)) (Stages.deep_after e)
             (Review_deep_body lib world r ref pr e (len_slice issues))
             (fun acc item => (acc ++ confirmed_of e [item])%list)).
  - now rewrite confirmed_of_fold.
  - intros i x acc0 tr0. now apply deep_body_exact.
Qed.

Lemma deep_loop_run r ref pr e issues acc tr :
  threshold e = 90 - 5 * e ->
  run (for_range (Review_deep_body lib world r ref pr e (len_slice issues))
         0 issues acc) tr
  = (acc ++
     confirmed_of e
       (combine issues (fst (Stages.deep_stage lib world r ref pr e issues tr))))%list.
Proof. intros He. unfold run. now rewrite deep_loop_exact. Qed.

Lemma deep_loop_trace r ref pr e issues acc tr :
  threshold e = 90 - 5 * e ->
  trace_of (for_range (Review_deep_body lib world r ref pr e (len_slice issues))
              0 issues acc) tr
  = snd (Stages.deep_stage lib world r ref pr e issues tr).
Proof. intros He. unfold trace_of. now rewrite deep_loop_exact. Qed.

(** One turn of the formatting loop: one call of [formatComment], and
    the line that reports its failure. *)
Lemma format_body_exact r i ci acc tr :
  Review_format_body lib world r i ci acc tr
  = ((acc ++ comments_of [(ci, run (Reviewer_formatComment lib world r ci)
                                 (tr ++ [])%list)])%list,
     (trace_of (Reviewer_formatComment lib world r ci) (tr ++ [])
      ++ Stages.format_after ci
           (run (Reviewer_formatComment lib world r ci) (tr ++ [])%list))%list).
Proof.
  rewrite app_nil_r. unfold Review_format_body. io_step.
  destruct (run _ _) as [body|err]; cbn [comments_of Stages.format_after].
  - unfold ret. now rewrite app_nil_r.
  - io_step. unfold ret. now rewrite app_nil_r.
Qed.

(** The formatting loop is the stage of the confirmed issues. *)
Lemma format_loop_exact r confirmed acc tr :
  for_range (Review_format_body lib world r) 0 confirmed acc tr
  = ((acc ++
      comments_of
        (combine confirmed
           (fst (Stages.format_stage lib world r confirmed tr))))%list,
     snd (Stages.format_stage lib world r confirmed tr)).
Proof.
  unfold Stages.format_stage.
  rewrite (for_range_stage (Reviewer_formatComment lib world r)
             (fun _ _ => []) Stages.format_after
             (Review_format_body lib world r)
             (fun acc item => (acc ++ comments_of [item])%list)).
  - now rewrite comments_of_fold.
  - intros i x acc0 tr0. apply format_body_exact.
Qed.

Lemma format_loop_run r confirmed acc tr :
  run (for_range (Review_format_body lib world r) 0 confirmed acc) tr
  = (acc ++
     comments_of
       (combine confirmed
          (fst (Stages.format_stage lib world r confirmed tr))))%list.
Proof. unfold run. now rewrite format_loop_exact. Qed.

Lemma format_loop_trace r confirmed acc tr :
  trace_of (for_range (Review_format_body lib world r) 0 confirmed acc) tr
  = snd (Stages.format_stage lib world r confirmed tr).
Proof. unfold trace_of. now rewrite format_loop_exact. Qed.

(** The extra nitpicks: the nitpicks generated are folded into the
    result. *)
Lemma extra_nitpicks_exact r author files result tr :
  Review_extra_nitpicks lib world r author files result tr
  = (fold_left Review_nitpick_body
       (fst (Stages.nitpick_stage lib world r author files
               (reviewer.ReviewResult_Comments result) tr))
       result,
     snd (Stages.nitpick_stage lib world r author files
            (reviewer.ReviewResult_Comments result) tr)).
Proof.
  unfold Review_extra_nitpicks, Stages.nitpick_stage.
  destruct (config.IsDislikedReviewer _ author); [|reflexivity].
  io_step. io_step.
  destruct (run _ _) as [nitpicks|err]; cbn [fst snd].
  - io_step. reflexivity.
  - reflexivity.
Qed.

Lemma extra_nitpicks_run r author files result tr :
  run (Review_extra_nitpicks lib world r author files result) tr
  = fold_left Review_nitpick_body
      (fst (Stages.nitpick_stage lib world r author files
              (reviewer.ReviewResult_Comments result) tr))
      result.
Proof. unfold run. now rewrite extra_nitpicks_exact. Qed.

Lemma extra_nitpicks_trace r author files result tr :
  trace_of (Review_extra_nitpicks lib world r author files result) tr
  = snd (Stages.nitpick_stage lib world r author files
           (reviewer.ReviewResult_Comments result) tr).
Proof. unfold trace_of. now rewrite extra_nitpicks_exact. Qed.

(** Publishing in a dry run: the preview, and the review as it is. *)
Lemma publish_dry_exact r ref e review tr :
  Review_publish world r ref e true review tr
  = (Ok review, (tr ++ review_preview review)%list).
Proof.
  destruct (publish_dry_preview world r ref e review tr)
    as (a & d & E & -> & ->).
  exact E.
Qed.

(** Publishing for good: one call of [PostReview], made after the line
    that announces it; its error is the error of the run. *)
Lemma publish_post_exact r ref e review tr :
  Review_publish world r ref e false review tr
  = match PostReview world (tr ++ [EvPrintln "📤 Posting review..."])%list ref
            (reviewer.ReviewResult_Summary review)
            (review_event (reviewer.ReviewResult_Comments review) e)
            (reviewer.ReviewResult_Comments review) with
    | Some err =>
        (Fail ("failed to post review: " +:+ err),
         (tr ++ [EvPrintln "📤 Posting review..."; post_event ref e review])%list)
    | None =>
        (Ok (posted_review review),
         (tr ++ [EvPrintln "📤 Posting review..."; post_event ref e review;
                 EvPrintf ("✅ Review posted with %d comments" +:+ nl)
                   [AInt (len_slice (reviewer.ReviewResult_Comments review))]])%list)
    end.
Proof.
  unfold Review_publish. cbv zeta. io_step.
  unfold github_Client_PostReview. io_step.
  rewrite run_call, trace_of_call. cbv beta.
  destruct (PostReview world _ ref _ _ _) as [err|].
  - unfold ret, post_event. now rewrite app_two.
  - io_step. unfold ret, post_event, posted_review.
    now rewrite !app_two, <- app_assoc.
Qed.

(** The pipeline is its stages. *)
Lemma pipeline_exact r ref pr files tr :
  Review_pipeline lib world r ref pr (github.PullRequest_Login pr)
    (effectiveNitpicky (reviewer.Reviewer_config r)
       (github.PullRequest_Login pr)) files tr
  = match Stages.of_pipeline lib world r ref pr files tr with
    | (Fail err, t) => (Fail err, t)
    | (Ok st, t) => (Ok (Stages.review r st), t)
    end.
Proof.
  unfold Review_pipeline, Stages.of_pipeline. cbv zeta.
  set (author := github.PullRequest_Login pr).
  set (e := effectiveNitpicky (reviewer.Reviewer_config r) author).
  assert (He : threshold e = 90 - 5 * e) by apply threshold_effective.
  io_step. io_step. rewrite app_two. io_step.
  destruct (run (Analyzer_FirstPass lib world (reviewer.Reviewer_analyzer r) files) _)
    as [firstPass|err]; [|reflexivity].
  io_step. io_step. rewrite app_two. io_step.
  rewrite !(deep_loop_run r ref pr e _ [] _ He),
          !(deep_loop_trace r ref pr e _ [] _ He).
  cbn [app].
  io_step. io_step. rewrite app_two. io_step.
  cbn [reviewer.set_Stats reviewer.set_IssuesFound reviewer.set_IssuesAfterDeep
       reviewer.set_Comments reviewer.ReviewResult_Comments
       reviewer.ReviewResult_Stats reviewer.ReviewResult_Summary
       reviewer.ReviewStats_FilesReviewed reviewer.ReviewStats_IssuesFound
       reviewer.ReviewStats_IssuesAfterDeep reviewer.ReviewStats_NitpicksAdded
       reviewer.ReviewStats_CommentsPosted].
  rewrite !format_loop_run, !format_loop_trace. cbn [app].
  io_step.
  rewrite !extra_nitpicks_run, !extra_nitpicks_trace.
  unfold ret. reflexivity.
Qed.

(** [Review] is its stages, then publishing. *)
Lemma Review_exact r prRef dryRun tr :
  Reviewer_Review lib world r prRef dryRun tr
  = match Stages.of_Review lib world r prRef tr with
    | (Fail err, t) => (Fail err, t)
    | (Ok st, t) =>
        Review_publish world r (Stages.rv_ref st) (Stages.level r st) dryRun
          (Stages.review r st) t
    end.
Proof.
  unfold Reviewer_Review, Stages.of_Review. cbv zeta.
  destruct (ParsePRReference lib prRef) as [ref|err]; [|reflexivity].
  io_step. unfold github_Client_GetPR. io_step.
  rewrite run_call, trace_of_call. cbv beta.
  destruct (GetPR world _ ref) as [pr|err]; [|reflexivity].
  io_step. io_step.
  set (cfg := reviewer.Reviewer_config r).
  set (author := github.PullRequest_Login pr).
  set (e := effectiveNitpicky cfg author).
  match goal with
  | |- context [trace_of (if ?a then ?x else if ?b then ?y else ?z) ?t] =>
      replace (trace_of (if a then x else if b then y else z) t)
        with (t ++ (if a then [EvPrintf
                                 ("💚 Author is liked - going easy (nitpicky: %d)" +:+ nl)
                                 [AInt e]]
                    else if b then [EvPrintf
                                      ("🔴 Author is disliked - extra scrutiny (nitpicky: %d)" +:+ nl)
                                      [AInt e]]
                    else []))%list
        by (destruct a; [reflexivity|destruct b;
                         [reflexivity|now rewrite app_nil_r]])
  end.
  unfold github_Client_GetPRFiles. io_step.
  rewrite run_call, trace_of_call. cbv beta.
  rewrite <- !app_assoc. cbn [app].
  destruct (GetPRFiles world _ ref) as [files|err].
  2:{ unfold ret. f_equal. }
  io_step. unfold run, trace_of. subst e author cfg.
  rewrite pipeline_exact.
  destruct (Stages.of_pipeline lib world r ref pr files _) as [[st|err] t] eqn:E;
    cbn [fst snd]; [|reflexivity].
  unfold Stages.of_pipeline in E. cbv zeta in E.
  destruct (run _ _) as [firstPass|err0] in E; [|discriminate E].
  injection E as <- <-. reflexivity.
Qed.

End ReviewExact.

(* ===================================================================== *)
(** * A defense, stage by stage                                           *)
(* ===================================================================== *)

Section DefendExact.

Context (lib : Lib) (world : World).

(** One turn of the loop over the reviewers' comments is the treatment
    of the comment, between the lines that announce it and the line that
    reports a failure. *)
Lemma comment_body_exact d fileContents total i comment acc tr :
  Defend_comment_body lib world d fileContents total i comment acc tr
  = (defense_step acc
       (comment,
        run (Stages.treat lib world d fileContents comment)
          (tr ++ Stages.defend_before total i comment)%list),
     (trace_of (Stages.treat lib world d fileContents comment)
        (tr ++ Stages.defend_before total i comment)
      ++ Stages.defend_after comment
           (run (Stages.treat lib world d fileContents comment)
              (tr ++ Stages.defend_before total i comment)%list))%list).
Proof.
  unfold Defend_comment_body, Stages.treat, Stages.defend_before,
    Stages.code_context, Stages.side_line. cbv zeta.
  io_step. io_step. rewrite app_two. io_step.
  rewrite run_bind, trace_of_bind.
  destruct (run (Defender_analyzeComment lib world d comment _) _) as [a|err].
  - fold (concedes a). unfold answer.
    destruct (concedes a) eqn:Hc; io_norm; cbn [fst snd].
    + destruct (run (Defender_generateConcession lib world d _) _)
        as [response|err]; cbn [defense_step Stages.defend_after];
        io_norm; unfold ret, count_side; rewrite Hc, ?app_nil_r; reflexivity.
    + destruct (run (Defender_generateDefense lib world d _ a) _)
        as [response|err]; cbn [defense_step Stages.defend_after];
        io_norm; unfold ret, count_side; rewrite Hc, ?app_nil_r; reflexivity.
  - io_step. reflexivity.
Qed.

(** The loop over the reviewers' comments is the stage of the comments:
    the outcomes are folded into the result by [defense_step]. *)
Lemma comment_loop_exact d fileContents comments acc tr :
  for_range (Defend_comment_body lib world d fileContents (len_slice comments))
    0 comments acc tr
  = (fold_left defense_step
       (combine comments
          (fst (Stages.stage (Stages.treat lib world d fileContents)
                  (Stages.defend_before (len_slice comments))
                  Stages.defend_after 0 comments tr)))
       acc,
     snd (Stages.stage (Stages.treat lib world d fileContents)
            (Stages.defend_before (len_slice comments))
            Stages.defend_after 0 comments tr)).
Proof.
  apply for_range_stage. intros i x acc0 tr0. apply comment_body_exact.
Qed.

Lemma comment_loop_run d fileContents comments acc tr :
  run (for_range
         (Defend_comment_body lib world d fileContents (len_slice comments))
         0 comments acc) tr
  = fold_left defense_step
      (combine comments
         (fst (Stages.stage (Stages.treat lib world d fileContents)
                 (Stages.defend_before (len_slice comments))
                 Stages.defend_after 0 comments tr)))
      acc.
Proof. unfold run. now rewrite comment_loop_exact. Qed.

Lemma comment_loop_trace d fileContents comments acc tr :
  trace_of (for_range
              (Defend_comment_body lib world d fileContents (len_slice comments))
              0 comments acc) tr
  = snd (Stages.stage (Stages.treat lib world d fileContents)
           (Stages.defend_before (len_slice comments))
           Stages.defend_after 0 comments tr).
Proof. unfold trace_of. now rewrite comment_loop_exact. Qed.

(** [Defend] is its stages, then publishing and the summary line. *)
Lemma Defend_exact d prRef dryRun tr :
  Defender_Defend lib world d prRef dryRun tr
  = match Stages.of_Defend lib world d prRef tr with
    | (Fail err, t) => (Fail err, t)
    | (Ok None, t) => (Ok defender.zero_DefenseResult, t)
    | (Ok (Some st), t) =>
        (Ok (Stages.defense st),
         (trace_of (Defend_publish world d (Stages.df_ref st) dryRun
                      (Stages.defense st)) t
          ++ [Stages.defense_summary (Stages.defense st)])%list)
    end.
Proof.
  unfold Defender_Defend, Stages.of_Defend. cbv zeta.
  destruct (ParsePRReference lib prRef) as [ref|err]; [|reflexivity].
  io_step. unfold github_Client_GetPR. io_step.
  rewrite run_call, trace_of_call. cbv beta.
  destruct (GetPR world _ ref) as [pr|err]; [|reflexivity].
  io_step.
  match goal with
  | |- context [trace_of (if ?a then ?x else ?z) ?t] =>
      replace (trace_of (if a then x else z) t)
        with (t ++ (if a then [EvPrintf
                                 ("⚠️  Warning: This PR was created by @%s, not you (@%s)" +:+ nl)
                                 [AStr (github.PullRequest_Login pr);
                                  AStr (defender.getMyUsername d)]]
                    else []))%list
        by (destruct a; [reflexivity|now rewrite app_nil_r])
  end.
  io_step. unfold github_Client_GetPRComments. io_step.
  rewrite run_call, trace_of_call. cbv beta.
  rewrite <- !app_assoc. cbn [app].
  destruct (GetPRComments world _ ref) as [comments|err].
  2:{ unfold ret. f_equal. }
  fold (reviewer_comments d comments).
  io_step.
  destruct (len_slice (reviewer_comments d comments) =? 0).
  { io_step. unfold ret. f_equal. traces. reflexivity. }
  unfold github_Client_GetPRFiles. io_step.
  rewrite run_call, trace_of_call. cbv beta.
  io_step. io_step.
  rewrite !comment_loop_run, !comment_loop_trace.
  io_step. io_step. unfold ret.
  unfold Stages.defense, Stages.defense_summary, initial_defense.
  cbn [Stages.df_ref Stages.df_comments Stages.df_outcomes].
  traces. reflexivity.
Qed.

End DefendExact.

(* ===================================================================== *)
(** * The result of a review and its stages                               *)
(* ===================================================================== *)

Lemma combine_lookup {A B} (l : list A) (k : list B) (i : nat) x y :
  combine l k !! i = Some (x, y) <-> l !! i = Some x /\ k !! i = Some y.
Proof.
  revert k i. induction l as [|a l IH]; intros [|b k] i; cbn [combine].
  - split; [discriminate|]. intros [H _]. destruct i; discriminate.
  - split; [discriminate|]. intros [H _]. destruct i; discriminate.
  - split; [discriminate|]. intros [_ H]. destruct i; discriminate.
  - destruct i as [|i]; cbn.
    + split; [intros [= <- <-]; auto|intros [[= <-] [= <-]]; reflexivity].
    + apply IH.
Qed.

Lemma In_lookup {A} (l : list A) x : In x l <-> exists i : nat, l !! i = Some x.
Proof. rewrite <- list_elem_of_In. apply list_elem_of_lookup. Qed.

(** A confirmed issue is a candidate at some position, with the outcome
    of its deep analysis at that position, which was accepted. *)
Lemma confirmed_of_lookup e issues judged ci :
  In ci (confirmed_of e (combine issues judged)) <->
  exists (k : nat) issue a,
    issues !! k = Some issue /\ judged !! k = Some (Ok a) /\
    accepted e a /\ ci = reviewer.mkAnalyzedIssue issue a.
Proof.
  rewrite confirmed_of_In. split.
  - intros (issue & a & Hin & Ha & ->).
    apply In_lookup in Hin as (k & Hk). apply combine_lookup in Hk as [Hi Hj].
    eauto 10.
  - intros (k & issue & a & Hi & Hj & Ha & ->). exists issue, a.
    split; [|auto]. apply In_lookup. exists k. now apply combine_lookup.
Qed.

(** A comment of the pipeline is made of a confirmed issue at some
    position and of the text formatted for it at that position. *)
Lemma comments_of_lookup confirmed formatted c :
  In c (comments_of (combine confirmed formatted)) <->
  exists (j : nat) ci body,
    confirmed !! j = Some ci /\ formatted !! j = Some (Ok body) /\
    c = Origin.issue_comment (reviewer.AnalyzedIssue_Original ci) body.
Proof.
  revert formatted.
  induction confirmed as [|ci0 confirmed IH]; intros [|[body0|err0] formatted];
    cbn [combine comments_of].
  - split; [intros []|]. intros (j & ci & body & H & _). destruct j; discriminate.
  - split; [intros []|]. intros (j & ci & body & H & _). destruct j; discriminate.
  - split; [intros []|]. intros (j & ci & body & H & _). destruct j; discriminate.
  - split; [intros []|]. intros (j & ci & body & _ & H & _).
    destruct j; discriminate.
  - cbn [In]. rewrite IH. split.
    + intros [<-|(j & ci & body & Hc & Hf & ->)].
      * exists 0%nat, ci0, body0. auto.
      * exists (S j), ci, body. auto.
    + intros ([|j] & ci & body & Hc & Hf & ->).
      * left. cbn in Hc, Hf. injection Hc as <-. injection Hf as <-.
        reflexivity.
      * right. exists j, ci, body. auto.
  - rewrite IH. split.
    + intros (j & ci & body & Hc & Hf & ->). exists (S j), ci, body. auto.
    + intros ([|j] & ci & body & Hc & Hf & ->).
      * cbn in Hf. discriminate.
      * exists j, ci, body. auto.
Qed.

Section ReviewStages.

Context (lib : Lib) (world : World) (r : reviewer.Reviewer).

(** What the stages of a pipeline are made of. *)
Lemma of_pipeline_stages ref pr files tr st t :
  Stages.of_pipeline lib world r ref pr files tr = (Ok st, t) ->
  Stages.rv_ref st = ref /\ Stages.rv_pr st = pr /\
  Stages.rv_files st = files /\
  length (Stages.rv_judged st) = length (Stages.rv_issues st) /\
  length (Stages.rv_formatted st) = length (Stages.confirmed r st) /\
  (config.IsDislikedReviewer (reviewer.Reviewer_config r)
     (github.PullRequest_Login pr) = false ->
   Stages.rv_nitpicks st = []).
Proof.
  unfold Stages.of_pipeline. cbv zeta.
  destruct (run _ _) as [firstPass|err]; [|discriminate].
  intros [= <- <-].
  unfold Stages.confirmed, Stages.level.
  cbn [Stages.rv_ref Stages.rv_pr Stages.rv_files Stages.rv_issues
       Stages.rv_judged Stages.rv_formatted Stages.rv_nitpicks].
  repeat split.
  - apply stage_length.
  - apply stage_length.
  - intros Hd. unfold Stages.nitpick_stage. now rewrite Hd.
Qed.

Lemma of_Review_stages prRef tr st t :
  Stages.of_Review lib world r prRef tr = (Ok st, t) ->
  ParsePRReference lib prRef = Ok (Stages.rv_ref st) /\
  length (Stages.rv_judged st) = length (Stages.rv_issues st) /\
  length (Stages.rv_formatted st) = length (Stages.confirmed r st) /\
  (config.IsDislikedReviewer (reviewer.Reviewer_config r)
     (github.PullRequest_Login (Stages.rv_pr st)) = false ->
   Stages.rv_nitpicks st = []).
Proof.
  unfold Stages.of_Review. cbv zeta.
  destruct (ParsePRReference lib prRef) as [ref|err]; [|discriminate].
  destruct (GetPR world _ ref) as [pr|err]; [|discriminate].
  destruct (GetPRFiles world _ ref) as [files|err]; [|discriminate].
  intros H. apply of_pipeline_stages in H as (-> & <- & _ & H1 & H2 & H3).
  auto.
Qed.

(** The review made of the stages: its comments and its counters. *)
Lemma review_Comments st :
  reviewer.ReviewResult_Comments (Stages.review r st)
  = (Stages.pipeline_comments r st
     ++ map nitpick_comment (Stages.rv_nitpicks st))%list.
Proof.
  unfold Stages.review. cbv zeta. cbn [reviewer.set_Summary
    reviewer.ReviewResult_Comments].
  now rewrite (proj1 (nitpick_fold _ _)).
Qed.

Lemma review_Stats st :
  reviewer.ReviewStats_IssuesFound
    (reviewer.ReviewResult_Stats (Stages.review r st))
  = len_slice (Stages.rv_issues st) /\
  reviewer.ReviewStats_IssuesAfterDeep
    (reviewer.ReviewResult_Stats (Stages.review r st))
  = len_slice (Stages.confirmed r st).
Proof.
  unfold Stages.review. cbv zeta.
  cbn [reviewer.set_Summary reviewer.ReviewResult_Stats].
  destruct (nitpick_fold (Stages.rv_nitpicks st)
              {| reviewer.ReviewResult_Summary := "";
                 reviewer.ReviewResult_Comments := Stages.pipeline_comments r st;
                 reviewer.ReviewResult_Stats :=
                   reviewer.mkReviewStats (len_slice (Stages.rv_files st))
                     (len_slice (Stages.rv_issues st))
                     (len_slice (Stages.confirmed r st)) 0 0 |})
    as (_ & Hf & Ha & _).
  split; [exact Hf|exact Ha].
Qed.

(** A result that [Review] returns is the review made of the stages of
    that run, as it is or once posted. *)
Lemma Review_returned prRef dryRun tr result :
  run (Reviewer_Review lib world r prRef dryRun) tr = Ok result ->
  exists st t,
    Stages.of_Review lib world r prRef tr = (Ok st, t) /\
    (result = Stages.review r st \/
     result = posted_review (Stages.review r st)).
Proof.
  unfold run. rewrite Review_exact.
  destruct (Stages.of_Review lib world r prRef tr) as [[st|err] t];
    [|discriminate].
  intros H. exists st, t. split; [reflexivity|].
  destruct dryRun.
  - rewrite publish_dry_exact in H. cbn in H. injection H as <-. now left.
  - rewrite publish_post_exact in H.
    destruct (PostReview world _ _ _ _ _); [discriminate|].
    cbn in H. injection H as <-. now right.
Qed.

(** Its comments and the counters of the two stages. *)
Lemma Review_returned_fields prRef dryRun tr result :
  run (Reviewer_Review lib world r prRef dryRun) tr = Ok result ->
  exists st t,
    Stages.of_Review lib world r prRef tr = (Ok st, t) /\
    reviewer.ReviewResult_Comments result
    = (Stages.pipeline_comments r st
       ++ map nitpick_comment (Stages.rv_nitpicks st))%list /\
    reviewer.ReviewStats_IssuesFound (reviewer.ReviewResult_Stats result)
    = len_slice (Stages.rv_issues st) /\
    reviewer.ReviewStats_IssuesAfterDeep (reviewer.ReviewResult_Stats result)
    = len_slice (Stages.confirmed r st).
Proof.
  intros H. apply Review_returned in H as (st & t & Hst & Hres).
  exists st, t. split; [exact Hst|].
  destruct (review_Stats st) as [Hf Ha].
  destruct Hres as [->| ->]; unfold posted_review;
    cbn [reviewer.set_Stats reviewer.set_CommentsPosted
         reviewer.ReviewResult_Comments reviewer.ReviewResult_Stats
         reviewer.ReviewStats_IssuesFound reviewer.ReviewStats_IssuesAfterDeep];
    rewrite review_Comments; auto.
Qed.

End ReviewStages.

(* ===================================================================== *)
(** * The confirmation pipeline of a run                                  *)
(* ===================================================================== *)

(** The comments of the pipeline are made one for one of a subsequence
    of the confirmed issues, each with a text. *)
Lemma comments_of_made : forall confirmed formatted,
  exists made : list (reviewer.Issue * string),
    map fst made `sublist_of` map reviewer.AnalyzedIssue_Original confirmed /\
    comments_of (combine confirmed formatted)
    = map (fun p => Origin.issue_comment (fst p) (snd p)) made.
Proof.
  induction confirmed as [|ci confirmed IH]; intros [|[body|err] formatted];
    cbn [combine comments_of map]; try (exists []; split; [apply sublist_nil_l|reflexivity]).
  - destruct (IH formatted) as (made & Hsub & ->).
    exists ((reviewer.AnalyzedIssue_Original ci, body) :: made).
    split; [now apply sublist_skip|reflexivity].
  - destruct (IH formatted) as (made & Hsub & ->).
    exists made. split; [now apply sublist_cons|reflexivity].
Qed.

Section ReviewClaims.

Context (lib : Lib) (world : World) (r : reviewer.Reviewer).

(** A result that [Review] returns, its run and the stages of that run. *)
Lemma Review_returned_run prRef dryRun tr result :
  run (Reviewer_Review lib world r prRef dryRun) tr = Ok result ->
  exists st t,
    Stages.of_Review lib world r prRef tr = (Ok st, t) /\
    Reviewer_Review lib world r prRef dryRun tr
    = Review_publish world r (Stages.rv_ref st) (Stages.level r st) dryRun
        (Stages.review r st) t /\
    reviewer.ReviewResult_Comments result
    = (Stages.pipeline_comments r st
       ++ map nitpick_comment (Stages.rv_nitpicks st))%list /\
    reviewer.ReviewStats_IssuesFound (reviewer.ReviewResult_Stats result)
    = len_slice (Stages.rv_issues st) /\
    reviewer.ReviewStats_IssuesAfterDeep (reviewer.ReviewResult_Stats result)
    = len_slice (Stages.confirmed r st) /\
    length (Stages.rv_judged st) = length (Stages.rv_issues st) /\
    length (Stages.rv_formatted st) = length (Stages.confirmed r st) /\
    (config.IsDislikedReviewer (reviewer.Reviewer_config r)
       (github.PullRequest_Login (Stages.rv_pr st)) = false ->
     Stages.rv_nitpicks st = []).
Proof.
  intros H.
  destruct (Review_returned_fields lib world r _ _ _ _ H)
    as (st & t & Hst & Hc & Hf & Ha).
  destruct (of_Review_stages lib world r _ _ _ _ Hst) as (_ & Hj & Hfm & Hn).
  exists st, t. rewrite Review_exact, Hst. auto 10.
Qed.

End ReviewClaims.

(** C1, as the code has it. In a run of [Review] that returns a result,
    every candidate of the first pass is deep-analysed, once, when the
    loop reaches it, and a candidate whose analysis succeeded is confirmed
    (kept as a confirmed issue, counted in [IssuesAfterDeep] and handed to
    the formatting of its comment) if and only if the verdict is COMMENT
    and the confidence is at least 90 - 5e, where [e] is the effective
    level for the author of the pull request and 90 - 5e is the threshold
    the program computes; nothing else is confirmed. A confirmed issue is
    turned into a review comment if and only if the formatting of its
    comment, made once when the second loop reaches it, succeeds; the
    other comments of the result are the extra nitpicks. *)
Theorem confirmed_iff_accepted (lib : Lib) (world : World)
  (r : reviewer.Reviewer) (prRef : string) (dryRun : bool) (tr : Trace) :
  match run (Reviewer_Review lib world r prRef dryRun) tr with
  | Fail _ => True
  | Ok result =>
      exists st t,
        Stages.of_Review lib world r prRef tr = (Ok st, t) /\
        Reviewer_Review lib world r prRef dryRun tr
        = Review_publish world r (Stages.rv_ref st) (Stages.level r st) dryRun
            (Stages.review r st) t /\
        let e := Stages.level r st in
        threshold e = 90 - 5 * e /\
        length (Stages.rv_judged st) = length (Stages.rv_issues st) /\
        (forall (k : nat) issue a,
            Stages.rv_issues st !! k = Some issue ->
            Stages.rv_judged st !! k = Some (Ok a) ->
            (In (reviewer.mkAnalyzedIssue issue a) (Stages.confirmed r st) <->
             reviewer.DeepAnalysisResult_FinalVerdict a = "COMMENT" /\
             reviewer.DeepAnalysisResult_Confidence a >= 90 - 5 * e)) /\
        (forall ci,
            In ci (Stages.confirmed r st) ->
            exists k : nat,
              Stages.rv_issues st !! k
              = Some (reviewer.AnalyzedIssue_Original ci) /\
              Stages.rv_judged st !! k
              = Some (Ok (reviewer.AnalyzedIssue_Analysis ci))) /\
        reviewer.ReviewStats_IssuesAfterDeep (reviewer.ReviewResult_Stats result)
        = len_slice (Stages.confirmed r st) /\
        length (Stages.rv_formatted st) = length (Stages.confirmed r st) /\
        (forall c,
            In c (Stages.pipeline_comments r st) <->
            exists (j : nat) ci body,
              Stages.confirmed r st !! j = Some ci /\
              Stages.rv_formatted st !! j = Some (Ok body) /\
              c = Origin.issue_comment (reviewer.AnalyzedIssue_Original ci) body) /\
        reviewer.ReviewResult_Comments result
        = (Stages.pipeline_comments r st
           ++ map nitpick_comment (Stages.rv_nitpicks st))%list
  end.
Proof.
  destruct (run (Reviewer_Review lib world r prRef dryRun) tr)
    as [result|err] eqn:Hrun; [|exact I].
  destruct (Review_returned_run lib world r _ _ _ _ Hrun)
    as (st & t & Hst & Hexact & Hc & Hf & Ha & Hj & Hfm & Hn).
  exists st, t. split; [exact Hst|]. split; [exact Hexact|].
  cbv zeta. split; [apply threshold_effective|]. split; [exact Hj|].
  split.
  { intros k issue a Hi Hk. unfold Stages.confirmed.
    rewrite confirmed_of_lookup. unfold accepted. split.
    - intros (k' & issue' & a' & _ & _ & [Hv Hconf] & E).
      injection E as <- <-. split; [exact Hv|lia].
    - intros [Hv Hconf]. exists k, issue, a.
      repeat split; auto. lia. }
  split.
  { intros ci Hin. unfold Stages.confirmed in Hin.
    apply confirmed_of_lookup in Hin as (k & issue & a & Hi & Hk & _ & ->).
    exists k. auto. }
  split; [exact Ha|]. split; [exact Hfm|].
  split; [|exact Hc].
  intros c. unfold Stages.pipeline_comments. apply comments_of_lookup.
Qed.

(** C1 as stated fails. A reviewer at level 8 (threshold 50), three
    candidates: the third is judged COMMENT at confidence 50, so it is
    accepted and confirmed, but the formatting of its comment fails and
    the result holds no comment for it. *)
Lemma confirmed_means_comment_counterexample :
  ~ Origin.confirmed_means_comment Fixture.lib (Fixture.world_three None)
      Fixture.strict "o/r#1" true [].
Proof.
  intros H.
  destruct (run (Reviewer_Review Fixture.lib (Fixture.world_three None)
                   Fixture.strict "o/r#1" true) []) as [result|err] eqn:Hrun;
    [|vm_compute in Hrun; discriminate Hrun].
  destruct (H result Hrun) as (st & t & Hst & Hiff).
  vm_compute in Hst. injection Hst as <- <-.
  vm_compute in Hrun. injection Hrun as <-.
  destruct (proj2 (Hiff 2%nat Fixture.issue3
                     (reviewer.mkDeepAnalysisResult true 50 "r" "" "COMMENT")
                     eq_refl eq_refl))
    as (c & Hin & Hplace).
  { split; [reflexivity|]. vm_compute. discriminate. }
  destruct Hin as [<-|[]]. discriminate Hplace.
Qed.

(** C6. In a run of [Review] that returns a result, the candidates of
    the first pass are taken one by one, in order, and each gets one
    outcome; the confirmed issues, in number [IssuesAfterDeep], are made
    of a subsequence of the candidates, in number [IssuesFound], in the
    order of the candidates, so that [IssuesAfterDeep <= IssuesFound]; the
    comments of the result are, first, comments made one for one of a
    subsequence of the confirmed issues, hence of the candidates, in
    order (a candidate contributes one comment at most), then the extra
    nitpicks. *)
Theorem confirmed_subsequence (lib : Lib) (world : World)
  (r : reviewer.Reviewer) (prRef : string) (dryRun : bool) (tr : Trace) :
  match run (Reviewer_Review lib world r prRef dryRun) tr with
  | Fail _ => True
  | Ok result =>
      let stats := reviewer.ReviewResult_Stats result in
      exists st t,
        Stages.of_Review lib world r prRef tr = (Ok st, t) /\
        Reviewer_Review lib world r prRef dryRun tr
        = Review_publish world r (Stages.rv_ref st) (Stages.level r st) dryRun
            (Stages.review r st) t /\
        length (Stages.rv_judged st) = length (Stages.rv_issues st) /\
        reviewer.ReviewStats_IssuesFound stats
        = len_slice (Stages.rv_issues st) /\
        reviewer.ReviewStats_IssuesAfterDeep stats
        = len_slice (Stages.confirmed r st) /\
        map reviewer.AnalyzedIssue_Original (Stages.confirmed r st)
          `sublist_of` Stages.rv_issues st /\
        reviewer.ReviewStats_IssuesAfterDeep stats
        <= reviewer.ReviewStats_IssuesFound stats /\
        exists made : list (reviewer.Issue * string),
          map fst made
            `sublist_of` map reviewer.AnalyzedIssue_Original
                           (Stages.confirmed r st) /\
          map fst made `sublist_of` Stages.rv_issues st /\
          reviewer.ReviewResult_Comments result
          = (map (fun p => Origin.issue_comment (fst p) (snd p)) made
             ++ map nitpick_comment (Stages.rv_nitpicks st))%list
  end.
Proof.
  destruct (run (Reviewer_Review lib world r prRef dryRun) tr)
    as [result|err] eqn:Hrun; [|exact I].
  destruct (Review_returned_run lib world r _ _ _ _ Hrun)
    as (st & t & Hst & Hexact & Hc & Hf & Ha & Hj & Hfm & Hn).
  cbv zeta. exists st, t.
  assert (Hsub : map reviewer.AnalyzedIssue_Original (Stages.confirmed r st)
                   `sublist_of` Stages.rv_issues st)
    by apply confirmed_of_sublist.
  assert (Hle := len_slice_sublist _ _ Hsub). rewrite len_slice_map in Hle.
  destruct (comments_of_made (Stages.confirmed r st) (Stages.rv_formatted st))
    as (made & Hmade & Hcs).
  repeat (split; [first [assumption|lia]|]).
  exists made. split; [exact Hmade|].
  split; [now transitivity (map reviewer.AnalyzedIssue_Original
                              (Stages.confirmed r st))|].
  rewrite Hc. unfold Stages.pipeline_comments. now rewrite Hcs.
Qed.

(** C3, as the code has it. Every comment of a result of [Review] either
    went through both stages of that run (it is made of a candidate of the
    first pass of the run, which the deep analysis of the run judged and
    accepted at the level of the author of the pull request, and of the
    text the run formatted for it) or is an extra nitpick that the run
    generated, which happens only for a pull request whose author is a
    disliked reviewer; for any other author every comment went through
    both stages. *)
Theorem comments_two_stage_or_nitpick (lib : Lib) (world : World)
  (r : reviewer.Reviewer) (prRef : string) (dryRun : bool) (tr : Trace) :
  match run (Reviewer_Review lib world r prRef dryRun) tr with
  | Fail _ => True
  | Ok result =>
      exists st t,
        Stages.of_Review lib world r prRef tr = (Ok st, t) /\
        Reviewer_Review lib world r prRef dryRun tr
        = Review_publish world r (Stages.rv_ref st) (Stages.level r st) dryRun
            (Stages.review r st) t /\
        reviewer.ReviewResult_Comments result
        = (Stages.pipeline_comments r st
           ++ map nitpick_comment (Stages.rv_nitpicks st))%list /\
        (forall c, In c (Stages.pipeline_comments r st) ->
                   Origin.two_stage_origin r st c) /\
        (forall c, In c (reviewer.ReviewResult_Comments result) ->
                   Origin.two_stage_origin r st c \/
                   Origin.extra_nitpick r st c) /\
        (config.IsDislikedReviewer (reviewer.Reviewer_config r)
           (github.PullRequest_Login (Stages.rv_pr st)) = false ->
         forall c, In c (reviewer.ReviewResult_Comments result) ->
                   Origin.two_stage_origin r st c)
  end.
Proof.
  destruct (run (Reviewer_Review lib world r prRef dryRun) tr)
    as [result|err] eqn:Hrun; [|exact I].
  destruct (Review_returned_run lib world r _ _ _ _ Hrun)
    as (st & t & Hst & Hexact & Hc & Hf & Ha & Hj & Hfm & Hn).
  exists st, t. split; [exact Hst|]. split; [exact Hexact|].
  split; [exact Hc|].
  assert (Htwo : forall c, In c (Stages.pipeline_comments r st) ->
                           Origin.two_stage_origin r st c).
  { intros c Hin. unfold Stages.pipeline_comments in Hin.
    apply comments_of_lookup in Hin as (j & ci & body & Hci & Hbody & ->).
    assert (Hin : In ci (Stages.confirmed r st))
      by (apply In_lookup; eauto).
    unfold Stages.confirmed in Hin.
    apply confirmed_of_lookup in Hin as (k & issue & a & Hi & Hk & Hacc & ->).
    exists k, j, issue, a, body. auto 10. }
  split; [exact Htwo|]. split.
  - intros c Hin. rewrite Hc in Hin. apply in_app_or in Hin as [Hin|Hin].
    + left. now apply Htwo.
    + right. apply in_map_iff in Hin as (np & <- & Hnp).
      split; [|eauto].
      destruct (config.IsDislikedReviewer _ _) eqn:Hd; [reflexivity|].
      rewrite (Hn eq_refl) in Hnp. destruct Hnp.
  - intros Hd c Hin. rewrite Hc, (Hn Hd) in Hin. cbn [map] in Hin.
    rewrite app_nil_r in Hin. now apply Htwo.
Qed.

(** C3 as stated fails: for a disliked author, a first pass without any
    candidate and one extra nitpick give a result with one comment, which
    is made of no candidate. *)
Lemma every_comment_two_stage_counterexample :
  ~ Origin.every_comment_two_stage Fixture.lib Fixture.world_nitpick_only
      Fixture.hostile "o/r#1" true [].
Proof.
  intros H.
  destruct (run (Reviewer_Review Fixture.lib Fixture.world_nitpick_only
                   Fixture.hostile "o/r#1" true) []) as [result|err] eqn:Hrun;
    [|vm_compute in Hrun; discriminate Hrun].
  destruct (H result Hrun) as (st & t & Hst & Hall).
  vm_compute in Hst. injection Hst as <- <-.
  vm_compute in Hrun. injection Hrun as <-.
  destruct (Hall (nitpick_comment Fixture.nitpick1) (or_introl eq_refl))
    as (k & j & issue & a & body & Hi & _).
  destruct k; discriminate Hi.
Qed.

(* ===================================================================== *)
(** * Failures of single items, in the loops and in the runs              *)
(* ===================================================================== *)

Lemma Review_error lib world r prRef dryRun tr err :
  run (Reviewer_Review lib world r prRef dryRun) tr = Fail err ->
  ParsePRReference lib prRef = Fail err \/
  (exists ref tr0, GetPR world tr0 ref = Fail err) \/
  (exists ref tr0, GetPRFiles world tr0 ref = Fail err) \/
  (exists files tr0 e1,
      run (Analyzer_FirstPass lib world (reviewer.Reviewer_analyzer r) files) tr0
      = Fail e1 /\ err = "first pass failed: " +:+ e1) \/
  (dryRun = false /\
   exists ref body event comments tr0 e1,
     PostReview world tr0 ref body event comments = Some e1 /\
     err = "failed to post review: " +:+ e1).
Proof.
  intros Hrun. destruct (Review_run lib world r prRef dryRun tr) as (d & _ & Ho).
  rewrite Hrun in Ho. inversion Ho; subst.
  - now left.
  - right. left. eauto.
  - right. right. left. eauto.
  - right. right. right. left. eauto.
  - right. right. right. right. split; [reflexivity|]. eauto 10.
Qed.

Lemma Defend_error lib world d prRef dryRun tr err :
  run (Defender_Defend lib world d prRef dryRun) tr = Fail err ->
  ParsePRReference lib prRef = Fail err \/
  (exists ref tr0, GetPR world tr0 ref = Fail err) \/
  (exists ref tr0, GetPRComments world tr0 ref = Fail err).
Proof.
  intros Hrun. destruct (Defend_run lib world d prRef dryRun tr) as (dl & _ & Ho).
  rewrite Hrun in Ho. inversion Ho; subst.
  - now left.
  - right. left. eauto.
  - right. right. eauto.
Qed.

Section ItemFailures.

Context (lib : Lib) (world : World).

(** A turn of the deep-analysis loop whose analysis fails. *)
Lemma deep_body_failed r ref pr e total i issue acc tr err :
  run (Analyzer_DeepAnalyze lib world (reviewer.Reviewer_analyzer r) issue ref pr)
    (tr ++ Stages.deep_before total i issue)%list = Fail err ->
  Review_deep_body lib world r ref pr e total i issue acc tr
  = (acc,
     (trace_of (Analyzer_DeepAnalyze lib world (reviewer.Reviewer_analyzer r)
                  issue ref pr)
        (tr ++ Stages.deep_before total i issue)
      ++ [EvPrintf ("      ⚠️  Deep analysis failed: %v" +:+ nl) [AStr err]])%list).
Proof.
  intros Hfail. unfold Review_deep_body. unfold Stages.deep_before in *.
  io_step. io_step. rewrite Hfail. io_step. reflexivity.
Qed.

(** A turn of the formatting loop whose call fails. *)
Lemma format_body_failed r i ci acc tr err :
  run (Reviewer_formatComment lib world r ci) tr = Fail err ->
  Review_format_body lib world r i ci acc tr
  = (acc,
     (trace_of (Reviewer_formatComment lib world r ci) tr
      ++ [EvPrintf ("   ⚠️  Failed to format comment: %v" +:+ nl) [AStr err]])%list).
Proof.
  intros Hfail. unfold Review_format_body.
  io_step. rewrite Hfail. io_step. reflexivity.
Qed.

(** The treatment of a comment whose analysis fails. *)
Lemma treat_analysis_failed d fileContents comment tr err :
  run (Defender_analyzeComment lib world d comment
         (Stages.code_context fileContents comment)) tr = Fail err ->
  run (Stages.treat lib world d fileContents comment) tr
  = AnalysisFailed err /\
  trace_of (Stages.treat lib world d fileContents comment) tr
  = trace_of (Defender_analyzeComment lib world d comment
                (Stages.code_context fileContents comment)) tr.
Proof.
  intros Hfail. unfold Stages.treat.
  rewrite run_bind, trace_of_bind, Hfail. split; reflexivity.
Qed.

(** The treatment of a comment whose response cannot be generated. *)
Lemma treat_response_failed d fileContents comment tr a err :
  run (Defender_analyzeComment lib world d comment
         (Stages.code_context fileContents comment)) tr = Ok a ->
  run (answer lib world d comment a)
    (trace_of (Defender_analyzeComment lib world d comment
                 (Stages.code_context fileContents comment)) tr
     ++ [Stages.side_line a])%list = Fail err ->
  run (Stages.treat lib world d fileContents comment) tr
  = ResponseFailed a err /\
  trace_of (Stages.treat lib world d fileContents comment) tr
  = trace_of (answer lib world d comment a)
      (trace_of (Defender_analyzeComment lib world d comment
                   (Stages.code_context fileContents comment)) tr
       ++ [Stages.side_line a])%list.
Proof.
  intros Han Hfail. unfold Stages.treat.
  rewrite run_bind, trace_of_bind, Han.
  rewrite run_bind, trace_of_bind, trace_of_call.
  rewrite run_bind, trace_of_bind, Hfail. split; reflexivity.
Qed.

End ItemFailures.

(** The responses of a defense are those of the comments treated with
    success, in order. *)
Lemma defense_Responses st :
  defender.DefenseResult_Responses (Stages.defense st)
  = responses_of (combine (Stages.df_comments st) (Stages.df_outcomes st)).
Proof. unfold Stages.defense. now rewrite defense_fold_Responses. Qed.

(** C4. In the three per-item loops an item is handled by one call, or by
    two for a reviewer comment, made when the loop reaches the item, and a
    call that fails makes the loop go on with the remaining items, after
    the line that reports the failure: with the confirmed issues as they
    were when the deep analysis of a candidate fails; with the comments as
    they were when the formatting of a confirmed issue fails; in defense
    mode with one more skipped comment and nothing else changed when the
    analysis of a comment fails, and with the responses as they were, one
    more skipped comment and also one more conceded or defended comment
    (the side is counted before the response is generated) when the
    generation of the response fails. [Review] and [Defend] run these
    loops on the candidates of the first pass, the confirmed issues and
    the comments of the reviewers: a run is its stages, each item handled
    once at its moment, followed by publishing; whatever items fail, a dry
    run that has passed the first pass returns the review, and a defense
    with a comment to answer returns its result. A run of [Review] returns
    an error only for the reference, the pull request, its files, the
    first pass or the posting; a run of [Defend] only for the reference,
    the pull request or its comments. *)
Theorem log_and_skip (lib : Lib) (world : World) :
  (forall r ref pr e total i issue rest acc tr err,
      let m := Analyzer_DeepAnalyze lib world (reviewer.Reviewer_analyzer r)
                 issue ref pr in
      let start := (tr ++ Stages.deep_before total i issue)%list in
      run m start = Fail err ->
      for_range (Review_deep_body lib world r ref pr e total) i
        (issue :: rest) acc tr
      = for_range (Review_deep_body lib world r ref pr e total) (i + 1)
          rest acc
          (trace_of m start
           ++ [EvPrintf ("      ⚠️  Deep analysis failed: %v" +:+ nl)
                 [AStr err]])%list) /\
  (forall r i ci rest acc tr err,
      let m := Reviewer_formatComment lib world r ci in
      run m tr = Fail err ->
      for_range (Review_format_body lib world r) i (ci :: rest) acc tr
      = for_range (Review_format_body lib world r) (i + 1) rest acc
          (trace_of m tr
           ++ [EvPrintf ("   ⚠️  Failed to format comment: %v" +:+ nl)
                 [AStr err]])%list) /\
  (forall d fileContents total i comment rest acc tr err,
      let m := Defender_analyzeComment lib world d comment
                 (Stages.code_context fileContents comment) in
      let start := (tr ++ Stages.defend_before total i comment)%list in
      run m start = Fail err ->
      for_range (Defend_comment_body lib world d fileContents total) i
        (comment :: rest) acc tr
      = for_range (Defend_comment_body lib world d fileContents total) (i + 1)
          rest (defender.incr_Skipped acc)
          (trace_of m start
           ++ [EvPrintf ("   ⚠️  Analysis failed: %v" +:+ nl) [AStr err]])%list) /\
  (forall d fileContents total i comment rest acc tr a err,
      let m := Defender_analyzeComment lib world d comment
                 (Stages.code_context fileContents comment) in
      let start := (tr ++ Stages.defend_before total i comment)%list in
      let respond := answer lib world d comment a in
      let side := (trace_of m start ++ [Stages.side_line a])%list in
      run m start = Ok a ->
      run respond side = Fail err ->
      for_range (Defend_comment_body lib world d fileContents total) i
        (comment :: rest) acc tr
      = for_range (Defend_comment_body lib world d fileContents total) (i + 1)
          rest
          (defender.incr_Skipped
             (if concedes a then defender.incr_Conceded acc
              else defender.incr_Defended acc))
          (trace_of respond side
           ++ [EvPrintf ("   ⚠️  Response generation failed: %v" +:+ nl)
                 [AStr err]])%list /\
      defender.DefenseResult_Responses
        (defender.incr_Skipped
           (if concedes a then defender.incr_Conceded acc
            else defender.incr_Defended acc))
      = defender.DefenseResult_Responses acc) /\
  (forall r prRef dryRun tr,
      match Stages.of_Review lib world r prRef tr with
      | (Fail err, t) =>
          Reviewer_Review lib world r prRef dryRun tr = (Fail err, t)
      | (Ok st, t) =>
          Reviewer_Review lib world r prRef dryRun tr
          = Review_publish world r (Stages.rv_ref st) (Stages.level r st)
              dryRun (Stages.review r st) t /\
          (dryRun = true ->
           Reviewer_Review lib world r prRef dryRun tr
           = (Ok (Stages.review r st),
              (t ++ review_preview (Stages.review r st))%list)) /\
          reviewer.ReviewStats_IssuesAfterDeep
            (reviewer.ReviewResult_Stats (Stages.review r st))
          = len_slice (Stages.confirmed r st) /\
          reviewer.ReviewResult_Comments (Stages.review r st)
          = (comments_of (combine (Stages.confirmed r st)
                            (Stages.rv_formatted st))
             ++ map nitpick_comment (Stages.rv_nitpicks st))%list
      end) /\
  (forall d prRef dryRun tr,
      match Stages.of_Defend lib world d prRef tr with
      | (Fail err, t) =>
          Defender_Defend lib world d prRef dryRun tr = (Fail err, t)
      | (Ok None, t) =>
          Defender_Defend lib world d prRef dryRun tr
          = (Ok defender.zero_DefenseResult, t)
      | (Ok (Some st), t) =>
          Defender_Defend lib world d prRef dryRun tr
          = (Ok (Stages.defense st),
             (trace_of (Defend_publish world d (Stages.df_ref st) dryRun
                          (Stages.defense st)) t
              ++ [Stages.defense_summary (Stages.defense st)])%list) /\
          defender.DefenseResult_Responses (Stages.defense st)
          = responses_of (combine (Stages.df_comments st)
                            (Stages.df_outcomes st))
      end) /\
  (forall r prRef dryRun tr err,
      run (Reviewer_Review lib world r prRef dryRun) tr = Fail err ->
      ParsePRReference lib prRef = Fail err \/
      (exists ref tr0, GetPR world tr0 ref = Fail err) \/
      (exists ref tr0, GetPRFiles world tr0 ref = Fail err) \/
      (exists files tr0 e1,
          run (Analyzer_FirstPass lib world (reviewer.Reviewer_analyzer r)
                 files) tr0 = Fail e1 /\
          err = "first pass failed: " +:+ e1) \/
      (dryRun = false /\
       exists ref body event comments tr0 e1,
         PostReview world tr0 ref body event comments = Some e1 /\
         err = "failed to post review: " +:+ e1)) /\
  (forall d prRef dryRun tr err,
      run (Defender_Defend lib world d prRef dryRun) tr = Fail err ->
      ParsePRReference lib prRef = Fail err \/
      (exists ref tr0, GetPR world tr0 ref = Fail err) \/
      (exists ref tr0, GetPRComments world tr0 ref = Fail err)).
Proof.
  split.
  { intros r ref pr e total i issue rest acc tr err m start Hfail.
    cbn [for_range]. rewrite bind_run. unfold run at 1, trace_of at 1.
    now rewrite (deep_body_failed lib world r ref pr e total i issue acc tr err Hfail). }
  split.
  { intros r i ci rest acc tr err m Hfail.
    cbn [for_range]. rewrite bind_run. unfold run at 1, trace_of at 1.
    now rewrite (format_body_failed lib world r i ci acc tr err Hfail). }
  split.
  { intros d fileContents total i comment rest acc tr err m start Hfail.
    subst m start.
    destruct (treat_analysis_failed lib world d fileContents comment _ err Hfail)
      as [Hr Ht].
    cbn [for_range]. rewrite bind_run. unfold run at 1, trace_of at 1.
    rewrite comment_body_exact. cbn [fst snd]. rewrite Hr, Ht.
    reflexivity. }
  split.
  { intros d fileContents total i comment rest acc tr a err m start respond
      side Han Hfail.
    subst m start respond side.
    destruct (treat_response_failed lib world d fileContents comment _ a err
                Han Hfail) as [Hr Ht].
    split.
    - cbn [for_range]. rewrite bind_run. unfold run at 1, trace_of at 1.
      rewrite comment_body_exact. cbn [fst snd]. rewrite Hr, Ht.
      reflexivity.
    - destruct (concedes a); reflexivity. }
  split.
  { intros r prRef dryRun tr. rewrite Review_exact.
    destruct (Stages.of_Review lib world r prRef tr) as [[st|err] t];
      [|reflexivity].
    split; [reflexivity|]. split.
    - intros ->. apply publish_dry_exact.
    - split; [apply review_Stats|apply review_Comments]. }
  split.
  { intros d prRef dryRun tr. rewrite Defend_exact.
    destruct (Stages.of_Defend lib world d prRef tr) as [[[st|]|err] t];
      try reflexivity.
    split; [reflexivity|apply defense_Responses]. }
  split; [apply Review_error|apply Defend_error].
Qed.

(** The four failures, each on the first of two items: with a chat
    service that never answers, the deep analysis of a candidate, the
    formatting of a confirmed issue and the analysis of a reviewer comment
    fail; with one that answers once, the analysis of a comment succeeds
    and the generation of its response fails. *)
Lemma log_and_skip_witness :
  let silent := Fixture.world "bob" [] None in
  let once := Fixture.world "me" [Fixture.say "{defend}"] None in
  let pr := github.mkPullRequest "bob" "title" "sha" in
  let a := reviewer.mkDeepAnalysisResult true 90 "r" "" "COMMENT" in
  let ci := reviewer.mkAnalyzedIssue Fixture.issue1 a in
  run (for_range
         (Review_deep_body Fixture.lib silent Fixture.strict Fixture.ref1 pr 8 2)
         0 [Fixture.issue1; Fixture.issue2] []) [] = [] /\
  run (for_range (Review_format_body Fixture.lib silent Fixture.strict)
         0 [ci; ci] []) [] = [] /\
  defender.DefenseResult_Stats
    (run (for_range (Defend_comment_body Fixture.lib silent Fixture.me ∅ 1)
            0 [Fixture.comment1] (initial_defense 1)) [])
  = defender.mkDefenseStats 1 0 0 1 /\
  defender.DefenseResult_Stats
    (run (for_range (Defend_comment_body Fixture.lib once Fixture.me ∅ 1)
            0 [Fixture.comment1] (initial_defense 1)) [])
  = defender.mkDefenseStats 1 1 0 1.
Proof.
  intros silent once pr a ci.
  destruct (log_and_skip Fixture.lib silent) as (Hdeep & Hformat & Han & _).
  destruct (log_and_skip Fixture.lib once) as (_ & _ & _ & Hresp & _).
  split; [|split; [|split]].
  - unfold run.
    rewrite (Hdeep Fixture.strict Fixture.ref1 pr 8 2 0 Fixture.issue1
               [Fixture.issue2] [] []
               "AI deep analysis failed: failed to send request: EOF");
      [|vm_compute; reflexivity].
    vm_compute. reflexivity.
  - unfold run.
    rewrite (Hformat Fixture.strict 0 ci [ci] [] []
               "failed to send request: EOF");
      [|vm_compute; reflexivity].
    vm_compute. reflexivity.
  - unfold run.
    rewrite (Han Fixture.me ∅ 1 0 Fixture.comment1 [] (initial_defense 1) []
               "failed to send request: EOF");
      [|vm_compute; reflexivity].
    reflexivity.
  - unfold run.
    rewrite (proj1 (Hresp Fixture.me ∅ 1 0 Fixture.comment1 []
                      (initial_defense 1) []
                      (defender.mkCommentAnalysis false 20 ["p"] "m" "DEFEND")
                      "failed to send request: EOF" eq_refl eq_refl)).
    reflexivity.
Defined.

(* ===================================================================== *)
(** * The chat-completion client, call by call                            *)
(* ===================================================================== *)

(** C7. A call of [ChatWithOptions], and so a call of [Chat], which is
    [ChatWithOptions] at temperature 0.7 and 4096 tokens, returns the
    client it was called on. What it sends is fixed by the client, the
    messages, the temperature and the token limit: when the request cannot
    be encoded or its URL is refused, nothing is sent, in any state of the
    outside, and the error is the one of the encoder or of the URL;
    otherwise every call sends one and the same request, whose body is the
    encoded request. What it returns is then fixed by the answer to that
    request: the content of the first choice when the response body
    decodes to a response without an error field and with a choice, and
    otherwise the error of the transport, of reading the body, of decoding
    it, of the error field, or of the missing choices. Hence two calls
    that receive the same answer, in particular the same response body,
    return the same result. *)
Theorem chat_stateless (lib : Lib) (c : ai.Client) (messages : list ai.Message)
  (temperature : float) (maxTokens : int) :
  let url := ai.Client_baseURL c +:+ "/chat/completions" in
  let call1 world := ai_Client_ChatWithOptions lib world c messages temperature
                       maxTokens in
  (forall world,
      ai_Client_Chat lib world c messages
      = ai_Client_ChatWithOptions lib world c messages
          0x1.6666666666666p-1%float 4096) /\
  (forall world tr, fst (run (call1 world) tr) = c) /\
  match json_Marshal_ChatRequest lib
          (ai.mkChatRequest (ai.Client_model c) messages temperature maxTokens),
        url_error lib url with
  | Fail err, _ =>
      forall world tr,
        call1 world tr = ((c, Fail ("failed to marshal request: " +:+ err)), tr)
  | Ok _, Some err =>
      forall world tr,
        call1 world tr = ((c, Fail ("failed to create request: " +:+ err)), tr)
  | Ok body, None =>
      let req :=
        http.mkRequest "POST" url
          [("Content-Type", "application/json");
           ("Authorization", "Bearer " +:+ ai.Client_apiKey c)] body in
      (forall world tr,
          trace_of (call1 world) tr
          = (tr ++ [EvHTTPDo (ai.Client_httpClient c) req])%list /\
          snd (run (call1 world) tr)
          = match http_Do world tr (ai.Client_httpClient c) req with
            | Fail err => Fail ("failed to send request: " +:+ err)
            | Ok (Fail err) => Fail ("failed to read response: " +:+ err)
            | Ok (Ok respBody) =>
                match json_Unmarshal_ChatResponse lib respBody with
                | Fail err =>
                    Fail ("failed to parse response: " +:+ err +:+
                          " (body: " +:+ respBody +:+ ")")
                | Ok resp =>
                    match ai.ChatResponse_Error resp,
                          ai.ChatResponse_Choices resp with
                    | Some e, _ =>
                        Fail ("API error: " +:+ ai.APIError_Message e +:+
                              " (type: " +:+ ai.APIError_Type e +:+ ")")
                    | None, [] => Fail "no choices in response"
                    | None, choice :: _ =>
                        Ok (ai.Message_Content (ai.Choice_Message choice))
                    end
                end
            end) /\
      (forall world1 tr1 world2 tr2,
          http_Do world1 tr1 (ai.Client_httpClient c) req
          = http_Do world2 tr2 (ai.Client_httpClient c) req ->
          run (call1 world1) tr1 = run (call1 world2) tr2)
  end.
Proof.
  cbv zeta. split; [reflexivity|].
  assert (Hshape : forall world tr,
    ai_Client_ChatWithOptions lib world c messages temperature maxTokens tr
    = match json_Marshal_ChatRequest lib
              (ai.mkChatRequest (ai.Client_model c) messages temperature
                 maxTokens),
            url_error lib (ai.Client_baseURL c +:+ "/chat/completions") with
      | Fail err, _ =>
          ((c, Fail ("failed to marshal request: " +:+ err)), tr)
      | Ok _, Some err =>
          ((c, Fail ("failed to create request: " +:+ err)), tr)
      | Ok body, None =>
          ((c,
            match http_Do world tr (ai.Client_httpClient c)
                    (http.mkRequest "POST"
                       (ai.Client_baseURL c +:+ "/chat/completions")
                       [("Content-Type", "application/json");
                        ("Authorization", "Bearer " +:+ ai.Client_apiKey c)]
                       body) with
            | Fail err => Fail ("failed to send request: " +:+ err)
            | Ok (Fail err) => Fail ("failed to read response: " +:+ err)
            | Ok (Ok respBody) =>
                match json_Unmarshal_ChatResponse lib respBody with
                | Fail err =>
                    Fail ("failed to parse response: " +:+ err +:+
                          " (body: " +:+ respBody +:+ ")")
                | Ok resp =>
                    match ai.ChatResponse_Error resp,
                          ai.ChatResponse_Choices resp with
                    | Some e, _ =>
                        Fail ("API error: " +:+ ai.APIError_Message e +:+
                              " (type: " +:+ ai.APIError_Type e +:+ ")")
                    | None, [] => Fail "no choices in response"
                    | None, choice :: _ =>
                        Ok (ai.Message_Content (ai.Choice_Message choice))
                    end
                end
            end),
           (tr ++ [EvHTTPDo (ai.Client_httpClient c)
                     (http.mkRequest "POST"
                        (ai.Client_baseURL c +:+ "/chat/completions")
                        [("Content-Type", "application/json");
                         ("Authorization", "Bearer " +:+ ai.Client_apiKey c)]
                        body)])%list)
      end).
  { intros world tr.
    unfold ai_Client_ChatWithOptions, http_NewRequest. cbv zeta.
    destruct (json_Marshal_ChatRequest lib _) as [body|err]; [|reflexivity].
    destruct (url_error lib _) as [err|]; [reflexivity|].
    unfold bind, call, http.Request_set_header. cbn.
    destruct (http_Do world tr _ _) as [[respBody|err]|err]; try reflexivity.
    destruct (json_Unmarshal_ChatResponse lib respBody) as [resp|err];
      [|reflexivity].
    destruct (ai.ChatResponse_Error resp); [reflexivity|].
    destruct (ai.ChatResponse_Choices resp); reflexivity. }
  split.
  { intros world tr. unfold run. rewrite Hshape.
    destruct (json_Marshal_ChatRequest lib _) as [body|err]; [|reflexivity].
    destruct (url_error lib _); reflexivity. }
  destruct (json_Marshal_ChatRequest lib _) as [body|err].
  2:{ intros world tr. apply Hshape. }
  destruct (url_error lib _) as [err|].
  { intros world tr. apply Hshape. }
  split.
  - intros world tr. unfold trace_of, run. rewrite Hshape.
    split; reflexivity.
  - intros world1 tr1 world2 tr2 Heq. unfold run.
    rewrite !Hshape. cbn [fst]. now rewrite Heq.
Qed.
